(* ===== verification/_CoqProject ===== *)
-Q . S2P
Prelude.v
Codec.v
MemPool.v
MemPoolSafety.v
PoolDelete.v
PoolCounts.v
PoolDump.v
PoolTest.v
PoolApi.v
Buffer.v
Message.v
NetWorker.v
RecvProofs.v
SendProofs.v
Delivery.v
ProtoBuf.v
SendRace.v
Hash.v
Locks.v
FsIo.v
FileUtils.v
RaftLog.v
Queues.v
Timer.v
PoolWait.v
ServerConf.v
Node.v
WorkerManager.v
EventLoop.v
Handlers.v
Duplex.v
Handshake.v
LoopSafety.v
Sockets.v
SocketService.v
NetTest.v
Rpc.v
NodeRpc.v
NodeBoot.v
RpcTrip.v
SkipList.v
SegVector.v
Daemon.v
UnitTests.v
