(* ===== verification/Prelude.v ===== *)
(** * ccraft: a verification library

    ccraft (src/src) is a raft server in C++: a memory pool and other system
    wrappers ([ccsys]), shared helpers ([common]), a non-blocking message layer
    over TCP ([net]), an rpc layer over messages ([rpc]), file access ([fsio]),
    a log on disk ([server/rflog]) and the services of a node ([server/node]).
    A request travels down as follows: the node's messenger asks an rpc client,
    which builds a [SndMessage] and gives it to the socket service; the service
    finds the worker of the peer in the worker manager and queues the message
    there; the worker encodes it into a pool buffer and writes it to the
    socket.  The peer's worker reassembles the bytes and hands a
    [NotifyMessage] up to the messenger, which passes it to the rpc server or
    a client.  This library translates these parts into executable functions
    and step relations and proves what makes them correct; where the code does
    not do what it means to, a theorem says what it does instead.

    ** Conventions

    A w-bit integer is a [Z] and the wrap-around of its type is written out;
    where a signed operation can overflow, [checked] makes that undefined.
    Memory is a [gmap Z Z] from addresses to bytes; an address without a byte
    is not accessible.  A computation returns an [outcome]: [Ret], [Throw] (a
    C++ exception), [Abort] (the process ends, or a wait that nobody can end)
    or [Undef] (undefined behaviour).  Library code the program only calls is
    an argument: [posix_memalign], the iteration order of unordered
    containers, protobuf ([ProtoMsg], [EntryProto], [StateProto]), the clock,
    the random engine, rpc handlers and timer callbacks, and the operator that
    deletes a node of the skip list.  The kernel's answers
    to read, write, lseek, mmap and fsync are scripts or records over which
    the theorems quantify.

    ** Files and what they model

    - Prelude: machine integers, outcomes, memory, [rtc_invariant].
    - Codec: common/codec-utils.  The class [ByteOrderUtils] with its laws is
      the interface the message code uses; both host byte orders implement it.
    - MemPool: ccsys/mem-pool ([Get], [Put], page expansion and release, tiny,
      small, big and bulk objects, destructor).  MemPoolSafety: its invariant
      and safety.  PoolDelete: the destructor.  PoolCounts: the counters and
      what a pool retains.  PoolDump: [DumpDebugInfo].  PoolTest: the test of
      the pool in unit-test/ccsys.  PoolApi: the class [MemPoolApi]/[MemPoolLaws], what the
      clients of a pool rely on, with the proof that MemPool keeps the laws;
      [world] is a client's memory, pool and set of arrays made by new.
    - Buffer, Message: common/buffer, net/message, net/snd-message,
      net/rcv-message, rpc/request, rpc/response and the handshake messages.
      ProtoBuf: common/protobuf-utils.
    - NetWorker: posix/tcp/net-stack-worker and its base class: [Recv], [Send],
      [Initialize] and the handshake over a socket script.  RecvProofs,
      SendProofs, Delivery: reassembly, sending in order, end-to-end delivery.
      Handlers: connection-event-handler and one event of a connection.
      Duplex: both directions of a connection over any sequence of events.
      Handshake: the establishment of a connection, on both of its ends.
      SendRace: the threads of [SendMessage] and the worker in [Send] as one
      step system over the queue of a connection.
    - Hash: common/hash-algorithms (MurmurHash3).
    - Locks: ccsys/spin-lock and rw-mutex, common/reference-counter and the
      atomic macros; the spin lock is a step relation over many threads.
    - FsIo: fsio/io-utils.  FileUtils: fsio/file-utils over a tree of paths.
      RaftLog: server/rflog/realtime-disk-rflogger.
    - Queues: common/blocking-queue and ccsys/thread-pool as step relations.
      PoolWait: the waits of a client of the thread pool against its workers.
    - Timer: ccsys/cctime, ccsys/timer, ccsys/random.
    - ServerConf: common/rf-server-configuration and the elector service.
    - Node: server/node's state machine ([StateMachine]), service bootstrap
      ([Services]) and consensus ([Consensus]), with its data directory, log
      and state file.
    - WorkerManager: unique-worker-manager.
    - EventLoop: the epoll driver ([Driver]), the event worker with its queues
      and notification pipe ([Worker]) and the event manager ([Manager]).
      LoopSafety: the turn of [worker_loop] and the threads that connect, send
      and disconnect as one step system over the handlers' memory.
    - Sockets: ccsys/utils ([Utils]), the connection socket ([Connection]) and
      the listening handler ([Listener]) over scripts of system calls.
    - SocketService: nb-socket-service over both managers.  NetTest: the test of
      unit-test/net, three services and a server.
    - Rpc: rpc/exceptions ([Exceptions]), rpc-server ([Server]), the rpc clients ([Client], [Sync]),
      resource-pool ([Pool]) and the tables of server-internal-messenger
      ([Messenger]).  NodeRpc: the life cycle, the calls and the message flow of
      the messenger, the internal rpc server and server-rpc-service.
      NodeBoot: the start of a node from its flags: the rest of
      server-rpc-service and [RaftConsensus::Start] over it.  RpcTrip: calls
      between two nodes, from the caller through both workers to the handler
      and back, with the server of unit-test/rpc.
    - SkipList, SegVector: common/skip-list over a heap of nodes and
      common/segmented-vector, containers the daemon does not use yet.
    - Daemon: common/global-vars ([Globals]), ccraftd-main ([Main]) and the
      signal handler against the waiting main thread ([Shutdown]).
    - UnitTests: the tests of unit-test/ccsys and unit-test/common that need
      neither the network nor the clock.

    ** What the theorems show

    - Memory: on every pool reached by requests of up to the bulk threshold and
      returns, live objects never overlap, a request returns a fresh object that
      is large enough and lies in one system block unless the system refuses a
      page it needs, giving back returns (C1-C3), the counters count the
      free objects (C4), the tables stay well formed (C13), the destructor
      frees every page once (C14) and what the tiny, small and big slots retain
      is bounded (C15).  Larger requests are modelled, but none of this holds of
      them: [bulk_put_undefined].
    - Messages: whatever the fragmentation, [Recv] reports exactly the messages
      of the stream; [Send] writes the queued messages in order until the
      socket is full; the two compose to delivery between hosts of either byte
      order (C5-C7), and with the rpc layer to calls that return what the
      handler of their request returns, as long as responses come after their
      callers wait and no timeout interferes (C8).  Over any sequence of events
      a connection reads and writes in this way, its two directions on memory
      of their own (C9), and it comes to be so by the handshake, on which both
      ends agree if each of its messages arrives in one piece (C10).
      Round trips of the encodings (C16), and of integers between hosts of
      either byte order (C17).
      No message stays in the queue unattended, but for a late push (C34).
    - Event loop: schedules in which a connection is only disconnected once it
      is registered, one sender at a time holds a reference to it and releases
      do not overlap never touch a deleted handler; no schedule loses an
      addition or a write event (C11, C12).  Outside that
      discipline there are races ([loop_races]).
    - Concurrency: mutual exclusion of the spin lock (C18); order and bound of
      the queue (C19); no task of the thread pool is lost or repeated, its
      join terminates, and it finishes what it was given, after which a wait
      returns at once (C20-C22).
    - Time: subscription, with the exact condition of its refusal, and firing
      order, for ids that [EventId::operator<] orders (C23, C24).
    - Connections: made, accepted and kept one per peer, with the failures that
      leave a deleted handler behind (C25, C26).
    - Node: a vote request is sent under an id the messenger does not know
      (C27); a node comes up with its rpc service and one timer (C28).
    - Process: once a signal came on a thread that no [Stop] waits for, the
      daemon ends, its services stopped (C29).
    - The skip list refines a sorted list, where [delete] frees its nodes (C30); the hash equals its definition
      on lists (C31); configuration, files, directories without links and
      state (C32, C33, C35, C36).
    - Defects, each as a theorem over all inputs it concerns or as a concrete
      run: no node survives a message, a node with the default flags cannot
      connect, no election finishes, the daemon never serves (C37-C40).
      Further ones are theorems without a number in MemPoolSafety, Delivery,
      Duplex, SendRace, Locks, RaftLog, Queues, PoolWait, Timer, Node, WorkerManager,
      LoopSafety, SocketService, Rpc, NodeRpc, SkipList, SegVector, FileUtils and Daemon.
    - Further results without a number: the epoll driver and the dealing out of
      connections (EventLoop), the tables of the worker manager, the wake-ups
      of the queue, a single rpc and a node's call (Rpc, NodeRpc), the log
      (RaftLog), the sequence of ids (Message), the first start of a node
      (Node), the timed waits (PoolWait), serialisation (ProtoBuf) and the unit
      tests (UnitTests, NetTest, PoolTest).

    ** Fuel and bounds

    [Recv] and [Send] loop until the socket blocks.  Their fuel counts turns
    of the loop; running out of it is an [Abort], never a [Ret], so a theorem
    that ends in [Ret] also shows that the fuel was enough.  The theorems use
    one more than the size of the script of reads ([rd_size]), respectively
    than the turns the queue and the script of writes allow ([turns_left]).
    [room m p] says that the next [m] operations of the pool find memory; the
    send and receive theorems need it because the code dereferences the
    result of a failed allocation.  [load_entries] of RaftLog consumes a byte
    per turn at least; its theorem holds for every fuel.  [RemoveDirectory]
    takes the depth of the tree as fuel, the searches of the skip list one more
    than the number of its nodes; both theorems show that this is enough, and
    [fread_all_fuel] shows it of the reading of lscpu's answer.
    [stack] of NodeRpc is the room on a thread's stack, over which the theorem
    quantifies.  The step relations and the remaining loops are structural and
    need none.

    ** Not modelled

    The parsing of command-line flags and logging; [erase_tail] and [vacuum]
    of the segmented vector, which do not compile; the special path components
    and relative link targets; what the services' [Stop] does to the signalled
    thread beyond the wait for it; the locks of the log; the driver of the rpc test, which refers to types
    that no longer exist; the clock and address tests; protobuf.  Nothing is claimed about weak memory: a step
    relation interleaves atomic accesses, or sections that hold a mutex. *)

From stdpp Require Export base list gmap numbers strings fin_maps.
From Stdlib Require Export ZArith Lia.

#[global] Open Scope Z_scope.

(** ** Machine integers

    A [w]-bit unsigned integer is a [Z] in [[0, 2^w)]; every C++ operation
    that can leave the range is followed by the wrap-around of its type. *)

Definition wrap (w z : Z) : Z := z mod 2 ^ w.
Definition u8 (z : Z) : Z := wrap 8 z.
Definition u16 (z : Z) : Z := wrap 16 z.
Definition u32 (z : Z) : Z := wrap 32 z.
Definition u64 (z : Z) : Z := wrap 64 z.

(** Two's complement reading of the low [w] bits (conversion to a signed type). *)
Definition swrap (w z : Z) : Z := (z + 2 ^ (w - 1)) mod 2 ^ w - 2 ^ (w - 1).
Definition i16 (z : Z) : Z := swrap 16 z.
Definition i32 (z : Z) : Z := swrap 32 z.
Definition i64 (z : Z) : Z := swrap 64 z.

Definition in_u (w z : Z) : Prop := 0 <= z < 2 ^ w.
Definition in_s (w z : Z) : Prop := - 2 ^ (w - 1) <= z < 2 ^ (w - 1).

(** ** Outcomes of a C++ computation

    [Ret] is a normal return, [Throw] a C++ exception, [Abort] a failed
    [assert], [LOG(FATAL)] or [exit], a wait that nobody can end, or a loop
    that used up the turns a caller allows it, and [Undef] a step the language leaves
    undefined (an access outside an object, a dereferenced end iterator). *)
Inductive outcome (A : Type) : Type :=
| Ret (a : A)
| Throw (what : string)
| Abort (why : string)
| Undef (why : string).
Arguments Ret {A} a.
Arguments Throw {A} what.
Arguments Abort {A} why.
Arguments Undef {A} why.

Definition obind {A B : Type} (c : outcome A) (k : A -> outcome B) : outcome B :=
  match c with
  | Ret a => k a
  | Throw s => Throw s
  | Abort s => Abort s
  | Undef s => Undef s
  end.

Declare Scope outcome_scope.
Delimit Scope outcome_scope with outcome.
Notation "'let*' x := c 'in' k" := (obind c (fun x => k))
  (at level 10, x pattern, c at level 200, k at level 200)
  : outcome_scope.
#[global] Open Scope outcome_scope.

(** The result of an operation on a signed [w]-bit type, for which the language
    leaves an overflow undefined. *)
Definition checked (w z : Z) : outcome Z :=
  if Z.leb (- 2 ^ (w - 1)) z && Z.ltb z (2 ^ (w - 1)) then Ret z else Undef "signed integer overflow".

Lemma checked_ok w z : in_s w z -> checked w z = Ret z.
Proof. intros [H1 H2]. unfold checked. by rewrite (proj2 (Z.leb_le _ _) H1), (proj2 (Z.ltb_lt _ _) H2). Qed.

Lemma checked_inv w z r : checked w z = Ret r -> r = z /\ in_s w z.
Proof.
  unfold checked. destruct (Z.leb_spec (- 2 ^ (w - 1)) z), (Z.ltb_spec z (2 ^ (w - 1))); try done. by intros [= <-].
Qed.

(** The computation returns normally. *)
Definition returns {A : Type} (c : outcome A) : Prop := exists a, c = Ret a.

(** ** Automation *)

Create HintDb ccraft discriminated.

(** Break a hypothesis on a monadic computation that returned. *)
Ltac outcome_inv :=
  repeat match goal with
  | H : obind ?c _ = Ret _ |- _ =>
      let E := fresh "E" in destruct c eqn:E; simpl in H; try discriminate H
  | H : Ret _ = Ret _ |- _ => injection H as H; try subst
  end.

Ltac unfold_words := unfold u8, u16, u32, u64, wrap, in_u in *.

(** ** Lemmas on machine integers *)

Lemma wrap_range w z : 0 <= w -> in_u w (wrap w z).
Proof. intros. unfold in_u, wrap. apply Z.mod_pos_bound. lia. Qed.

Lemma wrap_id w z : in_u w z -> wrap w z = z.
Proof. intros. unfold wrap. apply Z.mod_small. exact H. Qed.

Lemma wrap_wrap w z : 0 <= w -> wrap w (wrap w z) = wrap w z.
Proof. intros. apply wrap_id, wrap_range. lia. Qed.

Lemma u8_range z : 0 <= u8 z < 256.
Proof. apply (wrap_range 8). lia. Qed.
Lemma u16_range z : in_u 16 (u16 z).
Proof. apply wrap_range. lia. Qed.
Lemma u32_range z : in_u 32 (u32 z).
Proof. apply wrap_range. lia. Qed.
Lemma u64_range z : in_u 64 (u64 z).
Proof. apply wrap_range. lia. Qed.

Lemma u32_id z : in_u 32 z -> u32 z = z.
Proof. apply wrap_id. Qed.
Lemma u64_id z : in_u 64 z -> u64 z = z.
Proof. apply wrap_id. Qed.

Lemma swrap_id w z : 0 < w -> in_s w z -> swrap w z = z.
Proof.
  intros Hw [H1 H2]. unfold swrap.
  assert (2 ^ w = 2 * 2 ^ (w - 1)) as E.
  { replace w with (Z.succ (w - 1)) at 1 by lia. rewrite Z.pow_succ_r by lia. lia. }
  rewrite Z.mod_small by lia. lia.
Qed.

#[export] Hint Resolve wrap_range u8_range u16_range u32_range u64_range : ccraft.

(** Bitwise operations stay inside the width of their operands. *)
Lemma testbit_bounded w z : 0 <= w -> 0 <= z ->
  (forall i, w <= i -> Z.testbit z i = false) -> in_u w z.
Proof.
  intros Hw Hz Hb. split; [lia|].
  destruct (Z.eq_dec z 0) as [->|Hnz]; [apply Z.pow_pos_nonneg; lia|].
  apply Z.log2_lt_pow2; [lia|].
  destruct (Z.lt_ge_cases (Z.log2 z) w) as [|Hge]; [done|].
  specialize (Hb (Z.log2 z) Hge).
  rewrite Z.bit_log2 in Hb by lia. discriminate.
Qed.

Lemma in_u_testbit w z i : in_u w z -> 0 <= w <= i -> Z.testbit z i = false.
Proof.
  intros [H1 H2] Hi.
  destruct (Z.eq_dec z 0) as [->|Hnz]; [apply Z.testbit_0_l|].
  apply Z.bits_above_log2; [lia|].
  apply Z.lt_le_trans with w; [|lia]. apply Z.log2_lt_pow2; lia.
Qed.

Lemma lor_range w a b : 0 <= w -> in_u w a -> in_u w b -> in_u w (Z.lor a b).
Proof.
  intros Hw Ha Hb. apply testbit_bounded; [lia| apply Z.lor_nonneg; unfold in_u in *; lia|].
  intros i Hi. rewrite Z.lor_spec, (in_u_testbit w a), (in_u_testbit w b) by auto; done.
Qed.

Lemma lxor_range w a b : 0 <= w -> in_u w a -> in_u w b -> in_u w (Z.lxor a b).
Proof.
  intros Hw Ha Hb. apply testbit_bounded; [lia| apply Z.lxor_nonneg; unfold in_u in *; lia|].
  intros i Hi. rewrite Z.lxor_spec, (in_u_testbit w a), (in_u_testbit w b) by auto; done.
Qed.

Lemma shiftr_range w a k : 0 <= w -> 0 <= k -> in_u w a -> in_u w (Z.shiftr a k).
Proof.
  intros Hw Hk [H1 H2]. rewrite Z.shiftr_div_pow2 by lia. split.
  - apply Z.div_pos; [lia|]. apply Z.pow_pos_nonneg; lia.
  - apply Z.le_lt_trans with a; [|lia]. apply Z.div_le_upper_bound; [apply Z.pow_pos_nonneg; lia|].
    assert (0 < 2 ^ k) by (apply Z.pow_pos_nonneg; lia). nia.
Qed.

#[export] Hint Resolve lor_range lxor_range shiftr_range : ccraft.

(** ** Byte-addressed memory

    Memory is the finite map from mapped addresses to bytes; an access
    outside the mapped addresses is undefined. *)

Abbreviation mem := (gmap Z Z).

Definition peek (m : mem) (a : Z) : outcome Z :=
  match m !! a with
  | Some b => Ret b
  | None => Undef "read outside mapped memory"
  end.

Definition poke (m : mem) (a b : Z) : outcome mem :=
  match m !! a with
  | Some _ => Ret (<[a := u8 b]> m)
  | None => Undef "write outside mapped memory"
  end.

(** [memcpy] of the bytes [bs] to address [a]. *)
Fixpoint poke_bytes (m : mem) (a : Z) (bs : list Z) : outcome mem :=
  match bs with
  | [] => Ret m
  | b :: bs' => let* m1 := poke m a b in poke_bytes m1 (a + 1) bs'
  end.

Fixpoint peek_bytes (m : mem) (a : Z) (n : nat) : outcome (list Z) :=
  match n with
  | O => Ret []
  | S n' => let* b := peek m a in
            let* bs := peek_bytes m (a + 1) n' in Ret (b :: bs)
  end.

(** The bytes of a C string, without its terminator. *)
Definition string_bytes (s : string) : list Z :=
  (fun c => Z.of_N (Ascii.N_of_ascii c)) <$> String.list_ascii_of_string s.

(** The addresses [[a, a + n)] are mapped. *)
Definition range_ok (m : mem) (a n : Z) : Prop :=
  forall x, a <= x < a + n -> is_Some (m !! x).

(** The bytes [bs] are stored from address [a] on. *)
Definition bytes_at (m : mem) (a : Z) (bs : list Z) : Prop :=
  forall i b, bs !! i = Some b -> m !! (a + Z.of_nat i) = Some b.

Definition is_bytes (bs : list Z) : Prop := Forall (in_u 8) bs.

(** Overwrite the addresses from [a] on with [bs] (the effect of a sequence of stores). *)
Fixpoint fill (m : mem) (a : Z) (bs : list Z) : mem :=
  match bs with
  | [] => m
  | b :: bs' => fill (<[a := b]> m) (a + 1) bs'
  end.

Lemma lookup_fill m a bs x :
  fill m a bs !! x =
  if decide (a <= x < a + Z.of_nat (length bs)) then bs !! Z.to_nat (x - a) else m !! x.
Proof.
  revert m a. induction bs as [|b bs IH]; intros m a; simpl.
  - case_decide; [lia|done].
  - rewrite IH. destruct (decide (a = x)) as [->|Hne].
    + rewrite decide_False by lia. rewrite decide_True by lia.
      rewrite lookup_insert_eq. by replace (Z.to_nat (x - x)) with 0%nat by lia.
    + rewrite lookup_insert_ne by done.
      repeat case_decide; try lia; [|done].
      replace (Z.to_nat (x - a)) with (S (Z.to_nat (x - (a + 1)))) by lia. done.
Qed.

Lemma fill_app m a bs1 bs2 : fill m a (bs1 ++ bs2) = fill (fill m a bs1) (a + Z.of_nat (length bs1)) bs2.
Proof.
  revert m a. induction bs1 as [|b bs1 IH]; intros m a; simpl; [by rewrite Z.add_0_r|].
  rewrite IH. f_equal. lia.
Qed.

Lemma fill_lookup_out m a bs x :
  ~ (a <= x < a + Z.of_nat (length bs)) -> fill m a bs !! x = m !! x.
Proof. intros. rewrite lookup_fill, decide_False; done. Qed.

Lemma fill_bytes_at m a bs : bytes_at (fill m a bs) a bs.
Proof.
  intros i b Hi. pose proof (lookup_lt_Some _ _ _ Hi).
  rewrite lookup_fill, decide_True by lia.
  by replace (Z.to_nat (a + Z.of_nat i - a)) with i by lia.
Qed.

Lemma bytes_at_frame m a bs a' bs' :
  bytes_at m a bs ->
  a + Z.of_nat (length bs) <= a' \/ a' + Z.of_nat (length bs') <= a ->
  bytes_at (fill m a' bs') a bs.
Proof.
  intros H Hd i b Hi. pose proof (lookup_lt_Some _ _ _ Hi).
  rewrite fill_lookup_out by lia. by apply H.
Qed.

Lemma bytes_at_app m a bs1 bs2 :
  bytes_at m a (bs1 ++ bs2) <->
  bytes_at m a bs1 /\ bytes_at m (a + Z.of_nat (length bs1)) bs2.
Proof.
  split.
  - intros H; split.
    + intros i b Hi. apply H. by apply lookup_app_l_Some.
    + intros i b Hi. replace (a + Z.of_nat (length bs1) + Z.of_nat i)
        with (a + Z.of_nat (length bs1 + i)) by lia.
      apply H. rewrite lookup_app_r by lia.
      by replace (length bs1 + i - length bs1)%nat with i by lia.
  - intros [H1 H2] i b Hi. apply lookup_app_Some in Hi as [Hi|[Hle Hi]]; [by apply H1|].
    apply H2 in Hi. rewrite <- Hi. f_equal. lia.
Qed.

Lemma fill_range_ok m a bs x n : range_ok m x n -> range_ok (fill m a bs) x n.
Proof.
  intros H y Hy. rewrite lookup_fill. case_decide; [|by apply H].
  apply lookup_lt_is_Some. lia.
Qed.

Lemma range_ok_sub m a n a' n' :
  range_ok m a n -> a <= a' -> a' + n' <= a + n -> range_ok m a' n'.
Proof. intros H ? ? x Hx. apply H. lia. Qed.

Lemma fill_range_ok_self m a bs n : Z.of_nat (length bs) = n -> range_ok (fill m a bs) a n.
Proof. intros <- x Hx. rewrite lookup_fill, decide_True by done. apply lookup_lt_is_Some. lia. Qed.

#[export] Hint Resolve fill_range_ok fill_bytes_at : ccraft.

Lemma peek_at m a b : m !! a = Some b -> peek m a = Ret b.
Proof. unfold peek. by intros ->. Qed.

Lemma peek_bytes_at m a bs :
  bytes_at m a bs -> peek_bytes m a (length bs) = Ret bs.
Proof.
  revert a. induction bs as [|b bs IH]; intros a H; simpl; [done|].
  rewrite (peek_at m a b).
  - simpl. rewrite IH; [done|]. intros i c Hi.
    replace (a + 1 + Z.of_nat i) with (a + Z.of_nat (S i)) by lia. by apply H.
  - specialize (H 0%nat b). rewrite Z.add_0_r in H. by apply H.
Qed.

Lemma poke_ok m a b : is_Some (m !! a) -> poke m a b = Ret (<[a := u8 b]> m).
Proof. intros [v Hv]. unfold poke. by rewrite Hv. Qed.

Lemma poke_bytes_fill m a bs :
  is_bytes bs -> range_ok m a (Z.of_nat (length bs)) -> poke_bytes m a bs = Ret (fill m a bs).
Proof.
  revert m a. induction bs as [|b bs IH]; intros m a Hb Hr; simpl; [done|].
  inversion_clear Hb as [|? ? Hb1 Hb2].
  rewrite poke_ok by (apply Hr; simpl; lia). simpl.
  replace (u8 b) with b by (symmetry; by apply wrap_id).
  apply IH; [done|]. intros x Hx. destruct (decide (a = x)) as [->|].
  - rewrite lookup_insert_eq. eauto.
  - rewrite lookup_insert_ne by done. apply Hr. simpl. lia.
Qed.

(** ** Reachability *)

(** A property every step keeps holds in every state reached from one where it holds. *)
Lemma rtc_invariant {S : Type} (R : relation S) (I : S -> Prop) (s s' : S) :
  (forall x y, I x -> R x y -> I y) -> I s -> rtc R s s' -> I s'.
Proof. intros HR Hs Hr. induction Hr as [|x y z Hxy _ IH]; eauto. Qed.

Lemma Forall2_weaken_r {A B : Type} (R S : A -> B -> Prop) (l : list A) (k : list B) :
  Forall2 R l k -> (forall x y, y ∈ k -> R x y -> S x y) -> Forall2 S l k.
Proof.
  intros H Hi. induction H as [|x y l k Hxy _ IH]; constructor; [by apply Hi; [left|]|]. apply IH. intros a b Hb. apply Hi. by right.
Qed.
