(* ===== verification/Codec.v ===== *)
(** * Codec: fixed-width integers on the wire

    Models src/src/common/codec-utils.{h,cc}: the two codec classes, byte by
    byte as the source writes them, and the [ByteOrderUtils] selection the
    rest of the program uses.  [ByteOrderUtils] is an interface (a class of
    operations with laws); both codec classes implement it on the host the
    source compiles them for, and both produce the same wire bytes. *)

From S2P Require Import Prelude.

(** ** Reference encoding: most significant byte first *)

Fixpoint be_split (n : nat) (z : Z) : list Z :=
  match n with
  | O => []
  | S n' => be_split n' (Z.shiftr z 8) ++ [u8 z]
  end.

Definition be_join (bs : list Z) : Z := foldl (fun acc b => acc * 256 + b) 0 bs.

Lemma be_split_length n z : length (be_split n z) = n.
Proof. revert z. induction n; intros z; simpl; [done|]. rewrite length_app, IHn. simpl. lia. Qed.

Lemma be_split_bytes n z : is_bytes (be_split n z).
Proof.
  revert z. induction n; intros z; simpl; [constructor|].
  apply Forall_app; split; [apply IHn|]. repeat constructor; apply u8_range.
Qed.

Lemma be_join_snoc bs b : be_join (bs ++ [b]) = be_join bs * 256 + b.
Proof. unfold be_join. rewrite foldl_app. done. Qed.

Lemma be_join_split n z : 0 <= z -> be_join (be_split n z) = z mod 2 ^ (8 * Z.of_nat n).
Proof.
  revert z. induction n as [|n IH]; intros z Hz; simpl be_split.
  - simpl. by rewrite Z.mod_1_r.
  - rewrite be_join_snoc, IH by (apply Z.shiftr_nonneg; lia).
    rewrite Z.shiftr_div_pow2 by lia. unfold u8, wrap.
    replace (8 * Z.of_nat (S n)) with (8 + 8 * Z.of_nat n) by lia.
    rewrite Z.pow_add_r by lia. rewrite Z.rem_mul_r by lia. lia.
Qed.

Lemma be_split_inj n a b :
  in_u (8 * Z.of_nat n) a -> in_u (8 * Z.of_nat n) b -> be_split n a = be_split n b -> a = b.
Proof.
  intros Ha Hb E. rewrite <- (Z.mod_small a (2 ^ (8 * Z.of_nat n))) by exact Ha.
  rewrite <- (Z.mod_small b (2 ^ (8 * Z.of_nat n))) by exact Hb.
  rewrite <- !be_join_split by (unfold in_u in *; lia). by rewrite E.
Qed.

#[export] Hint Resolve be_split_bytes : ccraft.

(** ** LittleEndianCodecUtils (codec-utils.cc:10-85) *)

Module LittleEndianCodecUtils.

Definition WriteUInt16 (m : mem) (buf n : Z) : outcome mem :=
  let* m := poke m (buf + 1) n in
  let n := Z.shiftr n 8 in
  poke m buf n.

Definition WriteUInt32 (m : mem) (buf n : Z) : outcome mem :=
  let* m := poke m (buf + 3) n in
  let n := Z.shiftr n 8 in
  let* m := poke m (buf + 2) n in
  let n := Z.shiftr n 8 in
  let* m := poke m (buf + 1) n in
  let n := Z.shiftr n 8 in
  poke m buf n.

Definition WriteUInt64 (m : mem) (buf n : Z) : outcome mem :=
  let* m := poke m (buf + 7) n in
  let n := Z.shiftr n 8 in
  let* m := poke m (buf + 6) n in
  let n := Z.shiftr n 8 in
  let* m := poke m (buf + 5) n in
  let n := Z.shiftr n 8 in
  let* m := poke m (buf + 4) n in
  let n := Z.shiftr n 8 in
  let* m := poke m (buf + 3) n in
  let n := Z.shiftr n 8 in
  let* m := poke m (buf + 2) n in
  let n := Z.shiftr n 8 in
  let* m := poke m (buf + 1) n in
  let n := Z.shiftr n 8 in
  poke m buf n.

(** One [n <<= 8; n |= buf[i]] step at width [w]. *)
Definition shift_in (w n b : Z) : Z := Z.lor (wrap w (Z.shiftl n 8)) b.

Definition ReadUInt16 (m : mem) (buf : Z) : outcome Z :=
  let* n := peek m buf in
  let* b := peek m (buf + 1) in
  Ret (shift_in 16 n b).

Definition ReadUInt32 (m : mem) (buf : Z) : outcome Z :=
  let* n := peek m buf in
  let* b := peek m (buf + 1) in
  let n := shift_in 32 n b in
  let* b := peek m (buf + 2) in
  let n := shift_in 32 n b in
  let* b := peek m (buf + 3) in
  Ret (shift_in 32 n b).

Definition ReadUInt64 (m : mem) (buf : Z) : outcome Z :=
  let* n := peek m buf in
  let* b := peek m (buf + 1) in
  let n := shift_in 64 n b in
  let* b := peek m (buf + 2) in
  let n := shift_in 64 n b in
  let* b := peek m (buf + 3) in
  let n := shift_in 64 n b in
  let* b := peek m (buf + 4) in
  let n := shift_in 64 n b in
  let* b := peek m (buf + 5) in
  let n := shift_in 64 n b in
  let* b := peek m (buf + 6) in
  let n := shift_in 64 n b in
  let* b := peek m (buf + 7) in
  Ret (shift_in 64 n b).

End LittleEndianCodecUtils.

(** ** BigEndianCodecUtils (codec-utils.cc:87-124)

    The source copies the object representation of the integer; on the
    big-endian host it is compiled for, byte [i] of a [k]-byte integer is its
    [i]-th most significant byte. *)

Module BigEndianCodecUtils.

(** Byte [i] of the big-endian object representation of the [k]-byte integer [n]. *)
Definition repr (k n i : Z) : Z := u8 (Z.shiftr n (8 * (k - 1 - i))).

(** [NTOC(b, n, i)]. *)
Definition NTOC (k : Z) (m : mem) (b n i : Z) : outcome mem := poke m (b + i) (repr k n i).

Definition WriteUInt16 (m : mem) (buf n : Z) : outcome mem :=
  let* m := NTOC 2 m buf n 0 in NTOC 2 m buf n 1.

Definition WriteUInt32 (m : mem) (buf n : Z) : outcome mem :=
  let* m := NTOC 4 m buf n 0 in
  let* m := NTOC 4 m buf n 1 in
  let* m := NTOC 4 m buf n 2 in
  NTOC 4 m buf n 3.

Definition WriteUInt64 (m : mem) (buf n : Z) : outcome mem :=
  let* m := NTOC 8 m buf n 0 in
  let* m := NTOC 8 m buf n 1 in
  let* m := NTOC 8 m buf n 2 in
  let* m := NTOC 8 m buf n 3 in
  let* m := NTOC 8 m buf n 4 in
  let* m := NTOC 8 m buf n 5 in
  let* m := NTOC 8 m buf n 6 in
  NTOC 8 m buf n 7.

(** [*((uintK_t* )(buf))]: the object representation read back. *)
Definition ReadUInt16 (m : mem) (buf : Z) : outcome Z :=
  let* bs := peek_bytes m buf 2 in Ret (be_join bs).
Definition ReadUInt32 (m : mem) (buf : Z) : outcome Z :=
  let* bs := peek_bytes m buf 4 in Ret (be_join bs).
Definition ReadUInt64 (m : mem) (buf : Z) : outcome Z :=
  let* bs := peek_bytes m buf 8 in Ret (be_join bs).

End BigEndianCodecUtils.

(** ** The ByteOrderUtils interface (codec-utils.h:13-17) *)

Class ByteOrderUtils := {
  WriteUInt16 : mem -> Z -> Z -> outcome mem;
  WriteUInt32 : mem -> Z -> Z -> outcome mem;
  WriteUInt64 : mem -> Z -> Z -> outcome mem;
  ReadUInt16 : mem -> Z -> outcome Z;
  ReadUInt32 : mem -> Z -> outcome Z;
  ReadUInt64 : mem -> Z -> outcome Z
}.

(** What the clients rely on: the wire order is most significant byte first,
    a write touches exactly its bytes, and a read inverts it. *)
Class ByteOrderLaws (U : ByteOrderUtils) := {
  WriteUInt16_fill m a n : in_u 16 n -> range_ok m a 2 -> WriteUInt16 m a n = Ret (fill m a (be_split 2 n));
  WriteUInt32_fill m a n : in_u 32 n -> range_ok m a 4 -> WriteUInt32 m a n = Ret (fill m a (be_split 4 n));
  WriteUInt64_fill m a n : in_u 64 n -> range_ok m a 8 -> WriteUInt64 m a n = Ret (fill m a (be_split 8 n));
  ReadUInt16_at m a n : in_u 16 n -> bytes_at m a (be_split 2 n) -> ReadUInt16 m a = Ret n;
  ReadUInt32_at m a n : in_u 32 n -> bytes_at m a (be_split 4 n) -> ReadUInt32 m a = Ret n;
  ReadUInt64_at m a n : in_u 64 n -> bytes_at m a (be_split 8 n) -> ReadUInt64 m a = Ret n
}.

(** The selection of codec-utils.h for a little-endian and a big-endian host. *)
#[export] Instance LittleEndianHost : ByteOrderUtils := {|
  WriteUInt16 := LittleEndianCodecUtils.WriteUInt16;
  WriteUInt32 := LittleEndianCodecUtils.WriteUInt32;
  WriteUInt64 := LittleEndianCodecUtils.WriteUInt64;
  ReadUInt16 := LittleEndianCodecUtils.ReadUInt16;
  ReadUInt32 := LittleEndianCodecUtils.ReadUInt32;
  ReadUInt64 := LittleEndianCodecUtils.ReadUInt64
|}.

Definition BigEndianHost : ByteOrderUtils := {|
  WriteUInt16 := BigEndianCodecUtils.WriteUInt16;
  WriteUInt32 := BigEndianCodecUtils.WriteUInt32;
  WriteUInt64 := BigEndianCodecUtils.WriteUInt64;
  ReadUInt16 := BigEndianCodecUtils.ReadUInt16;
  ReadUInt32 := BigEndianCodecUtils.ReadUInt32;
  ReadUInt64 := BigEndianCodecUtils.ReadUInt64
|}.

(** ** The codecs satisfy the laws *)

(** Run a chain of stores into a mapped range. *)
Ltac run_pokes Hr :=
  repeat (rewrite poke_ok;
    [simpl | solve [repeat (rewrite lookup_insert_ne by lia); apply Hr; lia]]).

(** Equality of two chains of updates at known offsets. *)
Ltac solve_updates :=
  apply map_eq; intros ?x; rewrite ?lookup_insert;
  repeat (case_decide; try lia; try done).

(** Bytes of a stored list, as facts about the memory. *)
Lemma bytes_at_cons m a b bs : bytes_at m a (b :: bs) -> m !! a = Some b /\ bytes_at m (a + 1) bs.
Proof.
  intros H. split.
  - specialize (H 0%nat b eq_refl). by rewrite Z.add_0_r in H.
  - intros i c Hi. specialize (H (S i) c Hi). rewrite <- H. f_equal. lia.
Qed.

Section le_laws.
Import LittleEndianCodecUtils.

Lemma le_write16 m a n : in_u 16 n -> range_ok m a 2 -> WriteUInt16 m a n = Ret (fill m a (be_split 2 n)).
Proof. intros _ Hr. unfold WriteUInt16. run_pokes Hr. f_equal. solve_updates. Qed.

Lemma le_write32 m a n : in_u 32 n -> range_ok m a 4 -> WriteUInt32 m a n = Ret (fill m a (be_split 4 n)).
Proof. intros _ Hr. unfold WriteUInt32. run_pokes Hr. f_equal. solve_updates. Qed.

Lemma le_write64 m a n : in_u 64 n -> range_ok m a 8 -> WriteUInt64 m a n = Ret (fill m a (be_split 8 n)).
Proof. intros _ Hr. unfold WriteUInt64. run_pokes Hr. f_equal. solve_updates. Qed.

(** A shift-in step below the width is the arithmetic step of [be_join]. *)
Lemma shift_in_add w n b : 0 <= w -> in_u 8 b -> in_u (w - 8) n -> 8 <= w -> shift_in w n b = n * 256 + b.
Proof.
  intros Hw Hb Hn H8. unfold shift_in.
  assert (2 ^ w = 2 ^ (w - 8) * 256) as E
    by (change 256 with (2 ^ 8); rewrite <- Z.pow_add_r by lia; f_equal; lia).
  rewrite Z.shiftl_mul_pow2 by lia. change (2 ^ 8) with 256.
  rewrite wrap_id by (unfold in_u in *; lia).
  replace (n * 256) with (Z.shiftl n 8) by (rewrite Z.shiftl_mul_pow2 by lia; done).
  rewrite Z.add_nocarry_lxor, Z.lxor_lor; try done.
  all: apply Z.bits_inj'; intros i Hi; rewrite Z.land_spec, Z.bits_0;
       destruct (Z.lt_ge_cases i 8);
       [rewrite Z.shiftl_spec_low by lia; done
       |rewrite (in_u_testbit 8 b i) by (try done; lia); apply andb_false_r].
Qed.

Lemma be_join_bound bs : is_bytes bs -> in_u (8 * Z.of_nat (length bs)) (be_join bs).
Proof.
  induction bs as [|b bs IH] using rev_ind; intros H.
  - cbv. split; congruence.
  - apply Forall_app in H as [H1 H2]. inversion_clear H2.
    rewrite be_join_snoc, length_app. specialize (IH H1).
    replace (8 * Z.of_nat (length bs + length [b])) with (8 * Z.of_nat (length bs) + 8) by (simpl; lia).
    unfold in_u in *. rewrite Z.pow_add_r by lia. change (2 ^ 8) with 256 in *. lia.
Qed.

(** Folding the shift-in step over at most [w/8] bytes is [be_join]. *)
Lemma shift_in_fold w bs : 0 <= w -> is_bytes bs -> 8 * Z.of_nat (length bs) <= w ->
  foldl (shift_in w) 0 bs = be_join bs.
Proof.
  intros Hw. induction bs as [|b bs IH] using rev_ind; intros Hb Hl; [done|].
  apply Forall_app in Hb as [H1 H2]. inversion_clear H2.
  rewrite length_app in Hl. simpl in Hl.
  rewrite foldl_app, be_join_snoc. simpl. rewrite IH by (try done; lia).
  apply shift_in_add; try done; try lia.
  pose proof (be_join_bound bs H1) as [? Hu]. split; [done|].
  apply Z.lt_le_trans with (2 ^ (8 * Z.of_nat (length bs))); [done|].
  apply Z.pow_le_mono_r; lia.
Qed.

Lemma shift_in_first w b : 8 <= w -> in_u 8 b -> shift_in w 0 b = b.
Proof. intros. rewrite shift_in_add; try done; try lia. split; [lia|]. apply Z.pow_pos_nonneg; lia. Qed.

(** The value a shift-in chain over the bytes of [n] computes. *)
Lemma shift_in_split k n : in_u (8 * Z.of_nat k) n ->
  foldl (shift_in (8 * Z.of_nat k)) 0 (be_split k n) = n.
Proof.
  intros Hn. rewrite shift_in_fold.
  - rewrite be_join_split by (unfold in_u in *; lia). by apply Z.mod_small.
  - lia.
  - apply be_split_bytes.
  - rewrite be_split_length. lia.
Qed.

Ltac run_peeks :=
  repeat match goal with
  | H : bytes_at _ _ (_ :: _) |- _ =>
      let H' := fresh "H" in apply bytes_at_cons in H as [H' H]
  end;
  repeat (erewrite peek_at; [simpl | solve [match goal with
    | H : ?m !! ?x = Some _ |- ?m !! ?y = Some _ => replace y with x by lia; exact H end]]).

Ltac solve_read k n :=
  let Hn := fresh in let H := fresh in
  intros Hn H; pose proof (shift_in_split k n Hn) as Hv;
  pose proof (be_split_bytes k n) as Hb; pose proof (be_split_length k n) as Hl;
  destruct (be_split k n) as [|b0 l] eqn:E; [discriminate Hl|];
  repeat (destruct l as [|? l]; simpl in Hl; try discriminate Hl);
  run_peeks; f_equal; rewrite <- Hv; simpl; rewrite shift_in_first; [done|lia|by inversion Hb].

Lemma le_read16 m a n : in_u 16 n -> bytes_at m a (be_split 2 n) -> ReadUInt16 m a = Ret n.
Proof. unfold ReadUInt16. solve_read 2%nat n. Qed.

Lemma le_read32 m a n : in_u 32 n -> bytes_at m a (be_split 4 n) -> ReadUInt32 m a = Ret n.
Proof. unfold ReadUInt32. solve_read 4%nat n. Qed.

Lemma le_read64 m a n : in_u 64 n -> bytes_at m a (be_split 8 n) -> ReadUInt64 m a = Ret n.
Proof. unfold ReadUInt64. solve_read 8%nat n. Qed.
End le_laws.

#[export] Instance LittleEndianHost_laws : ByteOrderLaws LittleEndianHost := {|
  WriteUInt16_fill := le_write16; WriteUInt32_fill := le_write32; WriteUInt64_fill := le_write64;
  ReadUInt16_at := le_read16; ReadUInt32_at := le_read32; ReadUInt64_at := le_read64
|}.

Section be_laws.
Import BigEndianCodecUtils.

Lemma repr_u8 k n i : u8 (repr k n i) = repr k n i.
Proof. unfold repr, u8. by rewrite wrap_wrap. Qed.

Ltac be_write Hr :=
  unfold NTOC; run_pokes Hr; f_equal; rewrite !repr_u8; unfold repr; simpl;
  rewrite ?Z.shiftr_shiftr, ?Z.shiftr_0_r by lia; simpl; solve_updates.

Lemma be_write16 m a n : in_u 16 n -> range_ok m a 2 -> WriteUInt16 m a n = Ret (fill m a (be_split 2 n)).
Proof. intros _ Hr. unfold WriteUInt16. be_write Hr. Qed.

Lemma be_write32 m a n : in_u 32 n -> range_ok m a 4 -> WriteUInt32 m a n = Ret (fill m a (be_split 4 n)).
Proof. intros _ Hr. unfold WriteUInt32. be_write Hr. Qed.

Lemma be_write64 m a n : in_u 64 n -> range_ok m a 8 -> WriteUInt64 m a n = Ret (fill m a (be_split 8 n)).
Proof. intros _ Hr. unfold WriteUInt64. be_write Hr. Qed.

Lemma be_read k m a n : in_u (8 * Z.of_nat k) n -> bytes_at m a (be_split k n) ->
  obind (peek_bytes m a k) (fun bs => Ret (be_join bs)) = Ret n.
Proof.
  intros Hn H. pose proof (peek_bytes_at _ _ _ H) as E. rewrite be_split_length in E. rewrite E. simpl.
  f_equal. rewrite be_join_split by (unfold in_u in *; lia). by apply Z.mod_small.
Qed.
End be_laws.

Lemma BigEndianHost_laws : ByteOrderLaws BigEndianHost.
Proof.
  constructor; [exact be_write16|exact be_write32|exact be_write64
    |exact (be_read 2)|exact (be_read 4)|exact (be_read 8)].
Qed.

(** ** Properties *)

(** The class codec-utils.h selects on a host, by its byte order. *)
Definition host (big : bool) : ByteOrderUtils := if big then BigEndianHost else LittleEndianHost.

Lemma host_laws big : ByteOrderLaws (host big).
Proof. destruct big; [exact BigEndianHost_laws|exact LittleEndianHost_laws]. Qed.

(** A writer and a reader of [k]-byte integers understand each other: writing an
    in-range integer into mapped memory succeeds, leaves its bytes there, most
    significant first, and changes no other byte; reading them gives the integer. *)
Definition carries (k : nat) (write : mem -> Z -> Z -> outcome mem) (read : mem -> Z -> outcome Z) : Prop :=
  forall m a n, in_u (8 * Z.of_nat k) n -> range_ok m a (Z.of_nat k) ->
    exists m', write m a n = Ret m' /\ read m' a = Ret n /\ bytes_at m' a (be_split k n) /\
      forall x, ~ (a <= x < a + Z.of_nat k) -> m' !! x = m !! x.

Lemma carries_fill k write read :
  (forall m a n, in_u (8 * Z.of_nat k) n -> range_ok m a (Z.of_nat k) -> write m a n = Ret (fill m a (be_split k n))) ->
  (forall m a n, in_u (8 * Z.of_nat k) n -> bytes_at m a (be_split k n) -> read m a = Ret n) -> carries k write read.
Proof.
  intros Hw Hr m a n Hn Hm. eexists. split; [by apply Hw|]. split; [apply Hr; [done|apply fill_bytes_at]|].
  split; [apply fill_bytes_at|]. intros x Hx. apply fill_lookup_out. rewrite be_split_length. lia.
Qed.

(** C17.  Round trip of every fixed-width codec between any two hosts: what the
    codec class of the writer's byte order writes, the class of the reader's
    byte order reads as the same integer, at 16, 32 and 64 bits; the bytes in
    between are those of the integer, most significant first, and no other byte changes. *)
Theorem codec_roundtrip (writer reader : bool) :
  carries 2 (@WriteUInt16 (host writer)) (@ReadUInt16 (host reader)) /\
  carries 4 (@WriteUInt32 (host writer)) (@ReadUInt32 (host reader)) /\
  carries 8 (@WriteUInt64 (host writer)) (@ReadUInt64 (host reader)).
Proof.
  pose proof (host_laws writer). pose proof (host_laws reader).
  split_and!; apply carries_fill; intros m a n; apply WriteUInt16_fill || apply WriteUInt32_fill || apply WriteUInt64_fill ||
    apply ReadUInt16_at || apply ReadUInt32_at || apply ReadUInt64_at.
Qed.

(** A little-endian host writes for a big-endian one, and the other way round. *)
Lemma codec_roundtrip_witness :
  (exists m', LittleEndianCodecUtils.WriteUInt64 (fill ∅ 100 (replicate 9 7)) 100 72623859790382856 = Ret m' /\
    BigEndianCodecUtils.ReadUInt64 m' 100 = Ret 72623859790382856 /\ bytes_at m' 100 [1; 2; 3; 4; 5; 6; 7; 8] /\ m' !! 108 = Some 7) /\
  (exists m', BigEndianCodecUtils.WriteUInt16 (fill ∅ 8 [0; 0]) 8 513 = Ret m' /\ LittleEndianCodecUtils.ReadUInt16 m' 8 = Ret 513).
Proof.
  split.
  - destruct (proj2 (proj2 (codec_roundtrip false true)) (fill ∅ 100 (replicate 9 7)) 100 72623859790382856) as (m' & H1 & H2 & H3 & H4).
    + split; reflexivity || lia.
    + eapply range_ok_sub; [apply (fill_range_ok_self _ _ _ 9); reflexivity|lia|lia].
    + exists m'. split; [exact H1|]. split; [exact H2|]. split; [exact H3|]. rewrite H4 by lia. reflexivity.
  - destruct (proj1 (codec_roundtrip true false) (fill ∅ 8 [0; 0]) 8 513) as (m' & H1 & H2 & _).
    + split; reflexivity || lia.
    + apply fill_range_ok_self. reflexivity.
    + exists m'. split; [exact H1|exact H2].
Defined.

(** Both codec classes write the same wire bytes (most significant byte
    first), so two hosts of different byte order understand each other although
    the classes are named after their hosts. *)
Theorem codec_wire_order (m : mem) (a n : Z) :
  (in_u 16 n -> range_ok m a 2 ->
     LittleEndianCodecUtils.WriteUInt16 m a n = BigEndianCodecUtils.WriteUInt16 m a n) /\
  (in_u 32 n -> range_ok m a 4 ->
     LittleEndianCodecUtils.WriteUInt32 m a n = BigEndianCodecUtils.WriteUInt32 m a n) /\
  (in_u 64 n -> range_ok m a 8 ->
     LittleEndianCodecUtils.WriteUInt64 m a n = BigEndianCodecUtils.WriteUInt64 m a n).
Proof.
  repeat split; intros Hn Hr.
  - by rewrite le_write16, be_write16.
  - by rewrite le_write32, be_write32.
  - by rewrite le_write64, be_write64.
Qed.

Lemma codec_wire_order_witness :
  LittleEndianCodecUtils.WriteUInt16 (fill ∅ 8 [0; 0]) 8 513 =
  BigEndianCodecUtils.WriteUInt16 (fill ∅ 8 [0; 0]) 8 513.
Proof.
  apply codec_wire_order.
  - split; reflexivity || lia.
  - apply fill_range_ok_self. reflexivity.
Defined.
