(* ===== verification/MemPool.v ===== *)
(** * MemPool: the slotted memory pool

    Models src/src/ccsys/mem-pool.{h,cc} (everything but the debug dump):
    the four object classes, the page bookkeeping, the recycling of the
    [MemObject] descriptors, and the calls to the system allocator.

    The C++ containers map as follows: [unordered_map]/[map] to [gmap],
    [unordered_set] to [gset], [list] to [list].  [posix_memalign] and the
    iteration order of an [unordered_map] are parameters. *)

From stdpp Require Import sorting.
From S2P Require Import Prelude.

(** ** Constants (mem-pool.h:23-56) *)

Definition BULK_PAGE_SIZE_THRESHOLD : Z := 131072.
Definition TINY_OBJECT_SIZE_THRESHOLD : Z := 16.
Definition TINY_OBJECT_RESIDENT_CNT : Z := 512.
Definition DEFAULT_SMALL_OBJECT_SLOT_FOOTSTEP : Z := 32.
Definition ONE_SLOT_SMALL_OBJECT_RESIDENT_CNT : Z := 256.
Definition ONE_SLOT_BIG_OBJECT_RESIDENT_CNT : Z := 128.
Definition RESIDENT_BULK_OBJ_MAX_SIZE : Z := 1048576.
Definition DEFAULT_EXPAND_OBJ_CNT_FACTOR : Z := 32.
Definition DEFAULT_EXPAND_BULK_OBJ_CNT_FACTOR : Z := 4.

(** ** Data (mem-pool.h:73-124, 225-295) *)

Inductive MemObjectType := Tiny | Small | Big | Bulk.

#[export] Instance MemObjectType_eq_dec : EqDecision MemObjectType.
Proof. solve_decision. Defined.

(** The owner pointer of the source is the one pool of the model. *)
Record MemObject := mkMemObject {
  m_type : MemObjectType;
  m_slot_size : Z;
  m_obj_pv : Z;
  m_obj_page_pv : Z
}.

(** A page address to the list of its free objects. *)
Abbreviation free_map := (gmap Z (list Z)).

Record SlotObjPage := mkSlot { objs : free_map; cnt : Z }.

Definition empty_slot : SlotObjPage := mkSlot ∅ 0.

(** The fields the constructor fixes. *)
Record MemPoolConf := mkConf {
  m_sys_page_size : Z;
  m_small_obj_slot_footstep_size : Z;
  m_small_obj_slot_footstep_exponent : Z;
  m_big_obj_slot_footstep_exponent : Z;
  m_bulk_obj_slot_footstep_exponent : Z;
  m_one_slot_tiny_obj_resident_cnts : Z;
  m_one_slot_small_obj_resident_cnts : Z;
  m_one_slot_big_obj_resident_cnts : Z;
  m_one_slot_bulk_obj_resident_cnts : Z;
  m_tiny_obj_threshold : Z;
  m_big_obj_threshold : Z;
  m_bulk_obj_threshold : Z;
  m_available_reserve_bulk_obj_max_size : Z;
  m_expand_obj_cnt_factor : Z;
  m_expand_bulk_obj_cnt_factor : Z
}.

(** The mutable fields, with the system heap (block address to block size) and
    the store of the [MemObject]s the pool has created.  A [MemObject*] is a
    key of [mo_store].  [m_free_bulk_objs] always maps a slot to the address of
    the same slot of [m_free_hash_bulk_objs], so it is kept as its key set. *)
Record MemPool := mkPool {
  m_tiny_obj_pages : gset Z;
  m_free_tiny_objs : free_map;
  m_free_tiny_objs_cnt : Z;
  m_small_obj_pages : gmap Z (gset Z);
  m_free_small_objs : gmap Z SlotObjPage;
  m_big_obj_pages : gmap Z (gset Z);
  m_free_big_objs : gmap Z SlotObjPage;
  m_bulk_obj_pages : gmap Z (gset Z);
  m_free_hash_bulk_objs : gmap Z SlotObjPage;
  m_free_bulk_objs : gset Z;
  m_free_mem_objs : list positive;
  mo_store : gmap positive MemObject;
  heap : gmap Z Z
}.

Definition set_tiny (st : MemPool) (pages : gset Z) (free : free_map) (c : Z) (h : gmap Z Z) : MemPool :=
  mkPool pages free c (m_small_obj_pages st) (m_free_small_objs st) (m_big_obj_pages st)
    (m_free_big_objs st) (m_bulk_obj_pages st) (m_free_hash_bulk_objs st) (m_free_bulk_objs st)
    (m_free_mem_objs st) (mo_store st) h.
Definition set_small (st : MemPool) (pages : gmap Z (gset Z)) (free : gmap Z SlotObjPage) (h : gmap Z Z) : MemPool :=
  mkPool (m_tiny_obj_pages st) (m_free_tiny_objs st) (m_free_tiny_objs_cnt st) pages free (m_big_obj_pages st)
    (m_free_big_objs st) (m_bulk_obj_pages st) (m_free_hash_bulk_objs st) (m_free_bulk_objs st)
    (m_free_mem_objs st) (mo_store st) h.
Definition set_big (st : MemPool) (pages : gmap Z (gset Z)) (free : gmap Z SlotObjPage) (h : gmap Z Z) : MemPool :=
  mkPool (m_tiny_obj_pages st) (m_free_tiny_objs st) (m_free_tiny_objs_cnt st) (m_small_obj_pages st)
    (m_free_small_objs st) pages free (m_bulk_obj_pages st) (m_free_hash_bulk_objs st) (m_free_bulk_objs st)
    (m_free_mem_objs st) (mo_store st) h.
Definition set_bulk (st : MemPool) (pages : gmap Z (gset Z)) (hash : gmap Z SlotObjPage) (keys : gset Z) (h : gmap Z Z) : MemPool :=
  mkPool (m_tiny_obj_pages st) (m_free_tiny_objs st) (m_free_tiny_objs_cnt st) (m_small_obj_pages st)
    (m_free_small_objs st) (m_big_obj_pages st) (m_free_big_objs st) pages hash keys
    (m_free_mem_objs st) (mo_store st) h.
Definition set_mos (st : MemPool) (free : list positive) (store : gmap positive MemObject) : MemPool :=
  mkPool (m_tiny_obj_pages st) (m_free_tiny_objs st) (m_free_tiny_objs_cnt st) (m_small_obj_pages st)
    (m_free_small_objs st) (m_big_obj_pages st) (m_free_big_objs st) (m_bulk_obj_pages st)
    (m_free_hash_bulk_objs st) (m_free_bulk_objs st) free store (heap st).

(** ** Size arithmetic (mem-pool.h:183-207, mem-pool.cc:383-391), on [uint32_t] *)

Definition roundup_to_the_next_highest_multiple_of_exponent2 (n exponent : Z) : Z :=
  let low_true := Z.lxor (u32 (Z.shiftl n (32 - exponent))) 0 in
  if Z.eqb low_true 0 then n
  else
    let multiple_base := u32 (Z.shiftl 2 (exponent - 1)) in
    let mask := u32 (Z.shiftl (Z.shiftr 4294967295 exponent) exponent) in
    u32 (Z.land n mask + multiple_base).

Definition convert_slot_obj_size_to_slot_idx (size footstep : Z) : Z := size / footstep.

Definition gen_expand_slot_page_size (objSize expandObjCntFactor pageSize : Z) : Z :=
  let expandCalSize := u32 (objSize * expandObjCntFactor) in
  let pageCnt := expandCalSize / pageSize in
  let pageCnt := if Z.eqb (expandCalSize mod pageSize) 0 then pageCnt else u32 (pageCnt + 1) in
  u32 (pageCnt * pageSize).

Definition split_mem_page (slotSize pagePv pageSize : Z) : list Z :=
  let cnt := pageSize / slotSize in
  (fun i => u64 (pagePv + u32 (slotSize * i))) <$> seqZ 0 cnt.

(** ** Constructors (mem-pool.cc:47-90)

    [page] is [sysconf(_SC_PAGESIZE)], [nprocs] is [get_nprocs()]; the count of
    free tiny objects has no initialiser, so it starts as an arbitrary value. *)

Definition MemPool_conf (page nprocs torc sorc borc tpt bipt bupt : Z) : MemPoolConf :=
  let page := u32 page in
  mkConf page DEFAULT_SMALL_OBJECT_SLOT_FOOTSTEP
    (Z.log2 DEFAULT_SMALL_OBJECT_SLOT_FOOTSTEP) (Z.log2 page) (Z.log2 page)
    torc sorc borc (u32 nprocs) tpt bipt bupt
    RESIDENT_BULK_OBJ_MAX_SIZE DEFAULT_EXPAND_OBJ_CNT_FACTOR DEFAULT_EXPAND_BULK_OBJ_CNT_FACTOR.

(** [for (i = 1; i <= n; ++i) m[i] = v]. *)
Definition init_slots {A : Type} (n : Z) (v : A) : gmap Z A :=
  list_to_map ((fun i => (i, v)) <$> seqZ 1 n).

Definition MemPool_new (conf : MemPoolConf) (uninit : Z) (h : gmap Z Z) : MemPool :=
  let smallSlotCnt := m_big_obj_threshold conf / m_small_obj_slot_footstep_size conf in
  let bigSlotCnt := m_bulk_obj_threshold conf / m_sys_page_size conf in
  mkPool ∅ ∅ uninit
    (init_slots smallSlotCnt ∅) (init_slots smallSlotCnt empty_slot)
    (init_slots bigSlotCnt ∅) (init_slots bigSlotCnt empty_slot)
    ∅ ∅ ∅ [] ∅ h.

Definition MemPool_default_conf (page nprocs : Z) : MemPoolConf :=
  MemPool_conf page nprocs TINY_OBJECT_RESIDENT_CNT ONE_SLOT_SMALL_OBJECT_RESIDENT_CNT
    ONE_SLOT_BIG_OBJECT_RESIDENT_CNT TINY_OBJECT_SIZE_THRESHOLD (u32 page) BULK_PAGE_SIZE_THRESHOLD.

Section pool.

(** [posix_memalign(&p, align, size)] on a heap: the block, or failure. *)
Variable posix_memalign : gmap Z Z -> Z -> Z -> option Z.

(** The iteration order of an [unordered_map<uintptr_t, list<uintptr_t>>]. *)
Variable iter : free_map -> list (Z * list Z).

Variable conf : MemPoolConf.

(** [Utils::PosixMemAlign] (utils.cc:57-64): [0] is [nullptr]. *)
Definition PosixMemAlign (h : gmap Z Z) (align size : Z) : gmap Z Z * Z :=
  match posix_memalign h align size with
  | Some p => (<[p := size]> h, p)
  | None => (h, 0)
  end.

(** [free(p)] of a block of the heap. *)
Definition heap_free (h : gmap Z Z) (p : Z) : outcome (gmap Z Z) :=
  match h !! p with
  | Some _ => Ret (delete p h)
  | None => Undef "free of a pointer that is not an allocated block"
  end.

(** [alloc_page_objs] (mem-pool.cc:416-429). *)
Definition alloc_page_objs (h : gmap Z Z) (size slotSize : Z) (pages : gset Z) (freeObjs : free_map)
    : bool * gset Z * free_map * gmap Z Z :=
  let '(h', objP) := PosixMemAlign h (m_sys_page_size conf) size in
  if Z.eqb objP 0 then (false, pages, freeObjs, h')
  else
    let page_pv := objP in
    let pages := {[page_pv]} ∪ pages in
    let splitObjs := split_mem_page slotSize page_pv size in
    (true, pages, <[page_pv := splitObjs]> freeObjs, h').

(** [get_free_obj_from_slot_page] (mem-pool.cc:431-445): the remaining free
    objects, the page and the object (both [0] when there is none). *)
Definition get_free_obj_from_slot_page (pages : free_map) : outcome (free_map * Z * Z) :=
  match iter pages with
  | [] => Ret (pages, 0, 0)
  | (slot_page_pv, l) :: _ =>
      match l with
      | [] => Undef "begin of an empty free list dereferenced"
      | obj_pv :: rest =>
          let pages := if decide (rest = []) then delete slot_page_pv pages
                       else <[slot_page_pv := rest]> pages in
          Ret (pages, slot_page_pv, obj_pv)
      end
  end.

(** [get_mem_object] with [MemObject::refresh] (mem-pool.cc:393-414). *)
Definition get_mem_object (st : MemPool) (type : MemObjectType) (slotSize objPv slotStartPv : Z)
    : MemPool * positive :=
  let mo := mkMemObject type slotSize objPv slotStartPv in
  match m_free_mem_objs st with
  | memObject :: rest => (set_mos st rest (<[memObject := mo]> (mo_store st)), memObject)
  | [] =>
      let memObject := fresh (dom (mo_store st)) in
      (set_mos st [] (<[memObject := mo]> (mo_store st)), memObject)
  end.

(** ** Get (mem-pool.cc:124-234) *)

(** Tiny objects (lines 127-147). *)
Definition Get_tiny (st : MemPool) : outcome (MemPool * option positive) :=
  let '(pages, free, c, h) :=
    if decide (m_free_tiny_objs st = ∅) then
      let '(ok, pages, free, h) :=
        alloc_page_objs (heap st) (m_sys_page_size conf) (m_tiny_obj_threshold conf)
          (m_tiny_obj_pages st) (m_free_tiny_objs st) in
      (pages, free, if ok : bool then m_sys_page_size conf / m_tiny_obj_threshold conf
                    else m_free_tiny_objs_cnt st, h)
    else (m_tiny_obj_pages st, m_free_tiny_objs st, m_free_tiny_objs_cnt st, heap st) in
  let* (free, slot_page_pv, tiny_obj_pv) := get_free_obj_from_slot_page free in
  if Z.eqb tiny_obj_pv 0 then Ret (set_tiny st pages free c h, None)
  else
    let st := set_tiny st pages free (u32 (c - 1)) h in
    let '(st, mo) := get_mem_object st Tiny (m_tiny_obj_threshold conf) tiny_obj_pv slot_page_pv in
    Ret (st, Some mo).

(** The slot step shared by small and big objects (lines 168-191): the slot
    tables after the step, the heap, the page and the object. *)
Definition get_slot_obj (free_objs : gmap Z SlotObjPage) (pages : gmap Z (gset Z)) (h : gmap Z Z)
    (slotSize slotIdx : Z) : outcome (gmap Z SlotObjPage * gmap Z (gset Z) * gmap Z Z * Z * Z) :=
  match free_objs !! slotIdx with
  | None => Undef "end iterator of the slot table dereferenced"
  | Some slot =>
      let pgs := default ∅ (pages !! slotIdx) in
      let '(slot, pages, h) :=
        if decide (objs slot = ∅) then
          let expandPageSize := gen_expand_slot_page_size slotSize (m_expand_obj_cnt_factor conf) (m_sys_page_size conf) in
          let '(ok, pgs, free, h) := alloc_page_objs h expandPageSize slotSize pgs (objs slot) in
          (mkSlot free (if ok : bool then expandPageSize / slotSize else cnt slot), <[slotIdx := pgs]> pages, h)
        else (slot, pages, h) in
      let* (free, slot_page_pv, obj_pv) := get_free_obj_from_slot_page (objs slot) in
      let slot := mkSlot free (if Z.eqb obj_pv 0 then cnt slot else u32 (cnt slot - 1)) in
      Ret (<[slotIdx := slot]> free_objs, pages, h, slot_page_pv, obj_pv)
  end.

Definition Get_slot (st : MemPool) (size : Z) : outcome (MemPool * option positive) :=
  if Z.ltb (m_big_obj_threshold conf) size then
    let slotSize := roundup_to_the_next_highest_multiple_of_exponent2 size (m_big_obj_slot_footstep_exponent conf) in
    let slotIdx := convert_slot_obj_size_to_slot_idx slotSize (m_sys_page_size conf) in
    let* (free_objs, pages, h, slot_page_pv, obj_pv) :=
      get_slot_obj (m_free_big_objs st) (m_big_obj_pages st) (heap st) slotSize slotIdx in
    let st := set_big st pages free_objs h in
    if Z.eqb obj_pv 0 then Ret (st, None)
    else let '(st, mo) := get_mem_object st Big slotSize obj_pv slot_page_pv in Ret (st, Some mo)
  else
    let slotSize := roundup_to_the_next_highest_multiple_of_exponent2 size (m_small_obj_slot_footstep_exponent conf) in
    let slotIdx := convert_slot_obj_size_to_slot_idx slotSize (m_small_obj_slot_footstep_size conf) in
    let* (free_objs, pages, h, slot_page_pv, obj_pv) :=
      get_slot_obj (m_free_small_objs st) (m_small_obj_pages st) (heap st) slotSize slotIdx in
    let st := set_small st pages free_objs h in
    if Z.eqb obj_pv 0 then Ret (st, None)
    else let '(st, mo) := get_mem_object st Small slotSize obj_pv slot_page_pv in Ret (st, Some mo).

(** *** Bulk objects (lines 192-227, 447-543) *)

(** Take the first object of the first free page of slot [k] of the hash table
    (lines 455-462, 516-522, 530-536): the slot without it, the page, the object. *)
Definition take_first_obj (slot : SlotObjPage) : outcome (SlotObjPage * Z * Z) :=
  match iter (objs slot) with
  | [] => Undef "begin of an empty page table dereferenced"
  | (page, l) :: _ =>
      match l with
      | [] => Undef "begin of an empty free list dereferenced"
      | obj :: rest =>
          Ret (mkSlot (if decide (rest = []) then delete page (objs slot)
                       else <[page := rest]> (objs slot)) (cnt slot), page, obj)
      end
  end.

(** Keys of the ordered map [m_free_bulk_objs], ascending. *)
Definition sorted_keys (keys : gset Z) : list Z := merge_sort Z.le (elements keys).

(** The result: the two tables, the suitable slot, object and page ([0] when none). *)
Definition bulk_result : Type := gmap Z SlotObjPage * gset Z * Z * Z * Z.

(** The reverse iterator of the descending search stops at [k]; once the entry
    of [k] is erased from the ordered map, the key it is asked for reads the
    entry before it. *)
Definition predecessor (k : Z) (keys : list Z) : option Z :=
  last (filter (fun x => x < k) keys).

Definition get_suitable_bulk_page (hash : gmap Z SlotObjPage) (keys : gset Z) (needSlotIdx : Z)
    : outcome bulk_result :=
  match hash !! needSlotIdx with
  | Some slot =>
      let* (slot, page, obj) := take_first_obj slot in
      if decide (objs slot = ∅) then
        Ret (delete needSlotIdx hash, keys ∖ {[needSlotIdx]}, needSlotIdx, obj, page)
      else Ret (<[needSlotIdx := slot]> hash, keys, needSlotIdx, obj, page)
  | None =>
      let ks := sorted_keys keys in
      match ks, last ks with
      | slotBegin :: _, Some rbegin =>
          let maxPageSize := u32 (needSlotIdx * 2) in
          if Z.ltb rbegin needSlotIdx then Ret (hash, keys, 0, 0, 0)
          else if Z.ltb needSlotIdx slotBegin then
            (* the smallest slot is larger than what is needed *)
            if Z.ltb maxPageSize slotBegin then Ret (hash, keys, 0, 0, 0)
            else
              match hash !! slotBegin with
              | None => Undef "dangling slot pointer dereferenced"
              | Some slot =>
                  let* (slot, page, obj) := take_first_obj slot in
                  if decide (objs slot = ∅) then
                    Undef "iterator used after its map entry was erased"
                  else Ret (<[slotBegin := slot]> hash, keys, slotBegin, obj, page)
              end
          else
            match list_find (fun k => needSlotIdx < k /\ k <= maxPageSize) (reverse ks) with
            | None => Ret (hash, keys, 0, 0, 0)
            | Some (_, k) =>
                match hash !! k with
                | None => Undef "dangling slot pointer dereferenced"
                | Some slot =>
                    let* (slot, page, obj) := take_first_obj slot in
                    let hash := <[k := slot]> hash in
                    if decide (objs slot = ∅) then
                      let keys := keys ∖ {[k]} in
                      match predecessor k (sorted_keys keys) with
                      | None => Undef "reverse iterator moved before the first entry"
                      | Some k' => Ret (delete k' hash, keys, k, obj, page)
                      end
                    else Ret (hash, keys, k, obj, page)
                end
            end
      | _, _ => Ret (hash, keys, 0, 0, 0)
      end
  end.

Definition Get_bulk (st : MemPool) (size : Z) : outcome (MemPool * option positive) :=
  let needPageSize := roundup_to_the_next_highest_multiple_of_exponent2 size (m_bulk_obj_slot_footstep_exponent conf) in
  let needSlotIdx := convert_slot_obj_size_to_slot_idx needPageSize (m_sys_page_size conf) in
  let* (hash, keys, sIdx, sObj, sPage) :=
    get_suitable_bulk_page (m_free_hash_bulk_objs st) (m_free_bulk_objs st) needSlotIdx in
  let st := set_bulk st (m_bulk_obj_pages st) hash keys (heap st) in
  let* (st, sIdx, sObj, sPage) :=
    if Z.eqb sObj 0 then
      let expandPageSize :=
        if Z.ltb needPageSize (m_available_reserve_bulk_obj_max_size conf)
        then gen_expand_slot_page_size needPageSize (m_expand_bulk_obj_cnt_factor conf) (m_sys_page_size conf)
        else needPageSize in
      (* the three tables get a fresh entry for the slot *)
      let '(ok, pgs, free, h) := alloc_page_objs (heap st) expandPageSize needPageSize ∅ ∅ in
      let pages := <[needSlotIdx := pgs]> (m_bulk_obj_pages st) in
      let '(hash, keys) :=
        if ok : bool then
          (<[needSlotIdx := mkSlot free (expandPageSize / needPageSize)]> (m_free_hash_bulk_objs st),
           {[needSlotIdx]} ∪ m_free_bulk_objs st)
        else (delete needSlotIdx (m_free_hash_bulk_objs st), m_free_bulk_objs st ∖ {[needSlotIdx]}) in
      let* (hash, keys, sIdx, sObj, sPage) := get_suitable_bulk_page hash keys needSlotIdx in
      Ret (set_bulk st pages hash keys h, sIdx, sObj, sPage)
    else Ret (st, sIdx, sObj, sPage) in
  if Z.eqb sObj 0 then Ret (st, None)
  else
    let hash :=
      match m_free_hash_bulk_objs st !! sIdx with
      | Some slot => <[sIdx := mkSlot (objs slot) (u32 (cnt slot - 1))]> (m_free_hash_bulk_objs st)
      | None => m_free_hash_bulk_objs st
      end in
    let st := set_bulk st (m_bulk_obj_pages st) hash (m_free_bulk_objs st) (heap st) in
    let '(st, mo) := get_mem_object st Bulk (u32 (sIdx * m_sys_page_size conf)) sObj sPage in
    Ret (st, Some mo).

Definition Get (st : MemPool) (size : Z) : outcome (MemPool * option positive) :=
  if Z.leb size 0 then Abort "assert(size > 0)"
  else if Z.leb size (m_tiny_obj_threshold conf) then Get_tiny st
  else if Z.leb size (m_bulk_obj_threshold conf) then Get_slot st size
  else Get_bulk st size.

(** ** Put (mem-pool.cc:236-381) *)

(** The search for a completely free page and its release (lines 266-277 and
    its copies): the page tables, the count and the heap. *)
Definition release_full_page (pages : gset Z) (free : free_map) (c : Z) (h : gmap Z Z) (onePageObjsCnt : Z)
    : outcome (gset Z * free_map * Z * gmap Z Z) :=
  match list_find (fun e : Z * list Z => onePageObjsCnt = Z.of_nat (length e.2)) (iter free) with
  | None => Ret (pages, free, c, h)
  | Some (_, (freePtr, _)) =>
      let* h := heap_free h freePtr in
      Ret (pages ∖ {[freePtr]}, delete freePtr free, u32 (c - onePageObjsCnt), h)
  end.

(** [objs[objPagePv].push_back(objPv)], creating the list when it is absent. *)
Definition push_free (free : free_map) (objPagePv objPv : Z) : free_map :=
  <[objPagePv := default [] (free !! objPagePv) ++ [objPv]]> free.

Definition put_tiny (st : MemPool) (objPv objPagePv : Z) : outcome MemPool :=
  let free := push_free (m_free_tiny_objs st) objPagePv objPv in
  let onePageObjsCnt := m_sys_page_size conf / m_tiny_obj_threshold conf in
  let c := u32 (m_free_tiny_objs_cnt st + 1) in
  let* (pages, free, c, h) :=
    if Z.leb (u32 (m_one_slot_tiny_obj_resident_cnts conf + onePageObjsCnt)) c
    then release_full_page (m_tiny_obj_pages st) free c (heap st) onePageObjsCnt
    else Ret (m_tiny_obj_pages st, free, c, heap st) in
  Ret (set_tiny st pages free c h).

(** Lines 282-306 and 310-333: the slot tables and the heap after the step. *)
Definition put_slot (free_objs : gmap Z SlotObjPage) (pages : gmap Z (gset Z)) (h : gmap Z Z)
    (slotIdx slotSize resident objPv objPagePv : Z) : outcome (gmap Z SlotObjPage * gmap Z (gset Z) * gmap Z Z) :=
  match free_objs !! slotIdx with
  | None => Undef "end iterator of the slot table dereferenced"
  | Some slot =>
      let free := push_free (objs slot) objPagePv objPv in
      let onePageSize := gen_expand_slot_page_size slotSize (m_expand_obj_cnt_factor conf) (m_sys_page_size conf) in
      let onePageObjsCnt := onePageSize / slotSize in
      let c := u32 (cnt slot + 1) in
      if Z.leb (u32 (resident + onePageObjsCnt)) c then
        let pgs := default ∅ (pages !! slotIdx) in
        let* (pgs, free, c, h) := release_full_page pgs free c h onePageObjsCnt in
        Ret (<[slotIdx := mkSlot free c]> free_objs, <[slotIdx := pgs]> pages, h)
      else Ret (<[slotIdx := mkSlot free c]> free_objs, pages, h)
  end.

Definition put_small (st : MemPool) (slotSize objPv objPagePv : Z) : outcome MemPool :=
  let slotIdx := convert_slot_obj_size_to_slot_idx slotSize (m_small_obj_slot_footstep_size conf) in
  let* (free_objs, pages, h) :=
    put_slot (m_free_small_objs st) (m_small_obj_pages st) (heap st) slotIdx slotSize
      (m_one_slot_small_obj_resident_cnts conf) objPv objPagePv in
  Ret (set_small st pages free_objs h).

Definition put_big (st : MemPool) (slotSize objPv objPagePv : Z) : outcome MemPool :=
  let slotIdx := convert_slot_obj_size_to_slot_idx slotSize (m_sys_page_size conf) in
  let* (free_objs, pages, h) :=
    put_slot (m_free_big_objs st) (m_big_obj_pages st) (heap st) slotIdx slotSize
      (m_one_slot_big_obj_resident_cnts conf) objPv objPagePv in
  Ret (set_big st pages free_objs h).

Definition put_bulk (st : MemPool) (slotSize objPv objPagePv : Z) : outcome MemPool :=
  let slotIdx := convert_slot_obj_size_to_slot_idx slotSize (m_sys_page_size conf) in
  if Z.ltb (m_available_reserve_bulk_obj_max_size conf) slotSize then
    match m_bulk_obj_pages st !! slotIdx with
    | None => Undef "end iterator of the bulk page table dereferenced"
    | Some pgs =>
        let pgs := pgs ∖ {[objPagePv]} in
        let* h := heap_free (heap st) objPagePv in
        let pages := if decide (pgs = ∅) then delete slotIdx (m_bulk_obj_pages st)
                     else <[slotIdx := pgs]> (m_bulk_obj_pages st) in
        Ret (set_bulk st pages (m_free_hash_bulk_objs st) (m_free_bulk_objs st) h)
    end
  else
    let '(slot, keys) :=
      match m_free_hash_bulk_objs st !! slotIdx with
      | Some slot => (slot, m_free_bulk_objs st)
      | None => (mkSlot {[objPagePv := []]} 0, {[slotIdx]} ∪ m_free_bulk_objs st)
      end in
    let free := push_free (objs slot) objPagePv objPv in
    let onePageSize := gen_expand_slot_page_size slotSize (m_expand_bulk_obj_cnt_factor conf) (m_sys_page_size conf) in
    let onePageObjsCnt := onePageSize / slotSize in
    let c := u32 (cnt slot + 1) in
    if Z.leb (u32 (m_one_slot_bulk_obj_resident_cnts conf + onePageObjsCnt)) c then
      match list_find (fun e : Z * list Z => onePageObjsCnt = Z.of_nat (length e.2)) (iter free) with
      | None => Ret (set_bulk st (m_bulk_obj_pages st) (<[slotIdx := mkSlot free c]> (m_free_hash_bulk_objs st)) keys (heap st))
      | Some (_, (freePtr, _)) =>
          let pages := <[slotIdx := default ∅ (m_bulk_obj_pages st !! slotIdx) ∖ {[freePtr]}]> (m_bulk_obj_pages st) in
          let* h := heap_free (heap st) freePtr in
          let c := u32 (c - onePageObjsCnt) in
          if Z.eqb c 0 then
            Ret (set_bulk st pages (delete slotIdx (m_free_hash_bulk_objs st)) (keys ∖ {[slotIdx]}) h)
          else
            Ret (set_bulk st pages (<[slotIdx := mkSlot (delete freePtr free) c]> (m_free_hash_bulk_objs st)) keys h)
      end
    else Ret (set_bulk st (m_bulk_obj_pages st) (<[slotIdx := mkSlot free c]> (m_free_hash_bulk_objs st)) keys (heap st)).

(** [put]: the switch on the type (lines 254-381). *)
Definition put (st : MemPool) (type : MemObjectType) (slotSize objPv objPagePv : Z) : outcome MemPool :=
  match type with
  | Tiny => put_tiny st objPv objPagePv
  | Small => put_small st slotSize objPv objPagePv
  | Big => put_big st slotSize objPv objPagePv
  | Bulk => put_bulk st slotSize objPv objPagePv
  end.

(** [Put(MemObject* )]; [None] is [nullptr]. *)
Definition Put (st : MemPool) (memObject : option positive) : outcome MemPool :=
  match memObject with
  | None => Ret st
  | Some p =>
      match mo_store st !! p with
      | None => Undef "MemObject pointer without an object"
      | Some mo =>
          let* st := put st (m_type mo) (m_slot_size mo) (m_obj_pv mo) (m_obj_page_pv mo) in
          Ret (set_mos st (m_free_mem_objs st ++ [p]) (mo_store st))
      end
  end.

(** [~MemPool] (lines 92-122): every page the tables name is freed, then every
    recycled [MemObject] is deleted.  What is left of the heap and of the
    [MemObject]s is the result. *)
Fixpoint free_all (h : gmap Z Z) (ps : list Z) : outcome (gmap Z Z) :=
  match ps with
  | [] => Ret h
  | p :: ps => let* h := heap_free h p in free_all h ps
  end.

Definition table_pages (t : gmap Z (gset Z)) : list Z :=
  map_to_list t ≫= (fun e => elements e.2).

Fixpoint delete_all (store : gmap positive MemObject) (ks : list positive) : outcome (gmap positive MemObject) :=
  match ks with
  | [] => Ret store
  | k :: ks =>
      match store !! k with
      | Some _ => delete_all (delete k store) ks
      | None => Undef "delete of a pointer without an object"
      end
  end.

Definition MemPool_delete (st : MemPool) : outcome (gmap Z Z * gmap positive MemObject) :=
  let* h := free_all (heap st) (elements (m_tiny_obj_pages st)) in
  let* h := free_all h (table_pages (m_small_obj_pages st)) in
  let* h := free_all h (table_pages (m_big_obj_pages st)) in
  let* h := free_all h (table_pages (m_bulk_obj_pages st)) in
  let* store := delete_all (mo_store st) (m_free_mem_objs st) in
  Ret (h, store).

End pool.

(** The accessors of [MemObject] (lines 19-45); [SlotIdx] gives the size of the
    slot. *)
Module MemObjectApi.
Definition Pointer (o : MemObject) : Z := m_obj_pv o.
Definition Size (o : MemObject) : Z := m_slot_size o.
Definition Type_ (o : MemObject) : MemObjectType := m_type o.
Definition SlotIdx (o : MemObject) : Z := m_slot_size o.
Definition ObjectPointerValue (o : MemObject) : Z := m_obj_pv o.
Definition ObjectPagePointerValue (o : MemObject) : Z := m_obj_page_pv o.
End MemObjectApi.
