(* ===== verification/MemPoolSafety.v ===== *)
(** * MemPoolSafety: the pool never hands out overlapping memory

    The invariant of the tiny, small and big classes of [MemPool], without bulk objects, its
    preservation by [Get] and [Put], and the properties that follow from it:
    both operations return, an object is large enough and lies inside one
    system block, and two live objects never share a byte. *)

From S2P Require Import Prelude MemPool.

(** ** Size arithmetic *)

Lemma roundup_low_bits n e : 1 <= e <= 31 ->
  Z.lxor (u32 (Z.shiftl n (32 - e))) 0 = (n mod 2 ^ e) * 2 ^ (32 - e).
Proof.
  intros He. rewrite Z.lxor_0_r. unfold u32, wrap.
  rewrite Z.shiftl_mul_pow2 by lia.
  replace (2 ^ 32) with (2 ^ e * 2 ^ (32 - e)) by (rewrite <- Z.pow_add_r by lia; f_equal; lia).
  apply Z.mul_mod_distr_r; apply Z.pow_nonzero; lia.
Qed.

Lemma roundup_mask n e : 1 <= e <= 31 -> in_u 32 n ->
  Z.land n (u32 (Z.shiftl (Z.shiftr 4294967295 e) e)) = n - n mod 2 ^ e.
Proof.
  intros He Hn. change 4294967295 with (Z.ones 32).
  assert (0 < 2 ^ e) by (apply Z.pow_pos_nonneg; lia).
  rewrite Z.shiftr_div_pow2, Z.ones_div_pow2 by lia.
  rewrite Z.shiftl_mul_pow2 by lia.
  assert (Z.ones (32 - e) * 2 ^ e = 2 ^ 32 - 2 ^ e) as E.
  { rewrite Z.ones_equiv. replace (2 ^ 32) with (2 ^ (32 - e) * 2 ^ e)
      by (rewrite <- Z.pow_add_r by lia; f_equal; lia). lia. }
  rewrite u32_id by (rewrite E; unfold in_u; pose proof (Z.pow_le_mono_r 2 e 32); lia).
  rewrite <- Z.shiftl_mul_pow2 by lia.
  replace n with (Z.shiftl (Z.shiftr n e) e + n mod 2 ^ e) at 1.
  2:{ rewrite Z.shiftr_div_pow2, Z.shiftl_mul_pow2 by lia. pose proof (Z.div_mod n (2 ^ e)). lia. }
  apply Z.bits_inj'. intros i Hi.
  rewrite Z.land_spec. destruct (Z.lt_ge_cases i e).
  - rewrite (Z.shiftl_spec_low (Z.ones _)) by lia. rewrite andb_false_r.
    symmetry. replace (n - n mod 2 ^ e) with (Z.shiftl (n / 2 ^ e) e).
    + by rewrite Z.shiftl_spec_low.
    + rewrite Z.shiftl_mul_pow2 by lia. pose proof (Z.div_mod n (2 ^ e)). lia.
  - rewrite Z.shiftl_spec by lia.
    replace (Z.shiftl (Z.shiftr n e) e + n mod 2 ^ e) with n
      by (rewrite Z.shiftr_div_pow2, Z.shiftl_mul_pow2 by lia; pose proof (Z.div_mod n (2 ^ e)); lia).
    replace (n - n mod 2 ^ e) with (Z.shiftl (n / 2 ^ e) e)
      by (rewrite Z.shiftl_mul_pow2 by lia; pose proof (Z.div_mod n (2 ^ e)); lia).
    rewrite Z.shiftl_spec, Z.div_pow2_bits by lia. replace (i - e + e) with i by lia.
    destruct (Z.lt_ge_cases (i - e) (32 - e)).
    + rewrite Z.ones_spec_low by lia. by rewrite andb_true_r.
    + rewrite Z.ones_spec_high by lia. rewrite andb_false_r.
      symmetry. apply (in_u_testbit 32); [done|lia].
Qed.

(** The rounding of a request: the least multiple of [2^e] not below it. *)
Lemma roundup_least n e : 1 <= e <= 31 -> 0 <= n -> n + 2 ^ e <= 2 ^ 32 ->
  let r := roundup_to_the_next_highest_multiple_of_exponent2 n e in
  r mod 2 ^ e = 0 /\ n <= r < n + 2 ^ e.
Proof.
  intros He Hn Hb. assert (0 < 2 ^ e) by (apply Z.pow_pos_nonneg; lia).
  assert (in_u 32 n) by (unfold in_u; lia).
  unfold roundup_to_the_next_highest_multiple_of_exponent2.
  rewrite roundup_low_bits, roundup_mask by done.
  assert (0 < 2 ^ (32 - e)) by (apply Z.pow_pos_nonneg; lia).
  pose proof (Z.mod_pos_bound n (2 ^ e)) as Hm.
  destruct (Z.eqb_spec (n mod 2 ^ e * 2 ^ (32 - e)) 0) as [E|E].
  - assert (n mod 2 ^ e = 0) by nia. simpl. lia.
  - assert (n mod 2 ^ e <> 0) by nia.
    replace (Z.shiftl 2 (e - 1)) with (2 ^ e).
    2:{ rewrite Z.shiftl_mul_pow2 by lia. replace (2 * 2 ^ (e - 1)) with (2 ^ Z.succ (e - 1))
          by (rewrite Z.pow_succ_r by lia; done). f_equal; lia. }
    assert (in_u 32 (2 ^ e)) by (unfold in_u; split; [lia|apply Z.pow_lt_mono_r; lia]).
    rewrite (u32_id (2 ^ e)) by done. simpl.
    rewrite u32_id by (unfold in_u; lia).
    replace (n - n mod 2 ^ e + 2 ^ e) with ((n / 2 ^ e + 1) * 2 ^ e)
      by (pose proof (Z.div_mod n (2 ^ e)); lia).
    split; [apply Z.mod_mul; lia|]. pose proof (Z.div_mod n (2 ^ e)). lia.
Qed.

Lemma gen_expand_bounds s f page : 0 < s -> 0 < f -> 0 < page -> s * f + page <= 2 ^ 32 ->
  let P := gen_expand_slot_page_size s f page in
  P mod page = 0 /\ s * f <= P < s * f + page.
Proof.
  intros Hs Hf Hp Hb. unfold gen_expand_slot_page_size.
  assert (0 < s * f) by nia. rewrite (u32_id (s * f)) by (unfold in_u; lia).
  pose proof (Z.div_mod (s * f) page). pose proof (Z.mod_pos_bound (s * f) page).
  assert (0 <= s * f / page) by (apply Z.div_pos; lia).
  assert (s * f / page <= s * f) by (apply Z.div_le_upper_bound; nia).
  destruct (Z.eqb_spec (s * f mod page) 0).
  - rewrite u32_id by (unfold in_u; nia). simpl. split; [apply Z.mod_mul; lia|]. nia.
  - rewrite (u32_id (s * f / page + 1)) by (unfold in_u; nia).
    rewrite u32_id by (unfold in_u; nia). simpl. split; [apply Z.mod_mul; lia|]. nia.
Qed.

Lemma split_mem_page_in s p P x : 0 < s -> 0 <= p -> in_u 32 P -> p + P <= 2 ^ 64 ->
  x ∈ split_mem_page s p P <-> exists j, 0 <= j < P / s /\ x = p + s * j.
Proof.
  intros Hs Hp HP Hb. unfold split_mem_page. rewrite list_elem_of_fmap.
  assert (forall j, 0 <= j < P / s -> u64 (p + u32 (s * j)) = p + s * j) as E.
  { intros j Hj. pose proof (Z.mul_div_le P s Hs). unfold in_u in HP.
    rewrite u32_id by (unfold in_u; nia). rewrite u64_id by (unfold in_u; nia). done. }
  split.
  - intros (j & -> & Hj). apply elem_of_seqZ in Hj. exists j. split; [lia|]. apply E. lia.
  - intros (j & Hj & ->). exists j. split; [symmetry; by apply E|]. apply elem_of_seqZ. lia.
Qed.

Lemma split_mem_page_length s p P : 0 < s -> 0 <= P -> Z.of_nat (length (split_mem_page s p P)) = P / s.
Proof.
  intros. unfold split_mem_page. rewrite length_fmap, length_seqZ.
  rewrite Z2Nat.id; [done|]. apply Z.div_pos; lia.
Qed.

Lemma split_mem_page_nodup s p P : 0 < s -> 0 <= p -> in_u 32 P -> p + P <= 2 ^ 64 ->
  NoDup (split_mem_page s p P).
Proof.
  intros Hs Hp HP Hb. unfold split_mem_page. unfold in_u in HP.
  apply NoDup_fmap_2_strong; [|apply NoDup_seqZ].
  intros i j Hi Hj. apply elem_of_seqZ in Hi, Hj. pose proof (Z.mul_div_le P s Hs).
  rewrite !u32_id, !u64_id by (unfold in_u; rewrite ?u32_id by (unfold in_u; nia); nia). nia.
Qed.

(** A duplicate-free list of objects of a page that is as long as the page has
    objects contains every one of them. *)
Lemma full_page_all s p P l x : 0 < s -> 0 <= p -> in_u 32 P -> p + P <= 2 ^ 64 ->
  NoDup l -> l ⊆ split_mem_page s p P -> Z.of_nat (length l) = P / s ->
  x ∈ split_mem_page s p P -> x ∈ l.
Proof.
  intros Hs Hp HP Hb Hn Hsub Hlen Hx.
  assert (l ⊆+ split_mem_page s p P) as Hm by (by apply NoDup_submseteq).
  assert (l ≡ₚ split_mem_page s p P) as Hperm.
  { apply submseteq_length_Permutation; [done|].
    pose proof (split_mem_page_length s p P Hs ltac:(unfold in_u in *; lia)). lia. }
  by rewrite Hperm.
Qed.

(** ** The invariant of one slot

    [s] is the object size and [P] the page size of the slot; [pages] and
    [free] are its tables. *)

Record slot_inv (s P : Z) (pages : gset Z) (free : free_map) (h : gmap Z Z) : Prop := mkSlotInv {
  si_pages : forall p, p ∈ pages -> h !! p = Some P;
  si_free : forall p l, free !! p = Some l ->
    p ∈ pages /\ l <> [] /\ NoDup l /\ l ⊆ split_mem_page s p P
}.

(** The blocks of the system heap: non-empty, addressable, pairwise disjoint. *)
Record heap_inv (h : gmap Z Z) : Prop := mkHeapInv {
  hi_block : forall p n, h !! p = Some n -> 0 < p /\ 0 < n /\ p + n <= 2 ^ 64;
  hi_disj : forall p n q k, h !! p = Some n -> h !! q = Some k -> p <> q -> p + n <= q \/ q + k <= p
}.

(** A block that is disjoint from the others joins the heap. *)
Lemma heap_inv_alloc h pg n : heap_inv h -> 0 < pg -> 0 < n -> pg + n <= 2 ^ 64 ->
  (forall q k, h !! q = Some k -> pg + n <= q \/ q + k <= pg) -> heap_inv (<[pg := n]> h).
Proof.
  intros Hh Hp Hn Hb Hdis. split.
  - intros p m Hm. destruct (decide (p = pg)) as [->|]; simplify_map_eq; [lia|exact (hi_block _ Hh _ _ Hm)].
  - intros p m q k Hm Hq Hne.
    destruct (decide (p = pg)) as [->|]; destruct (decide (q = pg)) as [->|]; simplify_map_eq; try done.
    + exact (Hdis _ _ Hq).
    + destruct (Hdis _ _ Hm); lia.
    + exact (hi_disj _ Hh _ _ _ _ Hm Hq Hne).
Qed.

(** The free objects the table holds for page [p]. *)
Definition free_of (free : free_map) (p : Z) : list Z := default [] (free !! p).

(** Each lemma depends only on the hypotheses its proof names. *)
#[local] Set Default Proof Using "Type".

Section slot_objects.
Context (iter : free_map -> list (Z * list Z)).

(** Iterating an [unordered_map] visits each entry once, in some order. *)
Hypothesis iter_perm : forall m, iter m ≡ₚ map_to_list m.

Lemma iter_in m p l : (p, l) ∈ iter m <-> m !! p = Some l.
Proof using iter_perm. rewrite iter_perm. apply elem_of_map_to_list. Qed.

Lemma iter_nil m : iter m = [] <-> m = ∅.
Proof using iter_perm.
  split.
  - intros E. apply map_empty. intros p. destruct (m !! p) eqn:Ep; [|done].
    apply iter_in in Ep. rewrite E in Ep. by apply not_elem_of_nil in Ep.
  - intros ->. destruct (iter ∅) as [|[p l] tl] eqn:E; [done|].
    assert ((p, l) ∈ iter ∅) as H by (rewrite E; left). by apply iter_in in H.
Qed.

(** Taking an object: it returns, and when there is a free object the result
    is one, no longer in the table. *)
Lemma get_free_obj_spec s P pages free h : slot_inv s P pages free h -> free <> ∅ ->
  exists free' pg ob, get_free_obj_from_slot_page iter free = Ret (free', pg, ob) /\
    pg ∈ pages /\ ob ∈ free_of free pg /\ slot_inv s P pages free' h /\
    (ob ∉ free_of free' pg) /\ forall q, free_of free' q ⊆ free_of free q.
Proof using iter_perm.
  intros Hi Hne. unfold get_free_obj_from_slot_page.
  destruct (iter free) as [|[pg l] tl] eqn:E; [by apply iter_nil in E|].
  assert (free !! pg = Some l) as Hl by (apply iter_in; rewrite E; left).
  destruct (si_free _ _ _ _ _ Hi _ _ Hl) as (Hpg & Hnil & Hnd & Hsub).
  destruct l as [|ob rest]; [done|].
  apply NoDup_cons in Hnd as [Hnotin Hnd].
  eexists _, pg, ob. split; [done|]. split; [done|].
  split; [unfold free_of; rewrite Hl; left|].
  assert (forall q, free_of (if decide (rest = []) then delete pg free else <[pg:=rest]> free) q =
            if decide (pg = q) then rest else free_of free q) as Hfo.
  { intros q. unfold free_of. repeat case_decide; subst; simplify_map_eq; try done. }
  split; [|split].
  - split; [apply Hi|]. intros p l Hp. case_decide; subst.
    + apply lookup_delete_Some in Hp as [_ Hp]. exact (si_free _ _ _ _ _ Hi _ _ Hp).
    + destruct (decide (pg = p)) as [->|]; simplify_map_eq; [|exact (si_free _ _ _ _ _ Hi _ _ Hp)].
      split; [done|]. split; [done|]. split; [done|]. intros x Hx. apply Hsub. by right.
  - by rewrite Hfo, decide_True.
  - intros q. rewrite Hfo. destruct (decide (pg = q)) as [<-|]; [|done]. unfold free_of. rewrite Hl. intros x Hx. by right.
Qed.

(** Returning an object to its slot. *)
Lemma push_free_spec s P pages free h pg ob : slot_inv s P pages free h ->
  pg ∈ pages -> ob ∈ split_mem_page s pg P -> ob ∉ free_of free pg ->
  slot_inv s P pages (push_free free pg ob) h /\
  (forall q, free_of (push_free free pg ob) q =
     if decide (q = pg) then free_of free pg ++ [ob] else free_of free q).
Proof.
  intros Hi Hpg Hob Hni. split.
  - split; [apply Hi|]. unfold push_free. intros p l Hp.
    destruct (decide (p = pg)) as [->|]; simplify_map_eq; [|exact (si_free _ _ _ _ _ Hi _ _ Hp)].
    split; [done|]. split; [by destruct (default [] _)|].
    destruct (free !! pg) as [l|] eqn:El; simpl; unfold free_of in Hni; rewrite El in Hni; simpl in Hni.
    + destruct (si_free _ _ _ _ _ Hi _ _ El) as (_ & _ & Hnd & Hsub). split.
      * apply NoDup_app. split; [done|]. split; [|apply NoDup_singleton].
        intros x Hx Hx'. apply list_elem_of_singleton in Hx' as ->. done.
      * intros x Hx. apply elem_of_app in Hx as [Hx|Hx]; [by apply Hsub|].
        by apply list_elem_of_singleton in Hx as ->.
    + split; [apply NoDup_singleton|]. intros x Hx. by apply list_elem_of_singleton in Hx as ->.
  - intros q. unfold push_free, free_of. case_decide; subst; by simplify_map_eq.
Qed.

(** Releasing a completely free page: it returns, and the page that goes back
    to the system is one all of whose objects are free. *)
Lemma release_full_page_spec s P pages free h c n : heap_inv h -> slot_inv s P pages free h ->
  exists pages' free' c' h', release_full_page iter pages free c h n = Ret (pages', free', c', h') /\
    ((pages' = pages /\ free' = free /\ h' = h) \/
     (exists q l, q ∈ pages /\ free !! q = Some l /\ Z.of_nat (length l) = n /\
        pages' = pages ∖ {[q]} /\ free' = delete q free /\ h' = delete q h /\
        slot_inv s P pages' free' h' /\ heap_inv h')).
Proof using iter_perm.
  intros Hh Hi. unfold release_full_page.
  destruct (list_find _ _) as [[i [q l]]|] eqn:E.
  2:{ eexists _, _, _, _. split; [done|]. by left. }
  apply list_find_Some in E as (Hi' & Hlen & _). simpl in Hlen.
  assert (free !! q = Some l) as Hl by (apply iter_in; eapply list_elem_of_lookup_2; done).
  destruct (si_free _ _ _ _ _ Hi _ _ Hl) as (Hq & _).
  unfold heap_free. rewrite (si_pages _ _ _ _ _ Hi _ Hq). simpl.
  eexists _, _, _, _. split; [done|]. right. exists q, l.
  do 6 (split; [done|]). split; [split|split].
  - intros p Hp. rewrite lookup_delete_ne by (intros ->; set_solver). apply Hi. set_solver.
  - intros p l' Hp. apply lookup_delete_Some in Hp as [Hne Hp].
    destruct (si_free _ _ _ _ _ Hi _ _ Hp) as (? & ?). split; [set_solver|done].
  - intros p m Hp. apply lookup_delete_Some in Hp as [_ Hp]. exact (hi_block _ Hh _ _ Hp).
  - intros p m p' k Hp Hp'. apply lookup_delete_Some in Hp as [_ Hp]. apply lookup_delete_Some in Hp' as [_ Hp'].
    exact (hi_disj _ Hh _ _ _ _ Hp Hp').
Qed.

End slot_objects.

Section slot_pages.
Context (posix_memalign : gmap Z Z -> Z -> Z -> option Z).
Context (conf : MemPoolConf).

(** Documented behaviour of [posix_memalign]: a block it returns is not null,
    aligned, addressable and disjoint from every block already allocated. *)
Hypothesis memalign_block : forall h al n p, posix_memalign h al n = Some p ->
  0 < p /\ p mod al = 0 /\ p + n <= 2 ^ 64 /\
  forall q k, h !! q = Some k -> p + n <= q \/ q + k <= p.

(** Adding a page to an empty slot. *)
Lemma alloc_page_spec s P pages h : 0 < s -> s <= P -> in_u 32 P -> heap_inv h -> slot_inv s P pages ∅ h ->
  exists ok pages' free' h', alloc_page_objs posix_memalign conf h P s pages ∅ = (ok, pages', free', h') /\
    ((ok = false /\ pages' = pages /\ free' = ∅ /\ h' = h) \/
     (exists pg, ok = true /\ h !! pg = None /\ pages' = {[pg]} ∪ pages /\ free' <> ∅ /\
        h' = <[pg := P]> h /\ heap_inv h' /\ slot_inv s P pages' free' h' /\
        forall q, free_of free' q = if decide (q = pg) then split_mem_page s pg P else [])).
Proof using memalign_block.
  intros Hs HsP HP Hh Hi. unfold alloc_page_objs, PosixMemAlign.
  destruct (posix_memalign h (m_sys_page_size conf) P) as [pg|] eqn:E.
  2:{ eexists _, _, _, _. split; [reflexivity|]. by left. }
  destruct (memalign_block _ _ _ _ E) as (Hpos & _ & Hb & Hdis).
  destruct (Z.eqb_spec pg 0) as [|Hnz]; [lia|].
  eexists _, _, _, _. split; [reflexivity|]. right. exists pg.
  assert (h !! pg = None) as Hfresh.
  { destruct (h !! pg) as [k|] eqn:Ek; [|done]. destruct (hi_block _ Hh _ _ Ek). specialize (Hdis _ _ Ek).
    unfold in_u in HP. lia. }
  split; [done|]. split; [done|]. split; [done|]. split; [apply insert_non_empty|]. split; [done|].
  split; [|split].
  - apply heap_inv_alloc; try done; unfold in_u in HP; lia.
  - split.
    + intros p Hp. destruct (decide (p = pg)) as [->|]; simplify_map_eq; [done|]. apply Hi.
      apply elem_of_union in Hp as [Hp%elem_of_singleton|Hp]; done.
    + intros p l Hp. destruct (decide (p = pg)) as [->|]; simplify_map_eq.
      split; [apply elem_of_union_l, elem_of_singleton; done|]. split; [|split; [apply split_mem_page_nodup; lia || done|done]].
      intros E0. pose proof (split_mem_page_length s pg P Hs ltac:(unfold in_u in HP; lia)) as Hl.
      rewrite E0 in Hl. simpl in Hl. assert (1 <= P / s) by (apply Z.div_le_lower_bound; lia). lia.
  - intros q. unfold free_of. case_decide; subst; by simplify_map_eq.
Qed.

End slot_pages.

(** ** The invariant of the pool *)

(** The configurations the constructor is meant for: a power-of-two page, slot
    sizes that divide the thresholds, and slot pages that fit [uint32_t]. *)
Record conf_ok (c : MemPoolConf) : Prop := mkConfOk {
  co_page : 5 <= m_big_obj_slot_footstep_exponent c <= 30 /\
    m_sys_page_size c = 2 ^ m_big_obj_slot_footstep_exponent c;
  co_small : m_small_obj_slot_footstep_size c = 32 /\ m_small_obj_slot_footstep_exponent c = 5;
  co_tiny : 0 < m_tiny_obj_threshold c <= m_sys_page_size c;
  co_big : 0 < m_big_obj_threshold c /\ m_big_obj_threshold c mod 32 = 0;
  co_bulk : 0 < m_bulk_obj_threshold c /\ m_bulk_obj_threshold c mod m_sys_page_size c = 0;
  co_factor : 0 < m_expand_obj_cnt_factor c;
  co_fit : m_big_obj_threshold c * m_expand_obj_cnt_factor c + m_sys_page_size c <= 2 ^ 32 /\
    m_bulk_obj_threshold c * m_expand_obj_cnt_factor c + m_sys_page_size c <= 2 ^ 32
}.

Section pool_inv.
Context (conf : MemPoolConf).

(** The slots: a class and an object size. *)
Definition slot_ok (t : MemObjectType) (s : Z) : Prop :=
  match t with
  | Tiny => s = m_tiny_obj_threshold conf
  | Small => 0 < s <= m_big_obj_threshold conf /\ s mod 32 = 0
  | Big => 0 < s <= m_bulk_obj_threshold conf /\ s mod m_sys_page_size conf = 0
  | Bulk => False
  end.

Definition page_bytes (t : MemObjectType) (s : Z) : Z :=
  match t with
  | Tiny => m_sys_page_size conf
  | _ => gen_expand_slot_page_size s (m_expand_obj_cnt_factor conf) (m_sys_page_size conf)
  end.

Definition slot_pages (st : MemPool) (t : MemObjectType) (s : Z) : gset Z :=
  match t with
  | Tiny => m_tiny_obj_pages st
  | Small => default ∅ (m_small_obj_pages st !! (s / 32))
  | Big => default ∅ (m_big_obj_pages st !! (s / m_sys_page_size conf))
  | Bulk => ∅
  end.

Definition slot_free (st : MemPool) (t : MemObjectType) (s : Z) : free_map :=
  match t with
  | Tiny => m_free_tiny_objs st
  | Small => objs (default empty_slot (m_free_small_objs st !! (s / 32)))
  | Big => objs (default empty_slot (m_free_big_objs st !! (s / m_sys_page_size conf)))
  | Bulk => ∅
  end.

(** A [MemObject] that was handed out and not yet put back. *)
Definition live (st : MemPool) (k : positive) (mo : MemObject) : Prop :=
  mo_store st !! k = Some mo /\ k ∉ m_free_mem_objs st.

Record mos_ok (st : MemPool) : Prop := mkMosOk {
  mk_nodup : NoDup (m_free_mem_objs st);
  mk_dom : forall k, k ∈ m_free_mem_objs st -> is_Some (mo_store st !! k)
}.

Definition slots_exist (st : MemPool) : Prop :=
  (forall s, slot_ok Small s -> is_Some (m_free_small_objs st !! (s / 32))) /\
  (forall s, slot_ok Big s -> is_Some (m_free_big_objs st !! (s / m_sys_page_size conf))).

(** A live object belongs to a page of its slot and is not free. *)
Definition live_ok (st : MemPool) (mo : MemObject) : Prop :=
  slot_ok (m_type mo) (m_slot_size mo) /\
  m_obj_page_pv mo ∈ slot_pages st (m_type mo) (m_slot_size mo) /\
  m_obj_pv mo ∈ split_mem_page (m_slot_size mo) (m_obj_page_pv mo) (page_bytes (m_type mo) (m_slot_size mo)) /\
  (m_obj_pv mo ∉ free_of (slot_free st (m_type mo) (m_slot_size mo)) (m_obj_page_pv mo)).

Record pool_inv (st : MemPool) : Prop := mkPoolInv {
  pi_heap : heap_inv (heap st);
  pi_slot : forall t s, slot_ok t s ->
    slot_inv s (page_bytes t s) (slot_pages st t s) (slot_free st t s) (heap st);
  pi_sep : forall t s t' s' p, slot_ok t s -> slot_ok t' s' ->
    p ∈ slot_pages st t s -> p ∈ slot_pages st t' s' -> t = t' /\ s = s';
  pi_exist : slots_exist st;
  pi_live : forall k mo, live st k mo -> live_ok st mo;
  pi_inj : forall k k' mo mo', live st k mo -> live st k' mo' -> k <> k' ->
    m_obj_page_pv mo = m_obj_page_pv mo' -> m_obj_pv mo <> m_obj_pv mo';
  pi_mos : mos_ok st
}.

(** The step of one slot: its tables and the heap change, no object becomes live. *)
Record slot_upd (st : MemPool) (t : MemObjectType) (s : Z) (pages : gset Z) (free : free_map) (h : gmap Z Z)
    (st1 : MemPool) : Prop := mkSlotUpd {
  su_pages : slot_pages st1 t s = pages;
  su_free : slot_free st1 t s = free;
  su_heap : heap st1 = h;
  su_other : forall t' s', slot_ok t' s' -> ~ (t' = t /\ s' = s) ->
    slot_pages st1 t' s' = slot_pages st t' s' /\ slot_free st1 t' s' = slot_free st t' s';
  su_exist : slots_exist st1;
  su_live : forall k mo, live st1 k mo -> live st k mo;
  su_mos : mos_ok st1
}.

Lemma slot_upd_inv st t s pages free h st1 :
  pool_inv st -> slot_ok t s -> slot_upd st t s pages free h st1 ->
  heap_inv h -> slot_inv s (page_bytes t s) pages free h ->
  (forall t' s' p, slot_ok t' s' -> ~ (t' = t /\ s' = s) -> p ∈ slot_pages st t' s' ->
     h !! p = heap st !! p /\ p ∉ pages) ->
  (forall k mo, live st1 k mo -> m_type mo = t -> m_slot_size mo = s ->
     m_obj_page_pv mo ∈ pages /\ m_obj_pv mo ∉ free_of free (m_obj_page_pv mo)) ->
  pool_inv st1.
Proof.
  intros Hinv Hok Hu Hh Hs Hoth Hlv.
  assert (forall t' s', {t' = t /\ s' = s} + {~ (t' = t /\ s' = s)}) as Hdec
    by (intros t' s'; destruct (decide (t' = t)), (decide (s' = s)); tauto).
  split.
  - rewrite (su_heap _ _ _ _ _ _ _ Hu). exact Hh.
  - intros t' s' Hok'. rewrite (su_heap _ _ _ _ _ _ _ Hu).
    destruct (Hdec t' s') as [[-> ->]|Hne].
    + rewrite (su_pages _ _ _ _ _ _ _ Hu), (su_free _ _ _ _ _ _ _ Hu). exact Hs.
    + destruct (su_other _ _ _ _ _ _ _ Hu t' s' Hok' Hne) as [-> ->].
      pose proof (pi_slot _ Hinv t' s' Hok') as Hi. split.
      * intros p Hp. destruct (Hoth t' s' p Hok' Hne Hp) as [-> _]. exact (si_pages _ _ _ _ _ Hi p Hp).
      * apply Hi.
  - intros t1 s1 t2 s2 p Hok1 Hok2 Hp1 Hp2.
    destruct (Hdec t1 s1) as [[-> ->]|Hne1]; destruct (Hdec t2 s2) as [[-> ->]|Hne2]; [done| | |].
    + rewrite (su_pages _ _ _ _ _ _ _ Hu) in Hp1.
      destruct (su_other _ _ _ _ _ _ _ Hu t2 s2 Hok2 Hne2) as [E _]. rewrite E in Hp2.
      destruct (Hoth t2 s2 p Hok2 Hne2 Hp2). done.
    + rewrite (su_pages _ _ _ _ _ _ _ Hu) in Hp2.
      destruct (su_other _ _ _ _ _ _ _ Hu t1 s1 Hok1 Hne1) as [E _]. rewrite E in Hp1.
      destruct (Hoth t1 s1 p Hok1 Hne1 Hp1). done.
    + destruct (su_other _ _ _ _ _ _ _ Hu t1 s1 Hok1 Hne1) as [E1 _].
      destruct (su_other _ _ _ _ _ _ _ Hu t2 s2 Hok2 Hne2) as [E2 _]. rewrite E1 in Hp1. rewrite E2 in Hp2.
      exact (pi_sep _ Hinv _ _ _ _ _ Hok1 Hok2 Hp1 Hp2).
  - apply Hu.
  - intros k mo Hk. pose proof (su_live _ _ _ _ _ _ _ Hu k mo Hk) as Hk'.
    destruct (pi_live _ Hinv k mo Hk') as (Hok' & Hpg & Hob & Hnf). unfold live_ok.
    destruct (Hdec (m_type mo) (m_slot_size mo)) as [[Et Es]|Hne].
    + rewrite Et, Es in *. rewrite (su_pages _ _ _ _ _ _ _ Hu), (su_free _ _ _ _ _ _ _ Hu).
      destruct (Hlv k mo Hk Et Es). done.
    + destruct (su_other _ _ _ _ _ _ _ Hu _ _ Hok' Hne) as [-> ->]. done.
  - intros k k' mo mo' Hk Hk'. apply (pi_inj _ Hinv); by apply (su_live _ _ _ _ _ _ _ Hu).
  - apply Hu.
Qed.

(** The header handed out is not in use, and leaves the list of free headers. *)
Lemma get_mem_object_shape st t s ob pg st2 k : mos_ok st -> get_mem_object st t s ob pg = (st2, k) ->
  exists rest, st2 = set_mos st rest (<[k := mkMemObject t s ob pg]> (mo_store st)) /\
    (k ∉ rest) /\ NoDup rest /\ (forall mo, ~ live st k mo) /\ (forall x, x ∈ rest -> x ∈ m_free_mem_objs st) /\
    (forall x, x <> k -> x ∈ rest <-> x ∈ m_free_mem_objs st).
Proof.
  intros [Hnd Hdom] Hg. unfold get_mem_object in Hg. destruct (m_free_mem_objs st) as [|k0 rest] eqn:E; injection Hg as <- <-.
  - exists []. split; [done|]. split; [apply not_elem_of_nil|]. split; [apply NoDup_nil_2|].
    split; [|done]. intros mo [Hk _].
    pose proof (is_fresh (dom (mo_store st))) as Hf. apply Hf. apply elem_of_dom. eauto.
  - apply NoDup_cons in Hnd as [Hni Hnd']. exists rest. split; [done|]. split; [done|]. split; [done|].
    split; [|split].
    + intros mo [_ Hk]. rewrite E in Hk. apply Hk. left.
    + intros x Hx. by right.
    + intros x Hne. rewrite elem_of_cons. intuition.
Qed.

(** Handing out an object that is neither free nor live. *)
Lemma get_mem_object_inv st t s ob pg st2 k :
  pool_inv st -> slot_ok t s -> pg ∈ slot_pages st t s -> ob ∈ split_mem_page s pg (page_bytes t s) ->
  ob ∉ free_of (slot_free st t s) pg ->
  (forall k' mo', live st k' mo' -> m_obj_page_pv mo' = pg -> m_obj_pv mo' <> ob) ->
  get_mem_object st t s ob pg = (st2, k) ->
  pool_inv st2 /\ live st2 k (mkMemObject t s ob pg) /\ (forall mo, ~ live st k mo) /\
  (forall k' mo', k' <> k -> live st2 k' mo' <-> live st k' mo').
Proof.
  intros Hinv Hok Hpg Hob Hnf Hnl Hg. pose proof (pi_mos _ Hinv) as [Hnd Hdom].
  destruct (get_mem_object_shape _ _ _ _ _ _ _ (pi_mos _ Hinv) Hg) as (rest & -> & Hk1 & Hk2 & Hk3 & Hk4 & Hk5).
  assert (forall k' mo', k' <> k ->
    live (set_mos st rest (<[k := mkMemObject t s ob pg]> (mo_store st))) k' mo' <-> live st k' mo') as Hiff.
  { intros k' mo' Hne. unfold live. simpl. rewrite lookup_insert_ne by done. by rewrite Hk5. }
  assert (live (set_mos st rest (<[k := mkMemObject t s ob pg]> (mo_store st))) k (mkMemObject t s ob pg)) as Hnew.
  { split; simpl; [apply lookup_insert_eq|done]. }
  split; [|done]. split; try apply Hinv.
  - intros k' mo' Hk'. destruct (decide (k' = k)) as [->|Hne].
    + destruct Hk' as [Hk' _]. destruct Hnew as [Hnew _]. rewrite Hnew in Hk'. injection Hk' as <-.
      repeat split; done.
    + rewrite Hiff in Hk' by done. exact (pi_live _ Hinv _ _ Hk').
  - intros k1 k2 m1 m2 H1 H2 Hne. 
    destruct (decide (k1 = k)) as [->|Hn1]; destruct (decide (k2 = k)) as [->|Hn2]; [done| | |].
    + rewrite Hiff in H2 by done. destruct H1 as [H1 _], Hnew as [Hnew _]. rewrite Hnew in H1. injection H1 as <-.
      simpl. intros E Eo. symmetry in E, Eo. exact (Hnl _ _ H2 E Eo).
    + rewrite Hiff in H1 by done. destruct H2 as [H2 _], Hnew as [Hnew _]. rewrite Hnew in H2. injection H2 as <-.
      simpl. intros E Eo. exact (Hnl _ _ H1 E Eo).
    + rewrite Hiff in H1, H2 by done. exact (pi_inj _ Hinv _ _ _ _ H1 H2 Hne).
  - split; simpl; [done|]. intros x Hx. destruct (decide (x = k)) as [->|]; [rewrite lookup_insert_eq; eauto|].
    rewrite lookup_insert_ne by done. apply Hdom. by apply Hk4.
Qed.

(** ** The two steps of a slot: taking an object and giving one back *)

Context (posix_memalign : gmap Z Z -> Z -> Z -> option Z).
Context (iter : free_map -> list (Z * list Z)).
Hypothesis memalign_block : forall h al n p, posix_memalign h al n = Some p ->
  0 < p /\ p mod al = 0 /\ p + n <= 2 ^ 64 /\
  forall q k, h !! q = Some k -> p + n <= q \/ q + k <= p.
Hypothesis iter_perm : forall m, iter m ≡ₚ map_to_list m.
Hypothesis Hconf : conf_ok conf.

Lemma page_bytes_bounds t s : slot_ok t s ->
  0 < s /\ s <= page_bytes t s /\ in_u 32 (page_bytes t s).
Proof using Hconf.
  destruct Hconf as [[He Hp] _ Ht Hbig Hbulk Hf [Hf1 Hf2]]. intros Hok.
  assert (0 < m_sys_page_size conf < 2 ^ 32)
    by (rewrite Hp; split; [apply Z.pow_pos_nonneg|apply Z.pow_lt_mono_r]; lia).
  destruct t; simpl in *; unfold in_u; [subst; lia| | |done].
  all: pose proof (gen_expand_bounds s (m_expand_obj_cnt_factor conf) (m_sys_page_size conf)
         ltac:(lia) Hf ltac:(lia) ltac:(nia)) as HB; simpl in HB; nia.
Qed.

(** The tables of the slot after the optional allocation of a page. *)
Definition expand_free (h : gmap Z Z) (P s : Z) (pages : gset Z) (free : free_map)
    : gset Z * free_map * gmap Z Z :=
  if decide (free = ∅) then
    let '(_, pages, free, h) := alloc_page_objs posix_memalign conf h P s pages free in (pages, free, h)
  else (pages, free, h).

Lemma expand_free_spec st t s pages1 free1 h1 : pool_inv st -> slot_ok t s ->
  expand_free (heap st) (page_bytes t s) s (slot_pages st t s) (slot_free st t s) = (pages1, free1, h1) ->
  heap_inv h1 /\ slot_inv s (page_bytes t s) pages1 free1 h1 /\ slot_pages st t s ⊆ pages1 /\
  (forall p, is_Some (heap st !! p) -> h1 !! p = heap st !! p /\ (p ∈ pages1 -> p ∈ slot_pages st t s)) /\
  (forall p, is_Some (heap st !! p) -> free_of free1 p = free_of (slot_free st t s) p).
Proof using memalign_block Hconf.
  intros Hinv Hok. destruct (page_bytes_bounds _ _ Hok) as (Hs & HsP & HP). unfold expand_free.
  pose proof (pi_slot _ Hinv _ _ Hok) as Hi. pose proof (pi_heap _ Hinv) as Hh.
  destruct (decide (slot_free st t s = ∅)) as [E|E].
  2:{ intros [= <- <- <-]. split; [done|]. split; [done|]. split; [done|]. split; [|done]. intros p Hp. done. }
  rewrite E in *.
  destruct (alloc_page_spec posix_memalign conf memalign_block _ _ _ _ Hs HsP HP Hh Hi)
    as (ok & pages' & free' & h' & Ea & Hcase).
  rewrite Ea. intros [= <- <- <-]. destruct Hcase as [(-> & -> & -> & ->)|(pg & -> & Hfr & -> & _ & -> & Hh' & Hi' & Hfo)].
  - split; [done|]. split; [done|]. split; [done|]. split; [|done]. intros p Hp. done.
  - split; [done|]. split; [done|]. split; [apply union_subseteq_r|].
    assert (forall p, is_Some (heap st !! p) -> p <> pg) as Hne by (intros p [n Hn] ->; congruence).
    split; intros p Hp; specialize (Hne p Hp).
    + rewrite lookup_insert_ne by done. split; [done|]. intros Hin. apply elem_of_union in Hin as [Hin|]; [|done].
      apply elem_of_singleton in Hin. done.
    + rewrite Hfo, decide_False by done. done.
Qed.

Lemma live_page st k mo : pool_inv st -> live st k mo ->
  slot_ok (m_type mo) (m_slot_size mo) /\ m_obj_page_pv mo ∈ slot_pages st (m_type mo) (m_slot_size mo) /\
  heap st !! m_obj_page_pv mo = Some (page_bytes (m_type mo) (m_slot_size mo)).
Proof.
  intros Hinv Hl. destruct (pi_live _ Hinv _ _ Hl) as (Hok & Hp & _).
  split; [done|]. split; [done|]. exact (si_pages _ _ _ _ _ (pi_slot _ Hinv _ _ Hok) _ Hp).
Qed.

(** Pages of another slot are blocks of the heap and not pages of this one. *)
Lemma other_slot_page st t s t' s' p : pool_inv st -> slot_ok t s -> slot_ok t' s' -> ~ (t' = t /\ s' = s) ->
  p ∈ slot_pages st t' s' -> is_Some (heap st !! p) /\ p ∉ slot_pages st t s.
Proof.
  intros Hinv Hok Hok' Hne Hp. split.
  - exists (page_bytes t' s'). exact (si_pages _ _ _ _ _ (pi_slot _ Hinv _ _ Hok') _ Hp).
  - intros Hp'. apply Hne. exact (pi_sep _ Hinv _ _ _ _ _ Hok' Hok Hp Hp').
Qed.

(** Slot [(t, s)] has no free object and the system has no page for it. *)
Definition no_object (st : MemPool) (t : MemObjectType) (s : Z) : Prop :=
  slot_free st t s = ∅ /\ posix_memalign (heap st) (m_sys_page_size conf) (page_bytes t s) = None.

Lemma expand_free_none st t s pages1 h1 : slot_ok t s ->
  expand_free (heap st) (page_bytes t s) s (slot_pages st t s) (slot_free st t s) = (pages1, ∅, h1) -> no_object st t s.
Proof using memalign_block.
  intros Hok. unfold expand_free, no_object. destruct (decide (slot_free st t s = ∅)) as [E|E]; [|by intros [= _ Ef _]].
  unfold alloc_page_objs, PosixMemAlign. destruct (posix_memalign _ _ _) as [p|] eqn:Ep; [|done].
  destruct (memalign_block _ _ _ _ Ep) as (Hp & _). destruct (Z.eqb_spec p 0); [lia|].
  intros [= _ Ef _]. by apply insert_non_empty in Ef.
Qed.

(** What taking an object of slot [(t, s)] gives, before the tables are stored. *)
Record take_ok (st : MemPool) (t : MemObjectType) (s : Z) (pages : gset Z) (free : free_map) (h : gmap Z Z)
    (pg ob : Z) : Prop := mkTakeOk {
  tk_heap : heap_inv h;
  tk_slot : slot_inv s (page_bytes t s) pages free h;
  tk_other : forall t' s' p, slot_ok t' s' -> ~ (t' = t /\ s' = s) -> p ∈ slot_pages st t' s' ->
    h !! p = heap st !! p /\ p ∉ pages;
  tk_live : forall k mo, live st k mo -> m_type mo = t -> m_slot_size mo = s ->
    m_obj_page_pv mo ∈ pages /\ m_obj_pv mo ∉ free_of free (m_obj_page_pv mo);
  tk_obj : ob <> 0 -> pg ∈ pages /\ ob ∈ split_mem_page s pg (page_bytes t s) /\ (ob ∉ free_of free pg) /\
    forall k mo, live st k mo -> m_obj_page_pv mo = pg -> m_obj_pv mo <> ob;
  tk_none : ob = 0 -> no_object st t s
}.

Lemma slot_take_spec st t s pages1 free1 h1 : pool_inv st -> slot_ok t s ->
  expand_free (heap st) (page_bytes t s) s (slot_pages st t s) (slot_free st t s) = (pages1, free1, h1) ->
  exists free2 pg ob, get_free_obj_from_slot_page iter free1 = Ret (free2, pg, ob) /\
    take_ok st t s pages1 free2 h1 pg ob.
Proof using memalign_block iter_perm Hconf.
  intros Hinv Hok Hx. destruct (expand_free_spec _ _ _ _ _ _ Hinv Hok Hx) as (Hh & Hi & Hsub & Hold & Hfo).
  assert (forall t' s' p, slot_ok t' s' -> ~ (t' = t /\ s' = s) -> p ∈ slot_pages st t' s' ->
    h1 !! p = heap st !! p /\ p ∉ pages1) as Hoth.
  { intros t' s' p Hok' Hne Hp. destruct (other_slot_page _ _ _ _ _ _ Hinv Hok Hok' Hne Hp) as [Hsome Hni].
    destruct (Hold _ Hsome). naive_solver. }
  assert (forall k mo, live st k mo -> m_type mo = t -> m_slot_size mo = s ->
    m_obj_page_pv mo ∈ pages1 /\ m_obj_pv mo ∉ free_of free1 (m_obj_page_pv mo)) as Hlv.
  { intros k mo Hl <- <-. destruct (live_page _ _ _ Hinv Hl) as (_ & Hp & Hb).
    destruct (pi_live _ Hinv _ _ Hl) as (_ & _ & _ & Hnf). split; [by apply Hsub|]. by rewrite Hfo by eauto. }
  destruct (decide (free1 = ∅)) as [->|Hne].
  { exists ∅, 0, 0. unfold get_free_obj_from_slot_page. pose proof (proj2 (iter_nil iter iter_perm ∅) eq_refl) as ->.
    split; [done|]. split; try done. intros _. by eapply expand_free_none. }
  destruct (get_free_obj_spec iter iter_perm _ _ _ _ _ Hi Hne) as (free2 & pg & ob & E & Hpg & Hob & Hi2 & Hno & Hsubf).
  assert (ob ∈ split_mem_page s pg (page_bytes t s)) as Hsp.
  { unfold free_of in Hob. destruct (free1 !! pg) as [l|] eqn:El; [|by apply not_elem_of_nil in Hob].
    destruct (si_free _ _ _ _ _ Hi _ _ El) as (_ & _ & _ & Hs). by apply Hs. }
  exists free2, pg, ob. split; [done|]. split; [done|done|done| | |].
  - intros k mo Hl Et Es. destruct (Hlv k mo Hl Et Es) as [Ha Hb]. split; [done|].
    intros Hin. apply Hb. by apply Hsubf.
  - intros _. split; [done|].
    split; [done|]. split; [done|]. intros k mo Hl Ep Eo.
    destruct (live_page _ _ _ Hinv Hl) as (Hok' & Hp & Hb). rewrite Ep in *.
    destruct (Hold pg) as [_ Hpin]; [by eauto|].
    destruct (pi_sep _ Hinv _ _ _ _ _ Hok' Hok Hp (Hpin Hpg)) as [Et Es].
    destruct (Hlv k mo Hl Et Es) as [_ Hnf]. rewrite Ep, Eo in Hnf. done.
  - intros ->. exfalso. destruct (page_bytes_bounds _ _ Hok) as (Hs & _ & HP).
    destruct (hi_block _ Hh _ _ (si_pages _ _ _ _ _ Hi _ Hpg)) as (Hp0 & _ & Hpb).
    apply split_mem_page_in in Hsp as (j & Hj & Ej); [nia|done|lia|done|done].
Qed.

(** Giving the object [mo] back: whether or not a free page is released, the
    slot stays consistent and keeps every other live object. *)
Lemma slot_put_spec st k mo (rel : bool) c : pool_inv st -> live st k mo ->
  let t := m_type mo in let s := m_slot_size mo in
  let free := push_free (slot_free st t s) (m_obj_page_pv mo) (m_obj_pv mo) in
  exists pages' free' c' h',
    (if rel then release_full_page iter (slot_pages st t s) free c (heap st) (page_bytes t s / s)
     else Ret (slot_pages st t s, free, c, heap st)) = Ret (pages', free', c', h') /\
    heap_inv h' /\ slot_inv s (page_bytes t s) pages' free' h' /\
    (forall t' s' p, slot_ok t' s' -> ~ (t' = t /\ s' = s) -> p ∈ slot_pages st t' s' ->
       h' !! p = heap st !! p /\ p ∉ pages') /\
    (forall k' mo', live st k' mo' -> k' <> k -> m_type mo' = t -> m_slot_size mo' = s ->
       m_obj_page_pv mo' ∈ pages' /\ m_obj_pv mo' ∉ free_of free' (m_obj_page_pv mo')).
Proof using iter_perm Hconf.
  clear memalign_block posix_memalign.
  intros Hinv Hl t s free. destruct (pi_live _ Hinv _ _ Hl) as (Hok & Hpg & Hob & Hnf). fold t s in Hok, Hpg, Hob, Hnf.
  destruct (page_bytes_bounds _ _ Hok) as (Hs & _ & HP).
  pose proof (pi_heap _ Hinv) as Hh. pose proof (pi_slot _ Hinv _ _ Hok) as Hi.
  destruct (push_free_spec _ _ _ _ _ _ _ Hi Hpg Hob Hnf) as [Hi1 Hfo]. fold free in Hi1, Hfo.
  assert (forall k' mo', live st k' mo' -> k' <> k -> m_type mo' = t -> m_slot_size mo' = s ->
    m_obj_page_pv mo' ∈ slot_pages st t s /\ m_obj_pv mo' ∉ free_of free (m_obj_page_pv mo')) as Hlv.
  { intros k' mo' Hl' Hne Et Es. destruct (pi_live _ Hinv _ _ Hl') as (_ & Hp' & _ & Hnf'). rewrite Et, Es in *.
    split; [done|]. rewrite Hfo. destruct (decide _) as [Ep|]; [|done].
    rewrite elem_of_app, list_elem_of_singleton. intros [Hin|Heq]; [rewrite Ep in Hnf'; done|].
    exact (pi_inj _ Hinv _ _ _ _ Hl' Hl Hne Ep Heq). }
  assert (forall t' s' p, slot_ok t' s' -> ~ (t' = t /\ s' = s) -> p ∈ slot_pages st t' s' ->
    heap st !! p = heap st !! p /\ p ∉ slot_pages st t s) as Hoth.
  { intros t' s' p Hok' Hne Hp. destruct (other_slot_page _ _ _ _ _ _ Hinv Hok Hok' Hne Hp). done. }
  destruct rel; [|eexists _, _, _, _; split; [done|]; done].
  destruct (release_full_page_spec iter iter_perm _ _ _ _ _ c (page_bytes t s / s) Hh Hi1)
    as (pages' & free' & c' & h' & -> & Hcase).
  eexists _, _, _, _. split; [done|].
  destruct Hcase as [(-> & -> & ->)|(q & l & Hq & Hlq & Hlen & -> & -> & -> & Hi2 & Hh2)]; [done|].
  split; [done|]. split; [done|]. split.
  - intros t' s' p Hok' Hne Hp. destruct (Hoth _ _ _ Hok' Hne Hp) as [_ Hni].
    assert (q <> p) by (intros ->; done). rewrite lookup_delete_ne by done. set_solver.
  - intros k' mo' Hl' Hne Et Es. destruct (Hlv _ _ Hl' Hne Et Es) as [Hp Hni].
    assert (m_obj_page_pv mo' <> q) as Hpq.
    { intros E. apply Hni. rewrite E. unfold free_of. rewrite Hlq. simpl.
      destruct (si_free _ _ _ _ _ Hi1 _ _ Hlq) as (_ & _ & Hnd & Hsub).
      destruct (hi_block _ Hh q _ (si_pages _ _ _ _ _ Hi _ Hq)) as (Hq0 & _ & Hqb).
      destruct (pi_live _ Hinv _ _ Hl') as (_ & _ & Hob' & _). rewrite Et, Es, E in Hob'.
      exact (full_page_all s q _ l _ Hs ltac:(lia) HP Hqb Hnd Hsub Hlen Hob'). }
    split; [set_solver|]. unfold free_of. rewrite lookup_delete_ne by done. done.
Qed.

(** ** Storing the tables of a slot *)

Lemma multiple_idx s s' m : 0 < m -> s mod m = 0 -> s' mod m = 0 -> s / m = s' / m -> s = s'.
Proof. intros Hm H1 H2 E. rewrite (Z.div_mod s m), (Z.div_mod s' m) by lia. by rewrite H1, H2, E. Qed.

Lemma upd_tiny st pages free c h : pool_inv st ->
  slot_upd st Tiny (m_tiny_obj_threshold conf) pages free h (set_tiny st pages free c h).
Proof.
  intros Hinv. split; try done; [|apply Hinv|by destruct (pi_mos _ Hinv)].
  intros t' s' Hok Hne. destruct t'; try done. simpl in Hok. subst. destruct (Hne (conj eq_refl eq_refl)).
Qed.

Lemma upd_small st s pages free h : pool_inv st -> slot_ok Small s ->
  (forall j, j <> s / 32 -> pages !! j = m_small_obj_pages st !! j /\ free !! j = m_free_small_objs st !! j) ->
  is_Some (free !! (s / 32)) ->
  slot_upd st Small s (default ∅ (pages !! (s / 32))) (objs (default empty_slot (free !! (s / 32)))) h
    (set_small st pages free h).
Proof.
  intros Hinv Hok Hj Hsome. destruct (pi_exist _ Hinv) as [Hs Hb]. split; try done; [| |by destruct (pi_mos _ Hinv)].
  - intros t' s' Hok' Hne. destruct t'; try done. simpl in *. 
    destruct (Hj (s' / 32)) as [-> ->]; [|done].
    intros E. apply Hne. split; [done|]. apply (multiple_idx _ _ 32); lia.
  - split; [|done]. intros s' Hok'. simpl. destruct (decide (s' / 32 = s / 32)) as [->|Hn]; [done|].
    destruct (Hj _ Hn) as [_ ->]. by apply Hs.
Qed.

Lemma upd_big st s pages free h : pool_inv st -> slot_ok Big s ->
  (forall j, j <> s / m_sys_page_size conf ->
     pages !! j = m_big_obj_pages st !! j /\ free !! j = m_free_big_objs st !! j) ->
  is_Some (free !! (s / m_sys_page_size conf)) ->
  slot_upd st Big s (default ∅ (pages !! (s / m_sys_page_size conf)))
    (objs (default empty_slot (free !! (s / m_sys_page_size conf)))) h (set_big st pages free h).
Proof using Hconf.
  intros Hinv Hok Hj Hsome. destruct (pi_exist _ Hinv) as [Hs Hb]. split; try done; [| |by destruct (pi_mos _ Hinv)].
  - intros t' s' Hok' Hne. destruct t'; try done. simpl in *.
    destruct (Hj (s' / m_sys_page_size conf)) as [-> ->]; [|done].
    intros E. apply Hne. split; [done|]. apply (multiple_idx _ _ (m_sys_page_size conf)); try lia.
    destruct Hconf as [[He ->] _ _ _ _ _ _]. apply Z.pow_pos_nonneg; lia.
  - split; [done|]. intros s' Hok'. simpl.
    destruct (decide (s' / m_sys_page_size conf = s / m_sys_page_size conf)) as [->|Hn]; [done|].
    destruct (Hj _ Hn) as [_ ->]. by apply Hb.
Qed.

(** ** [Get] *)

(** What a [Get] of [size] bytes leaves: the invariant, and one more live
    object of at least that size, or the same ones when a slot that is large
    enough has no free object and the system no page for it. *)
Definition get_post (st : MemPool) (size : Z) (st' : MemPool) (r : option positive) : Prop :=
  pool_inv st' /\
  match r with
  | None => (forall k mo, live st' k mo <-> live st k mo) /\ exists t s, slot_ok t s /\ size <= s /\ no_object st t s
  | Some k => (exists mo, live st' k mo /\ size <= m_slot_size mo) /\ (forall mo, ~ live st k mo) /\
      forall k' mo', k' <> k -> live st' k' mo' <-> live st k' mo'
  end.

Lemma finish_get st t s size pages free h pg ob st1 :
  pool_inv st -> slot_ok t s -> size <= s -> take_ok st t s pages free h pg ob ->
  slot_upd st t s pages free h st1 -> (forall k mo, live st1 k mo <-> live st k mo) ->
  exists st' r,
    (if Z.eqb ob 0 then Ret (st1, None)
     else let '(st2, k) := get_mem_object st1 t s ob pg in Ret (st2, Some k)) = Ret (st', r) /\
    get_post st size st' r.
Proof.
  intros Hinv Hok Hsz [Hh Hi Hoth Hlv Hobj Hnone] Hu Hlive.
  assert (pool_inv st1) as Hinv1.
  { apply (slot_upd_inv _ _ _ _ _ _ _ Hinv Hok Hu Hh Hi Hoth).
    intros k mo Hl. apply Hlv with k. by apply Hlive. }
  destruct (Z.eqb_spec ob 0) as [->|Hnz].
  { eexists _, None. split; [done|]. split; [done|]. split; [done|]. exists t, s. auto. }
  destruct (get_mem_object st1 t s ob pg) as [st2 k] eqn:Eg.
  destruct (Hobj Hnz) as (Hpg & Hin & Hnf & Hfresh).
  rewrite <- (su_pages _ _ _ _ _ _ _ Hu) in Hpg. rewrite <- (su_free _ _ _ _ _ _ _ Hu) in Hnf.
  destruct (get_mem_object_inv st1 t s ob pg st2 k Hinv1 Hok Hpg Hin Hnf) as (Hinv2 & Hnew & Hold & Hiff); [|done|].
  { intros k' mo' Hl'. apply Hfresh with k'. by apply Hlive. }
  eexists _, _. split; [done|]. split; [done|]. split; [by exists (mkMemObject t s ob pg)|]. split.
  - intros mo Hl. apply (Hold mo). by apply Hlive.
  - intros k' mo' Hne. rewrite Hiff by done. apply Hlive.
Qed.

Lemma Get_tiny_spec st size : pool_inv st -> size <= m_tiny_obj_threshold conf ->
  exists st' r, Get_tiny posix_memalign iter conf st = Ret (st', r) /\ get_post st size st' r.
Proof using memalign_block iter_perm Hconf.
  intros Hinv Hsz. assert (slot_ok Tiny (m_tiny_obj_threshold conf)) as Hok by done.
  unfold Get_tiny. destruct (expand_free (heap st) (page_bytes Tiny (m_tiny_obj_threshold conf))
    (m_tiny_obj_threshold conf) (slot_pages st Tiny (m_tiny_obj_threshold conf))
    (slot_free st Tiny (m_tiny_obj_threshold conf))) as [[pages1 free1] h1] eqn:E.
  destruct (slot_take_spec _ _ _ _ _ _ Hinv Hok E) as (free2 & pg & ob & Eg & Ht).
  unfold expand_free in E. simpl in E. destruct (decide (m_free_tiny_objs st = ∅)).
  1: destruct (alloc_page_objs _ _ _ _ _ _ _) as [[[ok pg'] fr] h'].
  all: injection E as -> -> ->; rewrite Eg; simpl.
  all: match goal with |- context [u32 (?c - 1)] =>
    destruct (finish_get st Tiny _ size _ _ _ _ _ (set_tiny st pages1 free2 (if Z.eqb ob 0 then c else u32 (c - 1)) h1)
      Hinv Hok Hsz Ht (upd_tiny _ _ _ _ _ Hinv)) as (st' & r & Ef & Hpost); [done|] end.
  all: exists st', r; split; [|done]; by destruct (Z.eqb ob 0).
Qed.

Lemma get_slot_obj_spec fo ps h s i slot pages1 free1 h1 free2 pg ob :
  fo !! i = Some slot ->
  expand_free h (gen_expand_slot_page_size s (m_expand_obj_cnt_factor conf) (m_sys_page_size conf)) s
    (default ∅ (ps !! i)) (objs slot) = (pages1, free1, h1) ->
  get_free_obj_from_slot_page iter free1 = Ret (free2, pg, ob) ->
  exists fo' ps', get_slot_obj posix_memalign iter conf fo ps h s i = Ret (fo', ps', h1, pg, ob) /\
    default ∅ (ps' !! i) = pages1 /\ objs (default empty_slot (fo' !! i)) = free2 /\ is_Some (fo' !! i) /\
    forall j, j <> i -> ps' !! j = ps !! j /\ fo' !! j = fo !! j.
Proof.
  intros Hf E Eg. unfold get_slot_obj. rewrite Hf. unfold expand_free in E.
  destruct (decide (objs slot = ∅)).
  - destruct (alloc_page_objs _ _ _ _ _ _ _) as [[[ok pg'] fr] h']. injection E as -> -> ->. simpl. rewrite Eg. simpl.
    eexists _, _. split; [done|]. rewrite !lookup_insert_eq. simpl. do 3 (split; [by eauto|]).
    intros j Hj. by rewrite !lookup_insert_ne.
  - injection E as <- <- <-. rewrite Eg. simpl. eexists _, _. split; [done|].
    rewrite !lookup_insert_eq. simpl. do 3 (split; [by eauto|]). intros j Hj. by rewrite !lookup_insert_ne.
Qed.

(** The slot a request of the small or big class is rounded to. *)
Lemma roundup_slot_small size : m_tiny_obj_threshold conf < size <= m_big_obj_threshold conf ->
  let s := roundup_to_the_next_highest_multiple_of_exponent2 size (m_small_obj_slot_footstep_exponent conf) in
  slot_ok Small s /\ size <= s.
Proof using Hconf.
  destruct Hconf as [[He Hp] [_ ->] Ht [Hb0 Hb] _ Hf [Hfit _]]. intros Hsz.
  assert (m_big_obj_threshold conf <= m_big_obj_threshold conf * m_expand_obj_cnt_factor conf) by nia.
  assert (2 ^ 5 <= m_sys_page_size conf) by (rewrite Hp; apply Z.pow_le_mono_r; lia).
  pose proof (roundup_least size 5 ltac:(lia) ltac:(lia) ltac:(lia)) as [Hm Hr]. change (2 ^ 5) with 32 in *.
  split; [|simpl; lia]. simpl. split; [|done]. split; [lia|].
  apply Z.mod_divide in Hm as [a Ha]; [|lia]. apply Z.mod_divide in Hb as [b Hb]; [|lia]. lia.
Qed.

Lemma roundup_slot_big size : m_tiny_obj_threshold conf < size <= m_bulk_obj_threshold conf ->
  let s := roundup_to_the_next_highest_multiple_of_exponent2 size (m_big_obj_slot_footstep_exponent conf) in
  slot_ok Big s /\ size <= s.
Proof using Hconf.
  destruct Hconf as [[He Hp] _ Ht _ [Hb0 Hb] Hf [_ Hfit]]. intros Hsz.
  assert (m_bulk_obj_threshold conf <= m_bulk_obj_threshold conf * m_expand_obj_cnt_factor conf) by nia.
  pose proof (roundup_least size (m_big_obj_slot_footstep_exponent conf) ltac:(lia) ltac:(lia) ltac:(rewrite <- Hp; lia))
    as [Hm Hr]. rewrite <- Hp in *.
  assert (0 < m_sys_page_size conf) by (rewrite Hp; apply Z.pow_pos_nonneg; lia).
  split; [|simpl; lia]. simpl. split; [|done]. split; [lia|].
  apply Z.mod_divide in Hm as [a Ha]; [|lia]. apply Z.mod_divide in Hb as [b Hb]; [|lia].
  set (s := roundup_to_the_next_highest_multiple_of_exponent2 _ _) in *. clearbody s.
  clear -Ha Hb Hr Hsz H0. assert (a < b + 1) by (apply (Z.mul_lt_mono_pos_r (m_sys_page_size conf)); lia).
  rewrite Ha, Hb. apply Z.mul_le_mono_nonneg_r; lia.
Qed.

Lemma Get_slot_spec st size : pool_inv st -> m_tiny_obj_threshold conf < size <= m_bulk_obj_threshold conf ->
  exists st' r, Get_slot posix_memalign iter conf st size = Ret (st', r) /\ get_post st size st' r.
Proof using memalign_block iter_perm Hconf.
  intros Hinv Hsz. unfold Get_slot, convert_slot_obj_size_to_slot_idx.
  destruct (Z.ltb_spec (m_big_obj_threshold conf) size).
  - destruct (roundup_slot_big size Hsz) as [Hok Hle].
    set (s := roundup_to_the_next_highest_multiple_of_exponent2 size _) in *.
    destruct (expand_free (heap st) (page_bytes Big s) s (slot_pages st Big s) (slot_free st Big s))
      as [[pages1 free1] h1] eqn:E.
    destruct (slot_take_spec _ _ _ _ _ _ Hinv Hok E) as (free2 & pg & ob & Eg & Ht).
    destruct (proj2 (pi_exist _ Hinv) _ Hok) as [slot Hslot]. simpl in E. rewrite Hslot in E. simpl in E.
    destruct (get_slot_obj_spec _ _ _ _ _ _ _ _ _ _ _ _ Hslot E Eg) as (fo' & ps' & -> & <- & <- & Hs' & Hj).
    simpl. apply (finish_get st Big s size _ _ _ _ _ _ Hinv Hok Hle Ht (upd_big _ _ _ _ _ Hinv Hok Hj Hs')). done.
  - destruct (roundup_slot_small size ltac:(lia)) as [Hok Hle]. rewrite (proj1 (co_small _ Hconf)).
    set (s := roundup_to_the_next_highest_multiple_of_exponent2 size _) in *.
    destruct (expand_free (heap st) (page_bytes Small s) s (slot_pages st Small s) (slot_free st Small s))
      as [[pages1 free1] h1] eqn:E.
    destruct (slot_take_spec _ _ _ _ _ _ Hinv Hok E) as (free2 & pg & ob & Eg & Ht).
    destruct (proj1 (pi_exist _ Hinv) _ Hok) as [slot Hslot]. simpl in E. rewrite Hslot in E. simpl in E.
    destruct (get_slot_obj_spec _ _ _ _ _ _ _ _ _ _ _ _ Hslot E Eg) as (fo' & ps' & -> & <- & <- & Hs' & Hj).
    simpl. apply (finish_get st Small s size _ _ _ _ _ _ Hinv Hok Hle Ht (upd_small _ _ _ _ _ Hinv Hok Hj Hs')). done.
Qed.

Lemma Get_spec st size : pool_inv st -> 0 < size <= m_bulk_obj_threshold conf ->
  exists st' r, Get posix_memalign iter conf st size = Ret (st', r) /\ get_post st size st' r.
Proof using memalign_block iter_perm Hconf.
  intros Hinv Hsz. unfold Get. destruct (Z.leb_spec size 0); [lia|].
  destruct (Z.leb_spec size (m_tiny_obj_threshold conf)); [by apply Get_tiny_spec|].
  destruct (Z.leb_spec size (m_bulk_obj_threshold conf)); [|lia]. apply Get_slot_spec; [done|lia].
Qed.

(** ** [Put] *)

(** The tables of the slot of [mo] once it is given back. *)
Definition put_tables (st : MemPool) (k : positive) (mo : MemObject) (pages : gset Z) (free : free_map)
    (h : gmap Z Z) : Prop :=
  let t := m_type mo in let s := m_slot_size mo in
  heap_inv h /\ slot_inv s (page_bytes t s) pages free h /\
  (forall t' s' p, slot_ok t' s' -> ~ (t' = t /\ s' = s) -> p ∈ slot_pages st t' s' ->
     h !! p = heap st !! p /\ p ∉ pages) /\
  (forall k' mo', live st k' mo' -> k' <> k -> m_type mo' = t -> m_slot_size mo' = s ->
     m_obj_page_pv mo' ∈ pages /\ m_obj_pv mo' ∉ free_of free (m_obj_page_pv mo')).

Definition put_post (st : MemPool) (k : positive) (st' : MemPool) : Prop :=
  pool_inv st' /\ forall k' mo', live st' k' mo' <-> k' <> k /\ live st k' mo'.

Lemma finish_put st k mo pages free h st1 : pool_inv st -> live st k mo ->
  put_tables st k mo pages free h ->
  slot_upd st (m_type mo) (m_slot_size mo) pages free h st1 ->
  m_free_mem_objs st1 = m_free_mem_objs st -> mo_store st1 = mo_store st ->
  put_post st k (set_mos st1 (m_free_mem_objs st1 ++ [k]) (mo_store st1)).
Proof.
  intros Hinv Hl (Hh & Hi & Hoth & Hlv) Hu Ef Es.
  set (st2 := set_mos _ _ _).
  assert (forall k' mo', live st2 k' mo' <-> k' <> k /\ live st k' mo') as Hiff.
  { intros k' mo'. unfold live, st2. simpl. rewrite Ef, Es, elem_of_app, list_elem_of_singleton. tauto. }
  split; [|done].
  apply (slot_upd_inv st (m_type mo) (m_slot_size mo) pages free h st2); try done.
  - exact (proj1 (pi_live _ Hinv _ _ Hl)).
  - split; [apply Hu|apply Hu|apply Hu|apply Hu|apply Hu| |].
    + intros k' mo' Hl'. by apply Hiff in Hl' as [_ Hl''].
    + destruct (pi_mos _ Hinv) as [Hnd Hdom]. split; unfold st2; simpl; rewrite ?Ef, ?Es.
      * apply NoDup_app. split; [done|]. split; [|apply NoDup_singleton].
        intros x Hx Hx'. apply list_elem_of_singleton in Hx' as ->. by destruct Hl.
      * intros x Hx. apply elem_of_app in Hx as [Hx|Hx]; [by apply Hdom|].
        apply list_elem_of_singleton in Hx as ->. destruct Hl as [Hl _]. by eauto.
  - intros k' mo' Hl' Et Es'. apply Hiff in Hl' as [Hne Hl']. by apply Hlv with k'.
Qed.

Lemma put_slot_spec (Q : gset Z -> free_map -> gmap Z Z -> Prop) fo ps h i s resident ob pg slot :
  fo !! i = Some slot ->
  (forall rel : bool, exists pages' free' c' h',
    (if rel then release_full_page iter (default ∅ (ps !! i)) (push_free (objs slot) pg ob) (u32 (cnt slot + 1)) h
       (gen_expand_slot_page_size s (m_expand_obj_cnt_factor conf) (m_sys_page_size conf) / s)
     else Ret (default ∅ (ps !! i), push_free (objs slot) pg ob, u32 (cnt slot + 1), h))
      = Ret (pages', free', c', h') /\ Q pages' free' h') ->
  exists fo' ps' h', put_slot iter conf fo ps h i s resident ob pg = Ret (fo', ps', h') /\
    Q (default ∅ (ps' !! i)) (objs (default empty_slot (fo' !! i))) h' /\ is_Some (fo' !! i) /\
    forall j, j <> i -> ps' !! j = ps !! j /\ fo' !! j = fo !! j.
Proof.
  intros Hf HQ. unfold put_slot. rewrite Hf. destruct (Z.leb _ _).
  - destruct (HQ true) as (pages' & free' & c' & h' & -> & Hq). simpl. eexists _, _, _. split; [done|].
    rewrite !lookup_insert_eq. split; [done|]. split; [by eauto|]. intros j Hj. by rewrite !lookup_insert_ne.
  - destruct (HQ false) as (pages' & free' & c' & h' & [= <- <- <- <-] & Hq). eexists _, _, _. split; [done|].
    rewrite !lookup_insert_eq. split; [done|]. split; [by eauto|]. intros j Hj. by rewrite !lookup_insert_ne.
Qed.

Lemma Put_spec st k mo : pool_inv st -> live st k mo ->
  exists st', Put iter conf st (Some k) = Ret st' /\ put_post st k st'.
Proof using iter_perm Hconf.
  intros Hinv Hl. pose proof (fun rel c => slot_put_spec st k mo rel c Hinv Hl) as Hput. simpl in Hput.
  destruct (live_page _ _ _ Hinv Hl) as (Hok & _). pose proof Hl as [Hst _]. unfold Put. rewrite Hst.
  assert (forall st1, put iter conf st (m_type mo) (m_slot_size mo) (m_obj_pv mo) (m_obj_page_pv mo) = Ret st1 ->
    put_post st k (set_mos st1 (m_free_mem_objs st1 ++ [k]) (mo_store st1)) ->
    exists st', obind (put iter conf st (m_type mo) (m_slot_size mo) (m_obj_pv mo) (m_obj_page_pv mo))
      (fun st => Ret (set_mos st (m_free_mem_objs st ++ [k]) (mo_store st))) = Ret st' /\ put_post st k st') as Hfin.
  { intros st1 -> Hp. by eexists. }
  pose proof (fun pages free h st1 => finish_put st k mo pages free h st1 Hinv Hl) as Hf.
  destruct (m_type mo) eqn:Et; simpl in Hok; [| | |done]; unfold put_tables in Hf; rewrite Et in Hf.
  - rewrite Hok in *. destruct (Hput (Z.leb (u32 (m_one_slot_tiny_obj_resident_cnts conf +
      m_sys_page_size conf / m_tiny_obj_threshold conf)) (u32 (m_free_tiny_objs_cnt st + 1)))
      (u32 (m_free_tiny_objs_cnt st + 1))) as (pages' & free' & c' & h' & E & Hq).
    eapply Hfin; [unfold put, put_tiny; simpl in E; rewrite E; reflexivity|].
    by apply (Hf pages' free' h'); [|apply upd_tiny| |].
  - destruct (proj1 (pi_exist _ Hinv) _ Hok) as [slot Hslot]. simpl in Hput. rewrite Hslot in Hput.
    destruct (put_slot_spec _ _ (m_small_obj_pages st) (heap st) _ _ (m_one_slot_small_obj_resident_cnts conf) _ _ _ Hslot
      (fun rel => Hput rel _)) as (fo' & ps' & h' & E & Hq & Hs & Hj).
    eapply Hfin; [unfold put, put_small, convert_slot_obj_size_to_slot_idx; rewrite (proj1 (co_small _ Hconf)), E; reflexivity|].
    by eapply (Hf _ _ h'); [exact Hq|by apply upd_small| |].
  - destruct (proj2 (pi_exist _ Hinv) _ Hok) as [slot Hslot]. simpl in Hput. rewrite Hslot in Hput.
    destruct (put_slot_spec _ _ (m_big_obj_pages st) (heap st) _ _ (m_one_slot_big_obj_resident_cnts conf) _ _ _ Hslot
      (fun rel => Hput rel _)) as (fo' & ps' & h' & E & Hq & Hs & Hj).
    eapply Hfin; [unfold put, put_big, convert_slot_obj_size_to_slot_idx; rewrite E; reflexivity|].
    by eapply (Hf _ _ h'); [exact Hq|by apply upd_big| |].
Qed.

End pool_inv.

(** ** Reachable pools *)

Section reachable.
Context (conf : MemPoolConf).
Context (posix_memalign : gmap Z Z -> Z -> Z -> option Z).
Context (iter : free_map -> list (Z * list Z)).

(** A client step: a request of up to [m_bulk_obj_threshold] bytes, or giving back
    an object the client holds.  Larger requests are left out, so that the
    theorems below are about pools that serve none: what [Get] does with
    those is not safe ([Demo.bulk_put_undefined]). *)
Inductive pool_step : MemPool -> MemPool -> Prop :=
  | step_get st size st' r : 0 < size <= m_bulk_obj_threshold conf ->
      Get posix_memalign iter conf st size = Ret (st', r) -> pool_step st st'
  | step_put st k mo st' : live st k mo -> Put iter conf st (Some k) = Ret st' -> pool_step st st'.

Definition reachable (st : MemPool) : Prop :=
  exists uninit h, heap_inv h /\ rtc pool_step (MemPool_new conf uninit h) st.

Hypothesis memalign_block : forall h al n p, posix_memalign h al n = Some p ->
  0 < p /\ p mod al = 0 /\ p + n <= 2 ^ 64 /\
  forall q k, h !! q = Some k -> p + n <= q \/ q + k <= p.
Hypothesis iter_perm : forall m, iter m ≡ₚ map_to_list m.
Hypothesis Hconf : conf_ok conf.

Lemma init_slots_lookup {A} n (v : A) i : 1 <= i <= n -> init_slots n v !! i = Some v.
Proof.
  intros Hi. unfold init_slots. apply elem_of_list_to_map.
  - rewrite <- list_fmap_compose, list_fmap_id. apply NoDup_seqZ.
  - apply list_elem_of_fmap. exists i. split; [done|]. apply elem_of_seqZ. lia.
Qed.

Lemma init_slots_default {A} n (v : A) i : default v (init_slots n v !! i) = v.
Proof.
  destruct (init_slots n v !! i) as [x|] eqn:E; [|done]. simpl.
  apply elem_of_list_to_map_2, list_elem_of_fmap in E as (? & [= _ ->] & _). done.
Qed.

Lemma MemPool_new_inv uninit h : heap_inv h -> pool_inv conf (MemPool_new conf uninit h).
Proof using Hconf.
  clear memalign_block iter_perm.
  intros Hh. destruct Hconf as [[He Hp] [Hsm _] _ [Hb0 Hb] [Hu0 Hu] _ _].
  assert (0 < m_sys_page_size conf) by (rewrite Hp; apply Z.pow_pos_nonneg; lia).
  assert (forall t s, slot_pages conf (MemPool_new conf uninit h) t s = ∅ /\
            slot_free conf (MemPool_new conf uninit h) t s = ∅) as Hempty.
  { intros t s. destruct t; simpl; rewrite ?init_slots_default; done. }
  split; simpl.
  - done.
  - intros t s _. destruct (Hempty t s) as [-> ->]. by split.
  - intros t s t' s' p _ _. destruct (Hempty t s) as [-> _]. by intros ?%elem_of_empty.
  - split; intros s [Hs Hm]; simpl; rewrite init_slots_lookup; eauto.
    + rewrite Hsm. split; [|apply Z.div_le_mono; lia]. apply Z.div_le_lower_bound; [lia|].
      apply Z.mod_divide in Hm as [a Ha]; [|lia]. lia.
    + split; [|apply Z.div_le_mono; lia]. apply Z.div_le_lower_bound; [lia|].
      apply Z.mod_divide in Hm as [a Ha]; [|lia]. assert (0 < a) by nia. nia.
  - by intros k mo [].
  - by intros k k' mo mo' [].
  - split; simpl; [apply NoDup_nil_2|]. intros k Hk. by apply not_elem_of_nil in Hk.
Qed.

Lemma reachable_inv st : reachable st -> pool_inv conf st.
Proof using memalign_block iter_perm Hconf.
  intros (uninit & h & Hh & Hr). pose proof (MemPool_new_inv uninit h Hh) as Hi.
  induction Hr as [|st1 st2 st3 Hs _ IH]; [done|]. apply IH. destruct Hs as [st size st' r Hsz Hg|st k mo st' Hl Hp].
  - destruct (Get_spec conf posix_memalign iter memalign_block iter_perm Hconf _ _ Hi Hsz) as (st2 & r2 & E & Hpost & _).
    rewrite E in Hg. by injection Hg as <- <-.
  - destruct (Put_spec conf iter iter_perm Hconf _ _ _ Hi Hl) as (st2 & E & Hpost & _).
    rewrite E in Hp. by injection Hp as <-.
Qed.

(** The bytes of a live object lie inside one block of the system heap. *)
Lemma live_in_block st k mo : pool_inv conf st -> live st k mo ->
  exists n, heap st !! m_obj_page_pv mo = Some n /\ 0 < m_obj_page_pv mo <= m_obj_pv mo /\
    m_obj_pv mo + m_slot_size mo <= m_obj_page_pv mo + n /\
    exists j, 0 <= j /\ m_obj_pv mo = m_obj_page_pv mo + m_slot_size mo * j.
Proof using Hconf.
  intros Hinv Hl. destruct (live_page _ _ _ _ Hinv Hl) as (Hok & _ & Hb).
  destruct (pi_live _ _ Hinv _ _ Hl) as (_ & _ & Hob & _).
  destruct (page_bytes_bounds conf Hconf _ _ Hok) as (Hs & _ & HP).
  destruct (hi_block _ (pi_heap _ _ Hinv) _ _ Hb) as (Hp0 & _ & Hpb).
  apply split_mem_page_in in Hob as (j & Hj & Hobj); [|done|lia|done|done].
  eexists. split; [exact Hb|].
  pose proof (Z.mul_div_le (page_bytes conf (m_type mo) (m_slot_size mo)) (m_slot_size mo) Hs). 
  assert (m_slot_size mo * (j + 1) <= page_bytes conf (m_type mo) (m_slot_size mo)) by nia.
  split; [nia|]. split; [nia|]. exists j. lia.
Qed.

Lemma live_disjoint st k k' mo mo' : pool_inv conf st -> live st k mo -> live st k' mo' -> k <> k' ->
  m_obj_pv mo + m_slot_size mo <= m_obj_pv mo' \/ m_obj_pv mo' + m_slot_size mo' <= m_obj_pv mo.
Proof using Hconf.
  intros Hi Hl Hl' Hne.
  destruct (live_in_block _ _ _ Hi Hl) as (n & Hb & Hp & Hq & j & Hj & Ej).
  destruct (live_in_block _ _ _ Hi Hl') as (n' & Hb' & Hp' & Hq' & j' & Hj' & Ej').
  destruct (decide (m_obj_page_pv mo = m_obj_page_pv mo')) as [E|E].
  - destruct (live_page _ _ _ _ Hi Hl) as (Hok & Hin & _), (live_page _ _ _ _ Hi Hl') as (Hok' & Hin' & _).
    rewrite E in Hin. destruct (pi_sep _ _ Hi _ _ _ _ _ Hok Hok' Hin Hin') as [_ Es].
    pose proof (pi_inj _ _ Hi _ _ _ _ Hl Hl' Hne E) as Hno.
    destruct (page_bytes_bounds conf Hconf _ _ Hok) as (Hs & _). rewrite <- Es in *.
    assert (j <> j') by (intros ->; apply Hno; lia). nia.
  - destruct (hi_disj _ (pi_heap _ _ Hi) _ _ _ _ Hb Hb' E); lia.
Qed.

(** C2.  On every pool reached by requests of up to the bulk threshold and
    returns, a request of [1 .. bulk threshold] bytes returns normally.  It
    yields an object, unless some slot of at least that size has no free object
    and the system refuses a page for it, and then the live objects are as
    before.  The object was not live before, is at least as large as the
    request, and lies inside one block of the heap; every other live object is
    untouched. *)
Theorem pool_get_ok st size : reachable st -> 0 < size <= m_bulk_obj_threshold conf ->
  exists st' r, Get posix_memalign iter conf st size = Ret (st', r) /\ reachable st' /\
    match r with
    | None => (forall k mo, live st' k mo <-> live st k mo) /\
        exists t s, slot_ok conf t s /\ size <= s /\ slot_free conf st t s = ∅ /\
          posix_memalign (heap st) (m_sys_page_size conf) (page_bytes conf t s) = None
    | Some k => (forall mo, ~ live st k mo) /\ (forall k' mo', k' <> k -> live st' k' mo' <-> live st k' mo') /\
        exists mo n, live st' k mo /\ size <= m_slot_size mo /\ heap st' !! m_obj_page_pv mo = Some n /\
          0 < m_obj_page_pv mo <= m_obj_pv mo /\ m_obj_pv mo + m_slot_size mo <= m_obj_page_pv mo + n
    end.
Proof using memalign_block iter_perm Hconf.
  intros Hr Hsz. pose proof (reachable_inv _ Hr) as Hi.
  destruct (Get_spec conf posix_memalign iter memalign_block iter_perm Hconf _ _ Hi Hsz) as (st' & r & E & Hi' & Hpost).
  exists st', r. split; [done|]. split.
  { destruct Hr as (u & h & Hh & Hr). exists u, h. split; [done|]. eapply rtc_r; [exact Hr|]. by eapply step_get. }
  destruct r as [k|]; [|exact Hpost]. destruct Hpost as ((mo & Hl & Hle) & Hnew & Hiff). split; [done|]. split; [done|].
  destruct (live_in_block _ _ _ Hi' Hl) as (n & Hb & Hp & Hq & _). by exists mo, n.
Qed.

(** C1.  On every pool reached by requests of up to the bulk threshold and
    returns, two live objects never share a byte. *)
Theorem pool_no_overlap st k k' mo mo' : reachable st -> live st k mo -> live st k' mo' -> k <> k' ->
  m_obj_pv mo + m_slot_size mo <= m_obj_pv mo' \/ m_obj_pv mo' + m_slot_size mo' <= m_obj_pv mo.
Proof using memalign_block iter_perm Hconf.
  intros Hr. exact (live_disjoint st k k' mo mo' (reachable_inv _ Hr)).
Qed.

(** C3.  On every pool reached by requests of up to the bulk threshold and
    returns, giving back a live object returns normally, makes exactly that
    object dead and leads to a pool of the same kind. *)
Theorem pool_put_ok st k mo : reachable st -> live st k mo ->
  exists st', Put iter conf st (Some k) = Ret st' /\ reachable st' /\
    forall k' mo', live st' k' mo' <-> k' <> k /\ live st k' mo'.
Proof using memalign_block iter_perm Hconf.
  intros Hr Hl. pose proof (reachable_inv _ Hr) as Hi.
  destruct (Put_spec conf iter iter_perm Hconf _ _ _ Hi Hl) as (st' & E & Hi' & Hpost).
  exists st'. split; [done|]. split; [|done].
  destruct Hr as (u & h & Hh & Hr). exists u, h. split; [done|]. eapply rtc_r; [exact Hr|]. by eapply step_put.
Qed.

(** C13.  Every pool reached by requests of up to the bulk threshold and returns is
    well formed, and so is the pool after any further such request or return:
    the blocks of the heap are disjoint; each slot's pages
    are blocks of the right size that no other slot uses, with its free
    objects on them, none twice; every slot the configuration asks for exists;
    each live object lies on a page of its slot at the start of an object that
    is not free, no two at the same place; and the recycled headers are
    distinct. *)
Theorem pool_well_formed st : reachable st -> pool_inv conf st /\ forall st', pool_step st st' -> pool_inv conf st'.
Proof using memalign_block iter_perm Hconf.
  intros Hr. split; [by apply reachable_inv|]. intros st' Hs. apply reachable_inv.
  destruct Hr as (u & h & Hh & Hr). exists u, h. split; [done|]. by eapply rtc_r.
Qed.

End reachable.

(** The default configuration on a machine with 4 KB pages. *)
Lemma default_conf_ok_any n : conf_ok (MemPool_default_conf 4096 n).
Proof. split; vm_compute; intuition congruence. Qed.

Lemma default_conf_ok : conf_ok (MemPool_default_conf 4096 8).
Proof. apply default_conf_ok_any. Qed.

(** ** A concrete system: an allocator that bumps past the last block *)

Module Demo.

Definition top (h : gmap Z Z) : Z := foldr (fun e a => Z.max a (e.1 + e.2)) 4096 (map_to_list h).

Definition bump (h : gmap Z Z) (al n : Z) : option Z :=
  if Z.leb al 0 then None
  else let p := (top h + al - 1) / al * al in
    if Z.leb (p + n) (2 ^ 64) then Some p else None.

Definition iter : free_map -> list (Z * list Z) := map_to_list.
Definition conf : MemPoolConf := MemPool_default_conf 4096 8.
Definition st0 : MemPool := MemPool_new conf 77 ∅.

Lemma top_above h q k : h !! q = Some k -> q + k <= top h.
Proof.
  intros Hq%elem_of_map_to_list. unfold top. induction (map_to_list h) as [|[a b] l IH]; simpl.
  - by apply not_elem_of_nil in Hq.
  - apply elem_of_cons in Hq as [[= <- <-]|Hq]; [lia|]. specialize (IH Hq). lia.
Qed.

Lemma top_pos h : 4096 <= top h.
Proof. unfold top. induction (map_to_list h) as [|e l IH]; simpl; lia. Qed.

Lemma bump_block h al n p : bump h al n = Some p ->
  0 < p /\ p mod al = 0 /\ p + n <= 2 ^ 64 /\ forall q k, h !! q = Some k -> p + n <= q \/ q + k <= p.
Proof.
  unfold bump. destruct (Z.leb_spec al 0); [done|].
  destruct (Z.leb_spec ((top h + al - 1) / al * al + n) (2 ^ 64)) as [Hle|]; [|done]. intros [= <-].
  pose proof (top_pos h). pose proof (Z.div_mod (top h + al - 1) al ltac:(lia)).
  pose proof (Z.mod_pos_bound (top h + al - 1) al ltac:(lia)).
  assert (top h <= (top h + al - 1) / al * al) by lia.
  split; [lia|]. split; [apply Z.mod_mul; lia|]. split; [done|].
  intros q k Hq. pose proof (top_above _ _ _ Hq). lia.
Qed.

Lemma st0_reachable : reachable conf bump iter st0.
Proof.
  exists 77, ∅. split; [|apply rtc_refl]. split; [intros p n|intros p n q k]; by rewrite lookup_empty.
Qed.

(** Run a list of requests, and give the pool and the objects it handed out. *)
Fixpoint gets (st : MemPool) (sizes : list Z) : outcome (MemPool * list positive) :=
  match sizes with
  | [] => Ret (st, [])
  | n :: rest =>
      let* (st, r) := Get bump iter conf st n in
      let* (st, ks) := gets st rest in
      match r with Some k => Ret (st, k :: ks) | None => Abort "out of memory" end
  end.

Fixpoint puts (st : MemPool) (ks : list positive) : outcome MemPool :=
  match ks with
  | [] => Ret st
  | k :: ks => let* st := Put iter conf st (Some k) in puts st ks
  end.

(** The pool after two requests of 100 bytes: two small objects of one page. *)
Definition st2 : MemPool := match gets st0 [100; 100] with Ret (st, _) => st | _ => st0 end.

Lemma gets_steps st sizes st' ks : Forall (fun n => 0 < n <= 131072) sizes -> gets st sizes = Ret (st', ks) ->
  rtc (pool_step conf bump iter) st st'.
Proof.
  revert st ks. induction sizes as [|n rest IH]; intros st ks Hf; simpl; [by intros [= <- <-]|].
  apply Forall_cons in Hf as [Hn Hf]. destruct (Get bump iter conf st n) as [[st1 r]| | |] eqn:E; simpl; try done.
  destruct (gets st1 rest) as [[st3 ks']| | |] eqn:E2; simpl; try done. destruct r; [|done]. intros [= <- <-].
  eapply rtc_l; [by eapply step_get|]. by eapply IH.
Qed.

Lemma gets_reachable st sizes st' ks : reachable conf bump iter st ->
  Forall (fun n => 0 < n <= 131072) sizes -> gets st sizes = Ret (st', ks) -> reachable conf bump iter st'.
Proof.
  intros (u & h & Hh & Hr) Hf E. exists u, h. split; [done|]. etrans; [exact Hr|]. by eapply gets_steps.
Qed.

Lemma st2_reachable : reachable conf bump iter st2.
Proof.
  assert (match gets st0 [100; 100] with Ret _ => true | _ => false end = true) as Hret by (vm_compute; reflexivity).
  unfold st2. destruct (gets st0 [100; 100]) as [[st ks]| | |] eqn:E; try discriminate Hret. eapply gets_reachable; [apply st0_reachable| |exact E]. repeat constructor; lia.
Qed.

Definition mo1 : MemObject := mkMemObject Small 128 4096 4096.
Definition mo2 : MemObject := mkMemObject Small 128 4224 4096.

Lemma st2_live : live st2 1 mo1 /\ live st2 2 mo2.
Proof. split; (split; [vm_compute; reflexivity|apply (bool_decide_unpack _); vm_compute; reflexivity]). Qed.

Lemma pool_get_ok_witness :
  exists st' k, Get bump iter conf st2 100 = Ret (st', Some k) /\
    exists mo, live st' k mo /\ 100 <= m_slot_size mo.
Proof.
  destruct (pool_get_ok conf bump iter bump_block (fun m => reflexivity _) default_conf_ok st2 100
    st2_reachable ltac:(vm_compute; split; congruence)) as (st' & r & E & _ & H).
  destruct r as [k|].
  - exists st', k. split; [exact E|]. destruct H as (_ & _ & mo & n & Hl & Hs & _). exists mo. exact (conj Hl Hs).
  - exfalso. assert (match Get bump iter conf st2 100 with Ret (_, Some _) => true | _ => false end = true) as Hs
      by (vm_compute; reflexivity). rewrite E in Hs. discriminate Hs.
Defined.

Lemma pool_well_formed_witness : pool_inv conf st2 /\ mos_ok st2.
Proof.
  destruct (pool_well_formed conf bump iter bump_block (fun m => reflexivity _) default_conf_ok st2 st2_reachable) as [H _].
  split; [exact H|exact (pi_mos _ _ H)].
Defined.

Lemma pool_no_overlap_witness : m_obj_pv mo1 + 128 <= m_obj_pv mo2 \/ m_obj_pv mo2 + 128 <= m_obj_pv mo1.
Proof.
  exact (pool_no_overlap conf bump iter bump_block (fun m => reflexivity _) default_conf_ok st2 1 2 mo1 mo2
    st2_reachable (proj1 st2_live) (proj2 st2_live) ltac:(congruence)).
Defined.

Lemma pool_put_ok_witness : exists st', Put iter conf st2 (Some 1%positive) = Ret st' /\
  (forall mo, ~ live st' 1 mo) /\ live st' 2 mo2.
Proof.
  destruct (pool_put_ok conf bump iter bump_block (fun m => reflexivity _) default_conf_ok st2 1 mo1
    st2_reachable (proj1 st2_live)) as (st' & E & _ & H).
  exists st'. split; [exact E|]. split.
  - intros mo Hl. apply H in Hl as [Hne _]. exact (Hne eq_refl).
  - apply H. split; [congruence|exact (proj2 st2_live)].
Defined.

(** The run below as a test: both objects are live, one order of giving them
    back is undefined and the other returns. *)
Definition two_bulk_check (r : outcome (MemPool * list positive)) : bool :=
  match r with
  | Ret (st, [kA; kB]) =>
      bool_decide (is_Some (mo_store st !! kA) /\ (kA ∉ m_free_mem_objs st)) &&
      bool_decide (is_Some (mo_store st !! kB) /\ (kB ∉ m_free_mem_objs st)) &&
      (match puts st [kB; kA] with
       | Undef s => bool_decide (s = "end iterator of the bulk page table dereferenced"%string)
       | _ => false
       end) &&
      (match puts st [kA; kB] with Ret _ => true | _ => false end)
  | _ => false
  end.

(** Bulk objects above one megabyte are not safe: two such objects of
    equal size, given back in the reverse order, make [put] dereference the
    end iterator of the page table.  [Get] had replaced the slot's page set by
    an empty one, so the table forgets the first page. *)
Theorem bulk_put_undefined :
  exists st kA kB, gets st0 [2000000; 2000000] = Ret (st, [kA; kB]) /\
    (exists moA moB, live st kA moA /\ live st kB moB) /\
    puts st [kB; kA] = Undef "end iterator of the bulk page table dereferenced" /\
    returns (puts st [kA; kB]).
Proof.
  assert (two_bulk_check (gets st0 [2000000; 2000000]) = true) as H by (vm_compute; reflexivity).
  unfold two_bulk_check in H.
  destruct (gets st0 [2000000; 2000000]) as [[st [|kA [|kB [|]]]]| | |]; try discriminate H.
  exists st, kA, kB. split; [reflexivity|].
  apply andb_prop in H as [[[H1 H2]%andb_prop H3]%andb_prop H4].
  apply bool_decide_eq_true_1 in H1 as [[moA HA] HA'], H2 as [[moB HB] HB'].
  split; [exists moA, moB; exact (conj (conj HA HA') (conj HB HB'))|].
  split; [destruct (puts st [kB; kA]); try discriminate H3; apply bool_decide_eq_true_1 in H3 as ->; reflexivity|].
  destruct (puts st [kA; kB]) as [st'| | |]; try discriminate H4. exists st'. reflexivity.
Qed.

End Demo.
