(* ===== verification/PoolDelete.v ===== *)
(** * PoolDelete: the pages of a pool and its destructor

    Models nothing beyond MemPool.v: every page a pool has asked the system for
    is in exactly one of its tables until it is given back, so that [~MemPool]
    (src/src/ccsys/mem-pool.cc) frees each once and leaves the heap the
    constructor found. *)

From S2P Require Import Prelude MemPool MemPoolSafety.

(** The pages the tables name, in the order in which the destructor frees them. *)
Definition pool_pages (st : MemPool) : list Z :=
  elements (m_tiny_obj_pages st) ++ table_pages (m_small_obj_pages st) ++ table_pages (m_big_obj_pages st) ++ table_pages (m_bulk_obj_pages st).

(** [l] are the blocks of [h] that are not blocks of [h0]. *)
Record own (h0 : gmap Z Z) (l : list Z) (h : gmap Z Z) : Prop := mkOwn {
  ow_nodup : NoDup l;
  ow_in : forall p, p ∈ l -> is_Some (h !! p) /\ h0 !! p = None;
  ow_out : forall p, p ∉ l -> h !! p = h0 !! p
}.

(** A step of the pages: none, a new one, one given back. *)
Inductive move (l : list Z) (h : gmap Z Z) : list Z -> gmap Z Z -> Prop :=
| move_none l' : l' ≡ₚ l -> move l h l' h
| move_alloc l' pg n : h !! pg = None -> l' ≡ₚ pg :: l -> move l h l' (<[pg := n]> h)
| move_free l' q : l ≡ₚ q :: l' -> move l h l' (delete q h).

Lemma own_move h0 l h l' h' : own h0 l h -> move l h l' h' -> own h0 l' h'.
Proof.
  intros [H1 H2 H3] Hm. destruct Hm as [l' E|l' pg n Hn E|l' q E].
  - split; [by rewrite E| |]; intros p; rewrite E; [apply H2|apply H3].
  - assert (Hpg : pg ∉ l) by (intros Hin; destruct (H2 pg Hin) as [[? ?] _]; congruence). split.
    + rewrite E. by constructor.
    + intros p. rewrite E, elem_of_cons. intros [->|Hp].
      * rewrite lookup_insert_eq, <- H3 by done. eauto.
      * rewrite lookup_insert_ne by (intros ->; done). by apply H2.
    + intros p. rewrite E, not_elem_of_cons. intros [Hne Hp]. rewrite lookup_insert_ne by done. by apply H3.
  - rewrite E in H1. apply NoDup_cons in H1 as [Hq H1]. setoid_rewrite E in H2. setoid_rewrite E in H3. split; [done| |].
    + intros p Hp. rewrite lookup_delete_ne by (intros ->; done). apply H2. by right.
    + intros p Hp. destruct (decide (p = q)) as [->|Hne].
      * rewrite lookup_delete_eq. symmetry. apply H2. left.
      * rewrite lookup_delete_ne by done. apply H3. rewrite not_elem_of_cons. done.
Qed.

#[export] Instance own_perm h0 : Proper ((≡ₚ) ==> (=) ==> iff) (own h0).
Proof.
  intros l l' E h ? <-. split; intros Ho; eapply own_move; try done; by constructor.
Qed.

(** The same for the set of pages of one slot. *)
Inductive smove (X : gset Z) (h : gmap Z Z) : gset Z -> gmap Z Z -> Prop :=
| smove_none : smove X h X h
| smove_alloc pg n : h !! pg = None -> smove X h ({[pg]} ∪ X) (<[pg := n]> h)
| smove_free q : q ∈ X -> smove X h (X ∖ {[q]}) (delete q h).

Lemma own_smove h0 a X b h X' h' : own h0 (a ++ elements X ++ b) h -> smove X h X' h' ->
  own h0 (a ++ elements X' ++ b) h'.
Proof.
  intros Ho Hm. refine (own_move _ _ _ _ _ Ho _). destruct Hm as [|pg n Hn|q Hq].
  - by constructor.
  - apply move_alloc; [done|]. rewrite elements_union_singleton, Permutation_middle; [done|].
    intros Hin. destruct (ow_in _ _ _ Ho pg) as [[? ?] _]; [set_solver|congruence].
  - apply move_free. rewrite (union_difference_singleton_L q X) at 1 by done.
    rewrite elements_union_singleton by set_solver. by rewrite Permutation_middle.
Qed.

(** And for a table of slots, one of which moves. *)
Definition tmove (ps : gmap Z (gset Z)) (h : gmap Z Z) (ps' : gmap Z (gset Z)) (h' : gmap Z Z) : Prop :=
  exists i, smove (default ∅ (ps !! i)) h (default ∅ (ps' !! i)) h' /\ delete i ps' = delete i ps.

Lemma table_pages_empty (n : Z) : table_pages (init_slots n ∅) = [].
Proof.
  unfold table_pages. assert (H : forall e, e ∈ map_to_list (init_slots n (∅ : gset Z)) -> e.2 = ∅).
  { intros [i s] He. apply elem_of_map_to_list in He. unfold init_slots in He. apply elem_of_list_to_map_2 in He.
    apply list_elem_of_fmap in He as (j & [= _ ->] & _). done. }
  induction (map_to_list (init_slots n (∅ : gset Z))) as [|e l IH]; [done|]. simpl. rewrite (H e) by left.
  rewrite elements_empty. simpl. apply IH. intros x Hx. apply H. by right.
Qed.

Lemma table_pages_at ps i : table_pages ps ≡ₚ elements (default ∅ (ps !! i)) ++ table_pages (delete i ps).
Proof.
  unfold table_pages. destruct (ps !! i) as [X|] eqn:E; simpl; [|by rewrite delete_id].
  rewrite <- (insert_id ps i X E) at 1. rewrite <- insert_delete_eq, map_to_list_insert by apply lookup_delete_eq. done.
Qed.

Lemma own_tmove h0 a ps b h ps' h' : own h0 (a ++ table_pages ps ++ b) h -> tmove ps h ps' h' ->
  own h0 (a ++ table_pages ps' ++ b) h'.
Proof.
  intros Ho (i & Hm & Hd). rewrite (table_pages_at ps i), <- app_assoc in Ho. rewrite (table_pages_at ps' i), Hd, <- app_assoc.
  by eapply own_smove.
Qed.

(** A step of the pool: one of its tables moves. *)
Lemma own_tiny h0 st pages free c h : own h0 (pool_pages st) (heap st) -> smove (m_tiny_obj_pages st) (heap st) pages h ->
  own h0 (pool_pages (set_tiny st pages free c h)) h.
Proof. intros Ho Hm. exact (own_smove h0 [] _ _ _ _ _ Ho Hm). Qed.

Lemma own_small h0 st pages free h : own h0 (pool_pages st) (heap st) -> tmove (m_small_obj_pages st) (heap st) pages h ->
  own h0 (pool_pages (set_small st pages free h)) h.
Proof. intros Ho Hm. exact (own_tmove h0 _ _ _ _ _ _ Ho Hm). Qed.

Lemma own_big h0 st pages free h : own h0 (pool_pages st) (heap st) -> tmove (m_big_obj_pages st) (heap st) pages h ->
  own h0 (pool_pages (set_big st pages free h)) h.
Proof.
  unfold pool_pages. intros Ho Hm. rewrite app_assoc in Ho. simpl. rewrite app_assoc. exact (own_tmove h0 _ _ _ _ _ _ Ho Hm).
Qed.

(** Deleting distinct objects of the store leaves the others. *)
Lemma delete_all_spec store ks : NoDup ks -> (forall k, k ∈ ks -> is_Some (store !! k)) ->
  exists store', delete_all store ks = Ret store' /\
    forall k mo, store' !! k = Some mo <-> store !! k = Some mo /\ k ∉ ks.
Proof.
  revert store. induction ks as [|k ks IH]; intros store Hn Hd; simpl.
  { exists store. split; [done|]. intros k mo. pose proof (not_elem_of_nil k). tauto. }
  apply NoDup_cons in Hn as [Hk Hn]. destruct (Hd k) as [m ->]; [left|].
  destruct (IH (delete k store) Hn) as (store' & E & Hs).
  { intros x Hx. rewrite lookup_delete_ne by (intros ->; done). apply Hd. by right. }
  exists store'. split; [done|]. intros x mo. rewrite Hs, lookup_delete_Some, not_elem_of_cons. naive_solver.
Qed.

(** ** The pages of a slot *)

Section steps.
Context (conf : MemPoolConf).
Context (posix_memalign : gmap Z Z -> Z -> Z -> option Z).
Context (iter : free_map -> list (Z * list Z)).
Hypothesis memalign_block : forall h al n p, posix_memalign h al n = Some p ->
  0 < p /\ p mod al = 0 /\ p + n <= 2 ^ 64 /\
  forall q k, h !! q = Some k -> p + n <= q \/ q + k <= p.
Hypothesis iter_perm : forall m, iter m ≡ₚ map_to_list m.
Hypothesis Hconf : conf_ok conf.

#[local] Set Default Proof Using "Type".

Lemma alloc_move h P s X free ok X' free' h' : heap_inv h -> 0 < P ->
  alloc_page_objs posix_memalign conf h P s X free = (ok, X', free', h') -> smove X h X' h'.
Proof using memalign_block.
  intros Hh HP. unfold alloc_page_objs, PosixMemAlign.
  destruct (posix_memalign h (m_sys_page_size conf) P) as [pg|] eqn:E.
  2:{ intros [= _ <- _ <-]. constructor. }
  destruct (memalign_block _ _ _ _ E) as (Hpos & _ & Hb & Hdis). destruct (Z.eqb_spec pg 0); [lia|].
  intros [= _ <- _ <-]. constructor. destruct (h !! pg) as [k|] eqn:Ek; [|done].
  destruct (hi_block _ Hh _ _ Ek). specialize (Hdis _ _ Ek). lia.
Qed.

Lemma release_move X free c h n X' free' c' h' : (forall q l, free !! q = Some l -> q ∈ X) ->
  release_full_page iter X free c h n = Ret (X', free', c', h') -> smove X h X' h'.
Proof using iter_perm.
  intros Hf. unfold release_full_page. destruct (list_find _ _) as [[i [q l]]|] eqn:E.
  2:{ intros [= <- _ _ <-]. constructor. }
  apply list_find_Some in E as (Hi & _). unfold heap_free. destruct (h !! q); [|done]. simpl.
  intros [= <- _ _ <-]. constructor. apply (Hf q l). apply (iter_in iter iter_perm). by eapply list_elem_of_lookup_2.
Qed.

Lemma get_slot_move fo ps h s i fo' ps' h' pg ob : heap_inv h ->
  0 < gen_expand_slot_page_size s (m_expand_obj_cnt_factor conf) (m_sys_page_size conf) ->
  get_slot_obj posix_memalign iter conf fo ps h s i = Ret (fo', ps', h', pg, ob) -> tmove ps h ps' h'.
Proof using memalign_block.
  intros Hh HP. unfold get_slot_obj. destruct (fo !! i) as [slot|]; [|done]. destruct (decide (objs slot = ∅)).
  - destruct (alloc_page_objs _ _ _ _ _ _ _) as [[[ok X] fr] h1] eqn:Ea.
    destruct (get_free_obj_from_slot_page _ _) as [[[? ?] ?]| | |]; try done. intros [= _ <- <- _ _].
    exists i. rewrite lookup_insert_eq, delete_insert_eq. split; [|done]. by eapply alloc_move.
  - destruct (get_free_obj_from_slot_page _ _) as [[[? ?] ?]| | |]; try done. intros [= _ <- <- _ _].
    exists i. split; [constructor|done].
Qed.

Lemma put_slot_move fo ps h i s res ob pg fo' ps' h' :
  (forall q l, push_free (objs (default empty_slot (fo !! i))) pg ob !! q = Some l -> q ∈ default ∅ (ps !! i)) ->
  put_slot iter conf fo ps h i s res ob pg = Ret (fo', ps', h') -> tmove ps h ps' h'.
Proof using iter_perm.
  intros Hf. unfold put_slot. destruct (fo !! i) as [slot|]; [|done]. simpl in Hf. destruct (Z.leb _ _).
  - destruct (release_full_page _ _ _ _ _ _) as [[[[X fr] c] h1]| | |] eqn:Er; try done. intros [= _ <- <-].
    exists i. rewrite lookup_insert_eq, delete_insert_eq. split; [|done]. by eapply release_move.
  - intros [= _ <- <-]. exists i. split; [constructor|done].
Qed.

(** ** The pages of the pool *)

Lemma get_mem_object_pages st t s ob pg st' k : get_mem_object st t s ob pg = (st', k) ->
  pool_pages st' = pool_pages st /\ heap st' = heap st.
Proof. unfold get_mem_object. destruct (m_free_mem_objs st); by intros [= <- _]. Qed.

Lemma finish_own h0 st t s ob pg st' r : own h0 (pool_pages st) (heap st) ->
  (if Z.eqb ob 0 then Ret (st, None)
   else let '(st2, k) := get_mem_object st t s ob pg in Ret (st2, Some k)) = Ret (st', r) ->
  own h0 (pool_pages st') (heap st').
Proof.
  intros Ho. destruct (Z.eqb ob 0); [by intros [= <- _]|].
  destruct (get_mem_object st t s ob pg) as [st2 k] eqn:E. apply get_mem_object_pages in E as [E1 E2].
  intros [= <- _]. by rewrite E1, E2.
Qed.

Lemma Get_tiny_own h0 st st' r : pool_inv conf st -> own h0 (pool_pages st) (heap st) ->
  Get_tiny posix_memalign iter conf st = Ret (st', r) -> own h0 (pool_pages st') (heap st').
Proof using memalign_block Hconf.
  intros Hi Ho. destruct (page_bytes_bounds conf Hconf Tiny _ eq_refl) as (Hs & HP & _). unfold Get_tiny.
  assert (Hfin : forall X free c h pg ob, smove (m_tiny_obj_pages st) (heap st) X h ->
    (if Z.eqb ob 0 then Ret (set_tiny st X free c h, None)
     else let '(st1, k) := get_mem_object (set_tiny st X free (u32 (c - 1)) h) Tiny (m_tiny_obj_threshold conf) ob pg in
       Ret (st1, Some k)) = Ret (st', r) -> own h0 (pool_pages st') (heap st')).
  { intros X free c h pg ob Hm E.
    apply (finish_own h0 (set_tiny st X free (if Z.eqb ob 0 then c else u32 (c - 1)) h) Tiny (m_tiny_obj_threshold conf) ob pg _ r).
    - by apply own_tiny.
    - by destruct (Z.eqb ob 0). }
  destruct (decide _); [destruct (alloc_page_objs _ _ _ _ _ _ _) as [[[ok X] fr] h1] eqn:Ea|];
    destruct (get_free_obj_from_slot_page _ _) as [[[free pg] ob]| | |]; try done; apply Hfin; [|constructor].
  eapply alloc_move; [exact (pi_heap _ _ Hi)| |exact Ea]. simpl in HP. lia.
Qed.

Lemma Get_own h0 st size st' r : pool_inv conf st -> 0 < size <= m_bulk_obj_threshold conf ->
  own h0 (pool_pages st) (heap st) -> Get posix_memalign iter conf st size = Ret (st', r) ->
  own h0 (pool_pages st') (heap st').
Proof using memalign_block Hconf.
  intros Hi Hsz Ho. pose proof (pi_heap _ _ Hi) as Hh. unfold Get. destruct (Z.leb_spec size 0); [lia|].
  destruct (Z.leb_spec size (m_tiny_obj_threshold conf)); [by apply Get_tiny_own|].
  destruct (Z.leb_spec size (m_bulk_obj_threshold conf)); [|lia]. unfold Get_slot.
  destruct (Z.ltb_spec (m_big_obj_threshold conf) size).
  - destruct (roundup_slot_big conf Hconf size ltac:(lia)) as [Hok _].
    destruct (page_bytes_bounds conf Hconf Big _ Hok) as (? & HP & _). simpl in HP.
    destruct (get_slot_obj _ _ _ _ _ _ _ _) as [[[[[fo ps] h1] pg] ob]| | |] eqn:E; try done.
    apply get_slot_move in E; [|done|lia]. apply finish_own. by apply own_big.
  - destruct (roundup_slot_small conf Hconf size ltac:(lia)) as [Hok _].
    destruct (page_bytes_bounds conf Hconf Small _ Hok) as (? & HP & _). simpl in HP.
    destruct (get_slot_obj _ _ _ _ _ _ _ _) as [[[[[fo ps] h1] pg] ob]| | |] eqn:E; try done.
    apply get_slot_move in E; [|done|lia]. apply finish_own. by apply own_small.
Qed.

(** Once an object is back, its slot lists free objects of its own pages only. *)
Lemma push_pages st k mo q l : pool_inv conf st -> live st k mo ->
  push_free (slot_free conf st (m_type mo) (m_slot_size mo)) (m_obj_page_pv mo) (m_obj_pv mo) !! q = Some l ->
  q ∈ slot_pages conf st (m_type mo) (m_slot_size mo).
Proof.
  intros Hi Hl Hq. destruct (pi_live _ _ Hi _ _ Hl) as (Hok & Hpg & Hob & Hnf).
  destruct (push_free_spec _ _ _ _ _ _ _ (pi_slot _ _ Hi _ _ Hok) Hpg Hob Hnf) as [Hi1 _].
  exact (proj1 (si_free _ _ _ _ _ Hi1 _ _ Hq)).
Qed.

Lemma Put_own h0 st k mo st' : pool_inv conf st -> live st k mo ->
  own h0 (pool_pages st) (heap st) -> Put iter conf st (Some k) = Ret st' -> own h0 (pool_pages st') (heap st').
Proof using iter_perm Hconf.
  intros Hi Hl Ho. pose proof (fun q l => push_pages st k mo q l Hi Hl) as Hf.
  destruct (pi_live _ _ Hi _ _ Hl) as (Hok & _). pose proof Hl as [Hst _]. unfold Put. rewrite Hst.
  destruct (put _ _ _ _ _ _ _) as [st1| | |] eqn:E; try done. intros [= <-]. change (own h0 (pool_pages st1) (heap st1)).
  destruct (m_type mo) eqn:Et; simpl in Hok; [| | |done]; simpl in E, Hf.
  - unfold put_tiny in E. destruct (Z.leb _ _).
    + destruct (release_full_page _ _ _ _ _ _) as [[[[X fr] c] h1]| | |] eqn:Er; try done. injection E as <-.
      apply own_tiny; [done|]. by eapply release_move.
    + injection E as <-. apply own_tiny; [done|constructor].
  - unfold put_small, convert_slot_obj_size_to_slot_idx in E. rewrite (proj1 (co_small _ Hconf)) in E.
    destruct (put_slot _ _ _ _ _ _ _ _ _ _) as [[[fo ps] h1]| | |] eqn:Ep; try done. injection E as <-.
    apply own_small; [done|]. by eapply put_slot_move.
  - unfold put_big, convert_slot_obj_size_to_slot_idx in E.
    destruct (put_slot _ _ _ _ _ _ _ _ _ _) as [[[fo ps] h1]| | |] eqn:Ep; try done. injection E as <-.
    apply own_big; [done|]. by eapply put_slot_move.
Qed.

(** ** The destructor *)

Lemma free_all_app h a b : free_all h (a ++ b) = let* h := free_all h a in free_all h b.
Proof.
  revert h. induction a as [|p a IH]; intros h; simpl; [done|]. destruct (heap_free h p); simpl; [apply IH|done..].
Qed.

Lemma own_nil h0 h : own h0 [] h -> h = h0.
Proof. intros Ho. apply map_eq. intros p. apply Ho. apply not_elem_of_nil. Qed.

(** Freeing the blocks [l] of [h] succeeds and leaves the others. *)
Lemma free_all_own h0 l h : own h0 l h -> free_all h l = Ret h0.
Proof.
  revert h. induction l as [|p l IH]; intros h Ho; simpl; [by rewrite (own_nil _ _ Ho)|].
  destruct (ow_in _ _ _ Ho p) as [[n Hn] _]; [left|]. unfold heap_free. rewrite Hn. simpl. apply IH.
  eapply own_move; [exact Ho|]. by apply move_free.
Qed.

Lemma MemPool_delete_pages st :
  MemPool_delete st = let* h := free_all (heap st) (pool_pages st) in
    let* store := delete_all (mo_store st) (m_free_mem_objs st) in Ret (h, store).
Proof.
  unfold MemPool_delete, pool_pages. rewrite free_all_app. destruct (free_all _ _) as [h1| | |]; [|done..]. simpl.
  rewrite free_all_app. destruct (free_all _ _) as [h2| | |]; [|done..]. simpl. by rewrite free_all_app; destruct (free_all _ _).
Qed.

Lemma own_new u h : own h (pool_pages (MemPool_new conf u h)) h.
Proof.
  unfold pool_pages. simpl. rewrite !table_pages_empty, elements_empty. unfold table_pages. rewrite map_to_list_empty. simpl.
  split; [apply NoDup_nil_2| |done]. intros p Hp. by apply not_elem_of_nil in Hp.
Qed.

Lemma reach_own u h st : heap_inv h -> rtc (pool_step conf posix_memalign iter) (MemPool_new conf u h) st ->
  own h (pool_pages st) (heap st).
Proof using memalign_block iter_perm Hconf.
  intros Hh Hr. revert st Hr. apply (rtc_ind_r (fun st => own h (pool_pages st) (heap st)) (MemPool_new conf u h)).
  { apply own_new. }
  intros st st' Hr Hs IH.
  assert (Hi : pool_inv conf st).
  { apply (reachable_inv conf posix_memalign iter memalign_block iter_perm Hconf). by exists u, h. }
  destruct Hs as [st size st' r Hsz Hg|st k mo st' Hl Hp]; [by eapply Get_own|by eapply Put_own].
Qed.

(** C14.  A pool that has only been asked for requests up to the bulk threshold
    is destroyed without a fault: every page it obtained from the system is
    freed exactly once and the heap is the one the constructor found, and every
    recycled object header is deleted once, so that the headers left are those
    of the objects still in use. *)
Theorem pool_delete u h st : heap_inv h -> rtc (pool_step conf posix_memalign iter) (MemPool_new conf u h) st ->
  exists store, MemPool_delete st = Ret (h, store) /\ forall k mo, store !! k = Some mo <-> live st k mo.
Proof using memalign_block iter_perm Hconf.
  intros Hh Hr. rewrite MemPool_delete_pages, (free_all_own h) by (by eapply reach_own). simpl.
  assert (Hi : pool_inv conf st).
  { apply (reachable_inv conf posix_memalign iter memalign_block iter_perm Hconf). by exists u, h. }
  destruct (pi_mos _ _ Hi) as [Hn Hd]. destruct (delete_all_spec _ _ Hn Hd) as (store & -> & Hs). by exists store.
Qed.

End steps.

(** ** A run: an object of each class, then the destructor *)

Module DeleteDemo.
Import Demo.

Definition st3 : MemPool := match gets st0 [8; 100; 8000] with Ret (st, _) => st | _ => st0 end.

Lemma st3_steps : rtc (pool_step conf bump iter) st0 st3.
Proof.
  assert (match gets st0 [8; 100; 8000] with Ret _ => true | _ => false end = true) as Hret by (vm_compute; reflexivity).
  unfold st3. destruct (gets st0 [8; 100; 8000]) as [[st ks]| | |] eqn:E; try discriminate Hret.
  eapply gets_steps; [|exact E]. repeat constructor; lia.
Qed.

Lemma pool_delete_witness : length (pool_pages st3) = 3%nat /\
  exists store, MemPool_delete st3 = Ret (∅, store) /\ forall k mo, store !! k = Some mo <-> live st3 k mo.
Proof.
  split; [vm_compute; reflexivity|].
  apply (pool_delete conf bump iter bump_block (fun m => reflexivity _) default_conf_ok 77 ∅ st3); [|exact st3_steps].
  split; [intros p n|intros p n q k]; by rewrite lookup_empty.
Defined.

End DeleteDemo.
