(* ===== verification/PoolCounts.v ===== *)
(** * PoolCounts: the counters of the pool and what it keeps

    Models nothing beyond MemPool.v: the free counters of the tiny, small and big
    slots (src/src/ccsys/mem-pool.cc), which decide when [put] gives a page back to
    the system.  A counter is the number of free objects of its slot modulo
    [2^32], and a slot that holds more than its share of free objects has no
    page that is entirely free. *)

From S2P Require Import Prelude MemPool MemPoolSafety.

(** ** The number of free objects of a slot *)

Definition tot (free : free_map) : Z := Z.of_nat (length (map_to_list free ≫= snd)).

Lemma tot_empty : tot ∅ = 0.
Proof. unfold tot. by rewrite map_to_list_empty. Qed.

Lemma tot_insert free p l : tot (<[p := l]> free) = Z.of_nat (length l) + tot (delete p free).
Proof.
  unfold tot. rewrite <- insert_delete_eq.
  rewrite (map_to_list_insert _ p l (lookup_delete_eq free p)), bind_cons, length_app. simpl. lia.
Qed.

Lemma tot_at free p : tot free = Z.of_nat (length (free_of free p)) + tot (delete p free).
Proof.
  unfold free_of. destruct (free !! p) as [l|] eqn:E; simpl; [|by rewrite delete_id].
  rewrite <- (insert_id free p l E) at 1. apply tot_insert.
Qed.

Lemma tot_nonneg free : 0 <= tot free.
Proof. unfold tot. lia. Qed.

(** ** One step of a slot

    [per] is the number of objects of a page and [T] the count at which [put]
    looks for a page to release.  [X] are the pages, [free] the free objects
    and [c] the counter. *)

Definition without (free : free_map) (pg : Z) (rest : list Z) : free_map :=
  if decide (rest = []) then delete pg free else <[pg := rest]> free.

Inductive cstep (per T : Z) (X : gset Z) (free : free_map) (c : Z) : gset Z -> free_map -> Z -> Prop :=
| c_none : cstep per T X free c X free c
| c_take pg ob rest X' : free !! pg = Some (ob :: rest) -> cstep per T X free c X' (without free pg rest) (u32 (c - 1))
| c_fresh pg ob rest X' : Z.of_nat (length (ob :: rest)) = per -> cstep per T X free c X' (without ∅ pg rest) (u32 (per - 1))
| c_put pg ob X' : X <> ∅ -> u32 (c + 1) < T -> cstep per T X free c X' (push_free free pg ob) (u32 (c + 1))
| c_keep pg ob X' : X <> ∅ -> T <= u32 (c + 1) ->
    (forall q l, push_free free pg ob !! q = Some l -> Z.of_nat (length l) <> per) ->
    cstep per T X free c X' (push_free free pg ob) (u32 (c + 1))
| c_release pg ob q l X' : X <> ∅ -> T <= u32 (c + 1) ->
    push_free free pg ob !! q = Some l -> Z.of_nat (length l) = per ->
    cstep per T X free c X' (delete q (push_free free pg ob)) (u32 (u32 (c + 1) - per)).

Lemma tot_without free pg ob rest : free !! pg = Some (ob :: rest) -> tot (without free pg rest) = tot free - 1.
Proof.
  intros E. rewrite (tot_at free pg). unfold without, free_of. rewrite E. simpl. case_decide as Hr.
  - subst. simpl. lia.
  - rewrite tot_insert. lia.
Qed.

Lemma tot_fresh pg (rest : list Z) : tot (without ∅ pg rest) = Z.of_nat (length rest).
Proof.
  unfold without. case_decide; [subst; rewrite delete_empty; apply tot_empty|].
  rewrite tot_insert, delete_empty, tot_empty. lia.
Qed.

Lemma tot_push free pg ob : tot (push_free free pg ob) = tot free + 1.
Proof.
  unfold push_free. rewrite tot_insert, (tot_at free pg), length_app. unfold free_of. simpl. lia.
Qed.

Lemma u32_add_l a b : u32 (u32 a + b) = u32 (a + b).
Proof. unfold u32, wrap. by rewrite Zplus_mod_idemp_l. Qed.

Lemma without_fresh pg l rest : without (<[pg := l]> ∅) pg rest = without ∅ pg rest.
Proof. unfold without. case_decide; [apply delete_insert_eq|apply insert_insert_eq]. Qed.

(** A slot without pages has no free objects, so it is not counted. *)
Definition counted (X : gset Z) (free : free_map) (c : Z) : Prop := X = ∅ \/ c = u32 (tot free).

Lemma cstep_counted per T X free c X' free' c' : counted X free c -> (X = ∅ -> free = ∅) ->
  cstep per T X free c X' free' c' -> counted X' free' c'.
Proof.
  intros Hc HX Hs. destruct Hs as [|pg ob rest X' E|pg ob rest X' E|pg ob X' Hne HT|pg ob X' Hne HT _|pg ob q l X' Hne HT E El].
  { done. }
  all: right; destruct Hc as [Hc|Hc]; try done.
  - rewrite (HX Hc) in E. done.
  - rewrite (tot_without _ _ _ _ E), Hc. apply u32_add_l.
  - rewrite tot_fresh. f_equal. simpl in E. lia.
  - rewrite tot_fresh. f_equal. simpl in E. lia.
  - rewrite tot_push, Hc. apply u32_add_l.
  - rewrite tot_push, Hc. apply u32_add_l.
  - pose proof (tot_at (push_free free pg ob) q) as Ht. unfold free_of in Ht. rewrite E, tot_push in Ht. simpl in Ht.
    replace (tot (delete q _)) with (tot free + 1 - per) by lia. rewrite Hc, u32_add_l. apply (u32_add_l _ (- per)).
Qed.

(** No page of the slot is entirely free. *)
Definition no_full (per : Z) (free : free_map) : Prop := forall p l, free !! p = Some l -> Z.of_nat (length l) < per.

Definition lean (per T : Z) (X : gset Z) (free : free_map) (c : Z) : Prop := X = ∅ \/ c < T \/ no_full per free.

Lemma no_full_without per free pg ob rest : free !! pg = Some (ob :: rest) -> no_full per free -> no_full per (without free pg rest).
Proof.
  intros E Hn p l. unfold without. case_decide; [intros [_ Hp]%lookup_delete_Some; by apply (Hn p)|].
  intros [[-> <-]|[_ Hp]]%lookup_insert_Some; [|by apply (Hn p)]. specialize (Hn _ _ E). simpl in Hn. lia.
Qed.

(** Releasing the only page that may be full leaves none. *)
Lemma no_full_release per free pg ob q l : no_full per free -> push_free free pg ob !! q = Some l -> Z.of_nat (length l) = per ->
  no_full per (delete q (push_free free pg ob)).
Proof.
  intros Hn E El p l' [Hne Hp]%lookup_delete_Some. unfold push_free in *.
  apply lookup_insert_Some in E as [[<- E]|[Hq E]].
  - rewrite lookup_insert_ne in Hp by done. by apply (Hn p).
  - specialize (Hn _ _ E). lia.
Qed.

Lemma cstep_lean per res X free c X' free' c' :
  let T := u32 (res + per) in
  0 < per -> 0 <= res -> res + per < 2 ^ 32 -> counted X free c -> tot free < 2 ^ 32 -> (X = ∅ -> free = ∅) ->
  (forall p l, free' !! p = Some l -> Z.of_nat (length l) <= per) ->
  lean per T X free c -> cstep per T X free c X' free' c' -> lean per T X' free' c'.
Proof.
  intros T Hper Hres Hfit Hc Ht HX Hle Hl Hs. assert (HT : T = res + per) by (apply u32_id; unfold in_u; lia).
  destruct Hs as [|pg ob rest X' E|pg ob rest X' E|pg ob X' Hne Hlt|pg ob X' Hne Hge Hnf|pg ob q l X' Hne Hge E El]; [done|..]; right.
  - destruct Hl as [Hl|[Hl|Hl]]; [by rewrite (HX Hl) in E| |right; by eapply no_full_without].
    destruct Hc as [Hc|Hc]; [by rewrite (HX Hc) in E|]. left. pose proof (tot_nonneg (without free pg rest)) as H0.
    rewrite (tot_without _ _ _ _ E) in H0. rewrite u32_id in Hc by (unfold in_u; pose proof (tot_nonneg free); lia).
    rewrite u32_id by (unfold in_u; lia). lia.
  - right. intros p l. unfold without. case_decide; [by rewrite delete_empty|].
    intros [[-> <-]|[_ Hp]]%lookup_insert_Some; [|done]. simpl in E. lia.
  - by left.
  - right. intros q l Hq. specialize (Hnf _ _ Hq). specialize (Hle _ _ Hq). lia.
  - destruct Hl as [Hl|[Hl|Hl]]; [done| |right; by eapply no_full_release]. left.
    destruct Hc as [Hc|Hc]; [done|]. pose proof (u32_range (tot free)) as Hr. rewrite <- Hc in Hr. unfold in_u in Hr.
    rewrite (u32_id (c + 1)) in * by (unfold in_u; lia). rewrite u32_id by (unfold in_u; lia). lia.
Qed.

(** ** The slots of a pool *)

Section pool_counts.
Context (conf : MemPoolConf).

Definition slot_cnt (st : MemPool) (t : MemObjectType) (s : Z) : Z :=
  match t with
  | Tiny => m_free_tiny_objs_cnt st
  | Small => cnt (default empty_slot (m_free_small_objs st !! (s / 32)))
  | Big => cnt (default empty_slot (m_free_big_objs st !! (s / m_sys_page_size conf)))
  | Bulk => 0
  end.

(** The objects of a page, and the free objects a slot may keep beside a page. *)
Definition per_page (t : MemObjectType) (s : Z) : Z := page_bytes conf t s / s.

Definition resident (t : MemObjectType) : Z :=
  match t with
  | Tiny => m_one_slot_tiny_obj_resident_cnts conf
  | Small => m_one_slot_small_obj_resident_cnts conf
  | Big => m_one_slot_big_obj_resident_cnts conf
  | Bulk => m_one_slot_bulk_obj_resident_cnts conf
  end.

Definition limit (t : MemObjectType) (s : Z) : Z := u32 (resident t + per_page t s).

(** A step of the pool is a step of one of its slots. *)
Record cupd (st : MemPool) (t : MemObjectType) (s : Z) (st' : MemPool) : Prop := mkCupd {
  cu_ok : slot_ok conf t s;
  cu_step : cstep (per_page t s) (limit t s) (slot_pages conf st t s) (slot_free conf st t s) (slot_cnt st t s)
    (slot_pages conf st' t s) (slot_free conf st' t s) (slot_cnt st' t s);
  cu_other : forall t' s', slot_ok conf t' s' -> ~ (t' = t /\ s' = s) ->
    slot_pages conf st' t' s' = slot_pages conf st t' s' /\ slot_free conf st' t' s' = slot_free conf st t' s' /\
    slot_cnt st' t' s' = slot_cnt st t' s'
}.

(** The headers play no part. *)
Lemma cupd_mos st t s st1 free store : cupd st t s st1 -> cupd st t s (set_mos st1 free store).
Proof. intros [H1 H2 H3]. split; [done| |]; destruct t; done. Qed.

Lemma cupd_finish st t s st1 ob pg st' r : cupd st t s st1 ->
  (if Z.eqb ob 0 then Ret (st1, None)
   else let '(st2, k) := get_mem_object st1 t s ob pg in Ret (st2, Some k)) = Ret (st', r) -> cupd st t s st'.
Proof.
  intros Hu. destruct (Z.eqb ob 0); [by intros [= <- _]|]. unfold get_mem_object.
  destruct (m_free_mem_objs st1); intros [= <- _]; by apply cupd_mos.
Qed.

Context (posix_memalign : gmap Z Z -> Z -> Z -> option Z).
Context (iter : free_map -> list (Z * list Z)).
Hypothesis memalign_block : forall h al n p, posix_memalign h al n = Some p ->
  0 < p /\ p mod al = 0 /\ p + n <= 2 ^ 64 /\
  forall q k, h !! q = Some k -> p + n <= q \/ q + k <= p.
Hypothesis iter_perm : forall m, iter m ≡ₚ map_to_list m.
Hypothesis Hconf : conf_ok conf.

#[local] Set Default Proof Using "Type".

Lemma take_step free free' pg ob : get_free_obj_from_slot_page iter free = Ret (free', pg, ob) ->
  (free = ∅ /\ free' = free /\ ob = 0) \/ exists rest, free !! pg = Some (ob :: rest) /\ free' = without free pg rest.
Proof using iter_perm.
  unfold get_free_obj_from_slot_page. destruct (iter free) as [|[p l] tl] eqn:E.
  { intros [= <- _ <-]. left. split; [|done]. by apply (iter_nil iter iter_perm). }
  destruct l as [|o rest]; [done|]. intros [= <- <- <-]. right. exists rest. split; [|done].
  apply (iter_in iter iter_perm). rewrite E. left.
Qed.

(** An object of a slot is not the null pointer. *)
Lemma obj_nonzero s P X free h pg ob rest : 0 < s -> in_u 32 P -> heap_inv h -> slot_inv s P X free h ->
  free !! pg = Some (ob :: rest) -> Z.eqb ob 0 = false.
Proof.
  intros Hs HP Hh Hi E. destruct (si_free _ _ _ _ _ Hi _ _ E) as (Hp & _ & _ & Hsub).
  destruct (hi_block _ Hh _ _ (si_pages _ _ _ _ _ Hi _ Hp)) as (H0 & _ & Hb).
  specialize (Hsub ob ltac:(left)). apply split_mem_page_in in Hsub as (j & Hj & ->); [|done|lia|done|done].
  apply Z.eqb_neq. nia.
Qed.

(** Taking an object of slot [(t, s)], with the counter the code computes. *)
Lemma get_cstep st t s X1 free1 h1 ok c1 free2 pg ob : pool_inv conf st -> slot_ok conf t s ->
  (if decide (slot_free conf st t s = ∅) then
     let '(ok, X, free, h) := alloc_page_objs posix_memalign conf (heap st) (page_bytes conf t s) s (slot_pages conf st t s) (slot_free conf st t s) in
     (ok, X, free, h, if ok : bool then per_page t s else slot_cnt st t s)
   else (false, slot_pages conf st t s, slot_free conf st t s, heap st, slot_cnt st t s)) = (ok, X1, free1, h1, c1) ->
  get_free_obj_from_slot_page iter free1 = Ret (free2, pg, ob) ->
  cstep (per_page t s) (limit t s) (slot_pages conf st t s) (slot_free conf st t s) (slot_cnt st t s)
    X1 free2 (if Z.eqb ob 0 then c1 else u32 (c1 - 1)).
Proof using memalign_block iter_perm Hconf.
  intros Hi Hok Ha Hg. destruct (page_bytes_bounds conf Hconf _ _ Hok) as (Hs & HsP & HP).
  pose proof (pi_slot _ _ Hi _ _ Hok) as Hsl. pose proof (pi_heap _ _ Hi) as Hh.
  destruct (decide (slot_free conf st t s = ∅)) as [E|E].
  - rewrite E in Ha, Hsl. destruct (alloc_page_spec posix_memalign conf memalign_block _ _ _ _ Hs HsP HP Hh Hsl)
      as (ok' & X' & free' & h' & Ea & Hcase). rewrite Ea in Ha. injection Ha as -> -> -> -> <-.
    destruct Hcase as [(-> & -> & -> & ->)|(p & -> & _ & -> & Hne & -> & Hh' & Hi' & Hfo)].
    + apply take_step in Hg as [(_ & -> & ->)|(rest & Hl & _)]; [|by rewrite lookup_empty in Hl]. simpl. rewrite E. constructor.
    + unfold alloc_page_objs, PosixMemAlign in Ea. destruct (posix_memalign _ _ _) as [p'|]; [|by simplify_eq].
      destruct (Z.eqb_spec p' 0); [by simplify_eq|].
      assert (free1 = <[p' := split_mem_page s p' (page_bytes conf t s)]> ∅) as -> by congruence.
      apply take_step in Hg as [(Hx & _)|(rest & Hl & ->)]; [by destruct (Hne Hx)|].
      rewrite (obj_nonzero _ _ _ _ _ _ _ _ Hs HP Hh' Hi' Hl).
      apply lookup_insert_Some in Hl as [[<- Hl]|[_ Hl]]; [|by rewrite lookup_empty in Hl]. rewrite without_fresh. eapply (c_fresh _ _ _ _ _ _ ob).
      rewrite <- Hl. apply split_mem_page_length; unfold in_u in HP; lia.
  - injection Ha as _ <- <- _ <-. apply take_step in Hg as [(Hx & _)|(rest & Hl & ->)]; [done|].
    rewrite (obj_nonzero _ _ _ _ _ _ _ _ Hs HP Hh Hsl Hl). by econstructor.
Qed.

(** The slot step of small and big objects, and the tables it stores. *)
Lemma get_slot_shape fo ps h s i slot fo' ps' h' pg ob : fo !! i = Some slot ->
  get_slot_obj posix_memalign iter conf fo ps h s i = Ret (fo', ps', h', pg, ob) ->
  let P := gen_expand_slot_page_size s (m_expand_obj_cnt_factor conf) (m_sys_page_size conf) in
  exists ok X1 free1 c1 free2,
    (if decide (objs slot = ∅) then
       let '(ok, X, free, h) := alloc_page_objs posix_memalign conf h P s (default ∅ (ps !! i)) (objs slot) in
       (ok, X, free, h, if ok : bool then P / s else cnt slot)
     else (false, default ∅ (ps !! i), objs slot, h, cnt slot)) = (ok, X1, free1, h', c1) /\
    get_free_obj_from_slot_page iter free1 = Ret (free2, pg, ob) /\
    default ∅ (ps' !! i) = X1 /\ (forall j, j <> i -> ps' !! j = ps !! j) /\
    fo' = <[i := mkSlot free2 (if Z.eqb ob 0 then c1 else u32 (c1 - 1))]> fo.
Proof.
  intros Hf. unfold get_slot_obj. rewrite Hf. destruct (decide (objs slot = ∅)).
  - destruct (alloc_page_objs _ _ _ _ _ _ _) as [[[ok X] fr] h1]. simpl.
    destruct (get_free_obj_from_slot_page iter fr) as [[[fr2 pg2] ob2]| | |] eqn:E; try done. intros [= <- <- <- <- <-].
    eexists _, _, _, _, _. split; [done|]. split; [done|]. rewrite lookup_insert_eq. split; [done|]. split; [|done].
    intros j Hj. by rewrite lookup_insert_ne.
  - destruct (get_free_obj_from_slot_page iter (objs slot)) as [[[fr2 pg2] ob2]| | |] eqn:E; try done. intros [= <- <- <- <- <-].
    by eexists _, _, _, _, _.
Qed.

Lemma cupd_small st s ps fo h slot : slot_ok conf Small s ->
  (forall j, j <> s / 32 -> ps !! j = m_small_obj_pages st !! j) ->
  cstep (per_page Small s) (limit Small s) (slot_pages conf st Small s) (slot_free conf st Small s) (slot_cnt st Small s)
    (default ∅ (ps !! (s / 32))) (objs slot) (cnt slot) ->
  fo = <[s / 32 := slot]> (m_free_small_objs st) -> cupd st Small s (set_small st ps fo h).
Proof.
  intros Hok Hj Hc ->. split; [done|simpl; by rewrite lookup_insert_eq|].
  intros t' s' Hok' Hne. destruct t'; try done. simpl in *.
  assert (s' / 32 <> s / 32) by (intros E; apply Hne; split; [done|]; apply (multiple_idx _ _ 32); lia).
  by rewrite !lookup_insert_ne, Hj.
Qed.

Lemma cupd_big st s ps fo h slot : slot_ok conf Big s ->
  (forall j, j <> s / m_sys_page_size conf -> ps !! j = m_big_obj_pages st !! j) ->
  cstep (per_page Big s) (limit Big s) (slot_pages conf st Big s) (slot_free conf st Big s) (slot_cnt st Big s)
    (default ∅ (ps !! (s / m_sys_page_size conf))) (objs slot) (cnt slot) ->
  fo = <[s / m_sys_page_size conf := slot]> (m_free_big_objs st) -> cupd st Big s (set_big st ps fo h).
Proof using Hconf.
  intros Hok Hj Hc ->. split; [done|simpl; by rewrite lookup_insert_eq|].
  intros t' s' Hok' Hne. destruct t'; try done. simpl in *.
  assert (0 < m_sys_page_size conf) by (destruct Hconf as [[He ->] _ _ _ _ _ _]; apply Z.pow_pos_nonneg; lia).
  assert (s' / m_sys_page_size conf <> s / m_sys_page_size conf)
    by (intros E; apply Hne; split; [done|]; apply (multiple_idx _ _ (m_sys_page_size conf)); lia).
  by rewrite !lookup_insert_ne, Hj.
Qed.

Lemma cupd_tiny st X free c h :
  cstep (per_page Tiny (m_tiny_obj_threshold conf)) (limit Tiny (m_tiny_obj_threshold conf))
    (m_tiny_obj_pages st) (m_free_tiny_objs st) (m_free_tiny_objs_cnt st) X free c ->
  cupd st Tiny (m_tiny_obj_threshold conf) (set_tiny st X free c h).
Proof.
  intros Hc. split; [done..|]. intros t' s' Hok Hne. destruct t'; try done. simpl in Hok. subst. destruct Hne. done.
Qed.

Lemma Get_cupd st size st' r : pool_inv conf st -> 0 < size <= m_bulk_obj_threshold conf ->
  Get posix_memalign iter conf st size = Ret (st', r) -> exists t s, cupd st t s st'.
Proof using memalign_block iter_perm Hconf.
  intros Hi Hsz. unfold Get. destruct (Z.leb_spec size 0); [lia|].
  destruct (Z.leb_spec size (m_tiny_obj_threshold conf)); [|destruct (Z.leb_spec size (m_bulk_obj_threshold conf)); [|lia]].
  - unfold Get_tiny. intros E. exists Tiny, (m_tiny_obj_threshold conf).
    pose proof (fun ok X1 free1 h1 c1 free2 pg ob => get_cstep st Tiny _ X1 free1 h1 ok c1 free2 pg ob Hi eq_refl) as Hg. simpl in Hg.
    assert (Hfin : forall X free c h pg ob,
      cstep (per_page Tiny (m_tiny_obj_threshold conf)) (limit Tiny (m_tiny_obj_threshold conf))
        (m_tiny_obj_pages st) (m_free_tiny_objs st) (m_free_tiny_objs_cnt st) X free (if Z.eqb ob 0 then c else u32 (c - 1)) ->
      (if Z.eqb ob 0 then Ret (set_tiny st X free c h, None)
       else let '(st1, k) := get_mem_object (set_tiny st X free (u32 (c - 1)) h) Tiny (m_tiny_obj_threshold conf) ob pg in
         Ret (st1, Some k)) = Ret (st', r) -> cupd st Tiny (m_tiny_obj_threshold conf) st').
    { intros X free c h pg ob Hc Ef. apply (cupd_finish _ _ _ _ ob pg st' r (cupd_tiny st X free _ h Hc)).
      by destruct (Z.eqb ob 0). }
    destruct (decide _); [destruct (alloc_page_objs _ _ _ _ _ _ _) as [[[ok X] fr] h1] eqn:Ea|];
      destruct (get_free_obj_from_slot_page _ _) as [[[free pg] ob]| | |] eqn:Eg; try done;
      (eapply Hfin; [|exact E]); by eapply Hg.
  - unfold Get_slot, convert_slot_obj_size_to_slot_idx. destruct (Z.ltb_spec (m_big_obj_threshold conf) size).
    + destruct (roundup_slot_big conf Hconf size ltac:(lia)) as [Hok _].
      set (s := roundup_to_the_next_highest_multiple_of_exponent2 _ _) in *.
      destruct (proj2 (pi_exist _ _ Hi) _ Hok) as [slot Hs].
      destruct (get_slot_obj _ _ _ _ _ _ _ _) as [[[[[fo ps] h1] pg] ob]| | |] eqn:E; try done.
      destruct (get_slot_shape _ _ _ _ _ _ _ _ _ _ _ Hs E) as (ok & X1 & free1 & c1 & free2 & Ea & Eg & <- & Hj & Hfo).
      intros Ef. simpl in Ef. exists Big, s. apply (cupd_finish st Big s (set_big st ps fo h1) ob pg st' r); [|exact Ef]. eapply cupd_big; [done|done| |exact Hfo].
      pose proof (get_cstep st Big s (default ∅ (ps !! (s / m_sys_page_size conf))) free1 h1 ok c1 free2 pg ob Hi Hok) as Hg. simpl in Hg |- *. rewrite Hs in Hg |- *. by apply Hg.
    + destruct (roundup_slot_small conf Hconf size ltac:(lia)) as [Hok _]. rewrite (proj1 (co_small _ Hconf)).
      set (s := roundup_to_the_next_highest_multiple_of_exponent2 _ _) in *.
      destruct (proj1 (pi_exist _ _ Hi) _ Hok) as [slot Hs].
      destruct (get_slot_obj _ _ _ _ _ _ _ _) as [[[[[fo ps] h1] pg] ob]| | |] eqn:E; try done.
      destruct (get_slot_shape _ _ _ _ _ _ _ _ _ _ _ Hs E) as (ok & X1 & free1 & c1 & free2 & Ea & Eg & <- & Hj & Hfo).
      intros Ef. simpl in Ef. exists Small, s. apply (cupd_finish st Small s (set_small st ps fo h1) ob pg st' r); [|exact Ef]. eapply cupd_small; [done|done| |exact Hfo].
      pose proof (get_cstep st Small s (default ∅ (ps !! (s / 32))) free1 h1 ok c1 free2 pg ob Hi Hok) as Hg. simpl in Hg |- *. rewrite Hs in Hg |- *. by apply Hg.
Qed.

Lemma put_cstep per T X free c h pg ob X' free' c' h' : X <> ∅ ->
  (if Z.leb T (u32 (c + 1)) then release_full_page iter X (push_free free pg ob) (u32 (c + 1)) h per
   else Ret (X, push_free free pg ob, u32 (c + 1), h)) = Ret (X', free', c', h') ->
  cstep per T X free c X' free' c'.
Proof using iter_perm.
  intros HX. destruct (Z.leb_spec T (u32 (c + 1))).
  2:{ intros [= <- <- <- _]. by apply c_put. }
  unfold release_full_page. destruct (list_find _ _) as [[i [q l]]|] eqn:E.
  - apply list_find_Some in E as (Hq & El & _). destruct (heap_free h q); [|done..]. intros [= _ <- <- _].
    eapply c_release; [done|done| |by symmetry]. apply (iter_in iter iter_perm). by eapply list_elem_of_lookup_2.
  - intros [= <- <- <- _]. apply c_keep; [done|done|]. intros q l Hq El. apply (iter_in iter iter_perm) in Hq.
    apply list_find_None in E. rewrite Forall_forall in E. by apply (E _ Hq).
Qed.

Lemma put_slot_shape fo ps h i s res ob pg slot fo' ps' h' : fo !! i = Some slot -> default ∅ (ps !! i) <> ∅ ->
  put_slot iter conf fo ps h i s res ob pg = Ret (fo', ps', h') ->
  let per := gen_expand_slot_page_size s (m_expand_obj_cnt_factor conf) (m_sys_page_size conf) / s in
  exists slot', fo' = <[i := slot']> fo /\ (forall j, j <> i -> ps' !! j = ps !! j) /\
    cstep per (u32 (res + per)) (default ∅ (ps !! i)) (objs slot) (cnt slot) (default ∅ (ps' !! i)) (objs slot') (cnt slot').
Proof using iter_perm.
  intros Hf HX. unfold put_slot. rewrite Hf.
  set (per := gen_expand_slot_page_size _ _ _ / s). set (T := u32 (res + per)).
  pose proof (fun X' free' c' h' => put_cstep per T _ (objs slot) (cnt slot) h pg ob X' free' c' h' HX) as Hp.
  destruct (Z.leb T (u32 (cnt slot + 1))).
  - destruct (release_full_page _ _ _ _ _ _) as [[[[X fr] c] h1]| | |]; try done. intros [= <- <- <-].
    eexists. split; [done|]. split; [intros j Hj; by rewrite lookup_insert_ne|]. rewrite lookup_insert_eq. by eapply Hp.
  - intros [= <- <- <-]. eexists. split; [done|]. split; [done|]. by eapply Hp.
Qed.

Lemma Put_cupd st k mo st' : pool_inv conf st -> live st k mo -> Put iter conf st (Some k) = Ret st' ->
  exists t s, cupd st t s st'.
Proof using iter_perm Hconf.
  intros Hi Hl. destruct (live_page _ _ _ _ Hi Hl) as (Hok & Hpg & _). pose proof Hl as [Hst _]. unfold Put. rewrite Hst.
  assert (HX : slot_pages conf st (m_type mo) (m_slot_size mo) <> ∅) by (intros HX; rewrite HX in Hpg; by apply elem_of_empty in Hpg).
  destruct (put _ _ _ _ _ _ _) as [st1| | |] eqn:E; try done. intros [= <-].
  cut (exists t s, cupd st t s st1); [intros (t & s & H); exists t, s; by apply cupd_mos|].
  destruct (m_type mo) eqn:Et; simpl in Hok, HX; [| | |done]; simpl in E.
  - unfold put_tiny in E. exists Tiny, (m_tiny_obj_threshold conf).
    destruct (if Z.leb _ _ then _ else _) as [[[[X fr] c] h1]| | |] eqn:Er; try done. injection E as <-.
    apply cupd_tiny. exact (put_cstep _ _ _ _ _ _ _ _ _ _ _ _ HX Er).
  - unfold put_small, convert_slot_obj_size_to_slot_idx in E. rewrite (proj1 (co_small _ Hconf)) in E.
    destruct (put_slot _ _ _ _ _ _ _ _ _ _) as [[[fo ps] h1]| | |] eqn:Ep; try done. injection E as <-.
    destruct (proj1 (pi_exist _ _ Hi) _ Hok) as [slot Hs].
    destruct (put_slot_shape _ _ _ _ _ _ _ _ _ _ _ _ Hs HX Ep) as (slot' & Hfo & Hj & Hc).
    exists Small, (m_slot_size mo). eapply cupd_small; [done|done| |exact Hfo]. simpl. by rewrite Hs.
  - unfold put_big, convert_slot_obj_size_to_slot_idx in E.
    destruct (put_slot _ _ _ _ _ _ _ _ _ _) as [[[fo ps] h1]| | |] eqn:Ep; try done. injection E as <-.
    destruct (proj2 (pi_exist _ _ Hi) _ Hok) as [slot Hs].
    destruct (put_slot_shape _ _ _ _ _ _ _ _ _ _ _ _ Hs HX Ep) as (slot' & Hfo & Hj & Hc).
    exists Big, (m_slot_size mo). eapply cupd_big; [done|done| |exact Hfo]. simpl. by rewrite Hs.
Qed.

(** ** The counters of a reachable pool *)

(** A slot without pages has no free objects. *)
Lemma no_pages st t s : pool_inv conf st -> slot_ok conf t s -> slot_pages conf st t s = ∅ -> slot_free conf st t s = ∅.
Proof.
  intros Hi Hok HX. apply map_empty. intros p. destruct (slot_free conf st t s !! p) as [l|] eqn:E; [|done].
  destruct (si_free _ _ _ _ _ (pi_slot _ _ Hi _ _ Hok) _ _ E) as (Hp & _). rewrite HX in Hp. by apply elem_of_empty in Hp.
Qed.

(** A page has no more free objects than objects. *)
Lemma page_le st t s p l : pool_inv conf st -> slot_ok conf t s -> slot_free conf st t s !! p = Some l ->
  Z.of_nat (length l) <= per_page t s.
Proof using Hconf.
  intros Hi Hok E. destruct (page_bytes_bounds conf Hconf _ _ Hok) as (Hs & _ & HP).
  destruct (si_free _ _ _ _ _ (pi_slot _ _ Hi _ _ Hok) _ _ E) as (_ & _ & Hn & Hsub).
  pose proof (split_mem_page_length s p (page_bytes conf t s) Hs ltac:(unfold in_u in HP; lia)) as Hlen.
  unfold per_page. rewrite <- Hlen. apply Nat2Z.inj_le, submseteq_length, NoDup_submseteq; done.
Qed.

(** A property of slots holds after a step if the slot that moves gains it. *)
Lemma cupd_all (Q : MemObjectType -> Z -> gset Z -> free_map -> Z -> Prop) st t s st' :
  cupd st t s st' ->
  (forall t s, slot_ok conf t s -> Q t s (slot_pages conf st t s) (slot_free conf st t s) (slot_cnt st t s)) ->
  Q t s (slot_pages conf st' t s) (slot_free conf st' t s) (slot_cnt st' t s) ->
  forall t s, slot_ok conf t s -> Q t s (slot_pages conf st' t s) (slot_free conf st' t s) (slot_cnt st' t s).
Proof.
  intros [Hok Hc Ho] Hall Hnew t' s' Hok'. destruct (decide (t' = t)) as [->|Hn]; [destruct (decide (s' = s)) as [->|Hn]|].
  - exact Hnew.
  - destruct (Ho t s' Hok') as (-> & -> & ->); [by intros [_ ?]|by apply Hall].
  - destruct (Ho t' s' Hok') as (-> & -> & ->); [by intros [? _]|by apply Hall].
Qed.

Definition all_counted (st : MemPool) : Prop := forall t s, slot_ok conf t s ->
  counted (slot_pages conf st t s) (slot_free conf st t s) (slot_cnt st t s).

Definition all_lean (st : MemPool) : Prop := forall t s, slot_ok conf t s ->
  lean (per_page t s) (limit t s) (slot_pages conf st t s) (slot_free conf st t s) (slot_cnt st t s).

Lemma cupd_counted st t s st' : pool_inv conf st -> cupd st t s st' -> all_counted st -> all_counted st'.
Proof.
  intros Hi Hu Hall. pose proof Hu as [Hok Hc _]. refine (cupd_all (fun _ _ => counted) _ _ _ _ Hu Hall _).
  eapply cstep_counted; [by apply Hall|by apply no_pages|exact Hc].
Qed.

(** No slot has [2^32] free objects. *)
Definition few (st : MemPool) : Prop := forall t s, slot_ok conf t s -> tot (slot_free conf st t s) < 2 ^ 32.

(** The limits of the configuration do not wrap around. *)
Definition limits_fit : Prop := forall t s, slot_ok conf t s -> 0 <= resident t /\ resident t + per_page t s < 2 ^ 32.

Lemma cupd_lean st t s st' : limits_fit -> pool_inv conf st -> pool_inv conf st' -> few st -> cupd st t s st' ->
  all_counted st -> all_lean st -> all_lean st'.
Proof using Hconf.
  intros Hfit Hi Hi' Hfew Hu Hcnt Hall. pose proof Hu as [Hok Hc _].
  refine (cupd_all (fun t s => lean (per_page t s) (limit t s)) _ _ _ _ Hu Hall _).
  destruct (page_bytes_bounds conf Hconf _ _ Hok) as (Hs & HsP & _). destruct (Hfit _ _ Hok) as [Hr Hf].
  apply (cstep_lean (per_page t s) (resident t) _ _ _ _ _ _) in Hc; [done| |done|done|by apply Hcnt|by apply Hfew|by apply no_pages| |by apply Hall].
  - unfold per_page. apply Z.div_str_pos. lia.
  - intros p l. by apply page_le.
Qed.

Lemma pool_step_cupd st st' : pool_inv conf st -> pool_step conf posix_memalign iter st st' -> exists t s, cupd st t s st'.
Proof using memalign_block iter_perm Hconf.
  intros Hi Hs. destruct Hs as [st size st' r Hsz Hg|st k mo st' Hl Hp]; [by eapply Get_cupd|by eapply Put_cupd].
Qed.

Lemma new_empty u h t s : slot_ok conf t s -> slot_pages conf (MemPool_new conf u h) t s = ∅.
Proof. destruct t; simpl; rewrite ?init_slots_default; done. Qed.

(** C4.  On every reachable pool, the counter of every slot that has a page is
    the number of its free objects, modulo [2^32] as the code counts; the
    counter of the tiny objects has no initial value and is set with the first
    page. *)
Theorem pool_counts st t s : reachable conf posix_memalign iter st -> slot_ok conf t s -> slot_pages conf st t s <> ∅ ->
  slot_cnt st t s = u32 (tot (slot_free conf st t s)).
Proof using memalign_block iter_perm Hconf.
  intros (u & h & Hh & Hr) Hok HX.
  cut (all_counted st); [intros Hc; by destruct (Hc t s Hok)|]. clear t s Hok HX.
  revert st Hr. apply (rtc_ind_r (fun st => all_counted st) (MemPool_new conf u h)).
  - intros t s Hok. left. by apply new_empty.
  - intros st st' Hr Hs IH.
    assert (Hi : pool_inv conf st) by (apply (reachable_inv conf posix_memalign iter memalign_block iter_perm Hconf); by exists u, h).
    destruct (pool_step_cupd _ _ Hi Hs) as (t & s & Hu). by eapply cupd_counted.
Qed.

(** C15.  What the pool keeps of its tiny, small and big slots is bounded.
    The resident count of each of them and the objects of one page are
    together below [2^32] ([limits_fit], as for the default configuration).
    After any sequence of requests up to the bulk threshold and of returns, in
    which no slot has [2^32] free objects, every such slot has fewer free
    objects than its resident count and one page, or else none of its pages is
    entirely free.  Bulk slots are not covered. *)
Theorem pool_retention u h st t s : limits_fit -> heap_inv h ->
  rtc (fun a b => few a /\ pool_step conf posix_memalign iter a b) (MemPool_new conf u h) st -> slot_ok conf t s -> few st ->
  tot (slot_free conf st t s) < resident t + per_page t s \/ no_full (per_page t s) (slot_free conf st t s).
Proof using memalign_block iter_perm Hconf.
  intros Hfit Hh Hr Hok Hfew.
  cut (reachable conf posix_memalign iter st /\ all_counted st /\ all_lean st).
  { intros (Hre & Hc & Hl). assert (Hi : pool_inv conf st) by exact (reachable_inv conf posix_memalign iter memalign_block iter_perm Hconf _ Hre).
    destruct (Hfit _ _ Hok) as [H0 Hf]. destruct (page_bytes_bounds conf Hconf _ _ Hok) as (Hs & HsP & _).
    assert (0 < per_page t s) by (unfold per_page; apply Z.div_str_pos; lia).
    destruct (Hl t s Hok) as [HX|[HX|HX]]; [| |by right].
    - right. rewrite (no_pages _ _ _ Hi Hok HX). intros p l E. by rewrite lookup_empty in E.
    - left. destruct (Hc t s Hok) as [HX'|HX']; [rewrite (no_pages _ _ _ Hi Hok HX'), tot_empty; lia|].
      unfold limit in HX. rewrite HX', !u32_id in HX by (unfold in_u; pose proof (tot_nonneg (slot_free conf st t s)); pose proof (Hfew _ _ Hok); lia).
      done. }
  clear t s Hok Hfew. revert st Hr.
  apply (rtc_ind_r (fun st => reachable conf posix_memalign iter st /\ all_counted st /\ all_lean st) (MemPool_new conf u h)).
  - split; [by exists u, h|]. split; intros t s Hok; left; by apply new_empty.
  - intros st st' _ [Hfew Hs] (Hre & Hc & Hl).
    assert (Hre' : reachable conf posix_memalign iter st').
    { destruct Hre as (u' & h' & Hh' & Hr'). exists u', h'. split; [done|]. by eapply rtc_r. }
    pose proof (reachable_inv conf posix_memalign iter memalign_block iter_perm Hconf _ Hre) as Hi.
    pose proof (reachable_inv conf posix_memalign iter memalign_block iter_perm Hconf _ Hre') as Hi'.
    destruct (pool_step_cupd _ _ Hi Hs) as (t & s & Hu). split; [done|]. split; [exact (cupd_counted _ _ _ _ Hi Hu Hc)|exact (cupd_lean _ _ _ _ Hfit Hi Hi' Hfew Hu Hc Hl)].
Qed.

End pool_counts.

(** ** A run: two requests of the same slot *)

Module CountsDemo.
Import Demo.

(** A test for [few] over the tables. *)
Definition few_check (st : MemPool) : bool :=
  let ok (free : free_map) := Z.ltb (tot free) (2 ^ 32) in
  ok (m_free_tiny_objs st) && forallb (fun e => ok (objs e.2)) (map_to_list (m_free_small_objs st)) &&
  forallb (fun e => ok (objs e.2)) (map_to_list (m_free_big_objs st)).

Lemma few_check_ok st : few_check st = true -> few conf st.
Proof.
  assert (Ht : forall (fo : gmap Z SlotObjPage) i,
    forallb (fun e => Z.ltb (tot (objs e.2)) (2 ^ 32)) (map_to_list fo) = true ->
    tot (objs (default empty_slot (fo !! i))) < 2 ^ 32).
  { intros fo i Hf. destruct (fo !! i) as [slot|] eqn:E; [|simpl; rewrite tot_empty; lia]. simpl.
    apply elem_of_map_to_list, list_elem_of_In in E. rewrite forallb_forall in Hf. apply Hf in E. by apply Z.ltb_lt in E. }
  unfold few_check. intros [[H1 H2]%andb_true_iff H3]%andb_true_iff t s Hok.
  destruct t; simpl; [by apply Z.ltb_lt|by apply Ht|by apply Ht|rewrite tot_empty; lia].
Qed.

Lemma default_limits : limits_fit conf.
Proof.
  intros t s Hok. destruct (page_bytes_bounds conf default_conf_ok _ _ Hok) as (Hs & HsP & HP).
  assert (Hb : page_bytes conf t s <= 131072 * 32 + 4096).
  { destruct t; [done| | |done]; destruct Hok as [Hr _];
      [assert (s <= 4096) by exact (proj2 Hr)|assert (s <= 131072) by exact (proj2 Hr)];
      pose proof (gen_expand_bounds s 32 4096 Hs ltac:(lia) ltac:(lia) ltac:(lia)) as [_ HB]; simpl in HB;
      change (page_bytes conf _ s) with (gen_expand_slot_page_size s 32 4096); lia. }
  assert (per_page conf t s <= page_bytes conf t s) by (unfold per_page; apply Z.div_le_upper_bound; nia).
  assert (0 <= resident conf t <= 512) by (destruct t; vm_compute; split; congruence). lia.
Qed.

Lemma pool_counts_witness : slot_cnt conf st2 Small 128 = u32 (tot (slot_free conf st2 Small 128)) /\ slot_cnt conf st2 Small 128 = 30.
Proof.
  split; [|vm_compute; reflexivity].
  apply (pool_counts conf bump iter bump_block (fun m => reflexivity _) default_conf_ok st2 Small 128 st2_reachable).
  - split; [split; [lia|vm_compute; congruence]|reflexivity].
  - intros E. assert (Hb : bool_decide (slot_pages conf st2 Small 128 = ∅) = false) by (vm_compute; reflexivity).
    apply bool_decide_eq_false_1 in Hb. exact (Hb E).
Defined.

Definition st1 : MemPool := match Get bump iter conf st0 100 with Ret (st, _) => st | _ => st0 end.

Lemma pool_retention_witness :
  tot (slot_free conf st1 Small 128) < resident conf Small + per_page conf Small 128 \/
  no_full (per_page conf Small 128) (slot_free conf st1 Small 128).
Proof.
  apply (pool_retention conf bump iter bump_block (fun m => reflexivity _) default_conf_ok 77 ∅ st1 Small 128 default_limits).
  - split; [intros p n|intros p n q k]; by rewrite lookup_empty.
  - apply rtc_once. split; [apply few_check_ok; vm_compute; reflexivity|].
    assert (Hret : match Get bump iter conf st0 100 with Ret _ => true | _ => false end = true) by (vm_compute; reflexivity).
    unfold st1. destruct (Get bump iter conf st0 100) as [[st r]| | |] eqn:E; try discriminate Hret.
    eapply step_get; [|exact E]. split; [lia|vm_compute; congruence].
  - split; [split; [lia|vm_compute; congruence]|reflexivity].
  - apply few_check_ok. vm_compute. reflexivity.
Defined.

End CountsDemo.
