(* ===== verification/PoolDump.v ===== *)
(** * PoolDump: what [MemPool::DumpDebugInfo] prints

    Models [DumpDebugInfo] of src/src/ccsys/mem-pool.cc as the text it returns.
    The order in which the unordered containers are visited is a parameter. *)

From stdpp Require Import pretty.
From S2P Require Import Prelude MemPool MemPoolSafety PoolCounts.

(** [operator<<] of an unsigned number. *)
Definition dec (z : Z) : string := pretty (Z.to_N z).

Definition nl : string := String (Ascii.ascii_of_nat 10) EmptyString.
Definition ALIGN2 : string := "  ".
Definition ALIGN4 : string := "    ".
Definition ALIGN6 : string := "      ".
Definition ALIGN8 : string := "        ".
Definition SEPERATOR : string := "-------------------------------------------------------------------".

(** [for (x : l) ss << *x << ","]. *)
Definition commas (l : list Z) : string := foldr (fun x s => dec x +:+ "," +:+ s)%string EmptyString l.

(** [s.substr(0, s.length() - 1)]: the length of the empty string wraps around
    and the whole of it is taken. *)
Definition chop (s : string) : string := String.substring 0 (String.length s - 1) s.

(** The free objects of one page (lines 572-579, 611-617 and their copies). *)
Definition page_objs (e : Z * list Z) : string :=
  chop ("page = " +:+ dec e.1 +:+ "'s objs: { count = " +:+ dec (Z.of_nat (length e.2)) +:+ "; " +:+ commas e.2)%string.

(** The pages of one slot (lines 591-598 and its copies). *)
Definition slot_line (iter_pages : gset Z -> list Z) (e : Z * gset Z) : string :=
  (chop ("slot = " +:+ dec e.1 +:+ "'s pages:{ count = " +:+ dec (Z.of_nat (size e.2)) +:+ "; pages = " +:+ commas (iter_pages e.2))
   +:+ "}" +:+ nl +:+ ALIGN6)%string.

(** The free objects of one slot (lines 608-621 and its copies). *)
Definition slot_objs (iter : free_map -> list (Z * list Z)) (i : Z) (objs : free_map) : string :=
  (chop ("slot = " +:+ dec i +:+ "'s pages:{ count = " +:+ dec (Z.of_nat (size objs)) +:+ nl +:+ ALIGN8 +:+
      foldr (fun e s => page_objs e +:+ "}," +:+ nl +:+ ALIGN8 +:+ s) EmptyString (iter objs))
   +:+ "}," +:+ nl +:+ ALIGN6)%string.

Section dump.
Context (iter : free_map -> list (Z * list Z)).
Context (iter_pages : gset Z -> list Z).
Context (iter_slots : gmap Z SlotObjPage -> list (Z * SlotObjPage)).
Context (iter_tables : gmap Z (gset Z) -> list (Z * gset Z)).

Definition dump_tiny (st : MemPool) : string :=
  ("[Tiny]" +:+ nl +:+ SEPERATOR +:+ nl +:+ ALIGN2 +:+ "[[All pages]]:" +:+ nl +:+
   ALIGN4 +:+ "count: " +:+ dec (Z.of_nat (size (m_tiny_obj_pages st))) +:+ ";" +:+ nl +:+
   ALIGN4 +:+ "pages: " +:+ chop (commas (iter_pages (m_tiny_obj_pages st))) +:+ nl +:+
   ALIGN2 +:+ "[[Free Objs]]:" +:+ nl +:+
   ALIGN4 +:+ "count: " +:+ dec (m_free_tiny_objs_cnt st) +:+ ";" +:+ nl +:+
   ALIGN4 +:+ "objects: " +:+ nl +:+ ALIGN6 +:+
   foldr (fun e s => page_objs e +:+ "}" +:+ nl +:+ ALIGN6 +:+ s) EmptyString (iter (m_free_tiny_objs st)) +:+ nl)%string.

(** The section of small, big or bulk objects: its pages, then its free objects,
    of which [free] are the slots in the order they are visited. *)
Definition dump_class (title : string) (pages : gmap Z (gset Z)) (count : Z) (free : list (Z * free_map)) : string :=
  (title +:+ nl +:+ SEPERATOR +:+ nl +:+ ALIGN2 +:+ "[[All slots pages]]:" +:+ nl +:+
   ALIGN4 +:+ "slots total count: " +:+ dec (Z.of_nat (size pages)) +:+ ";" +:+ nl +:+
   ALIGN4 +:+ "slots:" +:+ nl +:+ ALIGN6 +:+
   foldr (fun e s => slot_line iter_pages e +:+ s) EmptyString (iter_tables pages) +:+ nl +:+
   ALIGN2 +:+ "[[Free Objs]]:" +:+ nl +:+
   ALIGN4 +:+ "slots total count: " +:+ dec count +:+ ";" +:+ nl +:+
   ALIGN4 +:+ "slots:" +:+ nl +:+ ALIGN6 +:+
   foldr (fun e s => slot_objs iter e.1 e.2 +:+ s) EmptyString free +:+ nl)%string.

Definition slots_of (free : gmap Z SlotObjPage) : list (Z * free_map) := (fun e => (e.1, objs e.2)) <$> iter_slots free.

(** The ordered map of the bulk slots holds pointers into the hash table. *)
Fixpoint bulk_slots (hash : gmap Z SlotObjPage) (keys : list Z) : outcome (list (Z * free_map)) :=
  match keys with
  | [] => Ret []
  | k :: keys =>
      match hash !! k with
      | None => Undef "dangling slot pointer dereferenced"
      | Some slot => let* l := bulk_slots hash keys in Ret ((k, objs slot) :: l)
      end
  end.

Definition DumpDebugInfo (st : MemPool) : outcome string :=
  let* bulk := bulk_slots (m_free_hash_bulk_objs st) (sorted_keys (m_free_bulk_objs st)) in
  Ret (dump_tiny st +:+
       dump_class "[Small]" (m_small_obj_pages st) (Z.of_nat (size (m_free_small_objs st))) (slots_of (m_free_small_objs st)) +:+
       dump_class "[Big]" (m_big_obj_pages st) (Z.of_nat (size (m_free_big_objs st))) (slots_of (m_free_big_objs st)) +:+
       dump_class "[Bulk]" (m_bulk_obj_pages st) (Z.of_nat (size (m_free_bulk_objs st))) bulk)%string.

End dump.

(** The dump of a page with two free objects, and of a slot without pages: the
    chopped character is then the blank behind the sign. *)
Example page_objs_text : page_objs (4096, [4112; 4128]) = "page = 4096's objs: { count = 2; 4112,4128"%string.
Proof. reflexivity. Qed.
Example slot_line_empty : slot_line elements (3, ∅) = ("slot = 3's pages:{ count = 0; pages =}" +:+ nl +:+ ALIGN6)%string.
Proof. vm_compute. reflexivity. Qed.
