(* ===== verification/PoolTest.v ===== *)
(** * PoolTest: the unit test of the memory pool

    Models [TEST(CCSysTest, MemPoolTest)] of src/src/unit-test/ccsys/main.cc: ten
    thousand tiny objects, a hundred thousand small ones, a thousand big ones
    and five of one to five megabytes, each written to, given back and dumped.
    It passes for every allocator with enough memory, every order of iteration
    and every random sequence; bulk objects of distinct sizes are safe where
    equal ones are not. *)

From S2P Require Import Prelude MemPool MemPoolSafety PoolCounts PoolDump.

Definition null_use : string := "null MemObject dereferenced".

(** The most a request of the test takes: a page of at most [2^23] bytes, aligned. *)
Definition cost : Z := 2 ^ 23 + 4096.

Section test.
Context (posix_memalign : gmap Z Z -> Z -> Z -> option Z).
Context (iter : free_map -> list (Z * list Z)).
Context (iter_pages : gset Z -> list Z).
Context (iter_slots : gmap Z SlotObjPage -> list (Z * SlotObjPage)).
Context (iter_tables : gmap Z (gset Z) -> list (Z * gset Z)).
Context (conf : MemPoolConf).

(** [memcpy(memObject->Pointer(), str, strlen(str) + 1)] of the greeting. *)
Definition use (st : MemPool) (k : positive) : outcome unit :=
  match mo_store st !! k with
  | None => Undef "MemObject pointer without an object"
  | Some mo => if Z.ltb (m_slot_size mo) 13 then Undef "memcpy past the object" else Ret tt
  end.

(** The loop of requests: the objects, in order. *)
Fixpoint get_phase (st : MemPool) (sizes : list Z) : outcome (MemPool * list positive) :=
  match sizes with
  | [] => Ret (st, [])
  | needSize :: sizes =>
      let* (st, memObject) := Get posix_memalign iter conf st needSize in
      match memObject with
      | None => Undef null_use
      | Some k =>
          let* _ := use st k in
          let* (st, memObjects) := get_phase st sizes in Ret (st, k :: memObjects)
      end
  end.

Fixpoint put_phase (st : MemPool) (memObjects : list positive) : outcome MemPool :=
  match memObjects with
  | [] => Ret st
  | p :: memObjects => let* st := Put iter conf st (Some p) in put_phase st memObjects
  end.

Definition phase (st : MemPool) (sizes : list Z) : outcome (MemPool * string) :=
  let* (st, memObjects) := get_phase st sizes in
  let* st := put_phase st memObjects in
  let* s := DumpDebugInfo iter iter_pages iter_slots iter_tables st in
  Ret (st, s).

(** [n ? n : d]. *)
Definition or_else (d n : Z) : Z := if Z.eqb n 0 then d else n.

Definition tiny_sizes (rand : Z -> Z) : list Z := (fun i => or_else 1 (Z.rem (rand i) 17)) <$> seqZ 0 10000.
Definition small_sizes : list Z := (fun i => or_else 32 (Z.rem (32 + i) 4097)) <$> seqZ 0 100000.
Definition big_sizes : list Z := (fun i => or_else 4097 (Z.rem (4097 + i) (32 * 4096 + 1))) <$> seqZ 0 1000.
Definition bulk_sizes : list Z := (fun i => 1024 * 1024 + i * 1024 * 1024) <$> seqZ 0 5.

(** The test: the pool at the end and what is printed. *)
Definition MemPoolTest (rand : Z -> Z) (mp : MemPool) : outcome (MemPool * list string) :=
  let* (mp, s1) := phase mp (tiny_sizes rand) in
  let* (mp, s2) := phase mp small_sizes in
  let* (mp, s3) := phase mp big_sizes in
  let* (mp, s4) := phase mp bulk_sizes in
  Ret (mp, [s1; s2; s3; s4]).

(** ** Requests up to the bulk threshold *)

Hypothesis memalign_block : forall h al n p, posix_memalign h al n = Some p ->
  0 < p /\ p mod al = 0 /\ p + n <= 2 ^ 64 /\
  forall q k, h !! q = Some k -> p + n <= q \/ q + k <= p.
Hypothesis iter_perm : forall m, iter m ≡ₚ map_to_list m.
Hypothesis Hconf : conf_ok conf.
Hypothesis Hpage : m_sys_page_size conf = 4096.
Hypothesis Htiny : 13 <= m_tiny_obj_threshold conf.
Hypothesis Hbytes : forall t s, slot_ok conf t s -> page_bytes conf t s <= 2 ^ 23.

(** The memory the system has: [used] bounds what the allocator has taken, with
    what it loses to alignment. *)
Context (used : gmap Z Z -> Z) (cap : Z).
Hypothesis used_alloc : forall h n, 0 < n <= 2 ^ 23 -> used h + cost <= cap ->
  exists p, posix_memalign h 4096 n = Some p /\ used (<[p := n]> h) <= used h + cost.
Hypothesis used_free : forall h q, used (delete q h) <= used h.

(** There is memory for [b] more requests. *)
Definition budget (st : MemPool) (b : nat) : Prop := used (heap st) + Z.of_nat b * cost <= cap.

#[local] Set Default Proof Using "Type".

(** The bulk tables of two pools are the same. *)
Definition bulk_same (st st' : MemPool) : Prop :=
  m_bulk_obj_pages st' = m_bulk_obj_pages st /\ m_free_hash_bulk_objs st' = m_free_hash_bulk_objs st /\
  m_free_bulk_objs st' = m_free_bulk_objs st.

Lemma bulk_same_trans st1 st2 st3 : bulk_same st1 st2 -> bulk_same st2 st3 -> bulk_same st1 st3.
Proof. unfold bulk_same. intros (-> & -> & ->) (-> & -> & ->). done. Qed.

Lemma finish_same st0 st t s ob pg st' r : bulk_same st0 st ->
  (if Z.eqb ob 0 then Ret (st, None)
   else let '(st2, k) := get_mem_object st t s ob pg in Ret (st2, Some k)) = Ret (st', r) -> bulk_same st0 st'.
Proof.
  intros Hs. destruct (Z.eqb ob 0); [by intros [= <- _]|]. unfold get_mem_object.
  destruct (m_free_mem_objs st); by intros [= <- _].
Qed.

Lemma Get_same st size st' r : size <= m_bulk_obj_threshold conf ->
  Get posix_memalign iter conf st size = Ret (st', r) -> bulk_same st st'.
Proof.
  intros Hsz. unfold Get. destruct (Z.leb size 0); [done|]. destruct (Z.leb size (m_tiny_obj_threshold conf)).
  - unfold Get_tiny. destruct (if decide _ then _ else _) as [[[X fr] c] h1].
    destruct (get_free_obj_from_slot_page _ _) as [[[free pg] ob]| | |]; try done. simpl.
    destruct (Z.eqb ob 0); [by intros [= <- _]|]. unfold get_mem_object. destruct (m_free_mem_objs _); by intros [= <- _].
  - destruct (Z.leb_spec size (m_bulk_obj_threshold conf)); [|lia]. unfold Get_slot. destruct (Z.ltb _ _);
      (destruct (get_slot_obj _ _ _ _ _ _ _ _) as [[[[[fo ps] h1] pg] ob]| | |]; [|done..]; by apply finish_same).
Qed.

Lemma Put_same st k mo st' : pool_inv conf st -> live st k mo -> Put iter conf st (Some k) = Ret st' -> bulk_same st st'.
Proof.
  intros Hi Hl. destruct (live_page _ _ _ _ Hi Hl) as (Hok & _). pose proof Hl as [Hst _]. unfold Put. rewrite Hst.
  destruct (m_type mo); simpl in Hok |- *; [| | |done].
  - unfold put_tiny. destruct (if Z.leb _ _ then _ else _) as [[[[X fr] c] h1]| | |]; try done. by intros [= <-].
  - unfold put_small. destruct (put_slot _ _ _ _ _ _ _ _ _ _) as [[[fo ps] h1]| | |]; try done. by intros [= <-].
  - unfold put_big. destruct (put_slot _ _ _ _ _ _ _ _ _ _) as [[[fo ps] h1]| | |]; try done. by intros [= <-].
Qed.

(** An object holds the greeting. *)
Lemma use_live st k mo : pool_inv conf st -> live st k mo -> use st k = Ret tt.
Proof using Hpage Htiny.
  intros Hi Hl. destruct (live_page _ _ _ _ Hi Hl) as (Hok & _). destruct Hl as [Hst _]. unfold use. rewrite Hst.
  assert (13 <= m_slot_size mo).
  { destruct (m_type mo); simpl in Hok; [lia| | |done].
    - destruct Hok as [H0 [a Ha]%Z.mod_divide]; lia.
    - destruct Hok as [H0 [a Ha]%Z.mod_divide]; rewrite ?Hpage in *; lia. }
  by rewrite (proj2 (Z.ltb_ge _ _)).
Qed.

(** Taking an object of a slot while there is memory. *)
Lemma take_some st t s X1 free1 h1 ok c1 free2 pg ob : pool_inv conf st -> slot_ok conf t s -> used (heap st) + cost <= cap ->
  (if decide (slot_free conf st t s = ∅) then
     let '(ok, X, free, h) := alloc_page_objs posix_memalign conf (heap st) (page_bytes conf t s) s (slot_pages conf st t s) (slot_free conf st t s) in
     (ok, X, free, h, if ok : bool then per_page conf t s else slot_cnt conf st t s)
   else (false, slot_pages conf st t s, slot_free conf st t s, heap st, slot_cnt conf st t s)) = (ok, X1, free1, h1, c1) ->
  get_free_obj_from_slot_page iter free1 = Ret (free2, pg, ob) ->
  Z.eqb ob 0 = false /\ used h1 <= used (heap st) + cost.
Proof using memalign_block iter_perm Hconf Hpage Hbytes used_alloc.
  intros Hi Hok Hu Ha Hg. destruct (page_bytes_bounds conf Hconf _ _ Hok) as (Hs & HsP & HP).
  pose proof (pi_slot _ _ Hi _ _ Hok) as Hsl. pose proof (pi_heap _ _ Hi) as Hh. pose proof (Hbytes _ _ Hok) as HB.
  destruct (decide (slot_free conf st t s = ∅)) as [E|E].
  - rewrite E in Ha, Hsl. destruct (alloc_page_spec posix_memalign conf memalign_block _ _ _ _ Hs HsP HP Hh Hsl)
      as (ok' & X' & free' & h' & Ea & Hcase). rewrite Ea in Ha. injection Ha as -> -> -> -> _.
    unfold alloc_page_objs, PosixMemAlign in Ea. rewrite Hpage in Ea.
    destruct (used_alloc (heap st) (page_bytes conf t s)) as (p & Ep & Hup); [lia|done|]. rewrite Ep in Ea.
    destruct (memalign_block _ _ _ _ Ep) as (Hp0 & _). destruct (Z.eqb_spec p 0); [lia|]. injection Ea as <- _ _ <-.
    destruct Hcase as [(? & _)|(q & _ & _ & _ & Hne & _ & Hh' & Hi' & _)]; [done|]. split; [|done].
    apply (take_step iter iter_perm) in Hg as [(Hx & _)|(rest & Hl & _)]; [done|]. exact (obj_nonzero _ _ _ _ _ _ _ _ Hs HP Hh' Hi' Hl).
  - injection Ha as _ <- <- <- _. split; [|unfold cost; lia].
    apply (take_step iter iter_perm) in Hg as [(Hx & _)|(rest & Hl & _)]; [done|]. exact (obj_nonzero _ _ _ _ _ _ _ _ Hs HP Hh Hsl Hl).
Qed.

Lemma finish_heap st t s ob pg st' r : Z.eqb ob 0 = false ->
  (if Z.eqb ob 0 then Ret (st, None)
   else let '(st2, k) := get_mem_object st t s ob pg in Ret (st2, Some k)) = Ret (st', r) -> r <> None /\ heap st' = heap st.
Proof. intros ->. unfold get_mem_object. destruct (m_free_mem_objs st); by intros [= <- <-]. Qed.

Lemma Get_some st n st' r : pool_inv conf st -> 0 < n <= m_bulk_obj_threshold conf -> used (heap st) + cost <= cap ->
  Get posix_memalign iter conf st n = Ret (st', r) -> r <> None /\ used (heap st') <= used (heap st) + cost.
Proof using memalign_block iter_perm Hconf Hpage Hbytes used_alloc.
  intros Hi Hsz Hu. unfold Get. destruct (Z.leb_spec n 0); [lia|].
  destruct (Z.leb_spec n (m_tiny_obj_threshold conf)); [|destruct (Z.leb_spec n (m_bulk_obj_threshold conf)); [|lia]].
  - unfold Get_tiny. pose proof (fun ok X1 free1 h1 c1 free2 pg ob => take_some st Tiny _ X1 free1 h1 ok c1 free2 pg ob Hi eq_refl Hu) as Hg. simpl in Hg.
    destruct (decide _); [destruct (alloc_page_objs _ _ _ _ _ _ _) as [[[ok X] fr] h1] eqn:Ea|];
      (destruct (get_free_obj_from_slot_page _ _) as [[[free pg] ob]| | |] eqn:Eg; [|done..]; simpl; intros E;
       (destruct (Hg _ _ _ _ _ _ _ _ eq_refl Eg) as [Hob Hle]; rewrite Hob in E; unfold get_mem_object in E;
        destruct (m_free_mem_objs _); injection E as <- <-; done)).
  - unfold Get_slot, convert_slot_obj_size_to_slot_idx. destruct (Z.ltb_spec (m_big_obj_threshold conf) n).
    + destruct (roundup_slot_big conf Hconf n ltac:(lia)) as [Hok _].
      set (s := roundup_to_the_next_highest_multiple_of_exponent2 _ _) in *.
      destruct (proj2 (pi_exist _ _ Hi) _ Hok) as [slot Hs].
      destruct (get_slot_obj _ _ _ _ _ _ _ _) as [[[[[fo ps] h1] pg] ob]| | |] eqn:E; try done.
      destruct (get_slot_shape conf posix_memalign iter _ _ _ _ _ _ _ _ _ _ _ Hs E) as (ok & X1 & free1 & c1 & free2 & Ea & Eg & _).
      pose proof (take_some st Big s X1 free1 h1 ok c1 free2 pg ob Hi Hok Hu) as Hg. simpl in Hg. rewrite Hs in Hg.
      destruct (Hg Ea Eg) as [Hob Hle]. simpl. intros Ef. by apply finish_heap in Ef as [Hr ->].
    + destruct (roundup_slot_small conf Hconf n ltac:(lia)) as [Hok _]. rewrite (proj1 (co_small _ Hconf)).
      set (s := roundup_to_the_next_highest_multiple_of_exponent2 _ _) in *.
      destruct (proj1 (pi_exist _ _ Hi) _ Hok) as [slot Hs].
      destruct (get_slot_obj _ _ _ _ _ _ _ _) as [[[[[fo ps] h1] pg] ob]| | |] eqn:E; try done.
      destruct (get_slot_shape conf posix_memalign iter _ _ _ _ _ _ _ _ _ _ _ Hs E) as (ok & X1 & free1 & c1 & free2 & Ea & Eg & _).
      pose proof (take_some st Small s X1 free1 h1 ok c1 free2 pg ob Hi Hok Hu) as Hg. simpl in Hg. rewrite Hs in Hg.
      destruct (Hg Ea Eg) as [Hob Hle]. simpl. intros Ef. by apply finish_heap in Ef as [Hr ->].
Qed.


Lemma release_used X fr c h n X' fr' c' h' : release_full_page iter X fr c h n = Ret (X', fr', c', h') -> used h' <= used h.
Proof using used_free.
  unfold release_full_page. destruct (list_find _ _) as [[i [q l]]|]; [|by intros [= _ _ _ <-]].
  unfold heap_free. destruct (h !! q); [|done]. intros [= _ _ _ <-]. apply used_free.
Qed.

Lemma put_slot_used fo ps h i s res ob pg fo' ps' h' : put_slot iter conf fo ps h i s res ob pg = Ret (fo', ps', h') -> used h' <= used h.
Proof using used_free.
  unfold put_slot. destruct (fo !! i) as [slot|]; [|done]. destruct (Z.leb _ _); [|by intros [= _ _ <-]].
  destruct (release_full_page _ _ _ _ _ _) as [[[[X fr] c] h1]| | |] eqn:E; try done. intros [= _ _ <-]. by eapply release_used.
Qed.

Lemma Put_used st k mo st' : pool_inv conf st -> live st k mo -> Put iter conf st (Some k) = Ret st' -> used (heap st') <= used (heap st).
Proof using used_free.
  intros Hi Hl. destruct (live_page _ _ _ _ Hi Hl) as (Hok & _). pose proof Hl as [Hst _]. unfold Put. rewrite Hst.
  destruct (m_type mo); simpl in Hok |- *; [| | |done].
  - unfold put_tiny. destruct (Z.leb _ _).
    + destruct (release_full_page _ _ _ _ _ _) as [[[[X fr] c] h1]| | |] eqn:E; try done. intros [= <-]. by eapply release_used.
    + by intros [= <-].
  - unfold put_small. destruct (put_slot _ _ _ _ _ _ _ _ _ _) as [[[fo ps] h1]| | |] eqn:E; try done. intros [= <-]. by eapply put_slot_used.
  - unfold put_big. destruct (put_slot _ _ _ _ _ _ _ _ _ _) as [[[fo ps] h1]| | |] eqn:E; try done. intros [= <-]. by eapply put_slot_used.
Qed.

Lemma get_phase_runs sizes : forall st b, Forall (fun n => 0 < n <= m_bulk_obj_threshold conf) sizes -> pool_inv conf st ->
  budget st (length sizes + b) ->
  exists st' ks, get_phase st sizes = Ret (st', ks) /\ budget st' b /\ pool_inv conf st' /\ bulk_same st st' /\ NoDup ks /\
    (forall k, k ∈ ks -> (forall mo, ~ live st k mo) /\ exists mo, live st' k mo) /\ forall k mo, live st k mo -> live st' k mo.
Proof using memalign_block iter_perm Hconf Hpage Htiny Hbytes used_alloc.
  induction sizes as [|n sizes IH]; intros st b Hf Hi Hb; cbn [get_phase].
  { exists st, []. split; [done|]. split; [done|]. split; [done|]. split; [done|]. split; [apply NoDup_nil_2|]. split; [|done]. intros k Hk. by apply not_elem_of_nil in Hk. }
  apply Forall_cons in Hf as [Hn Hf].
  destruct (Get_spec conf posix_memalign iter memalign_block iter_perm Hconf st n Hi Hn) as (st1 & r & E & Hi1 & Hpost).
  destruct (Get_some st n st1 r Hi Hn) as [Hr Hu]; [unfold budget, cost in Hb |- *; cbn in Hb; lia|done|].
  rewrite E. cbn [obind]. destruct r as [k|]; [|done]. destruct Hpost as ((mo & Hl & _) & Hnew & Hold).
  rewrite (use_live _ _ _ Hi1 Hl). cbn [obind].
  destruct (IH st1 b Hf Hi1) as (st2 & ks & E2 & Hb2 & Hi2 & Hs2 & Hnd & Hks & Hk2); [unfold budget, cost in *; cbn in Hb; lia|].
  rewrite E2. cbn [obind]. exists st2, (k :: ks).
  assert (Hk1 : forall k' mo', live st k' mo' -> live st1 k' mo').
  { intros k' mo' Hl'. apply Hold; [|done]. intros ->. by apply (Hnew mo'). }
  split; [done|]. split; [done|]. split; [done|]. split; [eapply bulk_same_trans; [|done]; eapply Get_same; [|exact E]; lia|]. split; [|split].
  - constructor; [|done]. intros Hk. by apply (proj1 (Hks k Hk) mo).
  - intros k'. rewrite elem_of_cons. intros [->|Hk']; [by eauto|]. destruct (Hks k' Hk') as [H1 H2]. split; [|done].
    intros mo' Hl'. apply (H1 mo'). by apply Hk1.
  - auto.
Qed.

Lemma put_phase_runs ks : forall st, pool_inv conf st -> NoDup ks -> (forall k, k ∈ ks -> exists mo, live st k mo) ->
  exists st', put_phase st ks = Ret st' /\ pool_inv conf st' /\ bulk_same st st' /\ used (heap st') <= used (heap st).
Proof using iter_perm Hconf used_free.
  induction ks as [|k ks IH]; intros st Hi Hnd Hl; cbn [put_phase]; [by exists st|].
  apply NoDup_cons in Hnd as [Hk Hnd]. destruct (Hl k) as [mo Hm]; [left|].
  destruct (Put_spec conf iter iter_perm Hconf st k mo Hi Hm) as (st1 & E & Hi1 & Hpost). rewrite E. cbn [obind].
  destruct (IH st1 Hi1 Hnd) as (st2 & E2 & Hi2 & Hs2 & Hu2).
  { intros k' Hk'. destruct (Hl k') as [mo' Hm']; [by right|]. exists mo'. apply Hpost. split; [|done]. intros ->. done. }
  exists st2. split; [done|]. split; [done|]. split; [eapply bulk_same_trans; [by eapply Put_same|done]|].
  etransitivity; [exact Hu2|]. by eapply Put_used.
Qed.

Lemma phase_runs st sizes b : Forall (fun n => 0 < n <= m_bulk_obj_threshold conf) sizes -> pool_inv conf st -> m_free_bulk_objs st = ∅ ->
  budget st (length sizes + b) ->
  exists st' s, phase st sizes = Ret (st', s) /\ pool_inv conf st' /\ bulk_same st st' /\ budget st' b.
Proof using memalign_block iter_perm Hconf Hpage Htiny Hbytes used_alloc used_free.
  intros Hf Hi Hk Hb. unfold phase.
  destruct (get_phase_runs sizes st b Hf Hi Hb) as (st1 & ks & -> & Hb1 & Hi1 & Hs1 & Hnd & Hks & _). cbn [obind].
  destruct (put_phase_runs ks st1 Hi1 Hnd) as (st2 & -> & Hi2 & Hs2 & Hu2); [intros k Hin; apply Hks; done|]. cbn [obind].
  pose proof (bulk_same_trans _ _ _ Hs1 Hs2) as Hs. unfold DumpDebugInfo.
  assert (m_free_bulk_objs st2 = ∅) as -> by (destruct Hs as (_ & _ & ->); done). cbn [bulk_slots sorted_keys]. 
  eexists st2, _. split; [reflexivity|]. split; [done|]. split; [done|]. unfold budget in *. lia.
Qed.

End test.

(** ** Bulk objects of distinct sizes *)

Section bulk.
Context (posix_memalign : gmap Z Z -> Z -> Z -> option Z).
Context (iter : free_map -> list (Z * list Z)).
Context (nprocs : Z).
Hypothesis memalign_block : forall h al n p, posix_memalign h al n = Some p ->
  0 < p /\ p mod al = 0 /\ p + n <= 2 ^ 64 /\
  forall q k, h !! q = Some k -> p + n <= q \/ q + k <= p.
Hypothesis iter_perm : forall m, iter m ≡ₚ map_to_list m.
Hypothesis Hprocs : 0 < nprocs < 2 ^ 31.
Context (used : gmap Z Z -> Z) (cap : Z).
Hypothesis used_alloc : forall h n, 0 < n <= 2 ^ 23 -> used h + cost <= cap ->
  exists p, posix_memalign h 4096 n = Some p /\ used (<[p := n]> h) <= used h + cost.

#[local] Set Default Proof Using "Type".
#[local] Abbreviation conf := (MemPool_default_conf 4096 nprocs).

(** A size the bulk class serves without a reserve: whole pages, a megabyte or more. *)
Definition bulk_size (n : Z) : Prop := n mod 4096 = 0 /\ 1048576 <= n <= 2 ^ 23.

Lemma roundup_bulk n : bulk_size n -> roundup_to_the_next_highest_multiple_of_exponent2 n 12 = n.
Proof.
  intros [Hm Hn]. unfold roundup_to_the_next_highest_multiple_of_exponent2.
  rewrite roundup_low_bits by lia. change (2 ^ 12) with 4096. rewrite Hm. done.
Qed.

Lemma split_one n p : 0 < n -> 0 < p < 2 ^ 64 -> split_mem_page n p n = [p].
Proof.
  intros Hn Hp. unfold split_mem_page. rewrite Z.div_same by lia. change (seqZ 0 1) with [0]. cbn [fmap list_fmap]. rewrite Z.mul_0_r. change (u32 0) with 0.
  rewrite Z.add_0_r, u64_id by (unfold in_u; lia). done.
Qed.

Lemma iter_one p l : iter {[p := l]} = [(p, l)].
Proof using iter_perm. apply Permutation_singleton_r. rewrite iter_perm. by rewrite map_to_list_singleton. Qed.

Lemma bulk_take p : take_first_obj iter (mkSlot {[p := [p]]} 1) = Ret (mkSlot ∅ 1, p, p).
Proof using iter_perm.
  unfold take_first_obj. cbn [objs cnt]. rewrite iter_one. cbn [decide]. destruct (decide ([] = [])) as [_|]; [|done].
  by rewrite delete_singleton_eq.
Qed.

(** What a request leaves when no free bulk object was there. *)
Record bulk_got (st : MemPool) (n : Z) (k : positive) (pg : Z) (st' : MemPool) : Prop := mkGot {
  bg_pages : m_bulk_obj_pages st' = <[n / 4096 := {[pg]}]> (m_bulk_obj_pages st);
  bg_hash : m_free_hash_bulk_objs st' = ∅;
  bg_keys : m_free_bulk_objs st' = ∅;
  bg_fresh : heap st !! pg = None;
  bg_heap : heap st' = <[pg := n]> (heap st);
  bg_inv : heap_inv (heap st');
  bg_mos : mos_ok st';
  bg_live : live st' k (mkMemObject Bulk n pg pg);
  bg_old : forall k' mo', live st k' mo' -> k' <> k /\ live st' k' mo'
}.

Lemma get_mem_object_mos st t s ob pg st2 k : mos_ok st -> get_mem_object st t s ob pg = (st2, k) ->
  st2 = set_mos st (m_free_mem_objs st2) (mo_store st2) /\ mos_ok st2 /\ live st2 k (mkMemObject t s ob pg) /\
  forall k' mo', live st k' mo' -> k' <> k /\ live st2 k' mo'.
Proof.
  intros Hm Hg. destruct (get_mem_object_shape _ _ _ _ _ _ _ Hm Hg) as (rest & -> & H1 & H2 & H3 & H4 & H5).
  split; [done|]. split; [|split].
  - split; cbn; [done|]. intros x Hx. destruct (decide (x = k)) as [->|Hne]; [rewrite lookup_insert_eq; eauto|].
    rewrite lookup_insert_ne by done. apply Hm. by apply H4.
  - split; cbn; [apply lookup_insert_eq|done].
  - intros k' mo' Hl. assert (k' <> k) by (intros ->; by apply (H3 mo')). split; [done|]. destruct Hl as [Hl1 Hl2].
    split; cbn; [by rewrite lookup_insert_ne|]. by rewrite H5.
Qed.

Lemma bulk_get st n : bulk_size n -> m_free_hash_bulk_objs st = ∅ -> m_free_bulk_objs st = ∅ -> heap_inv (heap st) -> mos_ok st ->
  used (heap st) + cost <= cap ->
  exists st' k pg, Get posix_memalign iter conf st n = Ret (st', Some k) /\ bulk_got st n k pg st' /\ used (heap st') <= used (heap st) + cost.
Proof using memalign_block iter_perm used_alloc.
  intros Hn Hh Hk Hi Hm Hu. pose proof Hn as [Hmod Hb]. unfold Get.
  rewrite (proj2 (Z.leb_gt n 0)), (proj2 (Z.leb_gt n (m_tiny_obj_threshold conf))), (proj2 (Z.leb_gt n (m_bulk_obj_threshold conf))) by (cbn; unfold TINY_OBJECT_SIZE_THRESHOLD, BULK_PAGE_SIZE_THRESHOLD; lia).
  unfold Get_bulk. change (m_bulk_obj_slot_footstep_exponent conf) with 12. change (m_sys_page_size conf) with 4096.
  rewrite roundup_bulk by done. unfold convert_slot_obj_size_to_slot_idx.
  assert (Hidle : forall i, get_suitable_bulk_page iter ∅ ∅ i = Ret (∅, ∅, 0, 0, 0)) by done.
  rewrite Hh, Hk, Hidle. cbn [obind Z.eqb]. change (m_available_reserve_bulk_obj_max_size conf) with 1048576.
  rewrite (proj2 (Z.ltb_ge n 1048576)) by lia. unfold alloc_page_objs, PosixMemAlign. cbn [set_bulk heap m_free_hash_bulk_objs m_free_bulk_objs m_bulk_obj_pages].
  change (m_sys_page_size conf) with 4096. destruct (used_alloc (heap st) n ltac:(lia) Hu) as (pg & E & Hup). rewrite E.
  destruct (memalign_block _ _ _ _ E) as (Hp & _ & Hpn & Hdis). rewrite (proj2 (Z.eqb_neq pg 0)) by lia.
  rewrite split_one, Z.div_same by lia.
  unfold get_suitable_bulk_page. rewrite lookup_insert_eq. change (<[pg := [pg]]> ∅) with ({[pg := [pg]]} : free_map).
  rewrite bulk_take. cbn [obind objs]. destruct (decide (∅ = ∅)) as [_|]; [|done]. cbn [obind]. rewrite (proj2 (Z.eqb_neq pg 0)) by lia.
  rewrite delete_insert_eq, delete_empty. cbn [set_bulk m_free_hash_bulk_objs m_bulk_obj_pages m_free_bulk_objs heap]. rewrite lookup_empty.
  assert (E4 : u32 (n / 4096 * 4096) = n) by (rewrite u32_id; unfold in_u; pose proof (Z.div_mod n 4096); lia). rewrite E4.
  match goal with |- context [get_mem_object ?x] => set (st1 := x) end.
  destruct (get_mem_object st1 Bulk n pg pg) as [st2 k] eqn:Eg.
  assert (Hm1 : mos_ok st1) by (destruct Hm; by split).
  destruct (get_mem_object_mos st1 _ _ _ _ _ _ Hm1 Eg) as (-> & Hm2 & Hl2 & Hold).
  assert (Hf : heap st !! pg = None).
  { destruct (heap st !! pg) as [x|] eqn:Ex; [|done]. destruct (hi_block _ Hi _ _ Ex). specialize (Hdis _ _ Ex). lia. }
  eexists _, k, pg. split; [reflexivity|]. split; [|exact Hup]. split; try done.
  - cbn. by rewrite (right_id_L ∅ (∪)).
  - cbn. rewrite (right_id_L ∅ (∪)). apply difference_diag_L.
  - cbn. apply heap_inv_alloc; [done|lia|lia|lia|done].
Qed.

(** The objects a client holds: header, size and page of each, no two of the
    same size. *)
Record holds (st : MemPool) (os : list (positive * Z * Z)) : Prop := mkHolds {
  ho_mos : mos_ok st;
  ho_heap : heap_inv (heap st);
  ho_keys : NoDup ((fun e => e.1.1) <$> os);
  ho_idx : NoDup ((fun e => e.1.2 / 4096) <$> os);
  ho_pages : NoDup ((fun e => e.2) <$> os);
  ho_each : Forall (fun e => live st e.1.1 (mkMemObject Bulk e.1.2 e.2 e.2) /\
    m_bulk_obj_pages st !! (e.1.2 / 4096) = Some {[e.2]} /\ heap st !! e.2 = Some e.1.2) os
}.

Lemma not_in_fmap {A B} `{EqDecision B} (f : A -> B) (y : B) (l : list A) : y ∉ f <$> l <-> Forall (fun x => f x <> y) l.
Proof.
  rewrite Forall_forall. split; [intros H x Hx <-; by apply H, list_elem_of_fmap_2|].
  intros H (x & -> & Hx)%list_elem_of_fmap. by apply (H x).
Qed.

Lemma holds_get st n k pg st' os : bulk_got st n k pg st' -> holds st os -> (n / 4096 ∉ (fun e : positive * Z * Z => e.1.2 / 4096) <$> os) ->
  holds st' ((k, n, pg) :: os).
Proof.
  intros Hg [H1 H2 H3 H4 H5 H6] Hn. split; cbn [fmap list_fmap fst snd].
  - apply Hg.
  - apply Hg.
  - constructor; [|done]. apply not_in_fmap. eapply Forall_impl; [exact H6|]. intros e [Hl _]. exact (proj1 (bg_old _ _ _ _ _ Hg _ _ Hl)).
  - by constructor.
  - constructor; [|done]. apply not_in_fmap. eapply Forall_impl; [exact H6|]. intros e (_ & _ & Hh) <-.
    rewrite (bg_fresh _ _ _ _ _ Hg) in Hh. done.
  - constructor; [cbn; rewrite (bg_pages _ _ _ _ _ Hg), (bg_heap _ _ _ _ _ Hg), !lookup_insert_eq; split; [apply Hg|done]|].
    apply not_in_fmap in Hn. eapply Forall_impl; [exact (proj2 (Forall_and _ _) (conj H6 Hn))|].
    intros e [(Hl & Hp & Hh) Hne]. rewrite (bg_pages _ _ _ _ _ Hg), (bg_heap _ _ _ _ _ Hg).
    rewrite !lookup_insert_ne by (try done; intros E; rewrite <- E, (bg_fresh _ _ _ _ _ Hg) in Hh; done).
    split; [apply Hg in Hl; apply Hl|done].
Qed.

(** Giving back the first object: its entry and its block may change. *)
Lemma holds_put st k n pg os pages hash keys h : holds st ((k, n, pg) :: os) ->
  (forall j, j <> n / 4096 -> pages !! j = m_bulk_obj_pages st !! j) -> (forall q, q <> pg -> h !! q = heap st !! q) -> heap_inv h ->
  holds (set_mos (set_bulk st pages hash keys h) (m_free_mem_objs st ++ [k]) (mo_store st)) os.
Proof.
  intros [[H1 H1'] H2 H3 H4 H5 H6] Hp Hh Hi. cbn [fmap list_fmap fst snd] in *.
  apply NoDup_cons in H3 as [H3 H3'], H4 as [H4 H4'], H5 as [H5 H5']. apply Forall_cons in H6 as [[[Hl Hl'] _] H6].
  apply not_in_fmap in H3, H4, H5. split; try done.
  - split; cbn.
    + apply NoDup_app. split; [done|]. split; [|apply NoDup_singleton]. intros x Hx Hx'. by apply list_elem_of_singleton in Hx' as ->.
    + intros x. rewrite elem_of_app, list_elem_of_singleton. intros [Hx| ->]; [by apply H1'|]. by eexists.
  - rewrite Forall_forall in *. intros e He. destruct (H6 e He) as ([Hs Hf] & Hpg & Hhp). split; [|split].
    + split; [done|]. cbn. rewrite elem_of_app, list_elem_of_singleton. intros [Hx|Hx]; [done|]. by apply (H3 e He).
    + cbn. rewrite Hp; [done|]. by apply H4.
    + cbn. rewrite Hh; [done|]. by apply H5.
Qed.

(** An object above a megabyte goes back to the system at once. *)
Lemma bulk_put_large st k n pg os : holds st ((k, n, pg) :: os) -> 1048576 < n ->
  exists st', Put iter conf st (Some k) = Ret st' /\ holds st' os /\
    m_free_hash_bulk_objs st' = m_free_hash_bulk_objs st /\ m_free_bulk_objs st' = m_free_bulk_objs st.
Proof.
  intros Ho Hn. pose proof Ho as [_ Hi _ _ _ He]. apply Forall_cons in He as [([Hs _] & Hp & Hh) _]. cbn [fst snd] in *.
  unfold Put. rewrite Hs. cbn [m_type m_slot_size m_obj_pv m_obj_page_pv put]. unfold put_bulk, convert_slot_obj_size_to_slot_idx.
  change (m_available_reserve_bulk_obj_max_size conf) with 1048576. change (m_sys_page_size conf) with 4096.
  rewrite (proj2 (Z.ltb_lt _ _) Hn), Hp. unfold heap_free. rewrite Hh. cbn [obind].
  rewrite decide_True by apply difference_diag_L. eexists. split; [reflexivity|]. split; [|done].
  apply (holds_put st k n pg os); [done| | |].
  - intros j Hj. by rewrite lookup_delete_ne.
  - intros q Hq. by rewrite lookup_delete_ne.
  - split.
    + intros p m [_ Hm]%lookup_delete_Some. exact (hi_block _ Hi _ _ Hm).
    + intros p m q x [_ Hm]%lookup_delete_Some [_ Hq]%lookup_delete_Some. exact (hi_disj _ Hi _ _ _ _ Hm Hq).
Qed.

(** One of a megabyte is kept. *)
Lemma bulk_put_kept st k pg os : holds st ((k, 1048576, pg) :: os) -> m_free_hash_bulk_objs st = ∅ -> m_free_bulk_objs st = ∅ ->
  exists st', Put iter conf st (Some k) = Ret st' /\ holds st' os /\
    m_free_hash_bulk_objs st' = {[256 := mkSlot {[pg := [pg]]} 1]} /\ m_free_bulk_objs st' = {[256]}.
Proof using Hprocs.
  intros Ho Hh Hk. pose proof Ho as [_ Hi _ _ _ He]. apply Forall_cons in He as [([Hs _] & _) _]. cbn [fst snd] in *.
  unfold Put. rewrite Hs. cbn [m_type m_slot_size m_obj_pv m_obj_page_pv put]. unfold put_bulk, convert_slot_obj_size_to_slot_idx.
  change (m_available_reserve_bulk_obj_max_size conf) with 1048576. change (m_sys_page_size conf) with 4096.
  change (m_one_slot_bulk_obj_resident_cnts conf) with (u32 nprocs). change (m_expand_bulk_obj_cnt_factor conf) with 4.
  rewrite Z.ltb_irrefl, Hh, lookup_empty. cbn [objs cnt].
  change (gen_expand_slot_page_size 1048576 4 4096 / 1048576) with 4. change (1048576 / 4096) with 256.
  rewrite (u32_id nprocs), (u32_id (nprocs + 4)) by (unfold in_u; lia). change (u32 (0 + 1)) with 1.
  rewrite (proj2 (Z.leb_gt _ _)) by lia. cbn [obind]. eexists. split; [reflexivity|]. split.
  - by apply (holds_put st k 1048576 pg os).
  - cbn. rewrite Hk, (right_id_L ∅ (∪)). split; [|done]. unfold push_free. by rewrite lookup_singleton_eq, insert_singleton_eq.
Qed.

Lemma holds_perm st os os' : os ≡ₚ os' -> holds st os -> holds st os'.
Proof. intros E [H1 H2 H3 H4 H5 H6]. rewrite E in H3, H4, H5, H6. by split. Qed.

Lemma bulk_gets ns : forall st os b, Forall bulk_size ns -> NoDup (((fun n => n / 4096) <$> ns) ++ ((fun e : positive * Z * Z => e.1.2 / 4096) <$> os)) ->
  m_free_hash_bulk_objs st = ∅ -> m_free_bulk_objs st = ∅ -> holds st os -> budget used cap st (length ns + b) ->
  exists st' os', get_phase posix_memalign iter conf st ns = Ret (st', (fun e => e.1.1) <$> os') /\
    m_free_hash_bulk_objs st' = ∅ /\ m_free_bulk_objs st' = ∅ /\ ns = ((fun e => e.1.2) <$> os') /\ holds st' (os' ++ os).
Proof using memalign_block iter_perm used_alloc.
  induction ns as [|n ns IH]; intros st os b Hf Hnd Hh Hk Ho Hb; cbn [get_phase]; [by exists st, []|].
  apply Forall_cons in Hf as [Hn Hf]. cbn [fmap list_fmap app] in Hnd. apply NoDup_cons in Hnd as [Hni Hnd].
  unfold budget, cost in Hb. cbn [length] in Hb.
  destruct (bulk_get st n Hn Hh Hk (ho_heap _ _ Ho) (ho_mos _ _ Ho)) as (st1 & k & pg & E & Hg & Hu); [unfold cost; lia|]. rewrite E. cbn [obind].
  unfold use. rewrite (proj1 (bg_live _ _ _ _ _ Hg)). cbn [m_slot_size].
  rewrite (proj2 (Z.ltb_ge n 13)) by (destruct Hn; lia). cbn [obind].
  destruct (IH st1 ((k, n, pg) :: os) b) as (st2 & os' & -> & H1 & H2 & -> & H3); [done| |apply Hg|apply Hg| |unfold budget, cost in *; lia|].
  - cbn [fmap list_fmap fst snd]. apply NoDup_app in Hnd as (H1 & H2 & H3). rewrite elem_of_app in Hni.
    apply NoDup_app. split; [done|]. split; [|constructor; [intros H; apply Hni; by right|done]].
    intros x Hx. rewrite elem_of_cons. intros [->|Hx']; [apply Hni; by left|by apply (H2 x)].
  - apply (holds_get st); [done|done|]. intros H. apply Hni. rewrite elem_of_app. by right.
  - cbn [obind]. exists st2, ((k, n, pg) :: os'). split; [done|]. split; [done|]. split; [done|]. split; [done|].
    eapply holds_perm; [|exact H3]. cbn. by rewrite <- Permutation_middle.
Qed.

Lemma bulk_puts os : forall st, holds st os -> Forall (fun e => 1048576 < e.1.2) os ->
  exists st', put_phase iter conf st ((fun e => e.1.1) <$> os) = Ret st' /\
    m_free_hash_bulk_objs st' = m_free_hash_bulk_objs st /\ m_free_bulk_objs st' = m_free_bulk_objs st.
Proof.
  induction os as [|[[k n] pg] os IH]; intros st Ho Hf; cbn [fmap list_fmap put_phase]; [by exists st|].
  apply Forall_cons in Hf as [Hn Hf]. destruct (bulk_put_large st k n pg os Ho Hn) as (st1 & E & Ho1 & H1 & H2).
  destruct (IH st1 Ho1 Hf) as (st2 & E2 & H3 & H4). cbn [fst]. rewrite E. cbn [obind]. exists st2. by rewrite H3, H4.
Qed.

End bulk.

(** ** The whole test *)

Lemma bulk_sizes_list : bulk_sizes = [1048576; 2097152; 3145728; 4194304; 5242880].
Proof. reflexivity. Qed.

Section whole.
Context (posix_memalign : gmap Z Z -> Z -> Z -> option Z).
Context (iter : free_map -> list (Z * list Z)).
Context (iter_pages : gset Z -> list Z).
Context (iter_slots : gmap Z SlotObjPage -> list (Z * SlotObjPage)).
Context (iter_tables : gmap Z (gset Z) -> list (Z * gset Z)).
Hypothesis memalign_block : forall h al n p, posix_memalign h al n = Some p ->
  0 < p /\ p mod al = 0 /\ p + n <= 2 ^ 64 /\
  forall q k, h !! q = Some k -> p + n <= q \/ q + k <= p.
Hypothesis iter_perm : forall m, iter m ≡ₚ map_to_list m.

Context (used : gmap Z Z -> Z) (cap : Z).
Hypothesis used_alloc : forall h n, 0 < n <= 2 ^ 23 -> used h + cost <= cap ->
  exists p, posix_memalign h 4096 n = Some p /\ used (<[p := n]> h) <= used h + cost.
Hypothesis used_free : forall h q, used (delete q h) <= used h.

Lemma bulk_phase_runs nprocs st : 0 < nprocs < 2 ^ 31 ->
  m_free_hash_bulk_objs st = ∅ -> m_free_bulk_objs st = ∅ -> mos_ok st -> heap_inv (heap st) -> budget used cap st 5 ->
  exists r, phase posix_memalign iter iter_pages iter_slots iter_tables (MemPool_default_conf 4096 nprocs) st bulk_sizes = Ret r.
Proof using memalign_block iter_perm used_alloc.
  intros Hp Hh Hk Hm Hi Hb. unfold phase. rewrite bulk_sizes_list.
  destruct (bulk_gets posix_memalign iter nprocs memalign_block iter_perm used cap used_alloc [1048576; 2097152; 3145728; 4194304; 5242880] st [] 0)
    as (st1 & os & -> & H1 & H2 & Hn & Ho); [|apply (bool_decide_unpack _); vm_compute; reflexivity|done|done| |done|].
  { repeat constructor; vm_compute; congruence. }
  { split; [done|done|apply NoDup_nil_2|apply NoDup_nil_2|apply NoDup_nil_2|constructor]. }
  rewrite app_nil_r in Ho. cbn [obind].
  destruct os as [|[[k n] pg] os]; [done|]. cbn [fmap list_fmap fst snd] in Hn |- *. injection Hn as <- Hn.
  destruct (bulk_put_kept iter nprocs Hp st1 k pg os Ho H1 H2) as (st2 & E & Ho2 & H3 & H4).
  cbn [put_phase]. rewrite E. cbn [obind].
  destruct (bulk_puts iter nprocs os st2 Ho2) as (st3 & E3 & H5 & H6).
  { assert (Hf : Forall (fun n => 1048576 < n) ((fun e => e.1.2) <$> os)) by (rewrite <- Hn; repeat constructor; lia).
    by rewrite Forall_fmap in Hf. }
  rewrite E3. cbn [obind]. unfold DumpDebugInfo. rewrite H5, H6, H3, H4.
  assert (sorted_keys {[256]} = [256]) as -> by (vm_compute; reflexivity). cbn. by eexists.
Qed.

Lemma test_bytes nprocs t s : slot_ok (MemPool_default_conf 4096 nprocs) t s -> page_bytes (MemPool_default_conf 4096 nprocs) t s <= 2 ^ 23.
Proof.
  intros Hok. destruct (page_bytes_bounds _ (default_conf_ok_any nprocs) _ _ Hok) as (Hs & _).
  destruct t; [done| | |done]; destruct Hok as [Hr _];
    [assert (s <= 4096) by exact (proj2 Hr)|assert (s <= 131072) by exact (proj2 Hr)];
    pose proof (gen_expand_bounds s 32 4096 Hs ltac:(lia) ltac:(lia) ltac:(lia)) as [_ HB]; simpl in HB;
    change (page_bytes _ _ s) with (gen_expand_slot_page_size s 32 4096); lia.
Qed.

(** The requests of each phase. *)
Lemma tiny_sizes_ok rand : (forall i, 0 <= rand i) -> Forall (fun n => 0 < n <= 131072) (tiny_sizes rand).
Proof.
  intros Hr. unfold tiny_sizes. apply Forall_fmap, Forall_forall. intros i _. unfold compose, or_else.
  pose proof (Z.rem_bound_pos (rand i) 17 (Hr i) ltac:(lia)). destruct (Z.eqb_spec (Z.rem (rand i) 17) 0); lia.
Qed.

Lemma small_sizes_ok : Forall (fun n => 0 < n <= 131072) small_sizes.
Proof.
  unfold small_sizes. apply Forall_fmap, Forall_forall. intros i Hi%elem_of_seqZ. unfold compose, or_else.
  pose proof (Z.rem_bound_pos (32 + i) 4097 ltac:(lia) ltac:(lia)). destruct (Z.eqb_spec (Z.rem (32 + i) 4097) 0); lia.
Qed.

Lemma big_sizes_ok : Forall (fun n => 0 < n <= 131072) big_sizes.
Proof.
  unfold big_sizes. apply Forall_fmap, Forall_forall. intros i Hi%elem_of_seqZ. unfold compose, or_else. change (32 * 4096 + 1) with 131073.
  pose proof (Z.rem_bound_pos (4097 + i) 131073 ltac:(lia) ltac:(lia)). destruct (Z.eqb_spec (Z.rem (4097 + i) 131073) 0); lia.
Qed.

Lemma fmap_seqZ_length {B} (f : Z -> B) n : Z.of_nat (length (f <$> seqZ 0 n)) = Z.max 0 n.
Proof. rewrite length_fmap, length_seqZ. lia. Qed.

(** The unit test of the pool passes: on a system that has memory for its
    111005 requests, for every allocator that keeps to its documentation,
    every order of iteration and every random sequence, each request yields an
    object the greeting fits into, each object can be given back, and the four
    dumps are printed. *)
Theorem mem_pool_test_passes (nprocs uninit : Z) (h : gmap Z Z) (rand : Z -> Z) :
  0 < nprocs < 2 ^ 31 -> heap_inv h -> (forall i, 0 <= rand i) -> used h + 111005 * cost <= cap ->
  let conf := MemPool_default_conf 4096 nprocs in
  exists mp s1 s2 s3 s4,
    MemPoolTest posix_memalign iter iter_pages iter_slots iter_tables conf rand (MemPool_new conf uninit h) = Ret (mp, [s1; s2; s3; s4]).
Proof using memalign_block iter_perm used_alloc used_free.
  intros Hp Hh Hr Hu conf. pose proof (default_conf_ok_any nprocs) as Hc.
  pose proof (fun st sizes b => phase_runs posix_memalign iter iter_pages iter_slots iter_tables conf memalign_block iter_perm Hc eq_refl
    ltac:(vm_compute; congruence) (test_bytes nprocs) used cap used_alloc used_free st sizes b) as Hphase.
  pose proof (fmap_seqZ_length (fun i => or_else 1 (Z.rem (rand i) 17)) 10000) as L1. fold (tiny_sizes rand) in L1.
  pose proof (fmap_seqZ_length (fun i => or_else 32 (Z.rem (32 + i) 4097)) 100000) as L2. fold small_sizes in L2.
  pose proof (fmap_seqZ_length (fun i => or_else 4097 (Z.rem (4097 + i) (32 * 4096 + 1))) 1000) as L3. fold big_sizes in L3.
  unfold MemPoolTest. 
  destruct (Hphase (MemPool_new conf uninit h) (tiny_sizes rand) (length small_sizes + (length big_sizes + 5))%nat (tiny_sizes_ok rand Hr))
    as (st1 & s1 & -> & Hi1 & Hs1 & Hb1); [by apply MemPool_new_inv|done|unfold budget; cbn [heap MemPool_new]; lia|]. cbn [obind].
  destruct (Hphase st1 small_sizes (length big_sizes + 5)%nat small_sizes_ok Hi1) as (st2 & s2 & -> & Hi2 & Hs2 & Hb2);
    [by destruct Hs1 as (_ & _ & ->)|done|]. cbn [obind]. pose proof (bulk_same_trans _ _ _ Hs1 Hs2) as Hs3.
  destruct (Hphase st2 big_sizes 5%nat big_sizes_ok Hi2) as (st3 & s3 & -> & Hi3 & Hs4 & Hb3);
    [by destruct Hs3 as (_ & _ & ->)|done|]. cbn [obind]. destruct (bulk_same_trans _ _ _ Hs3 Hs4) as (_ & H5 & H6).
  destruct (bulk_phase_runs nprocs st3 Hp) as ([st4 s4] & E4); [by rewrite H5|by rewrite H6|apply Hi3|apply Hi3|done|].
  fold conf in E4. rewrite E4. cbn [obind]. by exists st4, s1, s2, s3, s4.
Qed.

End whole.

(** ** The allocator that bumps past the last block *)

Module TestDemo.
Import Demo.

Lemma foldr_top_perm l l' : l ≡ₚ l' ->
  foldr (fun e a => Z.max a (e.1 + e.2)) 4096 l = foldr (fun e a => Z.max a (e.1 + e.2)) 4096 (l' : list (Z * Z)).
Proof. induction 1; simpl; lia. Qed.

Lemma top_insert h p n : top (<[p := n]> h) = Z.max (top (delete p h)) (p + n).
Proof.
  unfold top. rewrite <- insert_delete_eq. by rewrite (foldr_top_perm _ _ (map_to_list_insert _ p n (lookup_delete_eq h p))).
Qed.

Lemma top_delete h q : top (delete q h) <= top h.
Proof.
  destruct (h !! q) as [n|] eqn:E; [|by rewrite delete_id]. rewrite <- (insert_id h q n E) at 2. rewrite top_insert. lia.
Qed.

Lemma bump_alloc h n : 0 < n <= 2 ^ 23 -> top h + cost <= 2 ^ 64 ->
  exists p, bump h 4096 n = Some p /\ top (<[p := n]> h) <= top h + cost.
Proof.
  intros Hn Hc. unfold cost in *. unfold bump. cbn [Z.leb Z.compare].
  pose proof (Z.div_mod (top h + 4096 - 1) 4096 ltac:(lia)). pose proof (Z.mod_pos_bound (top h + 4096 - 1) 4096 ltac:(lia)).
  set (p := (top h + 4096 - 1) / 4096 * 4096) in *. assert (p <= top h + 4095) by lia.
  rewrite (proj2 (Z.leb_le _ _)) by lia. exists p. split; [done|]. rewrite top_insert. pose proof (top_delete h p). lia.
Qed.

Lemma mem_pool_test_passes_witness :
  let conf := MemPool_default_conf 4096 8 in
  exists mp s1 s2 s3 s4, MemPoolTest bump iter elements map_to_list map_to_list conf (fun i => i * i) (MemPool_new conf 7 ∅) = Ret (mp, [s1; s2; s3; s4]).
Proof.
  apply (mem_pool_test_passes bump iter elements map_to_list map_to_list bump_block (fun m => reflexivity _) top (2 ^ 64) bump_alloc top_delete 8 7 ∅ (fun i => i * i)).
  - lia.
  - split; [intros p n|intros p n q k]; by rewrite lookup_empty.
  - intros i. apply Z.square_nonneg.
  - vm_compute. congruence.
Defined.

End TestDemo.
