(* ===== verification/PoolApi.v ===== *)
(** * PoolApi: what the memory pool promises to its clients

    [MemPoolApi] is the part of [MemPool] the network code calls: [Get],
    [Put] and [MemObject::Pointer].  [MemPoolLaws] states what that code relies
    on; the file ends with the proof that the pool of MemPool.v keeps these
    promises for requests up to its bulk threshold. *)

From S2P Require Import Prelude MemPool MemPoolSafety.

Class MemPoolApi := {
  pool : Type;
  pool_get : pool -> Z -> outcome (pool * option positive);
  pool_put : pool -> option positive -> outcome pool;
  (** [MemObject::Pointer] of a handle. *)
  Pointer : pool -> positive -> outcome Z
}.

(** [obj_live p k a s]: handle [k] is held by a client and stands for the
    bytes [[a, a + s)]. *)
Class MemPoolLaws (A : MemPoolApi) := {
  pool_ok : pool -> Prop;
  obj_live : pool -> positive -> Z -> Z -> Prop;
  max_request : Z;
  law_get : forall p n, pool_ok p -> 0 < n <= max_request ->
    exists p' r, pool_get p n = Ret (p', r) /\ pool_ok p' /\
      match r with
      | None => forall k a s, obj_live p' k a s <-> obj_live p k a s
      | Some k => (exists a s, obj_live p' k a s /\ n <= s) /\ (forall a s, ~ obj_live p k a s) /\
          forall k' a s, k' <> k -> obj_live p' k' a s <-> obj_live p k' a s
      end;
  law_put : forall p k a s, pool_ok p -> obj_live p k a s ->
    exists p', pool_put p (Some k) = Ret p' /\ pool_ok p' /\
      forall k' a' s', obj_live p' k' a' s' <-> k' <> k /\ obj_live p k' a' s';
  law_pointer : forall p k a s, pool_ok p -> obj_live p k a s -> Pointer p k = Ret a /\ 0 < a /\ a + s <= 2 ^ 64;
  law_disjoint : forall p k a s k' a' s', pool_ok p -> obj_live p k a s -> obj_live p k' a' s' -> k <> k' ->
    a + s <= a' \/ a' + s' <= a
}.

(** The next [m] operations, whatever they are, find memory. *)
Fixpoint room `{A : MemPoolApi} `{!MemPoolLaws A} (m : nat) (p : pool) : Prop :=
  match m with
  | O => True
  | S m => (forall n p' r, 0 < n <= max_request -> pool_get p n = Ret (p', r) -> r <> None /\ room m p') /\
           (forall k p', pool_put p (Some k) = Ret p' -> room m p')
  end.

Lemma room_weaken `{A : MemPoolApi} `{!MemPoolLaws A} m m' p : (m' <= m)%nat -> room m p -> room m' p.
Proof.
  revert m p. induction m' as [|m' IH]; intros m p Hle H; [done|]. destruct m as [|m]; [lia|].
  destruct H as [Hg Hp]. split.
  - intros n p' r Hn E. destruct (Hg n p' r Hn E) as [Hr Hm]. split; [done|]. apply (IH m); [lia|done].
  - intros k p' E. apply (IH m); [lia|]. by apply (Hp k).
Qed.

(** ** The client's view: pool, addressable bytes, arrays made by [new[]] *)

Section world.
Context `{A : MemPoolApi}.

Record world := mkWorld { w_mem : mem; w_pool : pool; w_arrays : gset Z }.

Definition set_mem (w : world) (m : mem) : world := mkWorld m (w_pool w) (w_arrays w).
Definition set_pool (w : world) (p : pool) : world := mkWorld (w_mem w) p (w_arrays w).

(** The bytes [[a, a + n)] become addressable; bytes already there keep their
    value, a fresh one holds an arbitrary value, here [0]. *)
Definition touch (m : mem) (a : Z) (n : Z) : mem :=
  m ∪ list_to_map ((fun i => (a + i, 0)) <$> seqZ 0 n).

(** [auto mpo = memPool->Get(n)] followed by the use of [mpo->Pointer()]: the
    handle and its address; a null object is dereferenced. *)
Definition mp_get (w : world) (n : Z) : outcome (world * positive * Z) :=
  let* (p, r) := pool_get (w_pool w) n in
  match r with
  | None => Undef "Pointer() of a null memory object"
  | Some k => let* a := Pointer p k in Ret (mkWorld (touch (w_mem w) a n) p (w_arrays w), k, a)
  end.

Definition mp_put (w : world) (k : positive) : outcome world :=
  let* p := pool_put (w_pool w) (Some k) in Ret (set_pool w p).

(** [DELETE_ARR_PTR] (common-def.h): [delete[] p] when [p] is not null. *)
Definition delete_arr (w : world) (p : Z) : outcome world :=
  if Z.eqb p 0 then Ret w
  else if decide (p ∈ w_arrays w) then Ret (mkWorld (w_mem w) (w_pool w) (w_arrays w ∖ {[p]}))
  else Undef "delete of a pointer that new did not return".

Lemma lookup_zeros a n x : (list_to_map ((fun i => (a + i, 0)) <$> seqZ 0 n) : mem) !! x =
  if decide (a <= x < a + n) then Some 0 else None.
Proof.
  destruct (decide (a <= x < a + n)) as [H|H].
  - apply elem_of_list_to_map.
    + rewrite <- list_fmap_compose. apply NoDup_fmap_2_strong; [|apply NoDup_seqZ]. intros i j _ _. simpl. lia.
    + apply list_elem_of_fmap. exists (x - a). split; [f_equal; lia|]. apply elem_of_seqZ. lia.
  - apply not_elem_of_list_to_map. rewrite <- list_fmap_compose. intros (i & -> & Hi)%list_elem_of_fmap.
    apply elem_of_seqZ in Hi. simpl in H. lia.
Qed.

Lemma touch_range_ok m a n : range_ok (touch m a n) a n.
Proof.
  intros i Hi. unfold touch. rewrite lookup_union, lookup_zeros.
  rewrite decide_True by lia. destruct (m !! _); eauto.
Qed.

Lemma touch_keeps m a n x b : m !! x = Some b -> touch m a n !! x = Some b.
Proof. intros H. unfold touch. by rewrite lookup_union, H, union_Some_l. Qed.

Lemma touch_keeps_range m a n x k : range_ok m x k -> range_ok (touch m a n) x k.
Proof. intros H i Hi. destruct (H i Hi) as [b Hb]. exists b. by apply touch_keeps. Qed.

Lemma touch_keeps_bytes m a n x bs : bytes_at m x bs -> bytes_at (touch m a n) x bs.
Proof. unfold bytes_at. intros H i b Hb. by apply touch_keeps, H. Qed.

End world.
Arguments world : clear implicits.
Arguments world A : assert.

(** ** The pool of MemPool.v as an instance *)

Section instance.
Context (conf : MemPoolConf).
Context (posix_memalign : gmap Z Z -> Z -> Z -> option Z).
Context (iter : free_map -> list (Z * list Z)).

#[local] Instance MemPoolImpl : MemPoolApi := {|
  pool := MemPool;
  pool_get := Get posix_memalign iter conf;
  pool_put := Put iter conf;
  Pointer p k := match mo_store p !! k with
                 | Some mo => Ret (m_obj_pv mo)
                 | None => Undef "MemObject pointer without an object"
                 end
|}.

Hypothesis memalign_block : forall h al n p, posix_memalign h al n = Some p ->
  0 < p /\ p mod al = 0 /\ p + n <= 2 ^ 64 /\
  forall q k, h !! q = Some k -> p + n <= q \/ q + k <= p.
Hypothesis iter_perm : forall m, iter m ≡ₚ map_to_list m.
Hypothesis Hconf : conf_ok conf.

Definition impl_live (p : MemPool) (k : positive) (a s : Z) : Prop :=
  exists mo, live p k mo /\ m_obj_pv mo = a /\ m_slot_size mo = s.

Lemma live_same (p p' : MemPool) k k' : (forall mo, live p k mo <-> live p' k' mo) ->
  forall a s, impl_live p k a s <-> impl_live p' k' a s.
Proof.
  intros H a s. split; intros (mo & Hl & E); exists mo; (split; [by apply H|done]).
Qed.

Definition MemPoolImpl_laws : MemPoolLaws MemPoolImpl.
Proof using memalign_block iter_perm Hconf.
  refine {| pool_ok := pool_inv conf; obj_live := impl_live; max_request := m_bulk_obj_threshold conf |}.
  - intros p n Hi Hn.
    destruct (Get_spec conf posix_memalign iter memalign_block iter_perm Hconf _ _ Hi Hn) as (p' & r & E & Hi' & Hp).
    exists p', r. split; [done|]. split; [done|]. destruct r as [k|]; [|destruct Hp as [Hp _]; intros k; by apply live_same].
    destruct Hp as ((mo & Hl & Hs) & Hno & Hiff). split; [|split].
    + exists (m_obj_pv mo), (m_slot_size mo). split; [|done]. by exists mo.
    + intros a s (mo' & Hl' & _). by apply (Hno mo').
    + intros k' a s Hne. revert a s. apply live_same. intros mo'. by apply Hiff.
  - intros p k a s Hi (mo & Hl & _).
    destruct (Put_spec conf iter iter_perm Hconf _ _ _ Hi Hl) as (p' & E & Hi' & Hp).
    exists p'. split; [done|]. split; [done|]. intros k' a' s'. split.
    + intros (mo' & Hl' & E'). apply Hp in Hl' as [Hne Hl']. split; [done|]. by exists mo'.
    + intros [Hne (mo' & Hl' & E')]. exists mo'. split; [|done]. by apply Hp.
  - intros p k a s Hi (mo & Hl & <- & <-). simpl. rewrite (proj1 Hl). split; [done|].
    destruct (live_in_block conf Hconf _ _ _ Hi Hl) as (n & Hb & Hp & Hq & _).
    destruct (hi_block _ (pi_heap _ _ Hi) _ _ Hb). lia.
  - intros p k a s k' a' s' Hi (mo & Hl & <- & <-) (mo' & Hl' & <- & <-) Hne.
    by apply (live_disjoint conf Hconf p k k' mo mo').
Defined.

End instance.
