(* ===== verification/Buffer.v ===== *)
(** * Buffer: the byte window over a pool object

    Models src/src/common/buffer.{h,cc}, [CommonUtils::GetNewBuffer]
    (common-utils.cc), and the recycling of buffers by [Message]
    (src/src/net/message.{h,cc}).  A pointer is a [Z], null is [0]. *)

From S2P Require Import Prelude PoolApi.

Record Buffer := mkBuffer {
  m_pPos : Z;
  m_pLast : Z;
  m_pStart : Z;
  m_pEnd : Z;
  m_pMpObject : option positive;
  m_bAvailable : bool
}.

(** [Buffer()]. *)
Definition null_buffer : Buffer := mkBuffer 0 0 0 0 None false.

Definition check_available (b : Buffer) : Buffer :=
  mkBuffer (m_pPos b) (m_pLast b) (m_pStart b) (m_pEnd b) (m_pMpObject b)
    (if Z.eqb (m_pStart b) 0 || Z.eqb (m_pEnd b) 0 || Z.eqb (m_pPos b) 0 || Z.eqb (m_pLast b) 0 then false
     else Z.leb (m_pPos b) (m_pLast b)).

(** The constructor with arguments. *)
Definition Buffer_new (pos last start end_ : Z) (mpo : option positive) : Buffer :=
  check_available (mkBuffer pos last start end_ mpo false).

Definition Valid (b : Buffer) : bool := m_bAvailable b.

Definition SetPos (b : Buffer) (p : Z) : Buffer :=
  check_available (mkBuffer p (m_pLast b) (m_pStart b) (m_pEnd b) (m_pMpObject b) (m_bAvailable b)).
Definition SetLast (b : Buffer) (l : Z) : Buffer :=
  check_available (mkBuffer (m_pPos b) l (m_pStart b) (m_pEnd b) (m_pMpObject b) (m_bAvailable b)).
Definition SetStart (b : Buffer) (s : Z) : Buffer :=
  mkBuffer (m_pPos b) (m_pLast b) s (m_pEnd b) (m_pMpObject b) (m_bAvailable b).
Definition SetEnd (b : Buffer) (e : Z) : Buffer :=
  mkBuffer (m_pPos b) (m_pLast b) (m_pStart b) e (m_pMpObject b) (m_bAvailable b).

Definition GetPos (b : Buffer) : Z := m_pPos b.
Definition GetLast (b : Buffer) : Z := m_pLast b.
Definition GetStart (b : Buffer) : Z := m_pStart b.
Definition GetEnd (b : Buffer) : Z := m_pEnd b.

(** The comparison is between a [ptrdiff_t] and the [uint32_t] [n - 1]. *)
Definition MoveHeadBack (b : Buffer) (n : Z) : Buffer :=
  if Z.eqb (m_pPos b) 0 || Z.eqb (m_pLast b) 0 then
    mkBuffer (m_pPos b) (m_pLast b) (m_pStart b) (m_pEnd b) (m_pMpObject b) false
  else
    mkBuffer (u64 (m_pPos b + n)) (m_pLast b) (m_pStart b) (m_pEnd b) (m_pMpObject b)
      (Z.ltb (u32 (n - 1)) (m_pLast b - m_pPos b)).

Definition MoveTailBack (b : Buffer) (n : Z) : Buffer :=
  if negb (Z.eqb (m_pLast b) 0) then
    mkBuffer (m_pPos b) (u64 (m_pLast b + n)) (m_pStart b) (m_pEnd b) (m_pMpObject b) (m_bAvailable b)
  else
    check_available (mkBuffer (m_pPos b) (u64 (m_pStart b + n - 1)) (m_pStart b) (m_pEnd b) (m_pMpObject b) (m_bAvailable b)).

Definition TotalLength (b : Buffer) : Z :=
  if Z.eqb (m_pStart b) 0 || Z.eqb (m_pEnd b) 0 then 0
  else i32 (m_pEnd b - m_pStart b) + 1.

Definition AvailableLength (b : Buffer) : Z :=
  if negb (m_bAvailable b) then 0
  else if Z.eqb (m_pLast b) 0 || Z.eqb (m_pPos b) 0 then 0
  else i32 (m_pLast b - m_pPos b) + 1.

Definition UnusedSize (b : Buffer) : Z :=
  if negb (m_bAvailable b) then 0
  else if negb (Z.eqb (m_pLast b) 0) then u64 (m_pEnd b - m_pLast b)
  else u64 (u64 (m_pEnd b - m_pStart b) + 1).

(** [bzero(p, n)]: every byte must be addressable. *)
Definition bzero (m : mem) (p n : Z) : outcome mem := poke_bytes m p (replicate (Z.to_nat n) 0).

Definition BZero (m : mem) (b : Buffer) : outcome (mem * Buffer) :=
  let* m := bzero m (m_pStart b) (u64 (m_pEnd b - m_pStart b + 1)) in
  Ret (m, mkBuffer 0 0 (m_pStart b) (m_pEnd b) (m_pMpObject b) false).

Section with_pool.
Context `{A : MemPoolApi}.

(** [Refresh] (buffer.cc): releases what the buffer holds, then takes the new window. *)
Definition Refresh (w : world A) (b : Buffer) (pos last start end_ : Z) (mpo : option positive)
    : outcome (world A * Buffer) :=
  let* w := match m_pMpObject b with
            | Some k => mp_put w k
            | None => delete_arr w (m_pStart b)
            end in
  Ret (w, check_available (mkBuffer pos last start end_ mpo (m_bAvailable b))).

(** [Put], [Reset] and the destructor. *)
Definition Buffer_Put (w : world A) (b : Buffer) : outcome (world A * Buffer) := Refresh w b 0 0 0 0 None.

(** [CommonUtils::GetNewBuffer(mpo, size)], [mpo] being at address [start]. *)
Definition CommonUtils_GetNewBuffer (k : positive) (start totalBufferSize : Z) : Buffer :=
  Buffer_new 0 0 start (u64 (start + totalBufferSize - 1)) (Some k).

(** ** Buffer recycling (message.cc)

    [s_freeBuffers] is the list of recycled [Buffer] objects. *)

Definition GetNewBuffer (s_freeBuffers : list Buffer) : list Buffer * Buffer :=
  match s_freeBuffers with
  | [] => ([], null_buffer)
  | buf :: rest => (rest, buf)
  end.

Definition GetNewBuffer_refresh (w : world A) (fb : list Buffer) (pos last start end_ : Z) (mpo : option positive)
    : outcome (world A * list Buffer * Buffer) :=
  let '(fb, buf) := GetNewBuffer fb in
  let* (w, buf) := Refresh w buf pos last start end_ mpo in
  Ret (w, fb, buf).

Definition GetNewBuffer_mpo (w : world A) (fb : list Buffer) (k : positive) (bufferStart totalBufferSize : Z)
    : outcome (world A * list Buffer * Buffer) :=
  let bufferEnd := u64 (bufferStart + totalBufferSize - 1) in
  GetNewBuffer_refresh w fb 0 0 bufferStart bufferEnd (Some k).

Definition GetNewAvailableBuffer (w : world A) (fb : list Buffer) (k : positive) (bufferStart totalBufferSize : Z)
    : outcome (world A * list Buffer * Buffer) :=
  let bufferEnd := u64 (bufferStart + totalBufferSize - 1) in
  GetNewBuffer_refresh w fb bufferStart bufferEnd bufferStart bufferEnd (Some k).

Definition PutBuffer (w : world A) (fb : list Buffer) (buffer : Buffer) : outcome (world A * list Buffer) :=
  let* (w, buffer) := Buffer_Put w buffer in
  Ret (w, fb ++ [buffer]).

End with_pool.

(** ** The window as a pair of offsets

    [window b a n r l]: the buffer spans [n] bytes from [a], and its valid part
    is [[a + r, a + l)], non-empty. *)
Record window (b : Buffer) (a n r l : Z) : Prop := mkWindow {
  wi_start : m_pStart b = a;
  wi_end : m_pEnd b = a + n - 1;
  wi_pos : m_pPos b = a + r;
  wi_last : m_pLast b = a + l - 1;
  wi_avail : m_bAvailable b = true;
  wi_bounds : 0 < a /\ a + n <= 2 ^ 64 /\ 0 <= r < l /\ l <= n /\ n <= 2 ^ 31
}.

(** A buffer that spans [n] bytes from [a] and holds nothing yet. *)
Record empty_window (b : Buffer) (a n : Z) : Prop := mkEmptyWindow {
  ew_start : m_pStart b = a;
  ew_end : m_pEnd b = a + n - 1;
  ew_pos : m_pPos b = 0;
  ew_last : m_pLast b = 0;
  ew_avail : m_bAvailable b = false;
  ew_bounds : 0 < a /\ a + n <= 2 ^ 64 /\ 0 < n <= 2 ^ 31
}.

Lemma i32_small z : 0 <= z < 2 ^ 31 -> i32 z = z.
Proof. intros H. apply swrap_id; [lia|]. unfold in_s. simpl in *. lia. Qed.

Ltac zeqb := repeat match goal with |- context [Z.eqb ?x ?y] =>
  first [ rewrite (proj2 (Z.eqb_neq x y)) by lia | rewrite (proj2 (Z.eqb_eq x y)) by lia ] end.

Lemma window_available b a n r l : window b a n r l -> AvailableLength b = l - r.
Proof.
  intros [Hs He Hp Hl Ha Hb]. unfold AvailableLength. rewrite Ha, Hp, Hl. simpl. zeqb. simpl.
  rewrite i32_small by lia. lia.
Qed.

Lemma window_total b a n r l : window b a n r l -> TotalLength b = n.
Proof.
  intros [Hs He Hp Hl Ha Hb]. unfold TotalLength. rewrite Hs, He. zeqb. simpl. rewrite i32_small by lia. lia.
Qed.

Lemma empty_window_total b a n : empty_window b a n -> TotalLength b = n.
Proof.
  intros [Hs He Hp Hl Ha Hb]. unfold TotalLength. rewrite Hs, He. zeqb. simpl. rewrite i32_small by lia. lia.
Qed.

Lemma window_unused b a n r l : window b a n r l -> UnusedSize b = n - l.
Proof.
  intros [Hs He Hp Hl Ha Hb]. unfold UnusedSize. rewrite Ha, He, Hl. simpl. zeqb. simpl.
  rewrite u64_id by (unfold in_u; lia). lia.
Qed.

(** Growing the window at its tail. *)
Lemma window_move_tail b a n r l k : window b a n r l -> 0 <= k -> l + k <= n ->
  window (MoveTailBack b k) a n r (l + k).
Proof.
  intros [Hs He Hp Hl Ha Hb] Hk Hle. unfold MoveTailBack. rewrite Hl. zeqb. simpl.
  split; simpl; try done; try lia. rewrite u64_id by (unfold in_u; lia). lia.
Qed.

(** The first bytes of an empty buffer, as [CheckAndInitBufferPos] and
    [MoveTailBack] enter them. *)
Lemma empty_window_move_tail b a n k : empty_window b a n -> 0 < k <= n ->
  window (MoveTailBack (SetPos b (m_pStart b)) k) a n 0 k.
Proof.
  intros [Hs He Hp Hl Ha Hb] Hk. unfold MoveTailBack, SetPos, check_available. simpl. rewrite Hl, Hs, He. simpl.
  rewrite u64_id by (unfold in_u; lia). zeqb. simpl.
  split; simpl; try done; try lia.
Qed.

(** Consuming the window at its head: it stays a window, or becomes unavailable
    when the last byte is consumed. *)
Lemma window_move_head b a n r l k : window b a n r l -> 0 < k < l - r ->
  window (MoveHeadBack b k) a n (r + k) l.
Proof.
  intros [Hs He Hp Hl Ha Hb] Hk. unfold MoveHeadBack. rewrite Hp, Hl. zeqb. simpl.
  rewrite u64_id, u32_id by (unfold in_u; lia).
  split; simpl; try done; try lia.
Qed.

Lemma window_move_head_end b a n r l k : window b a n r l -> k = l - r ->
  AvailableLength (MoveHeadBack b k) = 0 /\ m_pPos (MoveHeadBack b k) = u64 (a + l) /\
  m_pMpObject (MoveHeadBack b k) = m_pMpObject b.
Proof.
  intros [Hs He Hp Hl Ha Hb] ->. unfold MoveHeadBack, AvailableLength. rewrite Hp, Hl. zeqb. simpl.
  rewrite u32_id by (unfold in_u; lia). rewrite (proj2 (Z.ltb_ge _ _)) by lia. simpl.
  split; [done|]. split; [f_equal; lia|done].
Qed.
