(* ===== verification/Message.v ===== *)
(** * Message: encoding and decoding of the wire messages

    Models src/src/net/message.h, snd-message.{h,cc}, rcv-message.{h,cc},
    the peer addresses of net/common-def.h, and the message bodies of
    rpc/request.cc, rpc/response.cc and the two handshake messages
    (posix/tcp/connect-messages).  A protobuf message is a parameter: its
    [ByteSize] and what [SerializeToArray] writes. *)

From S2P Require Import Prelude Codec PoolApi Buffer.

Definition MESSAGE_MAGIC_NO : Z := 3735928559.
Definition MAX_MSG_PAYLOAD_SIZE : Z := 67108864.
Definition INVALID_MSG_ID : Z := 0.
Definition MSG_HEADER_SIZE : Z := 16.

(** ** Peers (net/common-def.h) *)

Inductive SocketProtocol := ProtoNone | Tcp | Udp.

#[export] Instance SocketProtocol_eq_dec : EqDecision SocketProtocol.
Proof. solve_decision. Defined.

Record net_addr_t := mkAddr { addr : string; port : Z }.
Record net_peer_info_t := mkPeer { nat_ : net_addr_t; sp : SocketProtocol }.

#[export] Instance net_addr_eq_dec : EqDecision net_addr_t.
Proof. solve_decision. Defined.
#[export] Instance net_peer_info_eq_dec : EqDecision net_peer_info_t.
Proof. solve_decision. Defined.

(** [operator==]. *)
Definition peer_eqb (a b : net_peer_info_t) : bool :=
  bool_decide (sp a = sp b) && Z.eqb (port (nat_ a)) (port (nat_ b)) &&
  bool_decide (addr (nat_ a) = addr (nat_ b)).

Lemma peer_eqb_eq a b : peer_eqb a b = true <-> a = b.
Proof.
  unfold peer_eqb. destruct a as [[aa pa] sa], b as [[ab pb] sb]. simpl.
  rewrite !andb_true_iff, !bool_decide_eq_true, Z.eqb_eq. naive_solver.
Qed.

(** ** Header and message ids *)

Record Header := mkHeader { magic : Z; id : Z; len : Z }.

Definition HeaderSize : Z := MSG_HEADER_SIZE.

(** [GetNewId] (snd-message.cc:89-117, 64-bit ids): the new [s_lastId]. *)
Definition GetNewId (s_lastId : Z) : Z :=
  let s_lastId := u64 (s_lastId + 1) in
  if Z.eqb s_lastId 18446744073709551615 then 1 else s_lastId.

Lemma GetNewId_next x : 0 <= x -> x + 1 < 2 ^ 64 - 1 -> GetNewId x = x + 1.
Proof. intros H0 H1. unfold GetNewId. rewrite u64_id by (unfold in_u; lia). destruct (Z.eqb_spec (x + 1) 18446744073709551615); lia. Qed.

(** ** Message bodies *)

(** A protobuf message: [SerializeToArray(p, ByteSize())] writes [pb_bytes]. *)
Class ProtoMsg := {
  pb_msg : Type;
  ByteSize : pb_msg -> Z;
  pb_bytes : pb_msg -> list Z
}.

Class ProtoMsgLaws (P : ProtoMsg) := {
  ByteSize_length : forall m, ByteSize m = Z.of_nat (length (pb_bytes m));
  pb_is_bytes : forall m, is_bytes (pb_bytes m)
}.

Inductive ConnectStatus := StatusOK | StatusERROR.
Definition status_code (s : ConnectStatus) : Z := match s with StatusOK => 0 | StatusERROR => 1 end.

Inductive RpcCode := OK | ErrorNoHandler | ErrorMsg | ErrorInternal | ErrorNoRegisteredRpc | ErrorUnknown.
Definition rpc_code (c : RpcCode) : Z :=
  match c with OK => 0 | ErrorNoHandler => 1 | ErrorMsg => 2 | ErrorInternal => 3
             | ErrorNoRegisteredRpc => 4 | ErrorUnknown => 5 end.

(** The classes derived from [SndMessage]; the last one is of the network test. *)
Inductive SndBody `{P : ProtoMsg} :=
| ConnectRequestMessage (m_logicPort : Z)
| ConnectResponseMessage (m_stat : ConnectStatus) (m_sWhat : list Z)
| RpcRequest (m_iHandlerId : Z) (m_sspMsg : option pb_msg)
| RpcResponseBase (m_code : RpcCode) (m_ht : Z)
| RpcResponse (m_ht : Z) (m_pMsg : option pb_msg)
| TestSndMessage (m_str : list Z).
Arguments SndBody P : clear implicits.

(** [m_pMemPool] is set, or indeterminate (the default constructor). *)
Record SndMessage (P : ProtoMsg) := mkSnd {
  m_header : Header;
  m_hasPool : bool;
  m_peerInfo : option net_peer_info_t;
  body : SndBody P
}.
Arguments mkSnd {P}.
Arguments m_header {P}.
Arguments m_hasPool {P}.
Arguments m_peerInfo {P}.
Arguments body {P}.

(** The constructors of [SndMessage], with the new [s_lastId] where they draw an
    id, and the accessors. *)
Definition SndMessage_default {P : ProtoMsg} (s_lastId : Z) (b : SndBody P) : Z * SndMessage P :=
  let i := GetNewId s_lastId in (i, mkSnd (mkHeader 0 i 0) false None b).
Definition SndMessage_new {P : ProtoMsg} (s_lastId : Z) (peerInfo : net_peer_info_t) (b : SndBody P) : Z * SndMessage P :=
  let i := GetNewId s_lastId in (i, mkSnd (mkHeader 0 i 0) true (Some peerInfo) b).
Definition SndMessage_id {P : ProtoMsg} (peerInfo : net_peer_info_t) (i : Z) (b : SndBody P) : SndMessage P :=
  mkSnd (mkHeader 0 i 0) true (Some peerInfo) b.
Definition SetMemPool {P : ProtoMsg} (m : SndMessage P) : SndMessage P := mkSnd (m_header m) true (m_peerInfo m) (body m).
Definition SetPeerInfo {P : ProtoMsg} (m : SndMessage P) (peerInfo : net_peer_info_t) : SndMessage P :=
  mkSnd (m_header m) (m_hasPool m) (Some peerInfo) (body m).
Definition SetId {P : ProtoMsg} (m : SndMessage P) (i : Z) : SndMessage P :=
  mkSnd (mkHeader (magic (m_header m)) i (len (m_header m))) (m_hasPool m) (m_peerInfo m) (body m).
Definition GetId {P : ProtoMsg} (m : SndMessage P) : Z := id (m_header m).
Definition GetPeerInfo {P : ProtoMsg} (m : SndMessage P) : option net_peer_info_t := m_peerInfo m.

Section message.
Context `{A : MemPoolApi} `{U : ByteOrderUtils} `{P : ProtoMsg}.

(** [TestSndMessage::getDerivePayloadLength] and [encodeDerive]. *)
Definition test_payload_length (m_str : list Z) : Z := u32 (Z.of_nat (length m_str)).
Definition test_encode (m : mem) (m_str : list Z) (b : Buffer) : outcome (mem * Buffer) :=
  let* m := poke_bytes m (m_pPos b) m_str in Ret (m, b).

Definition getDerivePayloadLength (b : SndBody P) : Z :=
  match b with
  | ConnectRequestMessage _ => 2
  | ConnectResponseMessage _ what => u32 (2 + Z.of_nat (length what))
  | RpcRequest _ (Some m) => u32 (2 + ByteSize m)
  | RpcRequest _ None => 2
  | RpcResponseBase _ _ => 4
  | RpcResponse _ (Some m) => u32 (4 + ByteSize m)
  | RpcResponse _ None => 4
  | TestSndMessage str => test_payload_length str
  end.

(** [ProtoBufUtils::Serialize(from, to)]. *)
Definition Serialize (m : mem) (from : pb_msg) (to : Buffer) : outcome mem :=
  poke_bytes m (m_pPos to) (pb_bytes from).

Definition encodeDerive (m : mem) (body : SndBody P) (b : Buffer) : outcome (mem * Buffer) :=
  match body with
  | ConnectRequestMessage m_logicPort =>
      let* m := WriteUInt16 m (m_pPos b) (u16 m_logicPort) in Ret (m, b)
  | ConnectResponseMessage m_stat m_sWhat =>
      let* m := WriteUInt16 m (m_pPos b) (status_code m_stat) in
      let b := MoveHeadBack b 2 in
      let* m := poke_bytes m (m_pPos b) m_sWhat in Ret (m, b)
  | RpcRequest m_iHandlerId m_sspMsg =>
      let* m := WriteUInt16 m (m_pPos b) (u16 m_iHandlerId) in
      let b := MoveHeadBack b 2 in
      match m_sspMsg with
      | Some msg => let* m := Serialize m msg b in Ret (m, b)
      | None => Ret (m, b)
      end
  | RpcResponseBase m_code m_ht =>
      let* m := WriteUInt16 m (m_pPos b) (u16 (rpc_code m_code)) in
      let b := MoveHeadBack b 2 in
      let* m := WriteUInt16 m (m_pPos b) (u16 m_ht) in Ret (m, b)
  | RpcResponse m_ht m_pMsg =>
      let* m := WriteUInt16 m (m_pPos b) (u16 (rpc_code OK)) in
      let b := MoveHeadBack b 2 in
      let* m := WriteUInt16 m (m_pPos b) (u16 m_ht) in
      let b := MoveHeadBack b 2 in
      match m_pMsg with
      | Some msg => let* m := Serialize m msg b in Ret (m, b)
      | None => Ret (m, b)
      end
  | TestSndMessage m_str => test_encode m m_str b
  end.

Definition encode_header (m : mem) (b : Buffer) (h : Header) : outcome (mem * Buffer) :=
  let* m := WriteUInt32 m (m_pPos b) (magic h) in
  let b := MoveHeadBack b 4 in
  let* m := WriteUInt64 m (m_pPos b) (id h) in
  let b := MoveHeadBack b 8 in
  let* m := WriteUInt32 m (m_pPos b) (len h) in
  let b := MoveHeadBack b 4 in
  Ret (m, b).

(** [SndMessage::Encode]. *)
Definition Encode (w : world A) (fb : list Buffer) (sm : SndMessage P)
    : outcome (world A * list Buffer * SndMessage P * Buffer) :=
  let deriveBufferSize := getDerivePayloadLength (body sm) in
  if Z.leb deriveBufferSize 0 then Throw "message payload cannot less than 0 bytes"
  else if Z.ltb MAX_MSG_PAYLOAD_SIZE deriveBufferSize then Throw "message payload cannot more than 64MiB"
  else
    let totalBufferSize := u32 (HeaderSize + deriveBufferSize) in
    let h := mkHeader MESSAGE_MAGIC_NO (id (m_header sm)) deriveBufferSize in
    let sm := mkSnd h (m_hasPool sm) (m_peerInfo sm) (body sm) in
    if negb (m_hasPool sm) then Undef "indeterminate memory pool pointer"
    else
      let* (w, memPoolObject, p) := mp_get w totalBufferSize in
      let* (w, fb, buf) := GetNewAvailableBuffer w fb memPoolObject p totalBufferSize in
      let* (m, buf) := encode_header (w_mem w) buf h in
      let* (m, buf) := encodeDerive m (body sm) buf in
      Ret (set_mem w m, fb, sm, SetPos buf (m_pStart buf)).

(** [RcvMessage::DecodeMsgHeader]: the result and the header, whose fields
    are assigned as far as the decoder gets. *)
Definition DecodeMsgHeader (m : mem) (buffer : Buffer) (header : Header) : outcome (bool * Header) :=
  if Z.ltb (u32 (AvailableLength buffer)) HeaderSize then Ret (false, header)
  else
    let* mg := ReadUInt32 m (m_pPos buffer) in
    let header := mkHeader mg (id header) (len header) in
    if negb (Z.eqb mg MESSAGE_MAGIC_NO) then Ret (false, header)
    else
      let* i := ReadUInt64 m (m_pPos buffer + 4) in
      let header := mkHeader mg i (len header) in
      let* l := ReadUInt32 m (m_pPos buffer + 12) in
      let header := mkHeader mg i l in
      Ret (Z.leb l MAX_MSG_PAYLOAD_SIZE, header).

(** ** The bytes on the wire *)

Definition payload_bytes (b : SndBody P) : list Z :=
  match b with
  | ConnectRequestMessage port => be_split 2 (u16 port)
  | ConnectResponseMessage stat what => be_split 2 (status_code stat) ++ what
  | RpcRequest h m => be_split 2 (u16 h) ++ from_option pb_bytes [] m
  | RpcResponseBase c ht => be_split 2 (rpc_code c) ++ be_split 2 (u16 ht)
  | RpcResponse ht m => be_split 2 0 ++ be_split 2 (u16 ht) ++ from_option pb_bytes [] m
  | TestSndMessage str => str
  end.

Definition header_bytes (i l : Z) : list Z :=
  be_split 4 MESSAGE_MAGIC_NO ++ be_split 8 i ++ be_split 4 l.

Definition wire_bytes (i : Z) (payload : list Z) : list Z :=
  header_bytes i (Z.of_nat (length payload)) ++ payload.

(** Fields of a body that the C++ types bound. *)
Definition body_ok (b : SndBody P) : Prop :=
  is_bytes (payload_bytes b) /\ 0 < Z.of_nat (length (payload_bytes b)) <= MAX_MSG_PAYLOAD_SIZE.

Context {UL : ByteOrderLaws U} {PL : ProtoMsgLaws P}.

Lemma payload_length (b : SndBody P) : body_ok b ->
  getDerivePayloadLength b = Z.of_nat (length (payload_bytes b)).
Proof.
  intros [_ Hl]. unfold MAX_MSG_PAYLOAD_SIZE in Hl.
  destruct b as [port|stat what|h [m|]|c ht|ht [m|]|str]; simpl in *;
    rewrite ?length_app, ?be_split_length, ?ByteSize_length in *; try done;
    unfold test_payload_length; rewrite u32_id; simpl in *; unfold in_u; lia.
Qed.

Lemma header_bytes_length i l : length (header_bytes i l) = 16%nat.
Proof. reflexivity. Qed.

(** Moving the head keeps the span of the buffer. *)
Definition same_span (b b' : Buffer) : Prop :=
  m_pStart b' = m_pStart b /\ m_pEnd b' = m_pEnd b /\ m_pLast b' = m_pLast b /\ m_pMpObject b' = m_pMpObject b.

Lemma MoveHeadBack_span b n : same_span b (MoveHeadBack b n).
Proof. unfold same_span, MoveHeadBack. by destruct (_ || _). Qed.

Lemma same_span_trans b1 b2 b3 : same_span b1 b2 -> same_span b2 b3 -> same_span b1 b3.
Proof. unfold same_span. intuition congruence. Qed.

(** A write of [k] bytes at the head of a window, followed by the move. *)
Lemma write_move m b a n r bs :
  window b a n r n -> Z.of_nat (length bs) <= n - r -> bs <> [] -> range_ok m a n ->
  range_ok m (m_pPos b) (Z.of_nat (length bs)) /\
  range_ok (fill m (m_pPos b) bs) a n /\ same_span b (MoveHeadBack b (Z.of_nat (length bs))) /\
  (Z.of_nat (length bs) < n - r ->
     window (MoveHeadBack b (Z.of_nat (length bs))) a n (r + Z.of_nat (length bs)) n).
Proof.
  intros Hw Hl Hne Hr. pose proof (wi_pos _ _ _ _ _ Hw) as Hp. pose proof (wi_bounds _ _ _ _ _ Hw) as Hb.
  assert (0 < Z.of_nat (length bs)) by (destruct bs; [done|simpl; lia]).
  split; [rewrite Hp; eapply range_ok_sub; [exact Hr|lia|lia]|].
  split; [by apply fill_range_ok|]. split; [apply MoveHeadBack_span|].
  intros Hlt. apply window_move_head; [done|lia].
Qed.

Lemma u16_in z : in_u 16 (u16 z).
Proof. apply u16_range. Qed.

Lemma encode_header_ok m b a n i l : in_u 64 i -> in_u 32 l -> range_ok m a n -> 16 < n -> window b a n 0 n ->
  exists b', encode_header m b (mkHeader MESSAGE_MAGIC_NO i l) = Ret (fill m a (header_bytes i l), b') /\
    window b' a n 16 n /\ same_span b b'.
Proof using UL.
  intros Hi Hl Hr Hn Hw. unfold encode_header. cbn [magic id len].
  destruct (write_move m b a n 0 (be_split 4 MESSAGE_MAGIC_NO) Hw ltac:(simpl; lia) ltac:(done) Hr)
    as (Hr1 & Hr1' & Hs1 & Hw1).
  change (Z.of_nat (length (be_split 4 MESSAGE_MAGIC_NO))) with 4 in *. specialize (Hw1 ltac:(lia)).
  rewrite WriteUInt32_fill by (done || by vm_compute). cbn [obind].
  destruct (write_move _ _ a n _ (be_split 8 i) Hw1 ltac:(rewrite be_split_length; lia) ltac:(done) Hr1')
    as (Hr2 & Hr2' & Hs2 & Hw2).
  rewrite be_split_length in *. change (Z.of_nat 8) with 8 in *. specialize (Hw2 ltac:(lia)).
  rewrite WriteUInt64_fill by done. cbn [obind].
  destruct (write_move _ _ a n _ (be_split 4 l) Hw2 ltac:(rewrite be_split_length; lia) ltac:(done) Hr2')
    as (Hr3 & Hr3' & Hs3 & Hw3).
  rewrite be_split_length in *. change (Z.of_nat 4) with 4 in *. specialize (Hw3 ltac:(lia)).
  rewrite WriteUInt32_fill by done. cbn [obind].
  eexists. split; [|split; [exact Hw3|]].
  - unfold header_bytes. rewrite !fill_app, !be_split_length.
    rewrite (wi_pos _ _ _ _ _ Hw), (wi_pos _ _ _ _ _ Hw1), (wi_pos _ _ _ _ _ Hw2).
    replace (a + 0) with a by lia. replace (a + (0 + 4)) with (a + Z.of_nat 4) by lia.
    replace (a + (0 + 4 + 8)) with (a + Z.of_nat 4 + Z.of_nat 8) by lia. reflexivity.
  - eapply same_span_trans; [exact Hs1|]. eapply same_span_trans; [exact Hs2|exact Hs3].
Qed.

(** A body that starts with one 16-bit field and ends with raw bytes. *)
Lemma encode_tail m b a n r x rest : in_u 16 x -> is_bytes rest -> range_ok m a n -> window b a n r n ->
  Z.of_nat (length rest) + 2 = n - r ->
  WriteUInt16 m (m_pPos b) x = Ret (fill m (a + r) (be_split 2 x)) /\
  poke_bytes (fill m (a + r) (be_split 2 x)) (m_pPos (MoveHeadBack b 2)) rest =
    Ret (fill m (a + r) (be_split 2 x ++ rest)) /\ same_span b (MoveHeadBack b 2).
Proof using UL.
  intros Hx Hb Hr Hw Hlen.
  destruct (write_move m b a n r (be_split 2 x) Hw ltac:(rewrite be_split_length; lia) ltac:(done) Hr)
    as (Hr1 & Hr1' & Hs1 & Hw1). rewrite be_split_length in *. change (Z.of_nat 2) with 2 in *.
  rewrite (wi_pos _ _ _ _ _ Hw) in *. rewrite WriteUInt16_fill by done. split; [done|].
  split; [|done]. rewrite fill_app, be_split_length. change (Z.of_nat 2) with 2.
  destruct rest as [|y rest]; [done|]. simpl in Hlen. specialize (Hw1 ltac:(lia)).
  rewrite (wi_pos _ _ _ _ _ Hw1). replace (a + (r + 2)) with (a + r + 2) by lia.
  pose proof (wi_bounds _ _ _ _ _ Hw1). apply poke_bytes_fill; [done|].
  eapply range_ok_sub; [exact Hr1'|lia|simpl; lia].
Qed.

Lemma encodeDerive_ok m b a n r body : body_ok body -> range_ok m a n -> window b a n r n ->
  n - r = Z.of_nat (length (payload_bytes body)) ->
  exists b', encodeDerive m body b = Ret (fill m (a + r) (payload_bytes body), b') /\ same_span b b'.
Proof using UL PL.
  intros [Hb _] Hr Hw Hn.
  destruct body as [port|stat what|h [msg|]|c ht|ht [msg|]|str];
    unfold payload_bytes, from_option, encodeDerive, test_encode, Serialize in *; rewrite ?app_nil_r in *.
  - rewrite be_split_length in Hn.
    destruct (encode_tail m b a n r (u16 port) [] (u16_range _) (Forall_nil_2 _) Hr Hw) as (-> & _ & _); [simpl in *; lia|].
    by eexists.
  - rewrite length_app, be_split_length in Hn. apply Forall_app in Hb as [_ Hb].
    destruct (encode_tail m b a n r (status_code stat) what) as (E1 & E2 & Hs); try done; [by destruct stat|lia|].
    rewrite E1. cbn [obind]. rewrite E2. by eexists.
  - rewrite length_app, be_split_length in Hn.
    destruct (encode_tail m b a n r (u16 h) (pb_bytes msg)) as (E1 & E2 & Hs);
      [apply u16_range|apply pb_is_bytes|done|done|lia|]. rewrite E1. cbn [obind]. rewrite E2. by eexists.
  - rewrite be_split_length in Hn.
    destruct (encode_tail m b a n r (u16 h) [] (u16_range _) (Forall_nil_2 _) Hr Hw) as (-> & _ & Hs); [simpl in *; lia|].
    by eexists.
  - rewrite length_app, !be_split_length in Hn. apply Forall_app in Hb as [_ Hb].
    assert (u16 (rpc_code c) = rpc_code c) as Ec by (by destruct c). rewrite Ec.
    assert (in_u 16 (rpc_code c)) as Hc by (rewrite <- Ec; apply u16_range).
    destruct (write_move m b a n r (be_split 2 (rpc_code c)) Hw ltac:(rewrite be_split_length; lia) ltac:(done) Hr)
      as (Hr1 & Hr1' & Hs1 & Hw1). rewrite be_split_length in *. change (Z.of_nat 2) with 2 in *.
    specialize (Hw1 ltac:(lia)). rewrite WriteUInt16_fill by done.
    cbn [obind]. destruct (encode_tail _ _ a n (r + 2) (u16 ht) [] (u16_range _) (Forall_nil_2 _) Hr1' Hw1) as (E & _ & Hs);
      [simpl; lia|]. rewrite E. cbn [obind]. eexists. split; [|exact Hs1].
    rewrite fill_app, be_split_length, (wi_pos _ _ _ _ _ Hw). by replace (a + (r + 2)) with (a + r + Z.of_nat 2) by lia.
  - rewrite !length_app, !be_split_length in Hn. 
    destruct (write_move m b a n r (be_split 2 0) Hw ltac:(rewrite be_split_length; lia) ltac:(done) Hr)
      as (Hr1 & Hr1' & Hs1 & Hw1). rewrite be_split_length in *. change (Z.of_nat 2) with 2 in *.
    specialize (Hw1 ltac:(lia)). change (u16 (rpc_code OK)) with 0. rewrite WriteUInt16_fill by (done || by vm_compute).
    cbn [obind]. destruct (encode_tail _ _ a n (r + 2) (u16 ht) (pb_bytes msg) (u16_range _) (pb_is_bytes _) Hr1' Hw1)
      as (E & E' & Hs); [lia|]. rewrite E. cbn [obind]. rewrite E'. cbn [obind].
    eexists. split; [|by eapply same_span_trans].
    rewrite (fill_app _ _ (be_split 2 0)), be_split_length, (wi_pos _ _ _ _ _ Hw).
    by replace (a + (r + 2)) with (a + r + Z.of_nat 2) by lia.
  - rewrite !length_app, !be_split_length in Hn.
    destruct (write_move m b a n r (be_split 2 0) Hw ltac:(rewrite be_split_length; lia) ltac:(done) Hr)
      as (Hr1 & Hr1' & Hs1 & Hw1). rewrite be_split_length in *. change (Z.of_nat 2) with 2 in *.
    specialize (Hw1 ltac:(lia)). change (u16 (rpc_code OK)) with 0. rewrite WriteUInt16_fill by (done || by vm_compute).
    cbn [obind]. destruct (encode_tail _ _ a n (r + 2) (u16 ht) [] (u16_range _) (Forall_nil_2 _) Hr1' Hw1)
      as (E & E' & Hs); [simpl; lia|]. rewrite E. cbn [obind].
    eexists. split; [|by eapply same_span_trans].
    rewrite (fill_app _ _ (be_split 2 0)), be_split_length, (wi_pos _ _ _ _ _ Hw).
    by replace (a + (r + 2)) with (a + r + Z.of_nat 2) by lia.
  - rewrite (wi_pos _ _ _ _ _ Hw). pose proof (wi_bounds _ _ _ _ _ Hw).
    rewrite poke_bytes_fill; [|done|eapply range_ok_sub; [exact Hr|lia|lia]]. cbn [obind]. by exists b.
Qed.

(** ** Encoding returns, and what it leaves in memory *)

Context {AL : MemPoolLaws A}.

(** A recycled buffer was [Put], so it is null again. *)
Definition fb_ok (fb : list Buffer) : Prop := Forall (fun b => b = null_buffer) fb.

Lemma GetNewBuffer_refresh_ok (w : world A) fb pos last start end_ mpo : fb_ok fb ->
  GetNewBuffer_refresh w fb pos last start end_ mpo = Ret (w, tail fb, Buffer_new pos last start end_ mpo).
Proof. intros Hf. unfold GetNewBuffer_refresh. destruct Hf as [|b fb -> Hf]; done. Qed.

Lemma mp_get_ok (w : world A) n m : pool_ok (w_pool w) -> 0 < n <= max_request -> room (S m) (w_pool w) ->
  exists w' k a s, mp_get w n = Ret (w', k, a) /\ w_mem w' = touch (w_mem w) a n /\ w_arrays w' = w_arrays w /\
    pool_ok (w_pool w') /\ room m (w_pool w') /\ obj_live (w_pool w') k a s /\ n <= s /\ 0 < a /\ a + s <= 2 ^ 64 /\
    (forall a' s', ~ obj_live (w_pool w) k a' s') /\
    (forall k' a' s', k' <> k -> obj_live (w_pool w') k' a' s' <-> obj_live (w_pool w) k' a' s').
Proof.
  intros Hp Hn Hm. destruct (law_get (w_pool w) n Hp Hn) as (p' & r & E & Hp' & Hr). unfold mp_get. rewrite E. simpl.
  destruct Hm as [Hm _]. destruct (Hm n p' r Hn E) as [Hsome Hm']. destruct r as [k|]; [|done]. destruct Hr as ((a & s & Hl & Hs) & Hno & Hiff).
  destruct (law_pointer p' k a s Hp' Hl) as (Ep & Ha & Hb). rewrite Ep. simpl.
  exists (mkWorld (touch (w_mem w) a n) p' (w_arrays w)), k, a, s. done.
Qed.

(** What [Encode] leaves behind: the buffer [b] owns object [k] and spans
    exactly the encoded message. *)
Record encoded (m : nat) (w : world A) (i : Z) (payload : list Z) (w' : world A) (b : Buffer) (k : positive) (a s : Z)
    : Prop := mkEncoded {
  en_win : window b a (16 + Z.of_nat (length payload)) 0 (16 + Z.of_nat (length payload));
  en_obj : m_pMpObject b = Some k;
  en_mem : w_mem w' = fill (touch (w_mem w) a (16 + Z.of_nat (length payload))) a (wire_bytes i payload);
  en_arrays : w_arrays w' = w_arrays w;
  en_pool : pool_ok (w_pool w') /\ room m (w_pool w');
  en_live : obj_live (w_pool w') k a s /\ 16 + Z.of_nat (length payload) <= s;
  en_fresh : forall a' s', ~ obj_live (w_pool w) k a' s';
  en_other : forall k' a' s', k' <> k -> obj_live (w_pool w') k' a' s' <-> obj_live (w_pool w) k' a' s'
}.

Lemma Encode_ok (w : world A) fb sm m : pool_ok (w_pool w) -> room (S m) (w_pool w) -> fb_ok fb -> m_hasPool sm = true ->
  body_ok (body sm) -> in_u 64 (id (m_header sm)) ->
  16 + Z.of_nat (length (payload_bytes (body sm))) <= max_request ->
  let payload := payload_bytes (body sm) in
  exists w' b k a s,
    Encode w fb sm = Ret (w', tail fb,
      mkSnd (mkHeader MESSAGE_MAGIC_NO (id (m_header sm)) (Z.of_nat (length payload))) true (m_peerInfo sm) (body sm), b) /\
    encoded m w (id (m_header sm)) payload w' b k a s.
Proof using UL PL.
  intros Hp Hroom Hf Hh Hb Hi Hmax payload. unfold Encode. rewrite (payload_length _ Hb). fold payload.
  fold payload in Hmax.
  pose proof (proj2 Hb) as Hle. fold payload in Hle. unfold MAX_MSG_PAYLOAD_SIZE in *.
  rewrite (proj2 (Z.leb_gt _ _)), (proj2 (Z.ltb_ge _ _)) by lia. rewrite Hh. cbn [negb m_hasPool body m_peerInfo].
  unfold HeaderSize, MSG_HEADER_SIZE. rewrite u32_id by (unfold in_u; lia).
  set (n := 16 + Z.of_nat (length payload)) in *.
  destruct (mp_get_ok w n m Hp ltac:(lia) Hroom) as (w1 & k & a & s & Eg & Em & Ea & Hp1 & Hm1 & Hl & Hs & Ha0 & Hab & Hfr & Hot).
  rewrite Eg. cbn [obind]. unfold GetNewAvailableBuffer. rewrite GetNewBuffer_refresh_ok by done. cbn [obind].
  rewrite u64_id by (unfold in_u; lia).
  assert (window (Buffer_new a (a + n - 1) a (a + n - 1) (Some k)) a n 0 n) as Hw.
  { unfold Buffer_new, check_available. split; simpl; try lia. zeqb. simpl. lia. }
  assert (range_ok (w_mem w1) a n) as Hr by (rewrite Em; apply touch_range_ok).
  destruct (encode_header_ok (w_mem w1) _ a n (id (m_header sm)) (Z.of_nat (length payload)) Hi ltac:(unfold in_u; lia)
    Hr ltac:(lia) Hw) as (b1 & E1 & Hw1 & Hs1). rewrite E1. cbn [obind].
  destruct (encodeDerive_ok (fill (w_mem w1) a (header_bytes (id (m_header sm)) (Z.of_nat (length payload)))) b1 a n 16
    (body sm) Hb (fill_range_ok _ _ _ _ _ Hr) Hw1) as (b2 & E2 & Hs2); [unfold n, payload; lia|].
  rewrite E2. cbn [obind]. eexists _, _, k, a, s. split; [reflexivity|].
  destruct (same_span_trans _ _ _ Hs1 Hs2) as (S1 & S2 & S3 & S4). simpl in S1, S2, S3, S4.
  split; cbn [w_mem w_pool w_arrays set_mem]; try done.
  - unfold SetPos, check_available. rewrite S1, S2, S3, S4. split; simpl; try lia. zeqb. simpl. lia.
  - fold payload n. rewrite <- Em. unfold wire_bytes. rewrite fill_app. by rewrite header_bytes_length.
Qed.

Lemma DecodeMsgHeader_ok m b a n r i l h0 : window b a n r n -> 16 <= n - r ->
  in_u 64 i -> 0 <= l <= MAX_MSG_PAYLOAD_SIZE -> bytes_at m (a + r) (header_bytes i l) ->
  DecodeMsgHeader m b h0 = Ret (true, mkHeader MESSAGE_MAGIC_NO i l).
Proof using UL.
  intros Hw Hn Hi Hl Hb. unfold DecodeMsgHeader. rewrite (window_available _ _ _ _ _ Hw), (wi_pos _ _ _ _ _ Hw).
  pose proof (wi_bounds _ _ _ _ _ Hw). unfold MAX_MSG_PAYLOAD_SIZE in *.
  rewrite u32_id by (unfold in_u; lia). unfold HeaderSize, MSG_HEADER_SIZE.
  rewrite (proj2 (Z.ltb_ge _ _)) by lia. unfold header_bytes in Hb.
  apply bytes_at_app in Hb as [H1 [H2 H3]%bytes_at_app]. rewrite !be_split_length in *.
  rewrite (ReadUInt32_at _ _ MESSAGE_MAGIC_NO) by (done || by vm_compute). cbn [obind]. 
  replace (negb (MESSAGE_MAGIC_NO =? MESSAGE_MAGIC_NO)) with false by (by rewrite Z.eqb_refl).
  rewrite (ReadUInt64_at _ _ i) by done. cbn [obind].
  replace (a + r + 12) with (a + r + Z.of_nat 4 + Z.of_nat 8) by lia.
  rewrite (ReadUInt32_at _ _ l) by (done || unfold in_u; lia). cbn [obind].
  by rewrite (proj2 (Z.leb_le _ _)) by lia.
Qed.

End message.

(** The [k]-th id a process hands out is [1 + (k - 1) mod (2^64 - 2)]: ids
    are never the invalid id and do not repeat within [2^64 - 2] messages. *)
Theorem GetNewId_kth (k : nat) :
  Nat.iter (S k) GetNewId 0 = 1 + Z.of_nat k mod (2 ^ 64 - 2).
Proof.
  induction k as [|k IH]; [done|]. change (Nat.iter (S (S k)) GetNewId 0) with (GetNewId (Nat.iter (S k) GetNewId 0)).
  rewrite IH. unfold GetNewId. pose proof (Z.mod_pos_bound (Z.of_nat k) (2 ^ 64 - 2) ltac:(lia)) as Hb.
  rewrite u64_id by (unfold in_u; lia). rewrite Nat2Z.inj_succ.
  destruct (Z.eqb_spec (1 + Z.of_nat k mod (2 ^ 64 - 2) + 1) 18446744073709551615) as [E|E].
  - replace (Z.succ (Z.of_nat k) mod (2 ^ 64 - 2)) with 0; [done|]. symmetry.
    unfold Z.succ. rewrite Z.add_mod by lia. replace (Z.of_nat k mod (2 ^ 64 - 2)) with (2 ^ 64 - 3) by lia. done.
  - replace (Z.succ (Z.of_nat k) mod (2 ^ 64 - 2)) with (Z.of_nat k mod (2 ^ 64 - 2) + 1); [lia|].
    unfold Z.succ. rewrite (Z.add_mod (Z.of_nat k) 1) by lia. symmetry. apply Z.mod_small.
    change (1 mod (2 ^ 64 - 2)) with 1. lia.
Qed.

(** C16.  Decoding the buffer that [Encode] returns gives back the id and the
    payload length, and the payload follows the header in memory. *)
Theorem encode_decode_roundtrip `{A : MemPoolApi} `{AL : !MemPoolLaws A} `{U : ByteOrderUtils} `{UL : !ByteOrderLaws U}
    `{P : ProtoMsg} `{PL : !ProtoMsgLaws P} (w : world A) (fb : list Buffer) (sm : SndMessage P) (h0 : Header) :
  pool_ok (w_pool w) -> room 1 (w_pool w) -> fb_ok fb -> m_hasPool sm = true -> body_ok (body sm) ->
  in_u 64 (id (m_header sm)) ->
  16 + Z.of_nat (length (payload_bytes (body sm))) <= max_request ->
  exists w' fb' sm' b, Encode w fb sm = Ret (w', fb', sm', b) /\
    DecodeMsgHeader (w_mem w') b h0 =
      Ret (true, mkHeader MESSAGE_MAGIC_NO (id (m_header sm)) (Z.of_nat (length (payload_bytes (body sm))))) /\
    peek_bytes (w_mem w') (m_pPos b + 16) (length (payload_bytes (body sm))) = Ret (payload_bytes (body sm)).
Proof.
  intros Hp Hroom Hf Hh Hb Hi Hmax. destruct (Encode_ok w fb sm 0 Hp Hroom Hf Hh Hb Hi Hmax) as (w' & b & k & a & s & E & [Hw _ Hm _ _ _ _ _]).
  eexists _, _, _, _. split; [exact E|]. pose proof (proj2 Hb) as Hle.
  assert (bytes_at (w_mem w') a (wire_bytes (id (m_header sm)) (payload_bytes (body sm)))) as Hby
    by (rewrite Hm; apply fill_bytes_at).
  apply bytes_at_app in Hby as [Hh1 Hp1]. split.
  - eapply DecodeMsgHeader_ok; [exact Hw|lia|done|lia|]. by rewrite Z.add_0_r.
  - rewrite (wi_pos _ _ _ _ _ Hw), Z.add_0_r. by apply peek_bytes_at.
Qed.

(** A payload longer than 64 MiB is refused before any memory is taken. *)
Theorem encode_too_long `{A : MemPoolApi} `{U : ByteOrderUtils} `{P : ProtoMsg} (w : world A) (fb : list Buffer)
    (sm : SndMessage P) :
  MAX_MSG_PAYLOAD_SIZE < getDerivePayloadLength (body sm) ->
  Encode w fb sm = Throw "message payload cannot more than 64MiB".
Proof.
  intros H. unfold Encode. unfold MAX_MSG_PAYLOAD_SIZE in *.
  rewrite (proj2 (Z.leb_gt _ _)), (proj2 (Z.ltb_lt _ _)) by lia. done.
Qed.
