(* ===== verification/NetWorker.v ===== *)
(** * NetWorker: the TCP message worker of a connection

    Models posix/tcp/net-stack-worker.{h,cc}, its base class
    net-stack-msg-worker.{h,cc}, [Read] and [Write] of
    posix/tcp/stack/connection-socket.cc, and [RcvMessage]'s constructor and
    destructor.  The socket is a script: what each [read(2)] and [write(2)] of
    the connection meets.  Notifications and the bytes written are recorded in
    order. *)

From S2P Require Import Prelude Codec PoolApi Buffer Message.

Definition EINTR : Z := 4.
Definition EAGAIN : Z := 11.

(** ** The socket (connection-socket.cc:102-118) *)

(** What arrives on the connection: bytes, the end of the stream, an error. *)
Inductive rd_event := RdData (bs : list Z) | RdEof | RdErr (e : Z).

(** What a [write(2)] meets: room for [k] bytes, or an error. *)
Inductive wr_event := WrRoom (k : Z) | WrErr (e : Z).

#[export] Instance rd_event_eq_dec : EqDecision rd_event.
Proof. solve_decision. Defined.
#[export] Instance wr_event_eq_dec : EqDecision wr_event.
Proof. solve_decision. Defined.

Inductive rd_result := RBytes (bs : list Z) | RZero | RFail (e : Z).
Inductive wr_result := WBytes (n : Z) | WZero | WFail (e : Z).

(** [Read]: [read(2)] repeated while it is interrupted.  When nothing has
    arrived the descriptor would block. *)
Fixpoint Read (script : list rd_event) (nbytes : Z) : list rd_event * rd_result :=
  if Z.leb nbytes 0 then (script, RZero)
  else
    match script with
    | [] => ([], RFail EAGAIN)
    | RdErr e :: rest => if Z.eqb e EINTR then Read rest nbytes else (rest, RFail e)
    | RdEof :: _ => (script, RZero)
    | RdData [] :: rest => Read rest nbytes
    | RdData bs :: rest =>
        if Z.leb (Z.of_nat (length bs)) nbytes then (rest, RBytes bs)
        else (RdData (drop (Z.to_nat nbytes) bs) :: rest, RBytes (take (Z.to_nat nbytes) bs))
    end.

(** [Write]: how many of the [nbytes] bytes are taken. *)
Fixpoint Write (script : list wr_event) (nbytes : Z) : list wr_event * wr_result :=
  match script with
  | [] => ([], WFail EAGAIN)
  | WrErr e :: rest => if Z.eqb e EINTR then Write rest nbytes else (rest, WFail e)
  | WrRoom k :: rest => let n := Z.min k nbytes in (rest, if Z.leb n 0 then WZero else WBytes n)
  end.

(** ** State *)

Inductive NetWorkerState := StartToRcvHeader | RcvingHeader | StartToRcvPayload | RcvingPayload.
Inductive ConnectionState := Connecting | ConnectSe | ConnectingRe | WaitLastACK | Connected.
Inductive CreatorType := Client | Server.
Inductive WorkerNotifyMessageCode := WorkerOK | ClosedByPeer | WorkerError.

#[export] Instance ConnectionState_eq_dec : EqDecision ConnectionState.
Proof. solve_decision. Defined.

(** A notification handed to the user's callback.  For a message: its header,
    the peer and the bytes its data buffer shows. *)
Inductive NotifyMessage :=
| WorkerNotifyMessage (code : WorkerNotifyMessageCode) (peer : net_peer_info_t)
| MessageNotifyMessage (h : Header) (peer : net_peer_info_t) (data : list Z).

Record RcvMessage := mkRcv {
  rm_refMpo : positive;
  rm_peerInfo : net_peer_info_t;
  rm_header : Header;
  rm_pBuffer : Buffer
}.

(** The receiving half. *)
Record rcv_half := mkRH {
  m_rcvState : NetWorkerState;
  rcv_header : Header;
  m_pHeaderBuffer : Buffer;
  m_payloadBuffer : option Buffer
}.

Section worker.
Context `{A : MemPoolApi} `{U : ByteOrderUtils} `{P : ProtoMsg}.

(** [sizeof(RcvMessage)], and the callback [m_onLogicConnect]. *)
Context (sizeof_RcvMessage : Z) (m_onLogicConnect : net_peer_info_t -> bool).

(** The sending half; the queue has no limit (the default of its constructor). *)
Record snd_half := mkSH {
  m_pSendingBuffer : option Buffer;
  m_bqMessages : list (SndMessage P)
}.

(** The handshake. *)
Record hs_half := mkHS {
  m_ct : CreatorType;
  m_connState : ConnectionState;
  m_bConnHandShakeCompleted : bool;
  m_iLogicPort : Z;
  m_realPeer : net_peer_info_t;
  m_logicPeer : net_peer_info_t
}.

(** The process around the worker. *)
Record env := mkEnv {
  e_world : world A;
  e_free : list Buffer;
  e_lastId : Z;
  e_rd : list rd_event;
  e_wr : list wr_event;
  e_out : list Z;
  e_notified : list NotifyMessage
}.

Record conn := mkConn { c_rcv : rcv_half; c_snd : snd_half; c_hs : hs_half; c_env : env }.

Definition set_rcv (c : conn) (r : rcv_half) : conn := mkConn r (c_snd c) (c_hs c) (c_env c).
Definition set_snd (c : conn) (s : snd_half) : conn := mkConn (c_rcv c) s (c_hs c) (c_env c).
Definition set_hs (c : conn) (h : hs_half) : conn := mkConn (c_rcv c) (c_snd c) h (c_env c).
Definition set_env (c : conn) (e : env) : conn := mkConn (c_rcv c) (c_snd c) (c_hs c) e.

Definition set_world (c : conn) (w : world A) (fb : list Buffer) : conn :=
  let e := c_env c in
  set_env c (mkEnv w fb (e_lastId e) (e_rd e) (e_wr e) (e_out e) (e_notified e)).
Definition set_rd (c : conn) (rd : list rd_event) : conn :=
  let e := c_env c in
  set_env c (mkEnv (e_world e) (e_free e) (e_lastId e) rd (e_wr e) (e_out e) (e_notified e)).
Definition set_wr (c : conn) (wr : list wr_event) (out : list Z) : conn :=
  let e := c_env c in
  set_env c (mkEnv (e_world e) (e_free e) (e_lastId e) (e_rd e) wr out (e_notified e)).
Definition set_lastId (c : conn) (i : Z) : conn :=
  let e := c_env c in
  set_env c (mkEnv (e_world e) (e_free e) i (e_rd e) (e_wr e) (e_out e) (e_notified e)).
Definition set_connState (c : conn) (s : ConnectionState) : conn :=
  let h := c_hs c in
  set_hs c (mkHS (m_ct h) s (m_bConnHandShakeCompleted h) (m_iLogicPort h) (m_realPeer h) (m_logicPeer h)).

(** [COMPLETE_AND_FIRE]. *)
Definition complete_and_fire (c : conn) : conn :=
  let h := c_hs c in
  set_hs c (mkHS (m_ct h) (m_connState h) true (m_iLogicPort h) (m_realPeer h) (m_logicPeer h)).

(** ** Messages in and out of the worker (net-stack-msg-worker.cc) *)

Definition HandleMessage (c : conn) (m : NotifyMessage) : conn :=
  let e := c_env c in
  set_env c (mkEnv (e_world e) (e_free e) (e_lastId e) (e_rd e) (e_wr e) (e_out e) (e_notified e ++ [m])).

Definition NotifyWorkerBrokenMessage (c : conn) : conn :=
  HandleMessage c (WorkerNotifyMessage WorkerError (m_realPeer (c_hs c))).
Definition NotifyWorkerPeerClosedMessage (c : conn) : conn :=
  HandleMessage c (WorkerNotifyMessage ClosedByPeer (m_realPeer (c_hs c))).

(** [InsertMessage]: [TryPush] on a queue without limit. *)
Definition InsertMessage (c : conn) (m : SndMessage P) : conn * bool :=
  (set_snd c (mkSH (m_pSendingBuffer (c_snd c)) (m_bqMessages (c_snd c) ++ [m])), true).

Definition ClearMessage (c : conn) : conn := set_snd c (mkSH (m_pSendingBuffer (c_snd c)) []).

(** [new SomeMessage(m_pMemPool, ...)]: a fresh id, the pool set. *)
Definition new_message (c : conn) (b : SndBody P) : conn * SndMessage P :=
  let i := GetNewId (e_lastId (c_env c)) in
  (set_lastId c i, mkSnd (mkHeader 0 i 0) true None b).

Definition getNewRcvMessage (c : conn) (peer : net_peer_info_t) (h : Header) (buffer : Buffer)
    : outcome (conn * RcvMessage) :=
  let* (w, rmMpo, p) := mp_get (e_world (c_env c)) sizeof_RcvMessage in
  Ret (set_world c w (e_free (c_env c)), mkRcv rmMpo peer h buffer).

(** [releaseRcvMessage], the destructor of [RcvMessage]. *)
Definition releaseRcvMessage (c : conn) (rm : RcvMessage) : outcome conn :=
  let* w := mp_put (e_world (c_env c)) (rm_refMpo rm) in
  let* (w, fb) := PutBuffer w (e_free (c_env c)) (rm_pBuffer rm) in
  Ret (set_world c w fb).

(** The bytes a buffer shows, [[pos, last]]. *)
Definition buffer_data (m : mem) (b : Buffer) : outcome (list Z) :=
  peek_bytes m (m_pPos b) (Z.to_nat (AvailableLength b)).

(** ** Send (net-stack-worker.cc:204-247) *)

Definition Put_Send_Buffer (c : conn) (b : Buffer) : outcome conn :=
  let* (w, fb) := PutBuffer (e_world (c_env c)) (e_free (c_env c)) b in
  Ret (set_snd (set_world c w fb) (mkSH None (m_bqMessages (c_snd c)))).

(** One turn of the loop: the state, [rc] and [interrupt]. *)
Definition send_turn (c : conn) : outcome (conn * bool * bool) :=
  let size := match m_pSendingBuffer (c_snd c) with Some b => u64 (AvailableLength b) | None => 0 end in
  match m_pSendingBuffer (c_snd c) with
  | Some b =>
      if Z.ltb 0 size then
        let '(wr, r) := Write (e_wr (c_env c)) size in
        match r with
        | WZero =>
            let* c := Put_Send_Buffer (set_wr c wr (e_out (c_env c))) b in
            Ret (NotifyWorkerPeerClosedMessage c, false, false)
        | WBytes n =>
            let* bs := peek_bytes (w_mem (e_world (c_env c))) (m_pPos b) (Z.to_nat n) in
            let c := set_wr c wr (e_out (c_env c) ++ bs) in
            let b := MoveHeadBack b (u32 n) in
            if Z.leb (AvailableLength b) 0 then
              let* c := Put_Send_Buffer c b in Ret (c, true, false)
            else Ret (set_snd c (mkSH (Some b) (m_bqMessages (c_snd c))), true, false)
        | WFail e =>
            let c := set_wr c wr (e_out (c_env c)) in
            if negb (Z.eqb EAGAIN e) then
              let* c := Put_Send_Buffer c b in Ret (NotifyWorkerBrokenMessage c, false, true)
            else Ret (c, true, true)
        end
      else
        match m_bqMessages (c_snd c) with
        | sm :: rest =>
            let* (w, fb, _, b) := Encode (e_world (c_env c)) (e_free (c_env c)) sm in
            Ret (set_snd (set_world c w fb) (mkSH (Some b) rest), true, false)
        | [] => Ret (c, true, true)
        end
  | None =>
      match m_bqMessages (c_snd c) with
      | sm :: rest =>
          let* (w, fb, _, b) := Encode (e_world (c_env c)) (e_free (c_env c)) sm in
          Ret (set_snd (set_world c w fb) (mkSH (Some b) rest), true, false)
      | [] => Ret (c, true, true)
      end
  end.

(** [while (rc && !interrupt)]; [fuel] bounds the number of turns. *)
Fixpoint Send (fuel : nat) (c : conn) : outcome (conn * bool) :=
  match fuel with
  | O => Abort "turn bound of Send reached"
  | S fuel =>
      let* (c, rc, interrupt) := send_turn c in
      if rc && negb interrupt then Send fuel c else Ret (c, rc)
  end.

(** ** Handshake (net-stack-worker.cc:253-382)

    [recv] and [send] are [Recv(true)] and [Send()]. *)

Definition with_response (c : conn) (stat : ConnectStatus) (what : list Z) : conn * bool :=
  let '(c, crm) := new_message c (ConnectResponseMessage stat what) in InsertMessage c crm.

Definition handshake (recv send : conn -> outcome (conn * bool)) (c : conn) (rm : RcvMessage) : outcome conn :=
  match m_connState (c_hs c) with
  | ConnectSe =>
      let buffer := rm_pBuffer rm in
      let* res := ReadUInt16 (w_mem (e_world (c_env c))) (m_pPos buffer) in
      if negb (Z.eqb res (status_code StatusOK)) then
        let buffer := MoveHeadBack buffer 2 in
        let whatLen := AvailableLength buffer in
        let* (w, whatMpo, whatPtr) := mp_get (e_world (c_env c)) (u32 (whatLen + 1)) in
        let* bs := peek_bytes (w_mem w) (m_pPos buffer) (Z.to_nat whatLen) in
        let* m := poke_bytes (w_mem w) whatPtr bs in
        let* m := poke m (whatPtr + whatLen) 0 in
        let* w := mp_put (set_mem w m) whatMpo in
        let c := complete_and_fire (set_world c w (e_free (c_env c))) in
        releaseRcvMessage c (mkRcv (rm_refMpo rm) (rm_peerInfo rm) (rm_header rm) buffer)
      else
        let '(c, ok) := with_response c StatusOK [] in
        let* (c, ok) := (if negb ok then Ret (complete_and_fire c, false)
                         else let* (c, ok) := send c in
                              Ret (if negb ok then complete_and_fire c else c, ok)) in
        let* c := (if ok : bool then
                     let* (c, r) := recv (set_connState c WaitLastACK) in
                     Ret (if negb r then complete_and_fire c else c)
                   else Ret c) in
        releaseRcvMessage c rm
  | WaitLastACK =>
      let* res := ReadUInt16 (w_mem (e_world (c_env c))) (m_pPos (rm_pBuffer rm)) in
      let* c := releaseRcvMessage c rm in
      let c := if Z.eqb res (status_code StatusOK) && m_onLogicConnect (m_logicPeer (c_hs c))
               then set_connState c Connected else c in
      Ret (complete_and_fire c)
  | Connecting =>
      let buffer := rm_pBuffer rm in
      if negb (Z.eqb 2 (AvailableLength buffer)) then
        let '(c, _) := with_response c StatusERROR [] in
        let* (c, _) := send c in
        let* c := releaseRcvMessage c rm in
        Ret (complete_and_fire c)
      else
        let* port := ReadUInt16 (w_mem (e_world (c_env c))) (m_pPos buffer) in
        let h := c_hs c in
        let npt := mkPeer (mkAddr (addr (nat_ (m_realPeer h))) port) Tcp in
        let c := set_hs c (mkHS (m_ct h) (m_connState h) (m_bConnHandShakeCompleted h) (m_iLogicPort h) (m_realPeer h) npt) in
        let '(c, ok) := with_response c StatusOK [] in
        let* (c, ok) := (if negb ok then Ret (complete_and_fire c, false)
                         else let* (c, ok) := send c in
                              Ret (if negb ok then complete_and_fire c else c, ok)) in
        let* c := (if ok : bool then
                     let* (c, r) := recv (set_connState c ConnectingRe) in
                     Ret (if negb r then complete_and_fire c else c)
                   else Ret c) in
        releaseRcvMessage c rm
  | ConnectingRe =>
      let* c := releaseRcvMessage c rm in
      let ok := m_onLogicConnect (m_logicPeer (c_hs c)) in
      let '(c, ins) := with_response c (if ok then StatusOK else StatusERROR) [] in
      let* (c, ok) := (if negb ins then Ret (c, false)
                       else let* (c, r) := send c in Ret (c, ok && r)) in
      let c := if ok : bool then set_connState c Connected else c in
      Ret (complete_and_fire c)
  | Connected =>
      let '(c, ins) := with_response c StatusERROR (string_bytes "handshake recv unexpected state.") in
      let* (c, _) := (if ins : bool then send c else Ret (c, true)) in
      releaseRcvMessage (complete_and_fire c) rm
  end.

(** ** Recv (net-stack-worker.cc:14-97, 155-202) *)

Definition set_rcvState (r : rcv_half) (s : NetWorkerState) : rcv_half :=
  mkRH s (rcv_header r) (m_pHeaderBuffer r) (m_payloadBuffer r).

(** [CheckAndInitBufferPos] and [MoveTailBack]. *)
Definition grow (b : Buffer) (n : Z) : Buffer :=
  MoveTailBack (if Z.eqb (m_pPos b) 0 then SetPos b (m_pStart b) else b) (u32 n).

(** [ParseHeader]: the state, [rc], [interrupt]. *)
Definition ParseHeader (c : conn) : outcome (conn * bool * bool) :=
  let r := c_rcv c in
  if Z.eqb (AvailableLength (m_pHeaderBuffer r)) (TotalLength (m_pHeaderBuffer r)) then
    let* (headerRc, h) := DecodeMsgHeader (w_mem (e_world (c_env c))) (m_pHeaderBuffer r) (rcv_header r) in
    let r := mkRH (m_rcvState r) h (m_pHeaderBuffer r) (m_payloadBuffer r) in
    if negb headerRc then Ret (NotifyWorkerBrokenMessage (set_rcv c r), false, false)
    else Ret (set_rcv c (set_rcvState r StartToRcvPayload), true, false)
  else Ret (set_rcv c (set_rcvState r RcvingHeader), true, true).

(** [read] into the header buffer at [pos], then [ProcessAfterRcvHeader]. *)
Definition rcv_header_step (c : conn) (pos nbytes : Z) : outcome (conn * bool * bool) :=
  let '(rd, res) := Read (e_rd (c_env c)) nbytes in
  let c := set_rd c rd in
  match res with
  | RZero => Ret (NotifyWorkerPeerClosedMessage c, false, false)
  | RBytes bs =>
      let* m := poke_bytes (w_mem (e_world (c_env c))) pos bs in
      let c := set_world c (set_mem (e_world (c_env c)) m) (e_free (c_env c)) in
      let r := c_rcv c in
      ParseHeader (set_rcv c (mkRH (m_rcvState r) (rcv_header r)
        (grow (m_pHeaderBuffer r) (Z.of_nat (length bs))) (m_payloadBuffer r)))
  | RFail e =>
      if negb (Z.eqb EAGAIN e) then Ret (NotifyWorkerBrokenMessage c, false, true)
      else Ret (c, true, true)
  end.

Section recv.
(** [Recv(true)] and [Send()] as the handshake calls them. *)
Context (recv send : conn -> outcome (conn * bool)).

(** [CheckPayload]. *)
Definition CheckPayload (c : conn) (breakWhenRecvOne : bool) : outcome (conn * bool * bool) :=
  let r := c_rcv c in
  match m_payloadBuffer r with
  | None => Undef "null payload buffer dereferenced"
  | Some b =>
      if Z.eqb (u32 (AvailableLength b)) (len (rcv_header r)) then
        let c := set_rcv c (set_rcvState r StartToRcvHeader) in
        let* (c, rm) := getNewRcvMessage c (m_logicPeer (c_hs c)) (rcv_header r) b in
        let* c := (if decide (m_connState (c_hs c) = Connected) then
                     let* bs := buffer_data (w_mem (e_world (c_env c))) b in
                     Ret (HandleMessage c (MessageNotifyMessage (rm_header rm) (rm_peerInfo rm) bs))
                   else handshake recv send c rm) in
        let r := c_rcv c in
        Ret (set_rcv c (mkRH (m_rcvState r) (rcv_header r) (m_pHeaderBuffer r) None), true, breakWhenRecvOne)
      else Ret (set_rcv c (set_rcvState r RcvingPayload), true, true)
  end.

(** [read] into the payload buffer at [pos], then [ProcessAfterRcvPayload]. *)
Definition rcv_payload_step (c : conn) (b : Buffer) (pos nbytes : Z) (breakWhenRecvOne : bool)
    : outcome (conn * bool * bool) :=
  let '(rd, res) := Read (e_rd (c_env c)) nbytes in
  let c := set_rd c rd in
  match res with
  | RZero => Ret (NotifyWorkerPeerClosedMessage c, false, false)
  | RBytes bs =>
      let* m := poke_bytes (w_mem (e_world (c_env c))) pos bs in
      let c := set_world c (set_mem (e_world (c_env c)) m) (e_free (c_env c)) in
      let r := c_rcv c in
      CheckPayload (set_rcv c (mkRH (m_rcvState r) (rcv_header r) (m_pHeaderBuffer r)
        (Some (grow b (Z.of_nat (length bs)))))) breakWhenRecvOne
  | RFail e =>
      if negb (Z.eqb EAGAIN e) then Ret (NotifyWorkerBrokenMessage c, false, true)
      else Ret (c, true, true)
  end.

(** One turn of the loop of [Recv]. *)
Definition recv_turn (c : conn) (breakWhenRecvOne : bool) : outcome (conn * bool * bool) :=
  let r := c_rcv c in
  match m_rcvState r with
  | StartToRcvHeader =>
      let* (m, hb) := BZero (w_mem (e_world (c_env c))) (m_pHeaderBuffer r) in
      let c := set_world c (set_mem (e_world (c_env c)) m) (e_free (c_env c)) in
      let c := set_rcv c (mkRH (m_rcvState r) (rcv_header r) hb (m_payloadBuffer r)) in
      rcv_header_step c (m_pStart hb) (u64 (TotalLength hb))
  | RcvingHeader =>
      let hb := m_pHeaderBuffer r in
      let pos := if Z.eqb (m_pLast hb) 0 then m_pStart hb else m_pLast hb + 1 in
      rcv_header_step c pos (UnusedSize hb)
  | StartToRcvPayload =>
      let* (w, mpo, p) := mp_get (e_world (c_env c)) (len (rcv_header r)) in
      let* (w, fb, b) := GetNewBuffer_mpo w (e_free (c_env c)) mpo p (len (rcv_header r)) in
      let c := set_world c w fb in
      let c := set_rcv c (mkRH (m_rcvState r) (rcv_header r) (m_pHeaderBuffer r) (Some b)) in
      rcv_payload_step c b (m_pStart b) (u64 (TotalLength b)) breakWhenRecvOne
  | RcvingPayload =>
      match m_payloadBuffer r with
      | None => Undef "null payload buffer dereferenced"
      | Some b =>
          let pos := if Z.eqb (m_pLast b) 0 then m_pStart b else m_pLast b + 1 in
          rcv_payload_step c b pos (UnusedSize b) breakWhenRecvOne
      end
  end.

End recv.

Fixpoint Recv (fuel : nat) (c : conn) (breakWhenRecvOne : bool) : outcome (conn * bool) :=
  match fuel with
  | O => Abort "turn bound of Recv reached"
  | S fuel =>
      let* (c, rc, interrupt) := recv_turn (fun c => Recv fuel c true) (Send fuel) c breakWhenRecvOne in
      if rc && negb interrupt then Recv fuel c breakWhenRecvOne else Ret (c, rc)
  end.

(** ** Initialize (net-stack-worker.cc:128-153) *)

(** [Initialize] returns a boolean, or waits on [m_initWaitCv]. *)
Inductive init_result := InitDone (ok : bool) | InitWaits.

Definition Initialize (fuel : nat) (c : conn) : outcome (conn * init_result) :=
  let c := set_connState c Connecting in
  let* (c, go) := match m_ct (c_hs c) with
                  | Client =>
                      let '(c, crm) := new_message c (ConnectRequestMessage (i16 (m_iLogicPort (c_hs c)))) in
                      let '(c, ok) := InsertMessage c crm in
                      if negb ok then Ret (c, false)
                      else let* (c, ok) := Send fuel c in
                           Ret (if ok then set_connState c ConnectSe else c, ok)
                  | Server => Ret (c, true)
                  end in
  if negb go then Ret (c, InitDone false)
  else
    let* (c, ok) := Recv fuel c true in
    if negb ok then Ret (c, InitDone false)
    else if m_bConnHandShakeCompleted (c_hs c)
      then Ret (c, InitDone (bool_decide (m_connState (c_hs c) = Connected)))
      else Ret (c, InitWaits).

(** The constructors (net-stack-msg-worker.cc:21-30, net-stack-worker.cc:101-113). *)
Definition Worker_new (ct : CreatorType) (logicPort : Z) (real logic : net_peer_info_t) (e : env) : outcome conn :=
  let* (w, headerMemObj, p) := mp_get (e_world e) HeaderSize in
  let hb := CommonUtils_GetNewBuffer headerMemObj p HeaderSize in
  Ret (mkConn (mkRH StartToRcvHeader (mkHeader 0 0 0) hb None) (mkSH None [])
    (mkHS ct Connecting false logicPort real logic)
    (mkEnv w (e_free e) (e_lastId e) (e_rd e) (e_wr e) (e_out e) (e_notified e))).

(** The destructors: the two buffers go back to the free list, the queue is
    emptied and the header buffer released. *)
Definition Worker_delete (c : conn) : outcome conn :=
  let put_opt (c : conn) (ob : option Buffer) : outcome conn :=
    match ob with
    | Some b => let* (w, fb) := PutBuffer (e_world (c_env c)) (e_free (c_env c)) b in Ret (set_world c w fb)
    | None => Ret c
    end in
  let* c := put_opt (complete_and_fire c) (m_payloadBuffer (c_rcv c)) in
  let* c := put_opt c (m_pSendingBuffer (c_snd c)) in
  let c := set_snd c (mkSH (m_pSendingBuffer (c_snd c)) []) in
  let* (w, _) := Buffer_Put (e_world (c_env c)) (m_pHeaderBuffer (c_rcv c)) in
  Ret (set_world c w (e_free (c_env c))).

(** [SendMessage]: whether the message was queued, and whether the event worker
    was given a write event and woken. *)
Definition SendMessage (c : conn) (m : SndMessage P) : conn * bool * bool :=
  let previousSize := Z.of_nat (length (m_bqMessages (c_snd c))) in
  let '(c, rc) := InsertMessage c m in
  (c, rc, rc && Z.eqb 0 previousSize).

End worker.
