(* ===== verification/RecvProofs.v ===== *)
(** * RecvProofs: reassembly of the byte stream

    However the network cuts the byte stream into reads, interleaved with
    interrupted and would-block reads, [Recv] hands the user exactly the
    messages that were encoded, in order. *)

From S2P Require Import Prelude Codec PoolApi Buffer Message NetWorker.

(** ** Scripts without errors *)

Fixpoint rd_bytes (s : list rd_event) : list Z :=
  match s with
  | [] => []
  | RdData bs :: s => bs ++ rd_bytes s
  | _ :: s => rd_bytes s
  end.

(** Data, interrupted reads and reads that would block. *)
Definition clean_event (e : rd_event) : Prop :=
  match e with
  | RdData bs => is_bytes bs
  | RdEof => False
  | RdErr e => e = EINTR \/ e = EAGAIN
  end.

Definition clean (s : list rd_event) : Prop := Forall clean_event s.

(** What a script can still give: bounds the turns of the loops. *)
Fixpoint rd_size (s : list rd_event) : nat :=
  match s with
  | [] => 0
  | RdData bs :: s => S (length bs) + rd_size s
  | _ :: s => S (rd_size s)
  end.

Lemma Read_clean s n : clean s -> 0 < n ->
  exists s' r, Read s n = (s', r) /\ clean s' /\ ((rd_size s' < rd_size s)%nat \/ s = [] /\ s' = []) /\
    ((r = RFail EAGAIN /\ rd_bytes s' = rd_bytes s) \/
     (exists bs, r = RBytes bs /\ bs <> [] /\ Z.of_nat (length bs) <= n /\ is_bytes bs /\ rd_bytes s = bs ++ rd_bytes s')).
Proof.
  intros Hc Hn. induction Hc as [|e s He Hc IH].
  { simpl. rewrite (proj2 (Z.leb_gt _ _)) by lia. eexists _, _. split; [done|].
    split; [constructor|]. split; [by right|]. by left. }
  assert (forall s1 r1, Read s n = (s1, r1) -> (rd_size s1 <= rd_size s)%nat) as Hmono.
  { destruct IH as (s' & r & E & _ & Hsz & _). intros s1 r1 E1. rewrite E in E1. injection E1 as <- <-.
    destruct Hsz as [?|[-> ->]]; simpl; lia. }
  cbn [Read]. rewrite (proj2 (Z.leb_gt _ _)) by lia. destruct e as [bs| |e]; [|done|].
  - destruct bs as [|b bs].
    { destruct IH as (s' & r & E & Hc' & Hsz & Hr). exists s', r. split; [done|]. split; [done|].
      specialize (Hmono _ _ E). split; [left; simpl; lia|done]. }
    destruct (Z.leb_spec (Z.of_nat (length (b :: bs))) n) as [Hle|Hlt].
    + eexists _, _. split; [done|]. split; [done|]. split; [left; simpl; lia|]. right. eexists. split; [done|].
      split; [done|]. split; [done|]. split; [done|]. done.
    + eexists _, _. split; [done|]. split.
      { constructor; [|done]. by apply Forall_drop. }
      split; [left; cbn [rd_size]; rewrite length_drop; lia|]. right. eexists. split; [done|].
      split; [intros E0; apply (f_equal length) in E0; rewrite length_take in E0; simpl in E0; lia|].
      split; [rewrite length_take; lia|]. split; [by apply Forall_take|].
      cbn [rd_bytes]. by rewrite app_assoc, take_drop.
  - destruct He as [-> | ->]; simpl.
    + destruct IH as (s' & r & E & Hc' & Hsz & Hr). exists s', r. split; [done|]. split; [done|].
      specialize (Hmono _ _ E). split; [left; lia|done].
    + eexists _, _. split; [done|]. split; [done|]. split; [left; lia|]. by left.
Qed.

(** The prefix of the stream a read returns. *)
Lemma app_prefix {X} (bs x d y : list X) : bs ++ x = d ++ y -> (length bs <= length d)%nat ->
  bs = take (length bs) d /\ x = drop (length bs) d ++ y.
Proof.
  intros E Hle. split.
  - apply (f_equal (take (length bs))) in E. rewrite take_app_length in E. by rewrite take_app_le in E.
  - apply (f_equal (drop (length bs))) in E. rewrite drop_app_length in E. by rewrite drop_app_le in E.
Qed.

(** ** Buffers while they fill *)

(** The first [l] of the [n] bytes are valid. *)
Definition filled (b : Buffer) (a n l : Z) : Prop :=
  (l = 0 /\ empty_window b a n) \/ (0 < l /\ window b a n 0 l).

Lemma grow_filled b a n l k : filled b a n l -> 0 < k -> l + k <= n -> window (grow b k) a n 0 (l + k).
Proof.
  intros [[-> Hw]|[Hl Hw]] Hk Hle; unfold grow.
  - pose proof (ew_bounds _ _ _ Hw). rewrite u32_id by (unfold in_u; lia). rewrite (ew_pos _ _ _ Hw). simpl.
    apply empty_window_move_tail; [done|lia].
  - pose proof (wi_bounds _ _ _ _ _ Hw). rewrite u32_id by (unfold in_u; lia).
    rewrite (wi_pos _ _ _ _ _ Hw). zeqb. apply window_move_tail; [done|lia|lia].
Qed.

Lemma BZero_ok m b a n : m_pStart b = a -> m_pEnd b = a + n - 1 -> 0 < a -> a + n <= 2 ^ 64 -> 0 < n <= 2 ^ 31 ->
  range_ok m a n -> exists m' b', BZero m b = Ret (m', b') /\ empty_window b' a n /\
    (forall x k, range_ok m x k -> range_ok m' x k).
Proof.
  intros Hs He H1 H2 H3 Hr. unfold BZero, bzero. rewrite Hs, He.
  replace (a + n - 1 - a + 1) with n by lia. rewrite u64_id by (unfold in_u; lia).
  rewrite poke_bytes_fill.
  - cbn [obind]. eexists _, _. split; [done|]. split; [split; simpl; lia || done|].
    intros x k. apply fill_range_ok.
  - apply Forall_replicate. unfold in_u. lia.
  - rewrite length_replicate. by rewrite Z2Nat.id by lia.
Qed.

(** ** Wire bytes *)

Lemma wire_length i pl : length (wire_bytes i pl) = (16 + length pl)%nat.
Proof. unfold wire_bytes. by rewrite length_app, header_bytes_length. Qed.

Lemma wire_take_header i pl : take 16 (wire_bytes i pl) = header_bytes i (Z.of_nat (length pl)).
Proof. unfold wire_bytes. by rewrite take_app_le by (by rewrite header_bytes_length). Qed.

Lemma wire_drop_header i pl k : drop (16 + k) (wire_bytes i pl) = drop k pl.
Proof. unfold wire_bytes. rewrite drop_app_ge by (rewrite header_bytes_length; lia). f_equal. rewrite header_bytes_length. lia. Qed.

Lemma bytes_at_extend m a bs1 bs2 : bytes_at m a bs1 ->
  bytes_at (fill m (a + Z.of_nat (length bs1)) bs2) a (bs1 ++ bs2).
Proof.
  intros H. apply bytes_at_app. split; [apply bytes_at_frame; [done|lia]|apply fill_bytes_at].
Qed.

Lemma take_extend {X} (w : list X) k bs rest : drop k w = bs ++ rest -> (k <= length w)%nat ->
  take k w ++ bs = take (k + length bs) w.
Proof.
  intros E Hk. rewrite <- (take_drop k w) at 2. rewrite E.
  rewrite take_app_ge by (rewrite length_take; lia).
  rewrite length_take, Nat.min_l by done. replace (k + length bs - k)%nat with (length bs) by lia.
  by rewrite take_app_length.
Qed.

(** A read that stays inside [w], [l] bytes of which are already there. *)
Lemma read_take {X} (w : list X) l bs tl rest : bs ++ tl = drop l w ++ rest ->
  (length bs <= length w - l)%nat -> (l <= length w)%nat ->
  take l w ++ bs = take (l + length bs) w /\ tl = drop (l + length bs) w ++ rest.
Proof.
  intros E Hle Hl. destruct (app_prefix bs tl (drop l w) rest E) as [Hpre Hrest]; [rewrite length_drop; lia|].
  split; [|by rewrite Hrest, drop_drop].
  apply (take_extend _ _ _ (drop (length bs) (drop l w))); [|done].
  transitivity (take (length bs) (drop l w) ++ drop (length bs) (drop l w)); [symmetry; apply take_drop|].
  by rewrite <- Hpre.
Qed.

(** ** The state of a receiving connection *)

Section recv.
Context `{A : MemPoolApi} `{AL : !MemPoolLaws A} `{U : ByteOrderUtils} `{UL : !ByteOrderLaws U} `{P : ProtoMsg}.
Context (sizeof_RcvMessage : Z) (m_onLogicConnect : net_peer_info_t -> bool).
Context (sizeof_ok : 0 < sizeof_RcvMessage <= max_request).

#[local] Abbreviation cmem c := (w_mem (e_world (c_env c))).
#[local] Abbreviation hbuf c := (m_pHeaderBuffer (c_rcv c)).

(** The script got shorter, unless it was empty. *)
Definition rd_less (c' c : conn (A := A) (P := P)) : Prop :=
  (rd_size (e_rd (c_env c')) < rd_size (e_rd (c_env c)))%nat \/ (e_rd (c_env c) = [] /\ e_rd (c_env c') = []).

(** What holds between any two turns; [ha] is the address of the header buffer,
    and the pool has room for [m] more operations. *)
Record base (c : conn (A := A) (P := P)) (ha : Z) (m : nat) : Prop := mkBase {
  b_pool : pool_ok (w_pool (e_world (c_env c)));
  b_room : room m (w_pool (e_world (c_env c)));
  b_fb : fb_ok (e_free (c_env c));
  b_start : m_pStart (hbuf c) = ha;
  b_end : m_pEnd (hbuf c) = ha + 16 - 1;
  b_addr : 0 < ha /\ ha + 16 <= 2 ^ 64;
  b_range : range_ok (cmem c) ha 16;
  b_conn : m_connState (c_hs c) = Connected;
  b_clean : clean (e_rd (c_env c))
}.

Lemma base_weaken c ha m m' : base c ha m -> (m' <= m)%nat -> base c ha m'.
Proof. intros [] Hle. split; try done. by eapply room_weaken. Qed.

(** [k] bytes of the message with id [i] and payload [pl] have been received. *)
Definition phase (c : conn (A := A) (P := P)) (ha i : Z) (pl : list Z) (k : nat) : Prop :=
  match m_rcvState (c_rcv c) with
  | StartToRcvHeader => k = 0%nat
  | RcvingHeader => (0 < k < 16)%nat /\ window (hbuf c) ha 16 0 (Z.of_nat k) /\
      bytes_at (cmem c) ha (take k (wire_bytes i pl))
  | StartToRcvPayload => k = 16%nat /\ rcv_header (c_rcv c) = mkHeader MESSAGE_MAGIC_NO i (Z.of_nat (length pl))
  | RcvingPayload => exists b pa l, k = (16 + l)%nat /\ (0 < l < length pl)%nat /\
      rcv_header (c_rcv c) = mkHeader MESSAGE_MAGIC_NO i (Z.of_nat (length pl)) /\
      m_payloadBuffer (c_rcv c) = Some b /\ window b pa (Z.of_nat (length pl)) 0 (Z.of_nat l) /\
      bytes_at (cmem c) pa (take l pl) /\ range_ok (cmem c) pa (Z.of_nat (length pl))
  end.

(** A message the encoder can have produced and the pool can hold. *)
Record msg_ok (i : Z) (pl : list Z) : Prop := mkMsgOk {
  mo_id : in_u 64 i;
  mo_len : (0 < length pl)%nat /\ Z.of_nat (length pl) <= MAX_MSG_PAYLOAD_SIZE;
  mo_max : Z.of_nat (length pl) <= max_request
}.

(** The outcomes of one turn while message [(i, pl)] is being received and
    [rest] follows it. *)
Inductive turn_post (c : conn (A := A) (P := P)) (ha i : Z) (pl : list Z) (k : nat) (rest : list Z) (brk : bool)
    (c' : conn (A := A) (P := P)) : bool -> Prop :=
| turn_blocked : phase c' ha i pl k -> rd_bytes (e_rd (c_env c')) = rd_bytes (e_rd (c_env c)) ->
    e_notified (c_env c') = e_notified (c_env c) ->
    rd_less c' c ->
    turn_post c ha i pl k rest brk c' true
| turn_progress k' intr : (k < k' < 16 + length pl)%nat -> phase c' ha i pl k' ->
    rd_bytes (e_rd (c_env c')) = drop k' (wire_bytes i pl) ++ rest ->
    e_notified (c_env c') = e_notified (c_env c) ->
    (rd_size (e_rd (c_env c')) < rd_size (e_rd (c_env c)))%nat -> turn_post c ha i pl k rest brk c' intr
| turn_message : m_rcvState (c_rcv c') = StartToRcvHeader -> rd_bytes (e_rd (c_env c')) = rest ->
    e_notified (c_env c') = e_notified (c_env c) ++
      [MessageNotifyMessage (mkHeader MESSAGE_MAGIC_NO i (Z.of_nat (length pl))) (m_logicPeer (c_hs c)) pl] ->
    (rd_size (e_rd (c_env c')) < rd_size (e_rd (c_env c)))%nat -> turn_post c ha i pl k rest brk c' brk.

(** The outcome depends on the start only through what it has read and notified. *)
Lemma turn_post_from c c1 ha i pl k rest brk c' intr :
  e_rd (c_env c1) = e_rd (c_env c) -> e_notified (c_env c1) = e_notified (c_env c) -> c_hs c1 = c_hs c ->
  turn_post c1 ha i pl k rest brk c' intr -> turn_post c ha i pl k rest brk c' intr.
Proof.
  intros E1 E2 E3 H. destruct H as [H1 H2 H3 H4|k' intr H1 H2 H3 H4 H5|H1 H2 H3 H4]; rewrite ?E1, ?E2, ?E3 in *.
  - apply turn_blocked; [done|congruence|congruence|]. unfold rd_less in *. by rewrite E1 in H4.
  - by apply (turn_progress _ _ _ _ _ _ _ _ k').
  - by apply turn_message.
Qed.

(** Reading into the header buffer, [l] bytes of which are there. *)
Lemma header_step c ha m i pl l rest brk : base c ha m -> msg_ok i pl -> (l < 16)%nat ->
  filled (hbuf c) ha 16 (Z.of_nat l) -> bytes_at (cmem c) ha (take l (wire_bytes i pl)) ->
  (l = 0%nat -> m_rcvState (c_rcv c) = StartToRcvHeader) -> ((0 < l)%nat -> m_rcvState (c_rcv c) = RcvingHeader) ->
  rd_bytes (e_rd (c_env c)) = drop l (wire_bytes i pl) ++ rest ->
  exists c' intr, rcv_header_step c (ha + Z.of_nat l) (16 - Z.of_nat l) = Ret (c', true, intr) /\
    base c' ha m /\ c_hs c' = c_hs c /\ turn_post c ha i pl l rest brk c' intr.
Proof using UL.
  intros Hb Hm Hl Hf Hby Hs0 Hs1 Hrd. unfold rcv_header_step.
  destruct (Read_clean (e_rd (c_env c)) (16 - Z.of_nat l) (b_clean _ _ _ Hb) ltac:(lia))
    as (s' & r & -> & Hc' & Hsz & Hcase).
  destruct Hcase as [[-> Hsame]|(bs & -> & Hne & Hle & Hbb & Hsp)].
  { eexists _, _. split; [reflexivity|]. split; [by destruct Hb; split|]. split; [done|].
    apply turn_blocked; [|done|done|exact Hsz]. unfold phase. cbn [set_rd set_env c_rcv]. destruct l.
    - by rewrite Hs0.
    - rewrite Hs1 by lia. destruct Hf as [[? _]|[_ Hw]]; [lia|]. split; [lia|]. done. }
  assert (rd_size s' < rd_size (e_rd (c_env c)))%nat as Hdec.
  { destruct Hsz as [?|[E _]]; [done|]. rewrite E in Hsp. by destruct bs. }
  destruct (read_take (wire_bytes i pl) l bs (rd_bytes s') rest) as [Htk Hrd'];
    [congruence|rewrite wire_length; lia|rewrite wire_length; lia|].
  pose proof (b_addr _ _ _ Hb) as Haddr. pose proof (mo_len _ _ Hm) as Hlen. unfold MAX_MSG_PAYLOAD_SIZE in Hlen.
  assert (range_ok (cmem c) (ha + Z.of_nat l) (Z.of_nat (length bs))) as Hr
    by (eapply range_ok_sub; [exact (b_range _ _ _ Hb)|lia|lia]).
  assert (0 < length bs)%nat by (destruct bs; [done|simpl; lia]).
  rewrite poke_bytes_fill by done. cbn [obind].
  assert (bytes_at (fill (cmem c) (ha + Z.of_nat l) bs) ha (take (l + length bs) (wire_bytes i pl))) as Hby'.
  { rewrite <- Htk. pose proof (bytes_at_extend _ _ _ bs Hby) as Hx. rewrite length_take, wire_length in Hx.
    by rewrite Nat.min_l in Hx by lia. }
  pose proof (grow_filled _ _ _ _ (Z.of_nat (length bs)) Hf ltac:(lia) ltac:(lia)) as Hw.
  unfold ParseHeader. cbn [set_rcv set_world set_rd set_env c_rcv c_env c_hs m_pHeaderBuffer e_world set_mem w_mem
    rcv_header m_rcvState m_payloadBuffer e_free].
  rewrite (window_available _ _ _ _ _ Hw), (window_total _ _ _ _ _ Hw).
  assert (forall c', c_env c' = mkEnv (set_mem (e_world (c_env c)) (fill (cmem c) (ha + Z.of_nat l) bs)) (e_free (c_env c))
      (e_lastId (c_env c)) s' (e_wr (c_env c)) (e_out (c_env c)) (e_notified (c_env c)) -> c_hs c' = c_hs c ->
      hbuf c' = grow (hbuf c) (Z.of_nat (length bs)) -> base c' ha m) as Hbase.
  { intros c' E1 E2 E3. destruct Hb. split; rewrite ?E1, ?E2, ?E3; cbn; try done; try apply Hw. by apply fill_range_ok. }
  destruct (Z.eqb_spec (Z.of_nat l + Z.of_nat (length bs) - 0) 16) as [E|E].
  - replace (l + length bs)%nat with 16%nat in * by lia. replace (Z.of_nat l + Z.of_nat (length bs)) with 16 in Hw by lia.
    rewrite wire_take_header in Hby'.
    rewrite (DecodeMsgHeader_ok _ _ ha 16 0 i (Z.of_nat (length pl)) _ Hw ltac:(lia) (mo_id _ _ Hm)
      ltac:(unfold MAX_MSG_PAYLOAD_SIZE; lia)) by (by rewrite Z.add_0_r).
    cbn [obind negb]. eexists _, _. split; [reflexivity|]. split; [by apply Hbase|]. split; [done|].
    apply (turn_progress _ _ _ _ _ _ _ _ 16%nat); [lia| |done|done|done]. by split.
  - eexists _, _. split; [reflexivity|]. split; [by apply Hbase|]. split; [done|].
    apply (turn_progress _ _ _ _ _ _ _ _ (l + length bs)%nat); [lia| |done|done|done].
    unfold phase. cbn. split; [lia|]. split; [|done]. by rewrite Nat2Z.inj_add.
Qed.

(** Reading into the payload buffer [b], [l] bytes of which are there. *)
Lemma payload_step recv send c ha m i pl b pa l rest brk : base c ha (S m) -> msg_ok i pl -> (l < length pl)%nat ->
  rcv_header (c_rcv c) = mkHeader MESSAGE_MAGIC_NO i (Z.of_nat (length pl)) ->
  m_payloadBuffer (c_rcv c) = Some b ->
  filled b pa (Z.of_nat (length pl)) (Z.of_nat l) -> bytes_at (cmem c) pa (take l pl) ->
  range_ok (cmem c) pa (Z.of_nat (length pl)) ->
  (l = 0%nat -> m_rcvState (c_rcv c) = StartToRcvPayload) -> ((0 < l)%nat -> m_rcvState (c_rcv c) = RcvingPayload) ->
  rd_bytes (e_rd (c_env c)) = drop l pl ++ rest ->
  exists c' intr, rcv_payload_step sizeof_RcvMessage m_onLogicConnect recv send c b (pa + Z.of_nat l)
      (Z.of_nat (length pl) - Z.of_nat l) brk = Ret (c', true, intr) /\
    base c' ha m /\ c_hs c' = c_hs c /\ turn_post c ha i pl (16 + l) rest brk c' intr.
Proof using UL sizeof_ok.
  intros Hb Hm Hl Hh Hpb Hf Hby Hpr Hs0 Hs1 Hrd. unfold rcv_payload_step.
  destruct (Read_clean (e_rd (c_env c)) (Z.of_nat (length pl) - Z.of_nat l) (b_clean _ _ _ Hb) ltac:(lia))
    as (s' & r & -> & Hc' & Hsz & Hcase).
  destruct Hcase as [[-> Hsame]|(bs & -> & Hne & Hle & Hbb & Hsp)].
  { eexists _, _. split; [reflexivity|]. split; [by destruct (base_weaken _ _ _ m Hb ltac:(lia)); split|]. split; [done|].
    apply turn_blocked; [|done|done|exact Hsz]. unfold phase. cbn [set_rd set_env c_rcv]. destruct l.
    - by rewrite Hs0.
    - rewrite Hs1 by lia. destruct Hf as [[? _]|[_ Hw]]; [lia|]. exists b, pa, (S l). split; [done|]. split; [lia|]. done. }
  assert (rd_size s' < rd_size (e_rd (c_env c)))%nat as Hdec.
  { destruct Hsz as [?|[E _]]; [done|]. rewrite E in Hsp. by destruct bs. }
  destruct (read_take pl l bs (rd_bytes s') rest) as [Htk Hrd']; [congruence|lia|lia|].
  pose proof (mo_len _ _ Hm) as Hlen. unfold MAX_MSG_PAYLOAD_SIZE in Hlen.
  assert (range_ok (cmem c) (pa + Z.of_nat l) (Z.of_nat (length bs))) as Hr by (eapply range_ok_sub; [exact Hpr|lia|lia]).
  assert (0 < length bs)%nat by (destruct bs; [done|simpl; lia]).
  rewrite poke_bytes_fill by done. cbn [obind].
  assert (bytes_at (fill (cmem c) (pa + Z.of_nat l) bs) pa (take (l + length bs) pl)) as Hby'.
  { rewrite <- Htk. pose proof (bytes_at_extend _ _ _ bs Hby) as Hx. rewrite length_take in Hx.
    by rewrite Nat.min_l in Hx by lia. }
  pose proof (grow_filled _ _ _ _ (Z.of_nat (length bs)) Hf ltac:(lia) ltac:(lia)) as Hw.
  unfold CheckPayload. cbn [set_rcv set_world set_rd set_env c_rcv c_env c_hs m_pHeaderBuffer e_world set_mem w_mem
    rcv_header m_rcvState m_payloadBuffer e_free].
  rewrite (window_available _ _ _ _ _ Hw). rewrite Hh. cbn [len]. rewrite u32_id by (unfold in_u; lia).
  destruct (Z.eqb_spec (Z.of_nat l + Z.of_nat (length bs) - 0) (Z.of_nat (length pl))) as [E|E].
  - assert (l + length bs = length pl)%nat as El by lia. rewrite El in *. rewrite take_ge in Hby' by lia.
    rewrite drop_ge in Hrd' by lia. simpl in Hrd'.
    unfold getNewRcvMessage. cbn [set_rcv set_world set_rd set_env c_rcv c_env c_hs e_world e_free].
    match goal with |- context [mp_get ?w _] => destruct (mp_get_ok w sizeof_RcvMessage m (b_pool _ _ _ Hb) sizeof_ok (b_room _ _ _ Hb))
      as (w' & km & am & sm & Eg & Em & _ & Hp' & Hm' & _) end.
    rewrite Eg. cbn [obind set_rcv set_world set_rd set_env c_rcv c_env c_hs e_world e_free rm_header rm_peerInfo].
    rewrite decide_True by (apply Hb). unfold buffer_data.
    rewrite (window_available _ _ _ _ _ Hw), (wi_pos _ _ _ _ _ Hw), Em. cbn [set_mem w_mem].
    replace (Z.to_nat (Z.of_nat l + Z.of_nat (length bs) - 0)) with (length pl) by lia. rewrite Z.add_0_r.
    rewrite peek_bytes_at by (by apply touch_keeps_bytes). cbn [obind].
    eexists _, _. split; [reflexivity|]. split; [|split; [done|]].
    + destruct Hb. split; cbn; try done. rewrite Em. by apply touch_keeps_range, fill_range_ok.
    + by apply turn_message.
  - eexists _, _. split; [reflexivity|]. split; [|split; [done|]].
    + destruct (base_weaken _ _ _ m Hb ltac:(lia)). split; cbn; try done. by apply fill_range_ok.
    + apply (turn_progress _ _ _ _ _ _ _ _ (16 + (l + length bs))%nat); [lia| |by rewrite wire_drop_header|done|done].
      unfold phase. cbn. eexists _, pa, (l + length bs)%nat. split; [done|]. split; [lia|]. split; [done|]. split; [done|].
      split; [by rewrite Nat2Z.inj_add|]. split; [done|]. by apply fill_range_ok.
Qed.

Lemma turn_ok recv send c ha m i pl k rest brk : base c ha (S (S m)) -> msg_ok i pl -> phase c ha i pl k ->
  rd_bytes (e_rd (c_env c)) = drop k (wire_bytes i pl) ++ rest ->
  exists c' intr, recv_turn sizeof_RcvMessage m_onLogicConnect recv send c brk = Ret (c', true, intr) /\
    base c' ha m /\ c_hs c' = c_hs c /\ turn_post c ha i pl k rest brk c' intr.
Proof using UL sizeof_ok.
  intros Hb Hm Hph Hrd. unfold recv_turn. pose proof (b_addr _ _ _ Hb) as Haddr. pose proof (mo_len _ _ Hm) as Hlen.
  unfold MAX_MSG_PAYLOAD_SIZE in Hlen. unfold phase in Hph. destruct (m_rcvState (c_rcv c)) eqn:Es.
  - subst k. destruct (BZero_ok (cmem c) (hbuf c) ha 16) as (m' & hb & E & Hw & Hr); try apply Hb; [lia|].
    rewrite E. cbn [obind set_rcv set_world set_env c_rcv c_env].
    rewrite (empty_window_total _ _ _ Hw), (ew_start _ _ _ Hw). rewrite u64_id by done.
    match goal with |- context [rcv_header_step ?c1 _ _] =>
      destruct (header_step c1 ha m i pl 0 rest brk) as (c' & intr & E' & Hb' & Hh' & Hp') end; try done; try lia.
    + destruct (base_weaken _ _ _ m Hb ltac:(lia)). split; cbn; try done; [apply Hw|apply Hw|by apply Hr].
    + by left.
    + rewrite Z.add_0_r, Z.sub_0_r in E'. exists c', intr. split; [exact E'|]. split; [done|]. split; [done|].
      eapply turn_post_from; [| | |exact Hp']; done.
  - destruct Hph as (Hk & Hw & Hby). rewrite (wi_last _ _ _ _ _ Hw), (window_unused _ _ _ _ _ Hw). zeqb.
    replace (ha + Z.of_nat k - 1 + 1) with (ha + Z.of_nat k) by lia.
    apply header_step; try done; try lia; [apply (base_weaken _ _ _ _ Hb); lia|]. right. split; [lia|done].
  - destruct Hph as [-> Hh]. rewrite Hh. cbn [len].
    destruct (mp_get_ok (e_world (c_env c)) (Z.of_nat (length pl)) (S m) (b_pool _ _ _ Hb)
      ltac:(pose proof (mo_max _ _ Hm); lia) (b_room _ _ _ Hb)) as (w' & km & am & sm & Eg & Em & _ & Hp' & Hm' & _ & Hsm & Ham & Hbm & _).
    rewrite Eg. cbn [obind]. unfold GetNewBuffer_mpo. rewrite GetNewBuffer_refresh_ok by (apply Hb). cbn [obind].
    rewrite u64_id by (unfold in_u; lia).
    assert (empty_window (Buffer_new 0 0 am (am + Z.of_nat (length pl) - 1) (Some km)) am (Z.of_nat (length pl))) as Hw.
    { unfold Buffer_new, check_available. split; simpl; try done; try lia. zeqb. done. }
    rewrite (empty_window_total _ _ _ Hw), (ew_start _ _ _ Hw). rewrite u64_id by (unfold in_u; lia).
    match goal with |- context [rcv_payload_step _ _ _ _ ?c1 _ _ _ _] =>
      destruct (payload_step recv send c1 ha m i pl (Buffer_new 0 0 am (am + Z.of_nat (length pl) - 1) (Some km)) am 0 rest brk)
        as (c' & intr & E' & Hb' & Hh' & Hpost) end; try done; try lia.
    + destruct Hb. split; cbn; try done; [by apply Forall_tail|]. rewrite Em. by apply touch_keeps_range.
    + by left.
    + cbn. rewrite Em. apply touch_range_ok.
    + rewrite Z.add_0_r, Z.sub_0_r in E'. exists c', intr. split; [exact E'|]. split; [done|]. split; [done|].
      eapply turn_post_from; [| | |exact Hpost]; done.
  - destruct Hph as (b & pa & l & -> & Hl & Hh & Hpb & Hw & Hby & Hr). rewrite Hpb.
    rewrite (wi_last _ _ _ _ _ Hw), (window_unused _ _ _ _ _ Hw). pose proof (wi_bounds _ _ _ _ _ Hw). zeqb.
    replace (pa + Z.of_nat l - 1 + 1) with (pa + Z.of_nat l) by lia. rewrite wire_drop_header in Hrd.
    apply payload_step; try done; try lia; [apply (base_weaken _ _ _ _ Hb); lia|]. right. split; [lia|done].
Qed.

(** ** The loop of [Recv] *)

Definition stream (todo : list (Z * list Z)) : list Z := concat ((fun m => wire_bytes m.1 m.2) <$> todo).

Definition notification (peer : net_peer_info_t) (m : Z * list Z) : NotifyMessage :=
  MessageNotifyMessage (mkHeader MESSAGE_MAGIC_NO m.1 (Z.of_nat (length m.2))) peer m.2.

(** The messages [todo] are still to be delivered; part of the first one may
    have been received.  The pool has room for [x] operations beyond them. *)
Definition pending (x : nat) (c : conn (A := A) (P := P)) (ha : Z) (todo : list (Z * list Z)) : Prop :=
  base c ha (2 * rd_size (e_rd (c_env c)) + x) /\ Forall (fun m => msg_ok m.1 m.2) todo /\
  match todo with
  | [] => m_rcvState (c_rcv c) = StartToRcvHeader /\ rd_bytes (e_rd (c_env c)) = []
  | (i, pl) :: rest => exists k, (k < 16 + length pl)%nat /\ phase c ha i pl k /\
      rd_bytes (e_rd (c_env c)) = drop k (wire_bytes i pl) ++ stream rest
  end.

(** [c'] is [c] after the messages that lead from [todo] to [todo'] were delivered. *)
Definition advanced (x : nat) (c : conn (A := A) (P := P)) (ha : Z) (todo : list (Z * list Z)) (c' : conn (A := A) (P := P)) : Prop :=
  exists dn todo', todo = dn ++ todo' /\ pending x c' ha todo' /\ c_hs c' = c_hs c /\
    e_notified (c_env c') = e_notified (c_env c) ++ (notification (m_logicPeer (c_hs c)) <$> dn).

Lemma advanced_trans x c ha todo c1 c2 : advanced x c ha todo c1 ->
  (forall todo1, pending x c1 ha todo1 -> advanced x c1 ha todo1 c2) -> advanced x c ha todo c2.
Proof.
  intros (dn & todo1 & -> & Hp & Hh & Hn) H. destruct (H _ Hp) as (dn2 & todo2 & -> & Hp2 & Hh2 & Hn2).
  exists (dn ++ dn2), todo2. split; [by rewrite app_assoc|]. split; [done|]. split; [congruence|].
  by rewrite Hn2, Hn, Hh, fmap_app, app_assoc.
Qed.

Lemma idle_turn recv send c ha m brk : base c ha m -> m_rcvState (c_rcv c) = StartToRcvHeader ->
  rd_bytes (e_rd (c_env c)) = [] ->
  exists c', recv_turn sizeof_RcvMessage m_onLogicConnect recv send c brk = Ret (c', true, true) /\ base c' ha m /\
    m_rcvState (c_rcv c') = StartToRcvHeader /\ rd_bytes (e_rd (c_env c')) = [] /\ c_hs c' = c_hs c /\
    e_notified (c_env c') = e_notified (c_env c) /\
    rd_less c' c.
Proof.
  intros Hb Hs Hrd. unfold recv_turn. rewrite Hs. pose proof (b_addr _ _ _ Hb).
  destruct (BZero_ok (cmem c) (hbuf c) ha 16) as (m' & hb & E & Hw & Hr); try apply Hb; [lia|].
  rewrite E. cbn [obind set_rcv set_world set_env c_rcv c_env].
  rewrite (empty_window_total _ _ _ Hw). rewrite u64_id by done. unfold rcv_header_step.
  cbn [set_rcv set_world set_env c_rcv c_env e_rd].
  destruct (Read_clean (e_rd (c_env c)) 16 (b_clean _ _ _ Hb) ltac:(lia)) as (s' & r & -> & Hc' & Hsz & Hcase).
  destruct Hcase as [[-> Hsame]|(bs & _ & Hne & _ & _ & Hsp)]; [|rewrite Hrd in Hsp; by destruct bs].
  eexists. split; [reflexivity|]. split.
  { destruct Hb. split; cbn; try done; [apply Hw|apply Hw|by apply Hr]. }
  cbn. split; [done|]. split; [congruence|]. split; [done|]. split; [done|]. exact Hsz.
Qed.

Lemma rd_less_le c' c : rd_less c' c -> (rd_size (e_rd (c_env c')) <= rd_size (e_rd (c_env c)))%nat.
Proof. intros [?|[-> ->]]; simpl; lia. Qed.

Lemma pending_turn recv send x c ha todo : pending x c ha todo ->
  exists c' intr, recv_turn sizeof_RcvMessage m_onLogicConnect recv send c false = Ret (c', true, intr) /\
    advanced x c ha todo c' /\
    (rd_less c' c /\ (intr = false -> (rd_size (e_rd (c_env c')) < rd_size (e_rd (c_env c)))%nat)).
Proof using UL sizeof_ok.
  intros (Hb & Hm & Ht). destruct todo as [|[i pl] rest].
  { destruct Ht as [Hs Hrd]. destruct (idle_turn recv send c ha _ false Hb Hs Hrd) as (c' & E & Hb' & Hs' & Hrd' & Hh & Hn & Hd).
    exists c', true. split; [exact E|]. split; [|by split].
    exists [], []. split; [done|]. split; [split; [|done]|].
    { apply (base_weaken _ _ _ _ Hb'). apply rd_less_le in Hd. lia. } split; [done|]. by rewrite app_nil_r. }
  destruct Ht as (k & Hk & Hph & Hrd). apply Forall_cons in Hm as [Hm1 Hm].
  assert (0 < rd_size (e_rd (c_env c)))%nat as Hpos.
  { destruct (e_rd (c_env c)) as [|[] s]; simpl in *; try lia. apply (f_equal length) in Hrd.
    rewrite length_app, length_drop, wire_length in Hrd. simpl in Hrd. lia. }
  destruct (turn_ok recv send c ha (2 * rd_size (e_rd (c_env c)) - 2 + x) i pl k (stream rest) false) as (c' & intr & E & Hb' & Hh & Hpost);
    [by replace (S (S (2 * rd_size (e_rd (c_env c)) - 2 + x))) with (2 * rd_size (e_rd (c_env c)) + x)%nat by lia|done|done|done|].
  assert ((rd_size (e_rd (c_env c')) < rd_size (e_rd (c_env c)))%nat -> base c' ha (2 * rd_size (e_rd (c_env c')) + x)) as Hbase
    by (intros ?; apply (base_weaken _ _ _ _ Hb'); lia).
  exists c', intr. split; [exact E|].
  destruct Hpost as [Hp' Hrd' Hn' Hd|k' intr Hk' Hp' Hrd' Hn' Hd|Hs' Hrd' Hn' Hd].
  - split; [|by split]. exists [], ((i, pl) :: rest). split; [done|].
    split; [|split; [done|by rewrite app_nil_r]]. split; [|split; [by constructor|exists k; by rewrite Hrd']].
    apply Hbase. destruct Hd as [?|[E0 _]]; [done|]. rewrite E0 in Hpos. simpl in Hpos. lia.
  - split; [|split; [by left|done]]. exists [], ((i, pl) :: rest). split; [done|]. split; [|split; [done|by rewrite app_nil_r]].
    split; [by apply Hbase|]. split; [by constructor|]. exists k'. split; [lia|done].
  - split; [|split; [by left|done]]. exists [(i, pl)], rest. split; [done|]. split; [|done].
    split; [by apply Hbase|]. split; [done|]. destruct rest as [|[i2 pl2] rest]; [done|].
    exists 0%nat. split; [lia|]. split; [|done]. unfold phase. by rewrite Hs'.
Qed.

Lemma Recv_pending fuel x c ha todo : pending x c ha todo -> (rd_size (e_rd (c_env c)) < fuel)%nat ->
  exists c', Recv sizeof_RcvMessage m_onLogicConnect fuel c false = Ret (c', true) /\ advanced x c ha todo c' /\
    rd_less c' c.
Proof using UL sizeof_ok.
  revert c todo. induction fuel as [|fuel IH]; intros c todo Hp Hf; [lia|]. cbn [Recv].
  destruct (pending_turn (fun c => Recv sizeof_RcvMessage m_onLogicConnect fuel c true) (Send fuel) x c ha todo Hp)
    as (c1 & intr & E & Ha & Hd). rewrite E. cbn [obind]. destruct intr; cbn [andb negb].
  { exists c1. split; [done|]. split; [done|]. apply Hd. }
  destruct Hd as [_ Hd]. specialize (Hd eq_refl). pose proof Ha as (dn & todo1 & _ & Hp1 & _).
  destruct (IH c1 todo1 Hp1 ltac:(lia)) as (c2 & E2 & Ha2 & Hd2).
  exists c2. split; [exact E2|]. split.
  - eapply advanced_trans; [exact Ha|]. intros todo2 Hp2. destruct (IH c1 todo2 Hp2 ltac:(lia)) as (c3 & E3 & Ha3 & _). congruence.
  - left. destruct Hd2 as [?|[E1 E3]]; [lia|]. rewrite E3. rewrite E1 in Hd. simpl in *. lia.
Qed.

(** Call [Recv] as often as the event loop does. *)
Fixpoint pump (calls fuel : nat) (c : conn (A := A) (P := P)) : outcome (conn (A := A) (P := P) * bool) :=
  match calls with
  | O => Ret (c, true)
  | S calls =>
      let* (c, rc) := Recv sizeof_RcvMessage m_onLogicConnect fuel c false in
      if rc then pump calls fuel c else Ret (c, false)
  end.

Lemma pump_pending calls fuel x c ha todo : pending x c ha todo ->
  (rd_size (e_rd (c_env c)) < fuel)%nat -> (rd_size (e_rd (c_env c)) <= calls)%nat ->
  exists c', pump calls fuel c = Ret (c', true) /\ advanced x c ha todo c' /\ e_rd (c_env c') = [].
Proof using UL sizeof_ok.
  revert c todo. induction calls as [|calls IH]; intros c todo Hp Hf Hc.
  { exists c. split; [done|]. split; [|by destruct (e_rd (c_env c)) as [|[] ?]; simpl in Hc; try lia].
    exists [], todo. split; [done|]. split; [done|]. split; [done|]. by rewrite app_nil_r. }
  cbn [pump]. destruct (Recv_pending fuel x c ha todo Hp Hf) as (c1 & E & Ha & Hd). rewrite E. cbn [obind].
  assert (rd_size (e_rd (c_env c1)) <= calls)%nat as Hc1 by (destruct Hd as [?|[_ ->]]; simpl; lia).
  pose proof Ha as (dn & todo1 & _ & Hp1 & _). apply rd_less_le in Hd.
  destruct (IH c1 todo1 Hp1 ltac:(lia) Hc1) as (c2 & E2 & _ & Hr2).
  exists c2. split; [done|]. split; [|done]. eapply advanced_trans; [exact Ha|].
  intros todo2 Hp2. destruct (IH c1 todo2 Hp2 ltac:(lia) Hc1) as (c3 & E3 & Ha3 & _). congruence.
Qed.

Lemma pump_all (c : conn (A := A) (P := P)) (ha : Z) (msgs : list (Z * list Z)) :
  base c ha (2 * rd_size (e_rd (c_env c))) -> m_rcvState (c_rcv c) = StartToRcvHeader ->
  Forall (fun m => msg_ok m.1 m.2) msgs -> rd_bytes (e_rd (c_env c)) = stream msgs ->
  exists c', pump (rd_size (e_rd (c_env c))) (S (rd_size (e_rd (c_env c)))) c = Ret (c', true) /\
    e_rd (c_env c') = [] /\ m_rcvState (c_rcv c') = StartToRcvHeader /\
    e_notified (c_env c') = e_notified (c_env c) ++ (notification (m_logicPeer (c_hs c)) <$> msgs).
Proof using UL sizeof_ok.
  intros Hb Hs Hm Hrd.
  assert (pending 0 c ha msgs) as Hp.
  { split; [by rewrite Nat.add_0_r|]. split; [done|]. destruct msgs as [|[i pl] rest]; [done|].
    exists 0%nat. split; [lia|]. split; [|done]. unfold phase. by rewrite Hs. }
  destruct (pump_pending (rd_size (e_rd (c_env c))) (S (rd_size (e_rd (c_env c)))) 0 c ha msgs Hp ltac:(lia) ltac:(lia))
    as (c' & E & (dn & todo & -> & (_ & _ & Hpend) & _ & Hn) & Hr).
  exists c'. split; [done|]. split; [done|]. destruct todo as [|[i pl] rest].
  - split; [apply Hpend|]. by rewrite app_nil_r.
  - destruct Hpend as (k & Hk & _ & Hrd'). rewrite Hr in Hrd'. apply (f_equal length) in Hrd'.
    rewrite length_app, length_drop, wire_length in Hrd'. simpl in Hrd'. lia.
Qed.

(** C5.  Reassembly: let the bytes of the messages [msgs] arrive in any
    fragmentation, interleaved with interrupted reads and reads that would
    block.  Then the calls of [Recv] return normally and report no error, the
    user is notified of exactly these messages in order, with their ids and
    payloads, and the connection is ready for the next header. *)
Theorem recv_reassembles (c : conn (A := A) (P := P)) (ha : Z) (msgs : list (Z * list Z)) :
  base c ha (2 * rd_size (e_rd (c_env c))) -> m_rcvState (c_rcv c) = StartToRcvHeader ->
  Forall (fun m => msg_ok m.1 m.2) msgs -> rd_bytes (e_rd (c_env c)) = stream msgs ->
  exists c', pump (rd_size (e_rd (c_env c))) (S (rd_size (e_rd (c_env c)))) c = Ret (c', true) /\
    e_rd (c_env c') = [] /\ m_rcvState (c_rcv c') = StartToRcvHeader /\
    e_notified (c_env c') = e_notified (c_env c) ++ (notification (m_logicPeer (c_hs c)) <$> msgs).
Proof using UL sizeof_ok.
  intros Hb Hs Hm Hrd. exact (pump_all c ha msgs Hb Hs Hm Hrd).
Qed.

End recv.
