(* ===== verification/SendProofs.v ===== *)
(** * SendProofs: the bytes [Send] puts on the wire

    [Send] writes the encodings of the queued messages in queue order, however
    the kernel cuts the writes; together with RecvProofs this gives delivery
    from one worker to another. *)

From S2P Require Import Prelude Codec PoolApi Buffer Message NetWorker RecvProofs.

(** Writes that make progress, are interrupted or would block. *)
Definition wr_clean_event (e : wr_event) : Prop :=
  match e with WrRoom k => 0 < k | WrErr e => e = EINTR \/ e = EAGAIN end.
Definition wr_clean (s : list wr_event) : Prop := Forall wr_clean_event s.

(** The number of writes with room. *)
Fixpoint rooms (s : list wr_event) : nat :=
  match s with [] => 0 | WrRoom _ :: s => S (rooms s) | _ :: s => rooms s end.

(** The kernel refused a write: the script [s] was read up to an [EAGAIN], or up
    to its end, and [s'] is what is left. *)
Definition blocked (s s' : list wr_event) : Prop := s' = [] \/ exists pre, s = pre ++ WrErr EAGAIN :: s'.

Lemma blocked_app pre s s' : blocked s s' -> blocked (pre ++ s) s'.
Proof. intros [->|[q ->]]; [by left|]. right. exists (pre ++ q). by rewrite app_assoc. Qed.

Lemma blocked_rooms s s' : blocked s s' -> WrErr EAGAIN ∈ s \/ rooms s' = 0%nat.
Proof. intros [->|[q ->]]; [by right|]. left. apply elem_of_app. right. left. Qed.

Lemma Write_clean s n : wr_clean s -> 0 < n ->
  exists s' r, Write s n = (s', r) /\ wr_clean s' /\ s' `suffix_of` s /\
    ((r = WFail EAGAIN /\ rooms s' = rooms s /\ blocked s s') \/
     (exists k, r = WBytes k /\ 0 < k <= n /\ (length s' < length s)%nat /\ rooms s = S (rooms s'))).
Proof.
  intros Hc Hn. induction Hc as [|e s He Hc IH]; simpl.
  { eexists _, _. split; [done|]. split; [constructor|]. split; [done|]. left. split; [done|]. split; [done|by left]. }
  destruct e as [k|e].
  - eexists _, _. split; [done|]. split; [done|]. split; [by apply suffix_cons_r|]. right. simpl in He.
    exists (Z.min k n). rewrite (proj2 (Z.leb_gt _ _)) by lia. split; [done|]. split; [lia|]. simpl. lia.
  - destruct He as [-> | ->]; simpl.
    + destruct IH as (s' & r & E & Hc' & Hl & Hr). exists s', r. split; [done|]. split; [done|].
      split; [by apply suffix_cons_r|]. destruct Hr as [(-> & ? & Hor)|(k & -> & ? & ? & ?)]; [left|right].
      * split; [done|]. split; [done|]. by apply (blocked_app [WrErr EINTR]).
      * exists k. split; [done|]. split; [done|]. split; [lia|done].
    + eexists _, _. split; [done|]. split; [done|]. split; [by apply suffix_cons_r|]. left.
      split; [done|]. split; [done|]. right. by exists [].
Qed.

Section send.
Context `{A : MemPoolApi} `{AL : !MemPoolLaws A} `{U : ByteOrderUtils} `{UL : !ByteOrderLaws U}
  `{P : ProtoMsg} `{PL : !ProtoMsgLaws P}.

#[local] Abbreviation cmem c := (w_mem (e_world (c_env c))).

(** A queued message that [Encode] accepts and the pool can hold. *)
Record snd_ok (sm : SndMessage P) : Prop := mkSndOk {
  so_pool : m_hasPool sm = true;
  so_body : body_ok (body sm);
  so_id : in_u 64 (id (m_header sm));
  so_max : 16 + Z.of_nat (length (payload_bytes (body sm))) <= max_request
}.

Definition snd_msg (sm : SndMessage P) : Z * list Z := (id (m_header sm), payload_bytes (body sm)).

(** The buffer being sent still holds the bytes [cur]. *)
Definition sending (c : conn (A := A) (P := P)) (cur : list Z) : Prop :=
  match m_pSendingBuffer (c_snd c) with
  | None => cur = []
  | Some b => exists a n r k s, window b a n r n /\ Z.of_nat (length cur) = n - r /\ bytes_at (cmem c) (a + r) cur /\
      m_pMpObject b = Some k /\ obj_live (w_pool (e_world (c_env c))) k a s
  end.

(** [cur] is what is left of the buffer, [m] bounds the pool operations. *)
Record sbase (c : conn (A := A) (P := P)) (cur : list Z) (m : nat) : Prop := mkSBase {
  s_pool : pool_ok (w_pool (e_world (c_env c)));
  s_room : room m (w_pool (e_world (c_env c)));
  s_fb : fb_ok (e_free (c_env c));
  s_cur : sending c cur;
  s_queue : Forall snd_ok (m_bqMessages (c_snd c));
  s_clean : wr_clean (e_wr (c_env c))
}.

(** The bytes still to be written. *)
Definition to_send (c : conn (A := A) (P := P)) (cur : list Z) : list Z :=
  cur ++ stream (snd_msg <$> m_bqMessages (c_snd c)).

(** Writes and queued messages left: bounds the turns of the loop. *)
Definition turns_left (c : conn (A := A) (P := P)) : nat :=
  length (e_wr (c_env c)) + length (m_bqMessages (c_snd c)).

(** One turn: the bytes written come off the front of what is to be sent. *)
Record sent (c : conn (A := A) (P := P)) (cur : list Z) (c' : conn (A := A) (P := P)) (cur' : list Z) : Prop := mkSent {
  se_out : exists bs, e_out (c_env c') = e_out (c_env c) ++ bs /\ to_send c cur = bs ++ to_send c' cur';
  se_notified : e_notified (c_env c') = e_notified (c_env c);
  se_rooms : (rooms (e_wr (c_env c)) + length (to_send c' cur') <= rooms (e_wr (c_env c')) + length (to_send c cur))%nat
}.

Lemma sent_refl c cur : sent c cur c cur.
Proof. split; [exists []; by rewrite app_nil_r|done|done]. Qed.

Lemma sent_trans c0 cur0 c1 cur1 c2 cur2 : sent c0 cur0 c1 cur1 -> sent c1 cur1 c2 cur2 -> sent c0 cur0 c2 cur2.
Proof.
  intros [(b1 & E1 & F1) N1 R1] [(b2 & E2 & F2) N2 R2]. split; [|congruence|lia].
  exists (b1 ++ b2). by rewrite E2, E1, F1, F2, !app_assoc.
Qed.

(** A live buffer is given back. *)
Lemma PutBuffer_ok (w : world A) fb b k a s m : pool_ok (w_pool w) -> room (S m) (w_pool w) -> fb_ok fb ->
  m_pMpObject b = Some k -> obj_live (w_pool w) k a s ->
  exists p', PutBuffer w fb b = Ret (set_pool w p', fb ++ [null_buffer]) /\ pool_ok p' /\ room m p'.
Proof.
  intros Hp Hr Hf Hk Hl. destruct (law_put _ _ _ _ Hp Hl) as (p' & E & Hp' & _).
  unfold PutBuffer, Buffer_Put, Refresh, mp_put. rewrite Hk, E. cbn [obind]. exists p'.
  split; [done|]. split; [done|]. by apply (proj2 Hr k).
Qed.

Lemma encode_turn c m sm rest : sbase c [] (S m) -> m_bqMessages (c_snd c) = sm :: rest ->
  exists w fb sm' b, Encode (e_world (c_env c)) (e_free (c_env c)) sm = Ret (w, fb, sm', b) /\
    let c' := set_snd (set_world c w fb) (mkSH (Some b) rest) in
    sbase c' (wire_bytes (id (m_header sm)) (payload_bytes (body sm))) m /\
    sent c [] c' (wire_bytes (id (m_header sm)) (payload_bytes (body sm))).
Proof using UL PL.
  intros [Hp Hr Hf Hc Hq Hw] Eq. rewrite Eq in Hq. apply Forall_cons in Hq as [[Hs1 Hs2 Hs3 Hs4] Hq].
  destruct (Encode_ok _ _ sm m Hp Hr Hf Hs1 Hs2 Hs3 Hs4) as (w' & b & k & a & s & E & [Hwin Hk Hm Ha [Hp' Hr'] [Hl _] _ _]).
  eexists _, _, _, _. split; [exact E|]. cbn zeta. split.
  - split; cbn [set_snd set_world set_env c_snd c_env m_pSendingBuffer m_bqMessages e_world e_free e_wr e_out e_notified]; try done; [by apply Forall_tail|].
    unfold sending. cbn [set_snd set_world set_env c_snd c_env m_pSendingBuffer m_bqMessages e_world e_free e_wr e_out e_notified].
    eexists a, _, 0, k, s. split; [exact Hwin|]. split; [rewrite wire_length; lia|]. split; [|done].
    rewrite Z.add_0_r, Hm. apply fill_bytes_at.
  - split; [|done|].
    + exists []. rewrite app_nil_r. split; [done|]. unfold to_send. cbn [set_snd set_world set_env c_snd c_env m_pSendingBuffer m_bqMessages e_world e_free e_wr e_out e_notified]. by rewrite Eq.
    + unfold to_send. cbn [set_snd set_world set_env c_snd c_env m_pSendingBuffer m_bqMessages e_world e_free e_wr e_out e_notified]. by rewrite Eq.
Qed.

Lemma write_turn c cur m b : sbase c cur (S m) -> m_pSendingBuffer (c_snd c) = Some b ->
  exists c' cur' intr, send_turn c = Ret (c', true, intr) /\ sbase c' cur' m /\ sent c cur c' cur' /\
    (turns_left c' <= turns_left c)%nat /\ (intr = false -> (turns_left c' < turns_left c)%nat) /\
    e_wr (c_env c') `suffix_of` e_wr (c_env c) /\
    (intr = true -> blocked (e_wr (c_env c)) (e_wr (c_env c'))).
Proof.
  intros Hb Eb. pose proof Hb as [Hp Hr Hf Hc Hq Hw]. unfold sending in Hc. rewrite Eb in Hc.
  destruct Hc as (a & n & r & k & s & Hwin & Hlen & Hby & Hk & Hl). pose proof (wi_bounds _ _ _ _ _ Hwin) as Hbd.
  unfold send_turn. rewrite Eb, (window_available _ _ _ _ _ Hwin). rewrite u64_id by (unfold in_u; lia).
  rewrite (proj2 (Z.ltb_lt _ _)) by lia.
  destruct (Write_clean (e_wr (c_env c)) (n - r) Hw ltac:(lia)) as (s' & res & -> & Hw' & Hls & Hcase).
  apply suffix_length in Hls as Hlen'.
  destruct Hcase as [(-> & Hrm & Hstop)|(j & -> & Hj & Hdec & Hrm)].
  { simpl. eexists _, cur, _. split; [reflexivity|]. split.
    { split; cbn; try done; [by eapply room_weaken; [|exact Hr]; lia|]. unfold sending. cbn. rewrite Eb.
      by exists a, n, r, k, s. }
    split; [split; [exists []; by rewrite app_nil_r|done|cbn; by rewrite Hrm]|]. unfold turns_left. cbn.
    split; [lia|]. split; [done|]. split; [done|]. intros _. done. }
  set (jn := Z.to_nat j).
  assert (bytes_at (cmem c) (a + r) (take jn cur)) as Hby1.
  { rewrite <- (take_drop jn cur) in Hby. by apply bytes_at_app in Hby as [? _]. }
  assert (bytes_at (cmem c) (a + (r + j)) (drop jn cur)) as Hby2.
  { rewrite <- (take_drop jn cur) in Hby. apply bytes_at_app in Hby as [_ Hx]. rewrite length_take in Hx.
    replace (a + (r + j)) with (a + r + Z.of_nat (jn `min` length cur)) by lia. done. }
  assert (peek_bytes (cmem c) (a + r) jn = Ret (take jn cur)) as Epk.
  { pose proof (peek_bytes_at _ _ _ Hby1) as Epk. by rewrite length_take, Nat.min_l in Epk by lia. }
  rewrite (wi_pos _ _ _ _ _ Hwin), Epk. cbn [obind]. rewrite u32_id by (unfold in_u; lia).
  assert (forall c', e_out (c_env c') = e_out (c_env c) ++ take jn cur -> e_notified (c_env c') = e_notified (c_env c) ->
    e_wr (c_env c') = s' -> m_bqMessages (c_snd c') = m_bqMessages (c_snd c) -> sent c cur c' (drop jn cur)) as Hsent.
  { intros c' E1 E2 E3 E4. split; [|done|].
    - exists (take jn cur). split; [done|]. unfold to_send. by rewrite E4, app_assoc, take_drop.
    - unfold to_send. rewrite E3, E4, Hrm, !length_app, length_drop. lia. }
  destruct (decide (j = n - r)) as [->|Hne].
  - destruct (window_move_head_end _ _ _ _ _ _ Hwin eq_refl) as (Eav & _ & Emp). rewrite Eav.
    destruct (PutBuffer_ok (e_world (c_env c)) (e_free (c_env c)) (MoveHeadBack b (n - r)) k a s m Hp Hr Hf
      ltac:(congruence) Hl) as (p' & E & Hp' & Hr').
    unfold Put_Send_Buffer. cbn [Z.leb Z.compare set_wr set_env c_env e_world e_free]. rewrite E. cbn [obind].
    eexists _, [], _. split; [reflexivity|]. split.
    { split; cbn; try done. apply Forall_app. split; [done|]. by constructor. }
    replace [] with (drop jn cur) by (apply drop_ge; lia).
    split; [by apply Hsent|]. unfold turns_left. cbn. split; [lia|]. split; [lia|]. done.
  - pose proof (window_move_head _ _ _ _ _ j Hwin ltac:(lia)) as Hwin'.
    rewrite (window_available _ _ _ _ _ Hwin'). rewrite (proj2 (Z.leb_gt _ _)) by lia.
    eexists _, (drop jn cur), _. split; [reflexivity|]. split.
    { split; cbn; try done; [by eapply room_weaken; [|exact Hr]; lia|]. unfold sending. cbn.
      exists a, n, (r + j), k, s. split; [done|]. split; [rewrite length_drop; lia|]. split; [done|]. split; [|done].
      by rewrite (proj2 (proj2 (proj2 (MoveHeadBack_span b j)))). }
    split; [by apply Hsent|]. unfold turns_left. cbn. split; [lia|]. split; [lia|]. done.
Qed.
(** The result of one turn, of several turns and of the loop. *)
Lemma turn_send c cur m : sbase c cur (S m) ->
  exists c' cur' intr, send_turn c = Ret (c', true, intr) /\ sbase c' cur' m /\ sent c cur c' cur' /\
    (turns_left c' <= turns_left c)%nat /\ (intr = false -> (turns_left c' < turns_left c)%nat) /\
    e_wr (c_env c') `suffix_of` e_wr (c_env c) /\
    (intr = true -> to_send c' cur' = [] \/ blocked (e_wr (c_env c)) (e_wr (c_env c'))).
Proof using UL PL.
  intros Hb. destruct (m_pSendingBuffer (c_snd c)) as [b|] eqn:Eb.
  { destruct (write_turn c cur m b Hb Eb) as (c' & cur' & intr & E & Hb' & Hs & H1 & H2 & H3 & H4).
    exists c', cur', intr. do 6 (split; [done|]). intros Hi. right. by apply H4. }
  assert (cur = []) as -> by (pose proof (s_cur _ _ _ Hb) as H; unfold sending in H; by rewrite Eb in H).
  unfold send_turn. rewrite Eb. destruct (m_bqMessages (c_snd c)) as [|sm rest] eqn:Eq.
  - exists c, [], true. split; [done|]. split.
    { destruct Hb. split; try done. by eapply room_weaken; [|exact s_room0]; lia. }
    split; [apply sent_refl|]. split; [done|]. split; [done|]. split; [done|]. intros _. left. unfold to_send. by rewrite Eq.
  - destruct (encode_turn c m sm rest Hb Eq) as (w & fb & sm' & b & E & Hb' & Hs). rewrite E. cbn [obind].
    eexists _, _, _. split; [reflexivity|]. split; [exact Hb'|]. split; [exact Hs|].
    unfold turns_left. rewrite Eq. cbn. split; [lia|]. split; [lia|]. split; done.
Qed.

Lemma Send_ok fuel c cur m : sbase c cur (S (turns_left c) + m) -> (turns_left c < fuel)%nat ->
  exists c' cur', Send fuel c = Ret (c', true) /\ sbase c' cur' m /\ sent c cur c' cur' /\
    (to_send c' cur' = [] \/ blocked (e_wr (c_env c)) (e_wr (c_env c'))).
Proof using UL PL.
  revert c cur m. induction fuel as [|fuel IH]; intros c cur m Hb Hf; [lia|]. cbn [Send].
  destruct (turn_send c cur (turns_left c + m) Hb) as (c1 & cur1 & intr & E & Hb1 & Hs1 & Hle & Hlt & Hsuf & Hstop).
  rewrite E. cbn [obind]. destruct intr; cbn [andb negb].
  - exists c1, cur1. split; [done|]. split; [|split; [done|by apply Hstop]].
    destruct Hb1. split; try done. by eapply room_weaken; [|exact s_room0]; lia.
  - specialize (Hlt eq_refl). destruct (IH c1 cur1 m) as (c2 & cur2 & E2 & Hb2 & Hs2 & Hst2); [|lia|].
    { destruct Hb1. split; try done. by eapply room_weaken; [|exact s_room0]; lia. }
    exists c2, cur2. split; [done|]. split; [done|]. split; [by eapply sent_trans|].
    destruct Hst2 as [?|Hbl]; [by left|right]. destruct Hsuf as [pre ->]. by apply blocked_app.
Qed.

(** The bytes of a run of [Send] that starts with what is to be sent, and the
    reason it stops. *)
Lemma Send_out (c : conn (A := A) (P := P)) (cur : list Z) : sbase c cur (S (turns_left c)) ->
  exists c' cur' bs, Send (S (turns_left c)) c = Ret (c', true) /\ sbase c' cur' 0 /\
    e_out (c_env c') = e_out (c_env c) ++ bs /\ to_send c cur = bs ++ to_send c' cur' /\
    e_notified (c_env c') = e_notified (c_env c) /\
    (to_send c' cur' = [] \/ blocked (e_wr (c_env c)) (e_wr (c_env c'))) /\
    (rooms (e_wr (c_env c)) <= rooms (e_wr (c_env c')) + length bs)%nat.
Proof using UL PL.
  intros Hb. destruct (Send_ok (S (turns_left c)) c cur 0) as (c' & cur' & E & Hb' & [(bs & Ho & Ht) Hn Hrm] & Hstop);
    [by rewrite Nat.add_0_r|lia|]. exists c', cur', bs. do 6 (split; [done|]). rewrite Ht, length_app in Hrm. lia.
Qed.

(** With a kernel that never answers that a write would block and at least as
    many writes with room as bytes, nothing is left. *)
Lemma nothing_left s s' (rest bs : list Z) : rest = [] \/ blocked s s' -> (WrErr EAGAIN ∉ s) ->
  (rooms s <= rooms s' + length bs)%nat -> (length (bs ++ rest) <= rooms s)%nat -> rest = [].
Proof.
  intros [->|Hb] Hno Hr Hl; [done|]. apply blocked_rooms in Hb as [?|E]; [done|]. rewrite length_app in Hl.
  destruct rest; [done|simpl in Hl; lia].
Qed.

(** C6.  [Send] writes the bytes of the queued messages in order, and goes on
    until it has written them all or the kernel refuses: it returns normally
    and without error; what it wrote is a prefix of what was to be sent, and
    the rest is still to be sent; something is left only if a write was answered
    by [EAGAIN], up to which the script of the kernel's answers was used; and every
    write with room that was used took a byte at least.  So with no [EAGAIN]
    and as many writes with room as bytes, everything is written. *)
Theorem send_in_order (c : conn (A := A) (P := P)) (cur : list Z) :
  sbase c cur (S (turns_left c)) ->
  exists c' cur' bs, Send (S (turns_left c)) c = Ret (c', true) /\ sbase c' cur' 0 /\
    e_out (c_env c') = e_out (c_env c) ++ bs /\ to_send c cur = bs ++ to_send c' cur' /\
    e_notified (c_env c') = e_notified (c_env c) /\
    (to_send c' cur' = [] \/ blocked (e_wr (c_env c)) (e_wr (c_env c'))) /\
    (rooms (e_wr (c_env c)) <= rooms (e_wr (c_env c')) + length bs)%nat /\
    ((WrErr EAGAIN ∉ e_wr (c_env c)) -> (length (to_send c cur) <= rooms (e_wr (c_env c)))%nat ->
     to_send c' cur' = [] /\ bs = to_send c cur).
Proof using UL PL.
  intros Hb. destruct (Send_out c cur Hb) as (c' & cur' & bs & E & Hb' & Ho & Ht & Hn & Hstop & Hr).
  exists c', cur', bs. do 7 (split; [done|]). intros Hno Hl. rewrite Ht in Hl.
  pose proof (nothing_left _ _ _ _ Hstop Hno Hr Hl) as E0. split; [done|]. by rewrite Ht, E0, app_nil_r.
Qed.

Lemma send_all (c : conn (A := A) (P := P)) (cur : list Z) :
  sbase c cur (S (turns_left c)) -> (WrErr EAGAIN ∉ e_wr (c_env c)) ->
  (length (to_send c cur) <= rooms (e_wr (c_env c)))%nat ->
  exists c' cur', Send (S (turns_left c)) c = Ret (c', true) /\ sbase c' cur' 0 /\
    to_send c' cur' = [] /\ e_out (c_env c') = e_out (c_env c) ++ to_send c cur /\
    e_notified (c_env c') = e_notified (c_env c).
Proof using UL PL.
  intros Hb Hno Hl. destruct (Send_out c cur Hb) as (c' & cur' & bs & E & Hb' & Ho & Ht & Hn & Hstop & Hr).
  rewrite Ht in Hl. pose proof (nothing_left _ _ _ _ Hstop Hno Hr Hl) as E0.
  exists c', cur'. do 3 (split; [done|]). split; [|done]. by rewrite Ho, Ht, E0, app_nil_r.
Qed.

End send.
