(* ===== verification/Delivery.v ===== *)
(** * Delivery: two workers connected by a byte stream

    The composition of SendProofs and RecvProofs, the handshake's behaviour on
    a fragmented first message, and a concrete process (a bump-pointer pool)
    on which the hypotheses of these files hold. *)

From S2P Require Import Prelude Codec PoolApi Buffer Message NetWorker RecvProofs SendProofs.

(** C7.  End-to-end delivery: when a worker with queued messages meets writes
    with enough room, [Send] puts everything on the wire; and a connected peer
    to which these bytes arrive, fragmented in any way, notifies its user of
    exactly these messages in queue order.  The two hosts may differ in byte
    order and in their memory pools. *)
Theorem delivery `{A1 : MemPoolApi} `{AL1 : !MemPoolLaws A1} `{A2 : MemPoolApi} `{AL2 : !MemPoolLaws A2}
    (U1 U2 : ByteOrderUtils) (UL1 : ByteOrderLaws U1) (UL2 : ByteOrderLaws U2) `{P : ProtoMsg} `{PL : !ProtoMsgLaws P}
    (sizeof_RcvMessage : Z) (onConn : net_peer_info_t -> bool)
    (c1 : conn (A := A1) (P := P)) (c2 : conn (A := A2) (P := P)) (ha : Z) :
  0 < sizeof_RcvMessage <= @max_request A2 AL2 ->
  sbase c1 [] (S (turns_left c1)) -> (WrErr EAGAIN ∉ e_wr (c_env c1)) -> e_out (c_env c1) = [] ->
  (length (to_send c1 []) <= rooms (e_wr (c_env c1)))%nat ->
  Forall (fun m => msg_ok (A := A2) m.1 m.2) (snd_msg <$> m_bqMessages (c_snd c1)) ->
  base c2 ha (2 * rd_size (e_rd (c_env c2))) -> m_rcvState (c_rcv c2) = StartToRcvHeader ->
  exists c1', Send (U := U1) (S (turns_left c1)) c1 = Ret (c1', true) /\
    (rd_bytes (e_rd (c_env c2)) = e_out (c_env c1') ->
     exists c2', pump (U := U2) sizeof_RcvMessage onConn (rd_size (e_rd (c_env c2))) (S (rd_size (e_rd (c_env c2)))) c2
         = Ret (c2', true) /\
       e_notified (c_env c2') = e_notified (c_env c2) ++
         (notification (m_logicPeer (c_hs c2)) <$> (snd_msg <$> m_bqMessages (c_snd c1)))).
Proof.
  intros Hsz Hs Hno Hout Hroom Hm Hb Hst.
  destruct (send_all (U := U1) c1 [] Hs Hno Hroom) as (c1' & cur' & E & _ & _ & Ho & _).
  exists c1'. split; [exact E|]. intros Hrd. rewrite Ho, Hout in Hrd. simpl in Hrd.
  destruct (pump_all (U := U2) sizeof_RcvMessage onConn Hsz c2 ha (snd_msg <$> m_bqMessages (c_snd c1)) Hb Hst Hm Hrd)
    as (c2' & E2 & _ & _ & Hn). by exists c2'.
Qed.

(** The handshake does not survive fragmentation: when the first read of
    an accepted connection returns fewer bytes than a header, [Recv(true)]
    returns, no handler runs, and [Initialize] waits for a completion that
    nothing will signal, whatever arrives later. *)
Theorem initialize_short_read_waits `{A : MemPoolApi} `{U : ByteOrderUtils} `{P : ProtoMsg}
    (sizeof_RcvMessage : Z) (onConn : net_peer_info_t -> bool) (fuel : nat)
    (c : conn (A := A) (P := P)) (ha : Z) (bs : list Z) (rest : list rd_event) :
  m_ct (c_hs c) = Server -> m_bConnHandShakeCompleted (c_hs c) = false ->
  m_rcvState (c_rcv c) = StartToRcvHeader ->
  m_pStart (m_pHeaderBuffer (c_rcv c)) = ha -> m_pEnd (m_pHeaderBuffer (c_rcv c)) = ha + 16 - 1 ->
  0 < ha /\ ha + 16 <= 2 ^ 64 -> range_ok (w_mem (e_world (c_env c))) ha 16 ->
  e_rd (c_env c) = RdData bs :: rest -> is_bytes bs -> (0 < length bs < 16)%nat ->
  exists c', Initialize sizeof_RcvMessage onConn (S fuel) c = Ret (c', InitWaits) /\
    e_rd (c_env c') = rest /\ e_notified (c_env c') = e_notified (c_env c).
Proof.
  intros Hct Hcomp Hst Hs He Ha Hr Hrd Hby Hlen. unfold Initialize, set_connState, set_hs.
  cbn [c_hs m_ct]. rewrite Hct. cbn [obind negb Recv].
  unfold recv_turn. cbn [c_rcv c_env]. rewrite Hst.
  destruct (BZero_ok (w_mem (e_world (c_env c))) (m_pHeaderBuffer (c_rcv c)) ha 16 Hs He) as (m' & hb & E & Hw & Hk); try lia; [done|].
  rewrite E. cbn [obind set_rcv set_world set_env c_rcv c_env m_payloadBuffer rcv_header].
  rewrite (empty_window_total _ _ _ Hw), (ew_start _ _ _ Hw). rewrite u64_id by done.
  unfold rcv_header_step, set_rd, set_rcv, set_world, set_env. cbn [c_env e_rd c_rcv c_hs c_snd e_world e_free]. rewrite Hrd. cbn [Read].
  destruct bs as [|b bs]; [simpl in Hlen; lia|]. change (16 <=? 0) with false. cbv iota.
  rewrite (proj2 (Z.leb_le (Z.of_nat (length (b :: bs))) 16)) by lia.
  cbn [c_env e_world set_mem w_mem e_rd].
  rewrite poke_bytes_fill; [|done|eapply range_ok_sub; [by apply Hk|lia|lia]]. cbn [obind].
  pose proof (grow_filled hb ha 16 0 (Z.of_nat (length (b :: bs))) (or_introl (conj eq_refl Hw)) ltac:(lia) ltac:(lia)) as Hg.
  unfold ParseHeader, set_rcv, set_rcvState. cbn [c_rcv c_env c_hs m_pHeaderBuffer].
  rewrite (window_available _ _ _ _ _ Hg), (window_total _ _ _ _ _ Hg).
  rewrite (proj2 (Z.eqb_neq _ _)) by lia. cbn [obind andb negb c_hs m_bConnHandShakeCompleted].
  rewrite Hcomp. eexists. split; [reflexivity|]. done.
Qed.

(** ** A concrete process *)

Module Process.

(** A pool that never reuses memory: the next free address and the objects. *)
Record bump := mkBump { next : Z; live_objs : gmap positive (Z * Z) }.

Definition bump_max : Z := 67108880.

#[export] Instance BumpPool : MemPoolApi := {|
  pool := bump;
  pool_get p n :=
    if Z.leb n 0 then Abort "assert(size > 0)"
    else if Z.leb (next p + n) (2 ^ 64) then
      let k := fresh (dom (live_objs p)) in
      Ret (mkBump (next p + n) (<[k := (next p, n)]> (live_objs p)), Some k)
    else Ret (p, None);
  pool_put p ok :=
    match ok with
    | None => Ret p
    | Some k => match live_objs p !! k with
                | Some _ => Ret (mkBump (next p) (delete k (live_objs p)))
                | None => Undef "object put twice"
                end
    end;
  Pointer p k := match live_objs p !! k with
                 | Some (a, _) => Ret a
                 | None => Undef "object without memory"
                 end
|}.

Record bump_ok (p : bump) : Prop := mkBumpOk {
  bo_next : 0 < next p;
  bo_obj : forall k a s, live_objs p !! k = Some (a, s) -> 0 < a /\ 0 < s /\ a + s <= next p /\ a + s <= 2 ^ 64;
  bo_disj : forall k a s k' a' s', live_objs p !! k = Some (a, s) -> live_objs p !! k' = Some (a', s') -> k <> k' ->
    a + s <= a' \/ a' + s' <= a
}.

#[export] Instance BumpPool_laws : MemPoolLaws BumpPool.
Proof.
  refine {| pool_ok := bump_ok : @pool BumpPool -> Prop; max_request := bump_max;
            obj_live := fun (p : @pool BumpPool) k a s => live_objs p !! k = Some (a, s) |}; simpl.
  - intros p n [Hn Ho Hd] Hsz. rewrite (proj2 (Z.leb_gt _ _)) by lia.
    destruct (Z.leb_spec (next p + n) (2 ^ 64)) as [Hle|]; [|by exists p, None].
    set (k := fresh (dom (live_objs p))).
    assert (live_objs p !! k = None) as Hk by (apply not_elem_of_dom, is_fresh).
    eexists _, _. split; [reflexivity|]. split; [|split; [|split]].
    + split; simpl; [lia| |].
      * intros k' a s Hl. destruct (decide (k = k')) as [<-|]; simplify_map_eq; [lia|]. destruct (Ho _ _ _ Hl). lia.
      * intros k1 a1 s1 k2 a2 s2 H1 H2 Hne.
        destruct (decide (k = k1)) as [<-|]; destruct (decide (k = k2)) as [<-|]; simplify_map_eq; try done.
        -- destruct (Ho _ _ _ H2). lia.
        -- destruct (Ho _ _ _ H1). lia.
        -- by eapply Hd.
    + exists (next p), n. simpl. by simplify_map_eq.
    + intros a s. by rewrite Hk.
    + intros k' a s Hne. simpl. by rewrite lookup_insert_ne.
  - intros p k a s [Hn Ho Hd] Hl. rewrite Hl. eexists. split; [reflexivity|]. split.
    + split; simpl; [done| |].
      * intros k' a' s' [_ Hl']%lookup_delete_Some. by eapply Ho.
      * intros k1 a1 s1 k2 a2 s2 [_ H1]%lookup_delete_Some [_ H2]%lookup_delete_Some. by eapply Hd.
    + intros k' a' s'. simpl. rewrite lookup_delete_Some. naive_solver.
  - intros p k a s [Hn Ho Hd] Hl. rewrite Hl. split; [done|]. destruct (Ho _ _ _ Hl). lia.
  - intros p k a s k' a' s' [Hn Ho Hd]. apply Hd.
Defined.

Lemma bump_room m (p : bump) : next p + Z.of_nat m * bump_max <= 2 ^ 64 -> room m p.
Proof.
  revert p. induction m as [|m IH]; intros p Hle; [done|]. unfold bump_max in *. split.
  - intros n p' r Hn. cbn -[Z.pow]. change (@max_request _ BumpPool_laws) with 67108880 in Hn.
    rewrite (proj2 (Z.leb_gt _ _)) by lia. rewrite (proj2 (Z.leb_le _ _)) by lia. intros [= <- <-].
    split; [done|]. apply IH. simpl. lia.
  - intros k p'. cbn. destruct (live_objs p !! k); [|done]. intros [= <-]. apply IH. simpl. lia.
Qed.

#[export] Instance TestProto : ProtoMsg := {|
  pb_msg := nat; ByteSize n := Z.of_nat n; pb_bytes n := replicate n 7
|}.
#[export] Instance TestProto_laws : ProtoMsgLaws TestProto.
Proof.
  split; intros n; simpl; [by rewrite length_replicate|]. apply Forall_replicate. by unfold in_u.
Qed.

Definition world0 : world BumpPool := mkWorld (touch ∅ 4096 16) (mkBump 4112 {[ 1%positive := (4096, 16) ]}) ∅.
Definition hb0 : Buffer := CommonUtils_GetNewBuffer 1 4096 16.
Definition peer0 : net_peer_info_t := mkPeer (mkAddr "10.0.0.7" 2000) Tcp.

(** A worker whose reads and writes meet the given scripts. *)
Definition worker (ct : CreatorType) (st : ConnectionState) (done : bool) (q : list (SndMessage TestProto))
    (rd : list rd_event) (wr : list wr_event) : conn :=
  mkConn (mkRH StartToRcvHeader (mkHeader 0 0 0) hb0 None) (mkSH None q)
    (mkHS ct st done 2001 peer0 peer0) (mkEnv world0 [] 0 rd wr [] []).

Lemma world0_ok : pool_ok (w_pool world0).
Proof.
  split; simpl; [lia| |].
  - intros k a s [<- [= <- <-]]%lookup_singleton_Some. lia.
  - intros k a s k' a' s' [<- _]%lookup_singleton_Some [<- _]%lookup_singleton_Some. done.
Qed.

Lemma worker_base ct done q rd wr m : clean rd -> Z.of_nat m < 2 ^ 30 ->
  base (worker ct Connected done q rd wr) 4096 m.
Proof.
  intros Hc Hm. split; try done; [apply world0_ok| |constructor|apply touch_range_ok].
  apply bump_room. simpl. unfold bump_max. lia.
Qed.

Definition msgs0 : list (Z * list Z) := [(5, [1; 2; 3]); (9, [4])].

(** The bytes of [msgs0] in three pieces, with an interrupted and a blocked read. *)
Definition rd0 : list rd_event :=
  [RdData (take 7 (stream msgs0)); RdErr EINTR; RdData (take 20 (drop 7 (stream msgs0))); RdErr EAGAIN;
   RdData (drop 27 (stream msgs0))].

Lemma bytes_dec_ok l : forallb (fun z => Z.leb 0 z && Z.ltb z 256) l = true -> is_bytes l.
Proof.
  intros H. apply Forall_forall. intros x Hx. rewrite forallb_forall in H. specialize (H x).
  rewrite <- list_elem_of_In in H. specialize (H Hx). unfold in_u. lia.
Qed.

Lemma rd0_clean : clean rd0.
Proof.
  unfold clean, rd0. rewrite !Forall_cons, Forall_nil. cbn [clean_event].
  split_and!; first [done|by left|by right|apply bytes_dec_ok; vm_compute; reflexivity].
Qed.

Lemma msgs0_ok : Forall (fun m => msg_ok m.1 m.2) msgs0.
Proof.
  unfold msgs0. rewrite !Forall_cons, Forall_nil. split_and!; [split..|done]; vm_compute; intuition (congruence || lia).
Qed.

Definition rcv0 : conn := worker Server Connected true [] rd0 [].

Lemma rcv0_base : base rcv0 4096 (2 * rd_size (e_rd (c_env rcv0))).
Proof. apply worker_base; [exact rd0_clean|vm_compute; reflexivity]. Qed.

Lemma sizeof_ok : 0 < 120 <= @max_request _ BumpPool_laws.
Proof. vm_compute. split; congruence. Qed.

Lemma recv_reassembles_witness : exists c',
  pump 120 (fun _ => true) (rd_size (e_rd (c_env rcv0))) (S (rd_size (e_rd (c_env rcv0)))) rcv0 = Ret (c', true) /\
  e_notified (c_env c') = e_notified (c_env rcv0) ++ (notification (m_logicPeer (c_hs rcv0)) <$> msgs0).
Proof.
  destruct (recv_reassembles 120 (fun _ => true) sizeof_ok rcv0 4096 msgs0 rcv0_base ltac:(reflexivity) msgs0_ok
    ltac:(vm_compute; reflexivity)) as (c' & E & _ & _ & Hn).
  exists c'. split; [exact E|exact Hn].
Defined.

(** The two messages as the queue of a sender, and writes of one byte each. *)
Definition q0 : list (SndMessage TestProto) :=
  [mkSnd (mkHeader 0 5 0) true None (RpcRequest 258 (Some 3%nat)); mkSnd (mkHeader 0 9 0) true None (ConnectRequestMessage 2001)].

Definition snd0 : conn := worker Client Connected true q0 [] (replicate 60 (WrRoom 1)).

Lemma snd0_sbase : sbase snd0 [] (S (turns_left snd0)).
Proof.
  split; [apply world0_ok|apply bump_room; vm_compute; congruence|constructor|done| |].
  - unfold snd0, worker. cbn [c_snd m_bqMessages]. unfold q0. rewrite !Forall_cons, Forall_nil.
    split_and!; [split|split|done]; try done; try (vm_compute; split; congruence).
    all: try (split; [apply bytes_dec_ok; vm_compute; reflexivity|vm_compute; split; congruence]).
    all: vm_compute; congruence.
  - apply Forall_replicate. done.
Qed.

Lemma send_in_order_witness : exists c', Send (S (turns_left snd0)) snd0 = Ret (c', true) /\
  m_bqMessages (c_snd c') = [] /\ e_out (c_env c') = stream (snd_msg <$> q0).
Proof.
  destruct (send_in_order snd0 [] snd0_sbase) as (c' & cur' & bs & E & _ & Ho & _ & _ & _ & _ & Hall).
  destruct (Hall ltac:(apply (bool_decide_unpack _); vm_compute; reflexivity) ltac:(vm_compute; lia)) as [E0 Eb].
  exists c'. split; [exact E|]. rewrite Ho, Eb. split; [|reflexivity].
  apply app_eq_nil in E0 as [_ E0]. destruct (m_bqMessages (c_snd c')) as [|m q]; [reflexivity|].
  exfalso. cbn [fmap list_fmap stream] in E0. discriminate (f_equal (@length Z) E0).
Defined.

(** The receiver of [snd0]: the bytes come in two pieces. *)
Definition rcv1 : conn :=
  worker Server Connected true [] [RdData (take 3 (stream (snd_msg <$> q0))); RdData (drop 3 (stream (snd_msg <$> q0)))] [].

Lemma rcv1_base : base rcv1 4096 (2 * rd_size (e_rd (c_env rcv1))).
Proof.
  apply worker_base; [|vm_compute; reflexivity]. unfold clean. rewrite !Forall_cons, Forall_nil. cbn [clean_event].
  split_and!; [apply bytes_dec_ok; vm_compute; reflexivity..|done].
Qed.

Lemma q0_msgs_ok : Forall (fun m => msg_ok (A := BumpPool) m.1 m.2) (snd_msg <$> m_bqMessages (c_snd snd0)).
Proof.
  cbn [snd0 worker c_snd m_bqMessages q0 fmap list_fmap]. rewrite !Forall_cons, Forall_nil.
  split_and!; [split..|done]; vm_compute; intuition (congruence || lia).
Qed.

Lemma delivery_witness : exists c1', Send (S (turns_left snd0)) snd0 = Ret (c1', true) /\
  (rd_bytes (e_rd (c_env rcv1)) = e_out (c_env c1') ->
   exists c2', pump (U := BigEndianHost) 120 (fun _ => true) (rd_size (e_rd (c_env rcv1))) (S (rd_size (e_rd (c_env rcv1)))) rcv1
       = Ret (c2', true) /\
     e_notified (c_env c2') = e_notified (c_env rcv1) ++
       (notification (m_logicPeer (c_hs rcv1)) <$> (snd_msg <$> m_bqMessages (c_snd snd0)))).
Proof.
  exact (delivery LittleEndianHost BigEndianHost LittleEndianHost_laws BigEndianHost_laws 120 (fun _ => true) snd0 rcv1 4096
    sizeof_ok snd0_sbase ltac:(apply (bool_decide_unpack _); vm_compute; reflexivity) eq_refl
    ltac:(vm_compute; lia) q0_msgs_ok rcv1_base eq_refl).
Defined.

(** An accepted connection whose first read brings five bytes. *)
Definition srv0 : conn := worker Server Connecting false [] [RdData (take 5 (stream msgs0)); RdData (drop 5 (stream msgs0))] [].

Lemma initialize_short_read_waits_witness : exists c', Initialize 120 (fun _ => true) 100 srv0 = Ret (c', InitWaits) /\
  e_rd (c_env c') = [RdData (drop 5 (stream msgs0))] /\ e_notified (c_env c') = [].
Proof.
  exact (initialize_short_read_waits 120 (fun _ => true) 99 srv0 4096 (take 5 (stream msgs0)) [RdData (drop 5 (stream msgs0))]
    eq_refl eq_refl eq_refl eq_refl eq_refl ltac:(vm_compute; split; congruence) (touch_range_ok _ _ _) eq_refl
    ltac:(apply bytes_dec_ok; vm_compute; reflexivity) ltac:(vm_compute; lia)).
Defined.

(** A message of [Encode] for the concrete process. *)
Definition sm0 : SndMessage TestProto := mkSnd (mkHeader 0 5 0) true None (RpcRequest 258 (Some 3%nat)).

Lemma encode_decode_roundtrip_witness : exists w' fb' sm' b, Encode world0 [] sm0 = Ret (w', fb', sm', b) /\
  DecodeMsgHeader (w_mem w') b (mkHeader 0 0 0) = Ret (true, mkHeader MESSAGE_MAGIC_NO 5 5) /\
  peek_bytes (w_mem w') (m_pPos b + 16) 5 = Ret [1; 2; 7; 7; 7].
Proof.
  exact (encode_decode_roundtrip world0 [] sm0 (mkHeader 0 0 0) world0_ok
    ltac:(apply bump_room; vm_compute; congruence) (Forall_nil_2 _) eq_refl
    ltac:(split; [apply bytes_dec_ok; vm_compute; reflexivity|vm_compute; split; congruence])
    ltac:(vm_compute; split; congruence) ltac:(vm_compute; congruence)).
Defined.

Definition sm_long : SndMessage TestProto :=
  mkSnd (mkHeader 0 5 0) true None (RpcRequest 258 (Some (Z.to_nat 67108864))).

Lemma encode_too_long_witness : Encode world0 [] sm_long = Throw "message payload cannot more than 64MiB".
Proof.
  apply encode_too_long. unfold sm_long. cbn [body getDerivePayloadLength]. cbn -[Z.to_nat Z.of_nat].
  rewrite Z2Nat.id by lia. vm_compute. reflexivity.
Defined.

End Process.
