(* ===== verification/ProtoBuf.v ===== *)
(** * ProtoBuf: messages of protobuf in buffers

    Models src/src/common/protobuf-utils.cc: [Deserialize] and the [Serialize]
    that takes its memory from a pool; the one that writes into a buffer that
    is there is [Serialize] of Message.v.  Protobuf itself is a parameter. *)

From S2P Require Import Prelude MemPool MemPoolSafety PoolApi Buffer Codec Message NetWorker RecvProofs SendProofs Delivery.

Module ProtoBufUtils.

(** [mo->Size()] of a handle, as an addition to [MemPoolApi]: the bytes the
    object has, at least as many as were asked for. *)
Class SizedPool (A : MemPoolApi) `{!MemPoolLaws A} := {
  obj_size : pool -> positive -> outcome Z;
  law_size : forall p k a s, pool_ok p -> obj_live p k a s -> obj_size p k = Ret s
}.

(** The pool of MemPool.v has it. *)
Section instance.
Context (conf : MemPoolConf) (posix_memalign : gmap Z Z -> Z -> Z -> option Z) (iter : free_map -> list (Z * list Z)).
Hypothesis memalign_block : forall h al n p, posix_memalign h al n = Some p ->
  0 < p /\ p mod al = 0 /\ p + n <= 2 ^ 64 /\ forall q k, h !! q = Some k -> p + n <= q \/ q + k <= p.
Hypothesis iter_perm : forall m, iter m ≡ₚ map_to_list m.
Hypothesis Hconf : conf_ok conf.

Definition MemPoolImpl_sized : @SizedPool (MemPoolImpl conf posix_memalign iter) (MemPoolImpl_laws conf posix_memalign iter memalign_block iter_perm Hconf).
Proof.
  refine {| obj_size := fun (p : @pool (MemPoolImpl conf posix_memalign iter)) k =>
              match mo_store p !! k with Some mo => Ret (MemObjectApi.Size mo) | None => Undef "MemObject pointer without an object" end |}.
  intros p k a s _ (mo & Hl & _ & Hs). by rewrite (proj1 Hl), <- Hs.
Defined.
End instance.

Section utils.
Context `{A : MemPoolApi} `{AL : !MemPoolLaws A} `{S : !SizedPool A} `{P : ProtoMsg}.
(** [ParseFromArray] on the bytes of a message, [None] when it fails. *)
Context (ParseFromArray : list Z -> option pb_msg).

(** The message the result is parsed into, when it returns true. *)
Definition Deserialize (m : mem) (from : Buffer) : outcome (option pb_msg) :=
  let* bs := peek_bytes m (m_pPos from) (Z.to_nat (AvailableLength from)) in Ret (ParseFromArray bs).

Definition Serialize_pool (w : world A) (from : pb_msg) (to : Buffer) : outcome (world A * Buffer) :=
  let len := u32 (ByteSize from) in
  let* (w, mo, start) := mp_get w len in
  let* m := poke_bytes (w_mem w) start (pb_bytes from) in
  let* size := obj_size (w_pool w) mo in
  Refresh (set_mem w m) to start (u64 (start + len - 1)) start (u64 (start + size - 1)) (Some mo).

Context {PL : ProtoMsgLaws P}.

(** A message that is serialised into an empty buffer is parsed again from it;
    the buffer has the whole object, and every other object keeps its bytes. *)
Theorem serialize_roundtrip (w : world A) (from : pb_msg) : pool_ok (w_pool w) -> room 1 (w_pool w) ->
  0 < ByteSize from <= max_request -> ByteSize from <= 2 ^ 31 -> ParseFromArray (pb_bytes from) = Some from ->
  exists w' b, Serialize_pool w from null_buffer = Ret (w', b) /\ Deserialize (w_mem w') b = Ret (Some from) /\
    AvailableLength b = ByteSize from /\ ByteSize from <= m_pEnd b - m_pStart b + 1 /\
    forall k a s x v, obj_live (w_pool w) k a s -> a <= x < a + s -> w_mem w !! x = Some v -> w_mem w' !! x = Some v.
Proof using PL.
  intros Hp Hr Hn Hn2 Hparse. unfold Serialize_pool. rewrite u32_id by (unfold in_u; lia).
  destruct (mp_get_ok w (ByteSize from) 0 Hp Hn Hr) as (w1 & k & a & s & Eg & Em & _ & Hp1 & _ & Hl & Hs & Ha & Hb & Hno & Hiff). rewrite Eg. cbn [obind].
  pose proof (ByteSize_length from) as El.
  rewrite poke_bytes_fill; [|apply pb_is_bytes|rewrite Em, <- El; apply touch_range_ok]. cbn [obind].
  rewrite (law_size _ _ _ _ Hp1 Hl). cbn [obind Refresh null_buffer m_pMpObject delete_arr m_pStart Z.eqb].
  eexists _, _. split; [reflexivity|]. rewrite !u64_id by (unfold in_u; lia).
  set (b := check_available _).
  assert (AvailableLength b = ByteSize from) as Eav.
  { unfold AvailableLength, b, check_available. cbn. zeqb. cbn. rewrite (proj2 (Z.leb_le _ _)) by lia. cbn. rewrite i32_small by lia. lia. }
  split; [|split; [exact Eav|split]].
  - unfold Deserialize. rewrite Eav. cbn [w_mem set_mem]. change (m_pPos b) with a.
    rewrite El, Nat2Z.id, (peek_bytes_at _ _ (pb_bytes from)) by apply fill_bytes_at. cbn [obind]. by rewrite Hparse.
  - cbn. lia.
  - intros k' a' s' x v Hl' Hx Hv. cbn. assert (k' <> k) as Hne by (intros ->; by eapply Hno).
    rewrite fill_lookup_out; [rewrite Em; by apply touch_keeps|]. rewrite <- El.
    destruct (law_disjoint _ _ _ _ _ _ _ Hp1 (proj2 (Hiff _ _ _ Hne) Hl') Hl Hne); lia.
Qed.

End utils.
End ProtoBufUtils.

(** ** Example *)
Module ProtoBufDemo.
Import Process ProtoBufUtils.

#[local] Instance bump_sized : SizedPool BumpPool.
Proof.
  refine {| obj_size := fun (p : @pool BumpPool) k => match live_objs p !! k with Some (_, s) => Ret s | None => Undef "object without memory" end |}.
  intros p k a s _ Hl. cbn in Hl. by rewrite Hl.
Defined.

(** The state of the process of Delivery.v, and a message of three bytes. *)
Definition parse (bs : list Z) : option (@pb_msg TestProto) := Some (length bs).

Lemma serialize_roundtrip_witness : exists w' b, Serialize_pool world0 (3%nat : @pb_msg TestProto) null_buffer = Ret (w', b) /\ Deserialize parse (w_mem w') b = Ret (Some 3%nat).
Proof.
  destruct (serialize_roundtrip parse world0 (3%nat : @pb_msg TestProto) world0_ok ltac:(apply bump_room; vm_compute; congruence) ltac:(vm_compute; split; congruence) ltac:(vm_compute; congruence) eq_refl)
    as (w' & b & E1 & E2 & _). exists w', b. split; [exact E1|exact E2].
Defined.

End ProtoBufDemo.
