(* ===== verification/SendRace.v ===== *)
(** * SendRace: who sends a queued message

    Models [ANetStackMessageWorker::SendMessage] (net-stack-msg-worker.cc) and
    [PosixTcpNetStackWorker::Send] (net-stack-worker.cc) together, at the
    granularity of their calls on the queue: any number of threads send on one
    connection while its event worker serves write events.  What a message
    looks like on the wire is in Message.v and SendProofs.v. *)

From S2P Require Import Prelude.

Module SendRace.

Section race.
Context {M : Type}.

(** A thread in [SendMessage] after its call of [Size()], and one that has yet to
    queue the write event and wake the worker. *)
Inductive sender := Sized (previousSize : nat) (m : M) | Notifying.

(** [m_queue] and [m_iQueueMaxSize] are [m_bqMessages]; [sending] is
    [m_pSendingBuffer]; [events] counts the write events the worker has been
    given; [serving]: the worker is in [Send]; [blocked]: the socket was full,
    so that epoll reports it when it can be written again; [broken]: a write
    failed, and the message it was writing is lost. *)
Record connection := mkConn {
  m_iQueueMaxSize : nat;
  m_queue : list M;
  sending : option M;
  events : nat;
  serving : bool;
  blocked : bool;
  broken : bool;
  senders : list sender;
  accepted : list M;
  written : list M
}.

Definition connection_new (max : nat) : connection := mkConn max [] None 0 false false false [] [] [].

(** What [Write] did with the rest of the buffer: all of it, a part, nothing
    because the socket is full ([EAGAIN]), or nothing because the peer closed
    or an error came up. *)
Inductive write := WrittenAll | WrittenPart | Again | Failed.

Inductive action :=
| ASize (m : M)           (* a thread enters SendMessage and reads the size *)
| ASender (i : nat)       (* the next step of a thread in SendMessage *)
| AServe                  (* the worker takes a write event *)
| AWritable               (* epoll reports that the socket can be written *)
| ATurn (w : write).      (* a turn of the loop of Send *)

Definition set_senders (c : connection) (l : list sender) : connection :=
  mkConn (m_iQueueMaxSize c) (m_queue c) (sending c) (events c) (serving c) (blocked c) (broken c) l (accepted c) (written c).
Definition replace_sender (c : connection) (i : nat) (l : list sender) : list sender := l ++ take i (senders c) ++ drop (S i) (senders c).

(** [TryPush] and the test of [previousSize]; then the event and the wake-up. *)
Definition sender_step (c : connection) (i : nat) (t : sender) : connection :=
  match t with
  | Sized previousSize m =>
      if negb (Nat.eqb (m_iQueueMaxSize c) 0) && Nat.leb (m_iQueueMaxSize c) (length (m_queue c)) then set_senders c (replace_sender c i [])
      else
        mkConn (m_iQueueMaxSize c) (m_queue c ++ [m]) (sending c) (events c) (serving c) (blocked c) (broken c)
          (replace_sender c i (if Nat.eqb 0 previousSize then [Notifying] else [])) (accepted c ++ [m]) (written c)
  | Notifying =>
      mkConn (m_iQueueMaxSize c) (m_queue c) (sending c) (S (events c)) (serving c) (blocked c) (broken c) (replace_sender c i []) (accepted c) (written c)
  end.

(** A turn of [Send]: the buffer is written, or the next message is taken.
    The buffer of a message is never empty: it has a header. *)
Definition send_step (c : connection) (w : write) : connection :=
  match sending c with
  | Some m =>
      match w with
      | WrittenAll => mkConn (m_iQueueMaxSize c) (m_queue c) None (events c) true (blocked c) (broken c) (senders c) (accepted c) (written c ++ [m])
      | WrittenPart => c
      | Again => mkConn (m_iQueueMaxSize c) (m_queue c) (Some m) (events c) false true (broken c) (senders c) (accepted c) (written c)
      | Failed => mkConn (m_iQueueMaxSize c) (m_queue c) None (events c) false (blocked c) true (senders c) (accepted c) (written c)
      end
  | None =>
      match m_queue c with
      | m :: q => mkConn (m_iQueueMaxSize c) q (Some m) (events c) true (blocked c) (broken c) (senders c) (accepted c) (written c)
      | [] => mkConn (m_iQueueMaxSize c) [] None (events c) false (blocked c) (broken c) (senders c) (accepted c) (written c)
      end
  end.

Definition act (c : connection) (a : action) : option connection :=
  match a with
  | ASize m => Some (set_senders c (Sized (length (m_queue c)) m :: senders c))
  | ASender i => sender_step c i <$> senders c !! i
  | AServe =>
      match events c with
      | S n => if serving c then None else Some (mkConn (m_iQueueMaxSize c) (m_queue c) (sending c) n true (blocked c) (broken c) (senders c) (accepted c) (written c))
      | O => None
      end
  | AWritable =>
      if blocked c && negb (serving c) then Some (mkConn (m_iQueueMaxSize c) (m_queue c) (sending c) (events c) true false (broken c) (senders c) (accepted c) (written c))
      else None
  | ATurn w => if serving c then Some (send_step c w) else None
  end.

(** The order that keeps the test of [previousSize] true: a thread that saw
    messages pushes while there still are some. *)
Definition timely (c : connection) (a : action) : Prop :=
  match a with
  | ASender i => match senders c !! i with Some (Sized (S _) _) => m_queue c <> [] | _ => True end
  | _ => True
  end.

Definition step (c c' : connection) : Prop := exists a, timely c a /\ act c a = Some c'.
Definition free_step (c c' : connection) : Prop := exists a, act c a = Some c'.

(** Somebody will look at the queue. *)
Definition attended (c : connection) : Prop := serving c = true \/ (0 < events c)%nat \/ blocked c = true \/ Notifying ∈ senders c.

Definition inv (c : connection) : Prop :=
  broken c = false -> (m_queue c <> [] -> attended c) /\ (sending c <> None -> serving c = true \/ blocked c = true).

(** Order and bound hold under every schedule. *)
Definition flow (c : connection) : Prop :=
  (written c ++ option_list (sending c) ++ m_queue c) `sublist_of` accepted c /\
  (broken c = false -> accepted c = written c ++ option_list (sending c) ++ m_queue c) /\
  (m_iQueueMaxSize c <> 0%nat -> (length (m_queue c) <= m_iQueueMaxSize c)%nat).

Lemma replace_notifying c i t l : senders c !! i = Some t -> Notifying ∈ senders c -> t <> Notifying -> Notifying ∈ replace_sender c i l.
Proof.
  intros Ht Hn Hne. unfold replace_sender. rewrite <- (take_drop_middle _ _ _ Ht) in Hn.
  rewrite !elem_of_app, elem_of_cons in *. destruct Hn as [?|[?|?]]; [auto| |auto]. congruence.
Qed.

Lemma conn_inv_step c c' : inv c -> step c c' -> inv c'.
Proof.
  intros H (a & Ht & Ha). unfold inv, attended in *. destruct a as [m|i| | |w]; simpl in Ha.
  - injection Ha as <-. simpl in *. intros Hb. destruct (H Hb) as [H1 H2]. split; [|exact H2]. intros Hq.
    rewrite elem_of_cons. destruct (H1 Hq) as [?|[?|[?|?]]]; auto.
  - destruct (senders c !! i) as [t|] eqn:Ei; [|done]. simpl in Ha. injection Ha as <-. simpl in Ht. rewrite Ei in Ht.
    destruct t as [n m|]; simpl.
    + assert (Hkeep : broken c = false -> forall l, m_queue c <> [] -> serving c = true \/ (0 < events c)%nat \/ blocked c = true \/ Notifying ∈ replace_sender c i l).
      { intros Hb l Hq. destruct (H Hb) as [H1 _]. destruct (H1 Hq) as [?|[?|[?|?]]]; auto. right; right; right. by apply (replace_notifying c i (Sized n m)). }
      destruct (negb _ && _); simpl; intros Hb; (split; [|apply H, Hb]); [by apply Hkeep|]. intros _. destruct n as [|n]; simpl; [|by apply Hkeep].
      right; right; right. left.
    + intros Hb. split; [|apply H, Hb]. intros _. right; left. lia.
  - destruct (events c) as [|n]; [done|]. destruct (serving c); [done|]. injection Ha as <-. simpl. auto.
  - destruct (blocked c && negb (serving c)); [|done]. injection Ha as <-. simpl. auto.
  - destruct (serving c) eqn:Esv; [|done]. injection Ha as <-. unfold send_step. destruct (sending c) as [m|] eqn:Es.
    + destruct w; simpl; auto.
    + destruct (m_queue c) as [|m q]; simpl; intros Hb; split; auto; done.
Qed.

Lemma flow_step c c' : flow c -> free_step c c' -> flow c'.
Proof.
  intros (H0 & H1 & H2) (a & Ha). unfold flow in *. destruct a as [m|i| | |w]; simpl in Ha.
  - by injection Ha as <-.
  - destruct (senders c !! i) as [t|]; [|done]. simpl in Ha. injection Ha as <-. destruct t as [n m|]; simpl; [|done].
    destruct (Nat.eqb_spec (m_iQueueMaxSize c) 0), (Nat.leb_spec (m_iQueueMaxSize c) (length (m_queue c))); simpl; try done;
      (split; [rewrite !app_assoc; rewrite !app_assoc in H0; by apply sublist_app|]);
      (split; [intros Hb; rewrite (H1 Hb), <- !app_assoc; done|]); rewrite length_app; simpl; lia.
  - destruct (events c); [done|]. destruct (serving c); [done|]. by injection Ha as <-.
  - destruct (blocked c && negb (serving c)); [|done]. by injection Ha as <-.
  - destruct (serving c); [|done]. injection Ha as <-. unfold send_step. destruct (sending c) as [m|] eqn:Es; simpl in *.
    + destruct w; simpl; rewrite ?Es, <- ?app_assoc; simpl; try done. split; [|done].
      etransitivity; [|exact H0]. apply sublist_app; [done|]. by apply sublist_cons.
    + destruct (m_queue c) as [|m q]; simpl in *; [done|]. split; [done|]. split; [done|]. intros Hm. specialize (H2 Hm). lia.
Qed.

(** C34.  No message is left behind: under schedules in which a thread that saw a
    filled queue pushes while it is still filled, and no write fails, whenever
    nobody is about to look at the queue (the worker is outside [Send], has no
    write event and none coming, and the socket is not full) every accepted
    message has been written.  Under all schedules the messages are written in
    the order in which they were accepted, without a gap unless a write failed,
    and the queue stays within its bound (0 is no bound). *)
Theorem send_attended (max : nat) (c : connection) :
  (rtc step (connection_new max) c -> broken c = false ->
   serving c = false -> events c = 0%nat -> blocked c = false -> Notifying ∉ senders c -> written c = accepted c) /\
  (rtc free_step (connection_new max) c ->
   written c `sublist_of` accepted c /\ (broken c = false -> written c `prefix_of` accepted c) /\
   (m_iQueueMaxSize c <> 0%nat -> (length (m_queue c) <= m_iQueueMaxSize c)%nat)).
Proof.
  assert (Hflow : rtc free_step (connection_new max) c -> flow c).
  { intros Hr. apply (rtc_invariant free_step flow (connection_new max)); [apply flow_step| |exact Hr]. split; [done|]. simpl. split; [done|lia]. }
  split.
  - intros Hr Hbr Hs He Hb Hn. destruct Hflow as (_ & Hf & _).
    { eapply (rtc_subrel step); [|exact Hr]. intros x y (a & _ & H). by exists a. }
    assert (Hi : inv c).
    { apply (rtc_invariant step inv (connection_new max)); [apply conn_inv_step| |exact Hr]. split; simpl; done. }
    destruct (Hi Hbr) as [H1 H2]. specialize (Hf Hbr).
    destruct (sending c) as [m|]; [destruct (H2 ltac:(done)); congruence|].
    destruct (m_queue c) as [|m q]; [rewrite Hf; simpl; by rewrite app_nil_r|].
    destruct (H1 ltac:(done)) as [?|[?|[?|?]]]; [congruence|lia|congruence|contradiction].
  - intros Hr. destruct (Hflow Hr) as (H0 & H1 & H2). split; [|split; [|exact H2]].
    + etransitivity; [|exact H0]. by apply sublist_inserts_r.
    + intros Hb. rewrite (H1 Hb). by apply prefix_app_r.
Qed.

Fixpoint run (c : connection) (l : list action) : option connection :=
  match l with [] => Some c | a :: l => act c a ≫= fun c => run c l end.

Lemma run_reaches c l c' : run c l = Some c' -> rtc free_step c c'.
Proof.
  revert c. induction l as [|a l IH]; intros c; simpl; [intros [= ->]; apply rtc_refl|].
  destruct (act c a) as [c1|] eqn:E; simpl; [|done]. intros H. eapply rtc_l; [by exists a|]. auto.
Qed.

End race.

Ltac turn a := eapply rtc_l; [exists a; split; [exact I|reflexivity]|]; simpl.

(** One sender at a time, the second of them on a socket that fills up. *)
Lemma send_attended_witness :
  let c := mkConn 8 [] None 0 false false false [] [1; 2] [1; 2] in
  rtc step (connection_new 8) c /\ written c = accepted c.
Proof.
  assert (Hr : rtc step (connection_new 8) (mkConn 8 [] None 0 false false false [] [1; 2] [1; 2])).
  { turn (ASize 1 : @action Z).
    turn (ASender 0 : @action Z).
    turn (ASender 0 : @action Z).
    turn (AServe : @action Z).
    turn (ATurn WrittenAll : @action Z).
    turn (ATurn WrittenAll : @action Z).
    turn (ATurn WrittenAll : @action Z).
    turn (ASize 2 : @action Z).
    turn (ASender 0 : @action Z).
    turn (ASender 0 : @action Z).
    turn (AServe : @action Z).
    turn (ATurn WrittenAll : @action Z).
    turn (ATurn Again : @action Z).
    turn (AWritable : @action Z).
    turn (ATurn WrittenPart : @action Z).
    turn (ATurn WrittenAll : @action Z).
    turn (ATurn WrittenAll : @action Z).
    apply rtc_refl. }
  split; [exact Hr|].
  apply (proj1 (send_attended 8 (mkConn 8 [] None 0 false false false [] [1; 2] [1; 2])) Hr eq_refl eq_refl eq_refl eq_refl). apply not_elem_of_nil.
Defined.

(** The size is read before the push: a thread reads 1 for the message another
    thread has queued, the worker sends that one and leaves [Send], and the
    thread pushes without a write event.  Its message is queued, and nobody
    will look at it. *)
Theorem send_stranded : exists c : connection, rtc free_step (connection_new 8) c /\
  m_queue c = [2] /\ senders c = [] /\ broken c = false /\ serving c = false /\ events c = 0%nat /\ blocked c = false.
Proof.
  eexists. split; [apply (run_reaches _ [ASize 1; ASender 0; ASender 0; ASize 2; AServe; ATurn WrittenAll; ATurn WrittenAll; ATurn WrittenAll; ASender 0]);
    vm_compute; reflexivity|done].
Qed.

End SendRace.
