(* ===== verification/Hash.v ===== *)
(** * Hash: the MurmurHash3 routines

    Models src/src/common/hash-algorithms.cc (all three variants, on a
    little-endian host) and [std::hash<net_peer_info_t>] of net/common-def.h,
    which keys the connection tables of the worker manager. *)

From S2P Require Import Prelude Message.

Definition rotl32 (x r : Z) : Z := Z.lor (u32 (Z.shiftl x r)) (Z.shiftr x (32 - r)).
Definition rotl64 (x r : Z) : Z := Z.lor (u64 (Z.shiftl x r)) (Z.shiftr x (64 - r)).

(** [h ^= h >> s]. *)
Definition xorshift (s h : Z) : Z := Z.lxor h (Z.shiftr h s).

Definition fmix32 (h : Z) : Z :=
  let h := xorshift 16 h in
  let h := u32 (h * 2246822507) in
  let h := xorshift 13 h in
  let h := u32 (h * 3266489909) in
  xorshift 16 h.

Definition fmix64 (k : Z) : Z :=
  let k := xorshift 33 k in
  let k := u64 (k * 18397679294719823053) in
  let k := xorshift 33 k in
  let k := u64 (k * 14181476777654086739) in
  xorshift 33 k.

(** A word of [n] bytes read from memory, least significant byte first. *)
Fixpoint le_word (bs : list Z) : Z := match bs with [] => 0 | b :: bs => b + 256 * le_word bs end.
Definition read_word (n : nat) (m : mem) (a : Z) : outcome Z :=
  let* bs := peek_bytes m a n in Ret (le_word bs).

(** [getblock(p, i)] on [uint32_t*] and [uint64_t*]. *)
Definition getblock32 (m : mem) (p i : Z) : outcome Z := read_word 4 m (p + 4 * i).
Definition getblock64 (m : mem) (p i : Z) : outcome Z := read_word 8 m (p + 8 * i).

(** [k *= c; k = ROTL32(k, r); k *= c'; h ^= k]. *)
Definition mix32 (k c r c' h : Z) : Z := Z.lxor h (u32 (rotl32 (u32 (k * c)) r * c')).
Definition mix64 (k c r c' h : Z) : Z := Z.lxor h (u64 (rotl64 (u64 (k * c)) r * c')).

(** One fall-through case of the tail switch: [case c: k ^= tail[i] << s;]. *)
Definition tail_case (m : mem) (tail r c i s k : Z) : outcome Z :=
  if Z.leb c r then let* b := peek m (tail + i) in Ret (Z.lxor k (Z.shiftl b s)) else Ret k.

(** ** MurmurHash3_x86_32 *)

Definition round_x86_32 (h1 k1 : Z) : Z :=
  let h1 := mix32 k1 3432918353 15 461845907 h1 in
  let h1 := rotl32 h1 13 in
  u32 (h1 * 5 + 3864292196).

(** [for (i = -nblocks; i; i++)], [n] iterations from the end. *)
Fixpoint body_x86_32 (m : mem) (blocks : Z) (n : nat) (h1 : Z) : outcome Z :=
  match n with
  | O => Ret h1
  | S n' => let* k1 := getblock32 m blocks (- Z.of_nat n) in body_x86_32 m blocks n' (round_x86_32 h1 k1)
  end.

(** [len] is an [int]: a key has fewer than 2^31 bytes. *)
Definition MurmurHash3_x86_32 (m : mem) (key len seed : Z) : outcome Z :=
  let nblocks := len / 4 in
  let tail := key + nblocks * 4 in
  let* h1 := body_x86_32 m tail (Z.to_nat nblocks) seed in
  let r := Z.land len 3 in
  let* k1 := tail_case m tail r 3 2 16 0 in
  let* k1 := tail_case m tail r 2 1 8 k1 in
  let* k1 := tail_case m tail r 1 0 0 k1 in
  let h1 := if Z.leb 1 r then mix32 k1 3432918353 15 461845907 h1 else h1 in
  Ret (fmix32 (Z.lxor h1 len)).

(** ** MurmurHash3_x86_128 *)

Definition quad : Type := Z * Z * Z * Z.

Definition round_x86_128 (h k : quad) : quad :=
  let '(h1, h2, h3, h4) := h in
  let '(k1, k2, k3, k4) := k in
  let h1 := mix32 k1 597399067 15 2869860233 h1 in
  let h1 := u32 (u32 (rotl32 h1 19 + h2) * 5 + 1444728091) in
  let h2 := mix32 k2 2869860233 16 951274213 h2 in
  let h2 := u32 (u32 (rotl32 h2 17 + h3) * 5 + 197830471) in
  let h3 := mix32 k3 951274213 17 2716044179 h3 in
  let h3 := u32 (u32 (rotl32 h3 15 + h4) * 5 + 2530024501) in
  let h4 := mix32 k4 2716044179 18 597399067 h4 in
  let h4 := u32 (u32 (rotl32 h4 13 + h1) * 5 + 850148119) in
  (h1, h2, h3, h4).

Fixpoint body_x86_128 (m : mem) (blocks : Z) (n : nat) (h : quad) : outcome quad :=
  match n with
  | O => Ret h
  | S n' =>
      let i := - Z.of_nat n in
      let* k1 := getblock32 m blocks (i * 4 + 0) in
      let* k2 := getblock32 m blocks (i * 4 + 1) in
      let* k3 := getblock32 m blocks (i * 4 + 2) in
      let* k4 := getblock32 m blocks (i * 4 + 3) in
      body_x86_128 m blocks n' (round_x86_128 h (k1, k2, k3, k4))
  end.

(** [h1 += h2; h1 += h3; h1 += h4; h2 += h1; h3 += h1; h4 += h1;]. *)
Definition add_all (h : quad) : quad :=
  let '(h1, h2, h3, h4) := h in
  let h1 := u32 (u32 (u32 (h1 + h2) + h3) + h4) in
  (h1, u32 (h2 + h1), u32 (h3 + h1), u32 (h4 + h1)).

Definition finish_x86_128 (h : quad) (len : Z) : quad :=
  let '(h1, h2, h3, h4) := h in
  let '(h1, h2, h3, h4) := add_all (Z.lxor h1 len, Z.lxor h2 len, Z.lxor h3 len, Z.lxor h4 len) in
  add_all (fmix32 h1, fmix32 h2, fmix32 h3, fmix32 h4).

Definition MurmurHash3_x86_128 (m : mem) (key len seed : Z) : outcome quad :=
  let nblocks := len / 16 in
  let tail := key + nblocks * 16 in
  let* (h1, h2, h3, h4) := body_x86_128 m tail (Z.to_nat nblocks) (seed, seed, seed, seed) in
  let r := Z.land len 15 in
  let* k4 := tail_case m tail r 15 14 16 0 in
  let* k4 := tail_case m tail r 14 13 8 k4 in
  let* k4 := tail_case m tail r 13 12 0 k4 in
  let h4 := if Z.leb 13 r then mix32 k4 2716044179 18 597399067 h4 else h4 in
  let* k3 := tail_case m tail r 12 11 24 0 in
  let* k3 := tail_case m tail r 11 10 16 k3 in
  let* k3 := tail_case m tail r 10 9 8 k3 in
  let* k3 := tail_case m tail r 9 8 0 k3 in
  let h3 := if Z.leb 9 r then mix32 k3 951274213 17 2716044179 h3 else h3 in
  let* k2 := tail_case m tail r 8 7 24 0 in
  let* k2 := tail_case m tail r 7 6 16 k2 in
  let* k2 := tail_case m tail r 6 5 8 k2 in
  let* k2 := tail_case m tail r 5 4 0 k2 in
  let h2 := if Z.leb 5 r then mix32 k2 2869860233 16 951274213 h2 else h2 in
  let* k1 := tail_case m tail r 4 3 24 0 in
  let* k1 := tail_case m tail r 3 2 16 k1 in
  let* k1 := tail_case m tail r 2 1 8 k1 in
  let* k1 := tail_case m tail r 1 0 0 k1 in
  let h1 := if Z.leb 1 r then mix32 k1 597399067 15 2869860233 h1 else h1 in
  Ret (finish_x86_128 (h1, h2, h3, h4) len).

(** ** MurmurHash3_x64_128 *)

Definition round_x64_128 (h k : Z * Z) : Z * Z :=
  let '(h1, h2) := h in
  let '(k1, k2) := k in
  let h1 := mix64 k1 9782798678568883157 31 5545529020109919103 h1 in
  let h1 := u64 (u64 (rotl64 h1 27 + h2) * 5 + 1390208809) in
  let h2 := mix64 k2 5545529020109919103 33 9782798678568883157 h2 in
  let h2 := u64 (u64 (rotl64 h2 31 + h1) * 5 + 944331445) in
  (h1, h2).

(** [for (i = 0; i < nblocks; i++)]. *)
Fixpoint body_x64_128 (m : mem) (blocks i : Z) (n : nat) (h : Z * Z) : outcome (Z * Z) :=
  match n with
  | O => Ret h
  | S n =>
      let* k1 := getblock64 m blocks (i * 2 + 0) in
      let* k2 := getblock64 m blocks (i * 2 + 1) in
      body_x64_128 m blocks (i + 1) n (round_x64_128 h (k1, k2))
  end.

Definition finish_x64_128 (h : Z * Z) (len : Z) : Z * Z :=
  let '(h1, h2) := h in
  let h1 := Z.lxor h1 len in let h2 := Z.lxor h2 len in
  let h1 := u64 (h1 + h2) in let h2 := u64 (h2 + h1) in
  let h1 := fmix64 h1 in let h2 := fmix64 h2 in
  let h1 := u64 (h1 + h2) in let h2 := u64 (h2 + h1) in
  (h1, h2).

Definition MurmurHash3_x64_128 (m : mem) (key len seed : Z) : outcome (Z * Z) :=
  let nblocks := len / 16 in
  let tail := key + nblocks * 16 in
  let* (h1, h2) := body_x64_128 m key 0 (Z.to_nat nblocks) (seed, seed) in
  let r := Z.land len 15 in
  let* k2 := tail_case m tail r 15 14 48 0 in
  let* k2 := tail_case m tail r 14 13 40 k2 in
  let* k2 := tail_case m tail r 13 12 32 k2 in
  let* k2 := tail_case m tail r 12 11 24 k2 in
  let* k2 := tail_case m tail r 11 10 16 k2 in
  let* k2 := tail_case m tail r 10 9 8 k2 in
  let* k2 := tail_case m tail r 9 8 0 k2 in
  let h2 := if Z.leb 9 r then mix64 k2 5545529020109919103 33 9782798678568883157 h2 else h2 in
  let* k1 := tail_case m tail r 8 7 56 0 in
  let* k1 := tail_case m tail r 7 6 48 k1 in
  let* k1 := tail_case m tail r 6 5 40 k1 in
  let* k1 := tail_case m tail r 5 4 32 k1 in
  let* k1 := tail_case m tail r 4 3 24 k1 in
  let* k1 := tail_case m tail r 3 2 16 k1 in
  let* k1 := tail_case m tail r 2 1 8 k1 in
  let* k1 := tail_case m tail r 1 0 0 k1 in
  let h1 := if Z.leb 1 r then mix64 k1 9782798678568883157 31 5545529020109919103 h1 else h1 in
  Ret (finish_x64_128 (h1, h2) len).

(** ** [std::hash<net_peer_info_t>] (net/common-def.h:111-125) *)

Definition protocol_code (p : SocketProtocol) : Z := match p with ProtoNone => 0 | Tcp => 1 | Udp => 2 end.

(** The decimal digits [operator<<] prints for a number of at most 20 digits. *)
Fixpoint digits (fuel : nat) (z : Z) : list Z :=
  match fuel with
  | O => []
  | S fuel => (if Z.ltb z 10 then [] else digits fuel (z / 10)) ++ [48 + z mod 10]
  end.
Definition decimal (z : Z) : list Z := digits 20 z.

(** [addr:port-sp]. *)
Definition peer_key (p : net_peer_info_t) : list Z :=
  string_bytes (addr (nat_ p)) ++ [58] ++ decimal (port (nat_ p)) ++ [45] ++ decimal (protocol_code (sp p)).

(** The key is a C string at [buf]. *)
Definition hash_peer (m : mem) (buf : Z) (p : net_peer_info_t) : outcome Z :=
  let key := peer_key p in
  let* m := poke_bytes m buf key in
  MurmurHash3_x86_32 m buf (Z.of_nat (length key)) 22.

(** ** Test vectors *)

Definition bytes_mem (a : Z) (bs : list Z) : mem := fill ∅ a bs.

Example x86_32_vectors :
  MurmurHash3_x86_32 (bytes_mem 64 []) 64 0 1 = Ret 1364076727 /\
  MurmurHash3_x86_32 (bytes_mem 64 (string_bytes "hello")) 64 5 0 = Ret 613153351 /\
  MurmurHash3_x86_32 (bytes_mem 64 (string_bytes "hello, world")) 64 12 0 = Ret 345750399.
Proof. vm_compute. auto. Qed.

Example x64_128_vector :
  MurmurHash3_x64_128 (bytes_mem 64 (string_bytes "hello")) 64 5 0 = Ret (14688674573012802306, 6565844092913065241).
Proof. vm_compute. reflexivity. Qed.

(** ** The hash of a byte string, without memory *)

(** Consume the four-byte blocks; the rest is the tail. *)
Fixpoint fold_blocks (bs : list Z) (h : Z) : Z * list Z :=
  match bs with
  | b0 :: b1 :: b2 :: b3 :: bs => fold_blocks bs (round_x86_32 h (le_word [b0; b1; b2; b3]))
  | _ => (h, bs)
  end.

Definition murmur32 (bs : list Z) (seed : Z) : Z :=
  let '(h, t) := fold_blocks bs seed in
  let h := if decide (t = []) then h else mix32 (le_word t) 3432918353 15 461845907 h in
  fmix32 (Z.lxor h (Z.of_nat (length bs))).

Lemma body_x86_32_fold m n : forall a bs h, bytes_at m a bs -> (4 * n <= length bs)%nat -> (length bs < 4 * n + 4)%nat ->
  exists t, body_x86_32 m (a + 4 * Z.of_nat n) n h = Ret (fst (fold_blocks bs h)) /\
    snd (fold_blocks bs h) = t /\ t = drop (4 * n) bs /\ bytes_at m (a + 4 * Z.of_nat n) t.
Proof.
  induction n as [|n IH]; intros a bs h Hb Hl Hu.
  - exists bs. rewrite drop_0. replace (a + 4 * Z.of_nat 0) with a by lia.
    destruct bs as [|b0 [|b1 [|b2 [|b3 bs]]]]; simpl in *; try lia; split_and!; done.
  - destruct bs as [|b0 [|b1 [|b2 [|b3 bs]]]]; simpl in Hl; try lia.
    cbn [body_x86_32 fold_blocks].
    change (b0 :: b1 :: b2 :: b3 :: bs) with ([b0; b1; b2; b3] ++ bs) in Hb. apply bytes_at_app in Hb as [H1 H2].
    unfold getblock32, read_word. replace (a + 4 * Z.of_nat (S n) + 4 * - Z.of_nat (S n)) with a by lia.
    rewrite (peek_bytes_at _ _ _ H1 : peek_bytes m a 4 = _). cbn [obind].
    change (Z.of_nat (length [b0; b1; b2; b3])) with 4 in H2.
    destruct (IH (a + 4) bs (round_x86_32 h (le_word [b0; b1; b2; b3])) H2) as (t & E & Et & Ed & Hb); simpl in *; try lia.
    exists t. replace (a + 4 * Z.of_nat (S n)) with (a + 4 + 4 * Z.of_nat n) by lia.
    split; [exact E|]. split; [done|]. split; [|done]. rewrite Ed.
    replace (n + S (n + S (n + S (n + 0))))%nat with (S (S (S (4 * n)))) by lia. reflexivity.
Qed.

(** Shifting bytes in from the top gives the little-endian word. *)
Lemma lxor_byte x b : 0 <= x -> in_u 8 b -> Z.lxor (Z.shiftl x 8) b = b + 256 * x.
Proof.
  intros Hx Hb. unfold in_u in Hb. rewrite Z.add_comm. replace (256 * x) with (Z.shiftl x 8) by (rewrite Z.shiftl_mul_pow2; lia).
  symmetry. rewrite <- Z.add_nocarry_lxor; [done|]. apply Z.bits_inj'. intros i Hi. rewrite Z.land_spec, Z.bits_0.
  destruct (Z.lt_ge_cases i 8).
  - by rewrite Z.shiftl_spec_low.
  - rewrite (in_u_testbit 8 b i) by (unfold in_u; lia). apply andb_false_r.
Qed.

Lemma tail_word m tl (t : list Z) : is_bytes t -> bytes_at m tl t -> (length t < 4)%nat ->
  (let* k1 := tail_case m tl (Z.of_nat (length t)) 3 2 16 0 in
   let* k1 := tail_case m tl (Z.of_nat (length t)) 2 1 8 k1 in
   tail_case m tl (Z.of_nat (length t)) 1 0 0 k1) = Ret (le_word t).
Proof.
  intros Hby Hat Hl. unfold tail_case.
  assert (forall i b, 0 <= i -> t !! Z.to_nat i = Some b -> peek m (tl + i) = Ret b) as Hpk.
  { intros i b Hi Hl'. apply peek_at. rewrite <- (Z2Nat.id i) by done. by apply Hat. }
  destruct t as [|b0 [|b1 [|b2 [|]]]]; simpl in Hl; try lia; simpl.
  - done.
  - rewrite (Hpk 0 b0 ltac:(lia) eq_refl). cbn [obind]. by rewrite Z.shiftl_0_r, Z.lxor_0_l, Z.add_0_r.
  - rewrite (Hpk 1 b1 ltac:(lia) eq_refl). cbn [obind]. rewrite (Hpk 0 b0 ltac:(lia) eq_refl). cbn [obind].
    apply Forall_cons in Hby as [H0 [H1 _]%Forall_cons]. rewrite Z.lxor_0_l, Z.shiftl_0_r, lxor_byte by (done || apply H1).
    f_equal. lia.
  - rewrite (Hpk 2 b2 ltac:(lia) eq_refl). cbn [obind]. rewrite (Hpk 1 b1 ltac:(lia) eq_refl). cbn [obind]. rewrite (Hpk 0 b0 ltac:(lia) eq_refl).
    cbn [obind]. apply Forall_cons in Hby as [H0 [H1 [H2 _]%Forall_cons]%Forall_cons].
    rewrite Z.lxor_0_l, Z.shiftl_0_r. change 16 with (8 + 8). rewrite <- Z.shiftl_shiftl, <- Z.shiftl_lxor by lia.
    rewrite (lxor_byte b2 b1) by (done || apply H2). rewrite lxor_byte; [f_equal; lia| |done].
    unfold in_u in *. lia.
Qed.

Lemma land_ones_mod z k : 0 <= k -> Z.land z (2 ^ k - 1) = z mod 2 ^ k.
Proof. intros. rewrite <- Z.land_ones by done. f_equal. rewrite Z.ones_equiv. lia. Qed.

Lemma murmur32_run (m : mem) (key seed : Z) (bs : list Z) :
  is_bytes bs -> bytes_at m key bs ->
  MurmurHash3_x86_32 m key (Z.of_nat (length bs)) seed = Ret (murmur32 bs seed).
Proof.
  intros Hby Hat. unfold MurmurHash3_x86_32, murmur32.
  set (n := (length bs / 4)%nat).
  assert (Z.of_nat (length bs) / 4 = Z.of_nat n) as En by (unfold n; rewrite Nat2Z.inj_div; done).
  pose proof (Nat.div_mod (length bs) 4 ltac:(lia)) as Hdm. fold n in Hdm.
  pose proof (Nat.mod_upper_bound (length bs) 4 ltac:(lia)) as Hm.
  rewrite En. replace (Z.of_nat n * 4) with (4 * Z.of_nat n) by lia. rewrite Nat2Z.id.
  destruct (body_x86_32_fold m n key bs seed Hat ltac:(lia) ltac:(lia)) as (t & E & Et & Ed & Ht).
  rewrite E. cbn [obind]. destruct (fold_blocks bs seed) as [h t'] eqn:Ef. simpl in Et. subst t'. simpl fst.
  assert (length t = length bs mod 4)%nat as Elen by (rewrite Ed, length_drop; lia).
  assert (Z.land (Z.of_nat (length bs)) 3 = Z.of_nat (length t)) as ->.
  { change 3 with (2 ^ 2 - 1). rewrite land_ones_mod by lia. rewrite Elen, Nat2Z.inj_mod. done. }
  pose proof (tail_word m (key + 4 * Z.of_nat n) t ltac:(rewrite Ed; by apply Forall_drop) Ht ltac:(lia)) as Htw.
  destruct (tail_case m (key + 4 * Z.of_nat n) (Z.of_nat (length t)) 3 2 16 0) as [k| | |]; cbn [obind] in *; try done.
  destruct (tail_case m (key + 4 * Z.of_nat n) (Z.of_nat (length t)) 2 1 8 k) as [k'| | |]; cbn [obind] in *; try done.
  rewrite Htw. cbn [obind]. destruct t; [done|]. rewrite decide_False by done.
  by rewrite (proj2 (Z.leb_le _ _)) by (simpl; lia).
Qed.

(** C31.  [MurmurHash3_x86_32] on the bytes [bs] in memory returns the hash of
    that byte string: it reads nothing outside the key, terminates for every
    length, and depends on the contents only. *)
Theorem murmur32_correct (m : mem) (key seed : Z) (bs : list Z) :
  is_bytes bs -> bytes_at m key bs ->
  MurmurHash3_x86_32 m key (Z.of_nat (length bs)) seed = Ret (murmur32 bs seed).
Proof. apply murmur32_run. Qed.

Lemma murmur32_correct_witness :
  MurmurHash3_x86_32 (bytes_mem 64 [104; 101; 108; 108; 111]) 64 5 0 = Ret (murmur32 [104; 101; 108; 108; 111] 0).
Proof.
  refine (murmur32_correct (bytes_mem 64 [104; 101; 108; 108; 111]) 64 0 [104; 101; 108; 108; 111] _ (fill_bytes_at _ _ _)).
  repeat constructor; vm_compute; congruence.
Defined.

(** ** The finalizers are injective *)

Lemma xorshift_range w s h : 0 <= w -> 0 <= s -> in_u w h -> in_u w (xorshift s h).
Proof. intros. unfold xorshift. auto with ccraft. Qed.

Lemma shiftr_high w s h : 0 <= w <= s -> in_u w h -> Z.shiftr h s = 0.
Proof.
  intros Hs [H0 H1]. rewrite Z.shiftr_div_pow2 by lia. apply Z.div_small.
  pose proof (Z.pow_le_mono_r 2 w s). lia.
Qed.

Lemma xorshift_twice w s h : 0 <= w <= s + s -> 0 <= s -> in_u w h -> xorshift s (xorshift s h) = h.
Proof.
  intros Hw Hs Hh. unfold xorshift. rewrite Z.shiftr_lxor, Z.shiftr_shiftr by lia.
  rewrite (shiftr_high w (s + s)) by (done || lia). rewrite Z.lxor_0_r, Z.lxor_assoc, Z.lxor_nilpotent. apply Z.lxor_0_r.
Qed.

Definition unxorshift13 (y : Z) : Z := Z.lxor y (Z.lxor (Z.shiftr y 13) (Z.shiftr y 26)).

Lemma unxorshift13_ok h : in_u 32 h -> unxorshift13 (xorshift 13 h) = h.
Proof.
  intros Hh. unfold unxorshift13, xorshift. rewrite !Z.shiftr_lxor, !Z.shiftr_shiftr by lia. simpl (13 + 13).
  rewrite (shiftr_high 32 (13 + 26) h) by (done || lia). rewrite Z.lxor_0_r.
  rewrite (Z.lxor_assoc (Z.shiftr h 13)), Z.lxor_nilpotent, Z.lxor_0_r.
  rewrite Z.lxor_assoc, Z.lxor_nilpotent. apply Z.lxor_0_r.
Qed.

(** Multiplying by an odd constant is undone by its inverse. *)
Lemma wrap_mul_inv w a b h : 0 <= w -> wrap w (a * b) = 1 -> in_u w h -> wrap w (wrap w (h * a) * b) = h.
Proof.
  intros Hw Hab Hh. unfold wrap in *. assert (0 < 2 ^ w) by (apply Z.pow_pos_nonneg; lia).
  rewrite Z.mul_mod_idemp_l by lia. rewrite <- Z.mul_assoc, <- Z.mul_mod_idemp_r, Hab, Z.mul_1_r by lia.
  by apply Z.mod_small.
Qed.

Definition unfmix32 (h : Z) : Z :=
  xorshift 16 (u32 (unxorshift13 (u32 (xorshift 16 h * 2127672349)) * 2781581891)).
Definition unfmix64 (k : Z) : Z :=
  xorshift 33 (u64 (xorshift 33 (u64 (xorshift 33 k * 11291846944257947611)) * 5725274745694666757)).

Lemma unfmix32_ok h : in_u 32 h -> unfmix32 (fmix32 h) = h.
Proof.
  intros Hh. unfold unfmix32, fmix32, u32.
  assert (in_u 32 (xorshift 16 h)) as H1 by (apply xorshift_range; done || lia).
  assert (in_u 32 (xorshift 13 (wrap 32 (xorshift 16 h * 2246822507)))) as H2
    by (apply xorshift_range; [lia|lia|apply wrap_range; lia]).
  rewrite (xorshift_twice 32 16) by (lia || apply wrap_range; lia).
  rewrite (wrap_mul_inv 32 3266489909) by (done || lia || by vm_compute).
  rewrite unxorshift13_ok by (apply wrap_range; lia).
  rewrite (wrap_mul_inv 32 2246822507) by (done || lia || by vm_compute).
  by rewrite (xorshift_twice 32 16) by (done || lia).
Qed.

Lemma unfmix64_ok k : in_u 64 k -> unfmix64 (fmix64 k) = k.
Proof.
  intros Hk. unfold unfmix64, fmix64, u64.
  assert (in_u 64 (xorshift 33 k)) as H1 by (apply xorshift_range; done || lia).
  assert (in_u 64 (xorshift 33 (wrap 64 (xorshift 33 k * 18397679294719823053)))) as H2
    by (apply xorshift_range; [lia|lia|apply wrap_range; lia]).
  rewrite (xorshift_twice 64 33) by (lia || apply wrap_range; lia).
  rewrite (wrap_mul_inv 64 14181476777654086739) by (done || lia || by vm_compute).
  rewrite (xorshift_twice 64 33) by (lia || apply wrap_range; lia).
  rewrite (wrap_mul_inv 64 18397679294719823053) by (done || lia || by vm_compute).
  by rewrite (xorshift_twice 64 33) by (done || lia).
Qed.

(** The finalizers lose no information: [fmix32] and [fmix64] are
    injective on their machine words. *)
Theorem fmix_injective :
  (forall x y, in_u 32 x -> in_u 32 y -> fmix32 x = fmix32 y -> x = y) /\
  (forall x y, in_u 64 x -> in_u 64 y -> fmix64 x = fmix64 y -> x = y).
Proof.
  split; intros x y Hx Hy E.
  - by rewrite <- (unfmix32_ok x), <- (unfmix32_ok y), E.
  - by rewrite <- (unfmix64_ok x), <- (unfmix64_ok y), E.
Qed.

(** ** The 128-bit variants return *)

Lemma peek_bytes_returns m a n : range_ok m a (Z.of_nat n) -> returns (peek_bytes m a n).
Proof.
  revert a. induction n as [|n IH]; intros a Hr; simpl; [by eexists|].
  destruct (Hr a ltac:(lia)) as [b Hb]. rewrite (peek_at _ _ _ Hb). cbn [obind].
  destruct (IH (a + 1)) as [bs ->]; [intros x Hx; apply Hr; lia|]. by eexists.
Qed.

Lemma read_word_returns n m a : range_ok m a (Z.of_nat n) -> returns (read_word n m a).
Proof. intros Hr. unfold read_word. destruct (peek_bytes_returns m a n Hr) as [bs ->]. by eexists. Qed.

Lemma tail_case_returns m key len tl r c i s k : range_ok m key len -> tl + r = key + len -> key <= tl -> 0 <= i < c ->
  returns (tail_case m tl r c i s k).
Proof.
  intros Hr E Hk Hi. unfold tail_case. destruct (Z.leb_spec c r); [|by eexists].
  destruct (Hr (tl + i) ltac:(lia)) as [b Hb]. rewrite (peek_at _ _ _ Hb). by eexists.
Qed.

Lemma body_x86_128_returns m n : forall blocks h, range_ok m (blocks - 16 * Z.of_nat n) (16 * Z.of_nat n) ->
  returns (body_x86_128 m blocks n h).
Proof.
  induction n as [|n IH]; intros blocks h Hr; [by eexists|]. cbn [body_x86_128]. unfold getblock32.
  do 4 match goal with |- context [read_word 4 m ?a] => let v := fresh in
    destruct (read_word_returns 4 m a) as [v ->]; [intros x Hx; apply Hr; lia|]; cbn [obind] end.
  apply IH. intros x Hx. apply Hr. lia.
Qed.

Lemma body_x64_128_returns m key n : forall i h, range_ok m (key + 16 * i) (16 * Z.of_nat n) ->
  returns (body_x64_128 m key i n h).
Proof.
  induction n as [|n IH]; intros i h Hr; [by eexists|]. cbn [body_x64_128]. unfold getblock64.
  do 2 match goal with |- context [read_word 8 m ?a] => let v := fresh in
    destruct (read_word_returns 8 m a) as [v ->]; [intros x Hx; apply Hr; lia|]; cbn [obind] end.
  apply IH. intros x Hx. apply Hr. lia.
Qed.

(** Run the tail switch of a routine whose key is mapped. *)
Ltac run_tail Hr :=
  repeat match goal with |- context [tail_case ?m ?tl ?r ?c ?i ?s ?k] =>
    let v := fresh "k" in
    destruct (tail_case_returns m _ _ tl r c i s k Hr ltac:(assumption) ltac:(lia) ltac:(lia)) as [v ->]; cbn [obind] end.

(** The 128-bit variants return for every length and seed, reading only
    inside the key. *)
Theorem murmur128_returns (m : mem) (key len seed : Z) : 0 <= len -> range_ok m key len ->
  returns (MurmurHash3_x86_128 m key len seed) /\ returns (MurmurHash3_x64_128 m key len seed).
Proof.
  intros Hl Hr. pose proof (Z.div_mod len 16 ltac:(lia)) as Hdm. pose proof (Z.mod_pos_bound len 16 ltac:(lia)) as Hm.
  assert (0 <= len / 16) by (apply Z.div_pos; lia).
  assert (Z.land len 15 = len mod 16) as Er by (change 15 with (2 ^ 4 - 1); by rewrite land_ones_mod by lia).
  assert (key + len / 16 * 16 + Z.land len 15 = key + len) as Etl by lia.
  split.
  - unfold MurmurHash3_x86_128.
    destruct (body_x86_128_returns m (Z.to_nat (len / 16)) (key + len / 16 * 16) (seed, seed, seed, seed)) as [h ->].
    { intros x Hx. apply Hr. lia. }
    destruct h as [[[h1 h2] h3] h4]. cbn [obind]. run_tail Hr. by eexists.
  - unfold MurmurHash3_x64_128.
    destruct (body_x64_128_returns m key (Z.to_nat (len / 16)) 0 (seed, seed)) as [[h1 h2] ->].
    { intros x Hx. apply Hr. lia. }
    cbn [obind]. run_tail Hr. by eexists.
Qed.

Lemma murmur128_returns_witness :
  returns (MurmurHash3_x86_128 (bytes_mem 64 [1; 2; 3]) 64 3 7) /\ returns (MurmurHash3_x64_128 (bytes_mem 64 [1; 2; 3]) 64 3 7).
Proof. exact (murmur128_returns (bytes_mem 64 [1; 2; 3]) 64 3 7 ltac:(lia) (fill_range_ok_self ∅ 64 [1; 2; 3] 3 eq_refl)). Defined.
