(* ===== verification/Locks.v ===== *)
(** * Locks: spin lock, reader-writer guards and reference counter

    Models src/src/ccsys/spin-lock.{h,cc}, rw-mutex.{h,cc}, the atomic
    macros of gcc-buildin.h and common/reference-counter.{h,cc}.  The spin lock
    is a step relation: each step is one atomic access of one thread. *)

From S2P Require Import Prelude.

(** ** Atomic macros (gcc-buildin.h): the value returned and the new word *)

Definition atomic_cas (w old new : Z) : bool * Z := if Z.eqb w old then (true, new) else (false, w).
Definition atomic_zero (w : Z) : Z * Z := (w, Z.land w 0).
Definition atomic_fetch (w : Z) : Z * Z := (w, Z.land w 1).

Definition UNLOCKED : Z := 0.
Definition LOCKED : Z := 1.

Module SpinLock.

(** Where a thread is inside the methods of its [SpinLock] object. *)
Inductive pc :=
| Idle                 (* outside, or in the critical section *)
| LockTop              (* Lock, before the compare-and-swap at the top of for (;;) *)
| LockYield (n i : Z)  (* the inner loop, i yields of n done *)
| LockCas (n : Z)      (* after the yields, before the compare-and-swap *)
| HardYield            (* before sched_yield *)
| TryCas               (* TryLock, before the compare-and-swap *)
| UnlockZero           (* Unlock, before atomic_zero *)
| UnlockClear.         (* Unlock, before m_bOwnLock = false *)

#[export] Instance pc_eq_dec : EqDecision pc.
Proof. solve_decision. Defined.

Record SpinLock := mkSL { m_iSpin : Z; m_bOwnLock : bool; at_pc : pc }.

Definition goto (o : SpinLock) (p : pc) : SpinLock := mkSL (m_iSpin o) (m_bOwnLock o) p.
Definition own (o : SpinLock) (b : bool) : SpinLock := mkSL (m_iSpin o) b Idle.

(** The inner [for (n = 1; n < m_iSpin; n <<= 1)] at [n]. *)
Definition spin_from (o : SpinLock) (n : Z) : SpinLock :=
  goto o (if Z.ltb n (m_iSpin o) then LockYield n 0 else HardYield).

(** One step of the thread inside a method: the lock word and the object. *)
Definition advance (w : Z) (o : SpinLock) : Z * SpinLock :=
  match at_pc o with
  | Idle => (w, o)
  | LockTop => match atomic_cas w UNLOCKED LOCKED with
               | (true, w) => (w, own o true)
               | (false, w) => (w, spin_from o 1)
               end
  | LockYield n i => (w, goto o (if Z.ltb i n then LockYield n (i + 1) else LockCas n))
  | LockCas n => match atomic_cas w UNLOCKED LOCKED with
                 | (true, w) => (w, own o true)
                 | (false, w) => (w, spin_from o (Z.shiftl n 1))
                 end
  | HardYield => (w, goto o LockTop)
  | TryCas => let '(b, w) := atomic_cas w UNLOCKED LOCKED in (w, own o b)
  | UnlockZero => let '(_, w) := atomic_zero w in (w, goto o UnlockClear)
  | UnlockClear => (w, own o false)
  end.

(** The calls: the checks at the head of the methods. *)
Definition Lock (o : SpinLock) : outcome SpinLock :=
  if m_bOwnLock o then Throw "spin_lock_t is locked, cannot lock it again." else Ret (goto o LockTop).
Definition TryLock (o : SpinLock) : outcome SpinLock :=
  if m_bOwnLock o then Throw "spin_lock_t is locked, cannot lock it again." else Ret (goto o TryCas).
Definition Unlock (o : SpinLock) : outcome SpinLock :=
  if negb (m_bOwnLock o) then Throw "spin_lock_t is unlocked, cannot unlock it again." else Ret (goto o UnlockZero).

(** The constructors: [1 << 11] spins by default, locked at once or deferred. *)
Definition SpinLock_new : outcome SpinLock := Lock (mkSL 2048 false Idle).
Definition SpinLock_defer : SpinLock := mkSL 2048 false Idle.
Definition SpinLock_spin (spin : Z) : outcome SpinLock := Lock (mkSL (Z.shiftl 1 spin) false Idle).

(** The destructor starts an [Unlock] when the object owns the lock. *)
Definition SpinLock_delete (o : SpinLock) : outcome SpinLock := if m_bOwnLock o then Unlock o else Ret o.

(** ** Threads sharing one lock word *)

Record sys := mkSys { word : Z; threads : gmap nat SpinLock }.

Inductive step : sys -> sys -> Prop :=
| step_new w ts t o : ts !! t = None -> at_pc o = Idle -> m_bOwnLock o = false ->
    step (mkSys w ts) (mkSys w (<[t := o]> ts))
| step_call w ts t o o' : ts !! t = Some o -> at_pc o = Idle ->
    (Lock o = Ret o' \/ TryLock o = Ret o' \/ Unlock o = Ret o') -> step (mkSys w ts) (mkSys w (<[t := o']> ts))
| step_run w ts t o w' o' : ts !! t = Some o -> at_pc o <> Idle -> advance w o = (w', o') ->
    step (mkSys w ts) (mkSys w' (<[t := o']> ts)).

(** The thread may touch what the lock protects. *)
Definition critical (o : SpinLock) : Prop := m_bOwnLock o = true /\ at_pc o = Idle.

(** It took the lock word and has not yet cleared it. *)
Definition holds (o : SpinLock) : Prop := m_bOwnLock o = true /\ at_pc o <> UnlockClear.

(** A thread that runs a locking method does not own the lock; one that runs
    [Unlock] does. *)
Definition pc_ok (o : SpinLock) : Prop :=
  match at_pc o with
  | Idle => True
  | UnlockZero | UnlockClear => m_bOwnLock o = true
  | _ => m_bOwnLock o = false
  end.

Record inv (s : sys) : Prop := mkInv {
  in_pc : forall t o, threads s !! t = Some o -> pc_ok o;
  in_one : forall t t' o o', threads s !! t = Some o -> threads s !! t' = Some o' -> holds o -> holds o' -> t = t';
  in_word : word s = UNLOCKED \/ word s = LOCKED;
  in_free : word s = UNLOCKED -> forall t o, threads s !! t = Some o -> ~ holds o
}.

Lemma inv_init : inv (mkSys UNLOCKED ∅).
Proof. split; simpl; [by intros ? ? ?..|by left|by intros _ ? ? ?]. Qed.

(** Replacing the object of a thread that holds nothing before and after. *)
Lemma inv_quiet w ts t o' : inv (mkSys w ts) -> pc_ok o' ->
  (holds o' -> exists o, ts !! t = Some o /\ holds o) -> inv (mkSys w (<[t := o']> ts)).
Proof.
  intros [Hp H1 Hw Hf] Hok Hh. split; simpl in *.
  - intros u o Hu. destruct (decide (t = u)) as [<-|]; simplify_map_eq; [done|by eapply Hp].
  - intros u u' o1 o2 Hu Hu' Ho1 Ho2.
    destruct (decide (t = u)) as [<-|]; destruct (decide (t = u')) as [<-|]; simplify_map_eq; try done.
    + destruct (Hh Ho1) as (o & Ho & Hho). by eapply H1.
    + destruct (Hh Ho2) as (o & Ho & Hho). by eapply H1.
    + by eapply H1.
  - done.
  - intros E u o Hu Ho. destruct (decide (t = u)) as [<-|]; simplify_map_eq; [|by eapply Hf].
    destruct (Hh Ho) as (o2 & Ho2 & Hho). by eapply Hf.
Qed.

(** A thread takes the free word. *)
Lemma inv_take ts t o : inv (mkSys UNLOCKED ts) -> inv (mkSys LOCKED (<[t := own o true]> ts)).
Proof.
  intros [Hp H1 Hw Hf]. split; simpl in *.
  - intros u o' Hu. destruct (decide (t = u)) as [<-|]; simplify_map_eq; [done|by eapply Hp].
  - intros u u' o1 o2 Hu Hu' Ho1 Ho2.
    destruct (decide (t = u)) as [<-|]; destruct (decide (t = u')) as [<-|]; simplify_map_eq; try done.
    + by destruct (Hf eq_refl u' o2 Hu').
    + by destruct (Hf eq_refl u o1 Hu).
    + by destruct (Hf eq_refl u o1 Hu).
  - by right.
  - done.
Qed.

(** The holder clears the word. *)
Lemma inv_clear w ts t o : inv (mkSys w ts) -> ts !! t = Some o -> m_bOwnLock o = true -> at_pc o = UnlockZero ->
  inv (mkSys UNLOCKED (<[t := goto o UnlockClear]> ts)).
Proof.
  intros [Hp H1 Hw Hf] Ht Ho Hpc. simpl in *.
  assert (forall u o', ts !! u = Some o' -> holds o' -> u = t) as Honly.
  { intros u o' Hu Hh. eapply H1; [exact Hu|exact Ht|done|]. split; [done|]. by rewrite Hpc. }
  split; simpl.
  - intros u o' Hu. destruct (decide (t = u)) as [<-|]; simplify_map_eq; [done|by eapply Hp].
  - intros u u' o1 o2 Hu Hu' [E1 N1] [E2 N2].
    destruct (decide (t = u)) as [<-|]; destruct (decide (t = u')) as [<-|]; simplify_map_eq; try done.
    rewrite (Honly u o1 Hu) by done. by rewrite (Honly u' o2 Hu').
  - by left.
  - intros _ u o' Hu [E N]. destruct (decide (t = u)) as [<-|]; simplify_map_eq.
    assert (u = t) as -> by (eapply Honly; [exact Hu|by split]). done.
Qed.

Lemma advance_inv w ts t o w' o' : inv (mkSys w ts) -> ts !! t = Some o -> advance w o = (w', o') ->
  inv (mkSys w' (<[t := o']> ts)).
Proof.
  intros Hi Ht. pose proof (in_pc _ Hi t o Ht) as Hpc. pose proof (in_word _ Hi) as Hw. simpl in Hw.
  unfold advance, atomic_cas, atomic_zero, pc_ok in *.
  destruct (at_pc o) as [| |n i|n| | | |] eqn:E.
  - intros [= <- <-]. apply inv_quiet; [done|unfold pc_ok; by rewrite E|by eauto].
  - destruct (Z.eqb_spec w UNLOCKED) as [->|]; intros [= <- <-]; [by apply inv_take|].
    apply inv_quiet; [done| |unfold holds, spin_from; simpl; rewrite Hpc; by intros [? _]].
    unfold pc_ok, spin_from. simpl. by destruct (Z.ltb _ _).
  - intros [= <- <-]. apply inv_quiet; [done| |unfold holds; simpl; rewrite Hpc; by intros [? _]].
    unfold pc_ok. simpl. by destruct (Z.ltb _ _).
  - destruct (Z.eqb_spec w UNLOCKED) as [->|]; intros [= <- <-]; [by apply inv_take|].
    apply inv_quiet; [done| |unfold holds, spin_from; simpl; rewrite Hpc; by intros [? _]].
    unfold pc_ok, spin_from. simpl. by destruct (Z.ltb _ _).
  - intros [= <- <-]. apply inv_quiet; [done|done|unfold holds; simpl; rewrite Hpc; by intros [? _]].
  - destruct (Z.eqb_spec w UNLOCKED) as [->|]; intros [= <- <-]; [by apply inv_take|].
    apply inv_quiet; [done|done|by intros [? _]].
  - rewrite Z.land_0_r. intros [= <- <-]. by eapply inv_clear.
  - intros [= <- <-]. apply inv_quiet; [done|done|by intros [? _]].
Qed.

Lemma step_inv s s' : inv s -> step s s' -> inv s'.
Proof.
  intros Hi Hs. destruct Hs as [w ts t o Hn Hp Ho|w ts t o o' Ht Hp Hc|w ts t o w' o' Ht Hp Ha].
  - apply inv_quiet; [done|unfold pc_ok; by rewrite Hp|intros [Hh _]; congruence].
  - unfold Lock, TryLock, Unlock in Hc. destruct (m_bOwnLock o) eqn:Eo; simpl in Hc.
    + destruct Hc as [?|[?|[= <-]]]; [done..|]. apply inv_quiet; [done|unfold pc_ok; simpl; done|].
      intros _. exists o. split; [done|]. split; [done|]. by rewrite Hp.
    + destruct Hc as [[= <-]|[[= <-]|?]]; [| |done]; apply inv_quiet; try done; unfold holds; simpl; rewrite Eo; by intros [? _].
  - by eapply advance_inv.
Qed.

(** C18.  Mutual exclusion: in every state threads can reach from a free lock
    by any interleaving of [Lock], [TryLock] and [Unlock], at most one thread
    is in the critical section. *)
Theorem spin_lock_mutex (s : sys) (t t' : nat) (o o' : SpinLock) :
  rtc step (mkSys UNLOCKED ∅) s -> threads s !! t = Some o -> threads s !! t' = Some o' ->
  critical o -> critical o' -> t = t'.
Proof.
  intros Hr Ht Ht' [Ho Hp] [Ho' Hp'].
  assert (inv s) as Hi.
  { pose proof inv_init as Hi. remember (mkSys UNLOCKED ∅) as s0. clear Heqs0. induction Hr; [done|].
    apply IHHr; try done. by eapply step_inv. }
  eapply (in_one _ Hi); [exact Ht|exact Ht'|split; [done|by rewrite Hp]|split; [done|by rewrite Hp']].
Qed.

(** ** Progress *)

(** [k] steps of one thread while the others stand still. *)
Fixpoint run (k : nat) (w : Z) (o : SpinLock) : Z * SpinLock :=
  match k with
  | O => (w, o)
  | S k => let '(w, o) := advance w o in run k w o
  end.

Lemma run_add j k w o : run (j + k) w o = let '(w, o) := run j w o in run k w o.
Proof.
  revert w o. induction j as [|j IH]; intros w o; simpl; [done|]. destruct (advance w o). apply IH.
Qed.

Lemma run_yields n : forall (j : nat) w o i, at_pc o = LockYield n i -> Z.of_nat j = n - i ->
  run (S j) w o = (w, goto o (LockCas n)).
Proof.
  induction j as [|j IH]; intros w o i E Hj.
  - simpl. unfold advance. rewrite E. by rewrite (proj2 (Z.ltb_ge _ _)) by lia.
  - change (run (S (S j)) w o) with (let '(w, o) := advance w o in run (S j) w o).
    unfold advance. rewrite E. rewrite (proj2 (Z.ltb_lt _ _)) by lia.
    rewrite (IH w (goto o (LockYield n (i + 1))) (i + 1)) by (done || lia). done.
Qed.

(** A waiting thread that finds the lock free takes it: from any point of
    [Lock], running alone on a free word, it owns the lock after finitely many
    steps. *)
Theorem spin_lock_acquires (o : SpinLock) :
  (at_pc o = LockTop \/ at_pc o = HardYield \/ (exists n, at_pc o = LockCas n) \/
   exists n i, at_pc o = LockYield n i /\ 0 <= i <= n) ->
  exists k, run k UNLOCKED o = (LOCKED, own o true).
Proof.
  intros [E|[E|[[n E]|(n & i & E & Hi)]]].
  - exists 1%nat. simpl. unfold advance. by rewrite E.
  - exists 2%nat. simpl. unfold advance. rewrite E. done.
  - exists 1%nat. simpl. unfold advance. by rewrite E.
  - exists (S (Z.to_nat (n - i)) + 1)%nat. rewrite run_add.
    rewrite (run_yields n (Z.to_nat (n - i)) UNLOCKED o i E) by lia. done.
Qed.

(** Two threads with deferred locks; the first locks, the second spins. *)
Definition demo : sys :=
  mkSys LOCKED {[ 0%nat := own SpinLock_defer true; 1%nat := goto SpinLock_defer (LockYield 1 0) ]}.

Lemma demo_reachable : rtc step (mkSys UNLOCKED ∅) demo.
Proof.
  eapply rtc_l; [apply (step_new _ _ 0 SpinLock_defer); done|].
  eapply rtc_l; [apply (step_new _ _ 1 SpinLock_defer); done|].
  eapply rtc_l; [apply (step_call _ _ 0 SpinLock_defer (goto SpinLock_defer LockTop)); [done|done|by left]|].
  eapply rtc_l; [apply (step_run _ _ 0 (goto SpinLock_defer LockTop) LOCKED (own SpinLock_defer true)); done|].
  eapply rtc_l; [apply (step_call _ _ 1 SpinLock_defer (goto SpinLock_defer LockTop)); [done|done|by left]|].
  eapply rtc_l; [apply (step_run _ _ 1 (goto SpinLock_defer LockTop) LOCKED (goto SpinLock_defer (LockYield 1 0))); done|].
  replace (mkSys _ _) with demo; [apply rtc_refl|]. unfold demo. f_equal.
Qed.

Lemma spin_lock_mutex_witness : critical (own SpinLock_defer true) /\ 0%nat = 0%nat.
Proof.
  split; [done|].
  exact (spin_lock_mutex demo 0 0 (own SpinLock_defer true) (own SpinLock_defer true) demo_reachable eq_refl eq_refl
    (conj eq_refl eq_refl) (conj eq_refl eq_refl)).
Defined.

Lemma spin_lock_acquires_witness : exists k,
  run k UNLOCKED (goto SpinLock_defer (LockYield 4 1)) = (LOCKED, own (goto SpinLock_defer (LockYield 4 1)) true).
Proof.
  apply (spin_lock_acquires (goto SpinLock_defer (LockYield 4 1))). right. right. right. exists 4, 1. split; [reflexivity|lia].
Defined.

End SpinLock.

(** ** Reader-writer mutex and its guards *)

Module RwLock.

(** The POSIX lock: readers inside, or a writer. *)
Record RwMutex := mkRw { readers : Z; writer : bool }.

Definition free_mutex : RwMutex := mkRw 0 false.

(** What a call does: it returns, it blocks, or the process exits. *)
Inductive lock_result := Acquired (m : RwMutex) | Blocks.

Definition RLock (m : RwMutex) : lock_result :=
  if writer m then Blocks else Acquired (mkRw (readers m + 1) false).
Definition WLock (m : RwMutex) : lock_result :=
  if writer m || negb (Z.eqb (readers m) 0) then Blocks else Acquired (mkRw 0 true).
Definition TryRLock (m : RwMutex) : RwMutex * bool :=
  match RLock m with Acquired m => (m, true) | Blocks => (m, false) end.
Definition TryWLock (m : RwMutex) : RwMutex * bool :=
  match WLock m with Acquired m => (m, true) | Blocks => (m, false) end.
Definition UnLock (m : RwMutex) : outcome RwMutex :=
  if writer m then Ret (mkRw (readers m) false)
  else if Z.ltb 0 (readers m) then Ret (mkRw (readers m - 1) false)
  else Abort "exit: unlock of a free mutex".

Inductive kind := Read | Write.

(** A [ReadLock] or [WriteLock] object. *)
Record Guard := mkGuard { g_kind : kind; g_own : bool }.

Definition acquire (k : kind) (m : RwMutex) : lock_result := match k with Read => RLock m | Write => WLock m end.
Definition try_acquire (k : kind) (m : RwMutex) : RwMutex * bool := match k with Read => TryRLock m | Write => TryWLock m end.

(** The constructors; [None] while the call blocks. *)
Definition Guard_new (k : kind) (m : RwMutex) : option (RwMutex * Guard) :=
  match acquire k m with Acquired m => Some (m, mkGuard k true) | Blocks => None end.
Definition Guard_defer (k : kind) : Guard := mkGuard k false.

Definition Guard_TryLock (m : RwMutex) (g : Guard) : outcome (RwMutex * Guard * bool) :=
  if g_own g then Throw "Lock is locked, cannot lock it again."
  else let '(m, b) := try_acquire (g_kind g) m in Ret (m, mkGuard (g_kind g) b, b).

(** [Lock]: the guard keeps [m_bOwnLock] as it was. *)
Definition Guard_Lock (m : RwMutex) (g : Guard) : outcome (option (RwMutex * Guard)) :=
  if g_own g then Throw "Lock is locked, cannot lock it again."
  else match acquire (g_kind g) m with Acquired m => Ret (Some (m, g)) | Blocks => Ret None end.

Definition Guard_Unlock (m : RwMutex) (g : Guard) : outcome (RwMutex * Guard) :=
  if negb (g_own g) then Throw "Lock is unlocked, cannot unlock it again."
  else let* m := UnLock m in Ret (m, mkGuard (g_kind g) false).

Definition Guard_delete (m : RwMutex) (g : Guard) : outcome RwMutex :=
  if g_own g then let* (m, _) := Guard_Unlock m g in Ret m else Ret m.

(** A guard that locks in its constructor is balanced: whatever the mutex
    was, when the constructor returns, the destructor restores it. *)
Theorem guard_balanced (k : kind) (m m' : RwMutex) (g : Guard) :
  0 <= readers m -> Guard_new k m = Some (m', g) -> Guard_delete m' g = Ret m.
Proof.
  destruct m as [r w]. simpl. intros Hr. unfold Guard_new, Guard_delete, Guard_Unlock, UnLock.
  destruct k; simpl.
  - unfold RLock. simpl. destruct w; [done|]. intros [= <- <-]. simpl. rewrite (proj2 (Z.ltb_lt _ _)) by lia. simpl.
    do 2 f_equal. lia.
  - unfold WLock. simpl. destruct w; [done|]. simpl. destruct (Z.eqb_spec r 0) as [->|]; [|done]. by intros [= <- <-].
Qed.

Lemma guard_balanced_witness : Guard_delete (mkRw 3 false) (mkGuard Read true) = Ret (mkRw 2 false).
Proof. apply (guard_balanced Read (mkRw 2 false) (mkRw 3 false) (mkGuard Read true)); [simpl; lia|reflexivity]. Defined.

(** A deferred guard cannot release what its [Lock] took: [Lock] leaves
    the ownership flag unset, so [Unlock] throws and the destructor returns
    with the mutex still held; for a writer the mutex is then lost. *)
Theorem deferred_guard_never_releases (k : kind) :
  exists m g, Guard_Lock free_mutex (Guard_defer k) = Ret (Some (m, g)) /\
    Guard_Unlock m g = Throw "Lock is unlocked, cannot unlock it again." /\
    Guard_delete m g = Ret m /\ m <> free_mutex /\ WLock m = Blocks.
Proof. destruct k; eexists _, _; (split; [reflexivity|]); vm_compute; intuition congruence. Qed.

End RwLock.

(** ** ReferenceCounter *)

Module ReferenceCounter.

Definition AddRef (m_iRef : Z) : Z := i32 (m_iRef + 1).
Definition Release (m_iRef : Z) : Z := i32 (m_iRef - 1).
Definition SetRef (m_iRef val : Z) : Z := val.

(** [GetRef] returns the count; the atomic macro also stores. *)
Definition GetRef (m_iRef : Z) : Z * Z := atomic_fetch m_iRef.

(** Reading the reference count changes it: [GetRef] returns the count
    but stores its lowest bit, so it is harmless exactly for counts 0 and 1. *)
Theorem GetRef_stores (n : Z) : fst (GetRef n) = n /\ snd (GetRef n) = n mod 2 /\ (snd (GetRef n) = n <-> n = 0 \/ n = 1).
Proof.
  unfold GetRef, atomic_fetch. simpl. change 1 with (Z.ones 1) at 1 2. rewrite !Z.land_ones by lia.
  change (2 ^ 1) with 2. split; [done|]. split; [done|].
  pose proof (Z.mod_pos_bound n 2 ltac:(lia)). pose proof (Z.div_mod n 2 ltac:(lia)). lia.
Qed.

(** [AFileEventHandler::Release] (abstract-file-event-handler.h:44-52): the
    count, and whether the handler is handed over for deletion. *)
Definition handler_Release (m_iRef : Z) : Z * bool :=
  let '(n, m_iRef) := GetRef (Release m_iRef) in (m_iRef, Z.eqb 0 n).

(** The deletions that [k] releases schedule. *)
Fixpoint releases (k : nat) (m_iRef : Z) : list bool :=
  match k with
  | O => []
  | S k => let '(m_iRef, d) := handler_Release m_iRef in d :: releases k m_iRef
  end.

(** The corrupted count deletes a handler that is still referenced: with
    five references the third release schedules the deletion, two references
    early; with up to three references the deletion comes with the last one. *)
Theorem handler_deleted_early :
  releases 5 5 = [false; false; true; false; true] /\
  releases 1 1 = [true] /\ releases 2 2 = [false; true] /\ releases 3 3 = [false; false; true].
Proof. vm_compute. auto. Qed.

End ReferenceCounter.
