(* ===== verification/FsIo.v ===== *)
(** * FsIo: full reads and writes of a regular file

    Models src/src/fsio/io-utils.{h,cc}.  A file is its bytes and the offset of
    the descriptor.  The kernel may move fewer bytes than asked for, or fail:
    the results of successive calls are a script, [Moved c] for a call that
    moves at most [c] bytes (at least one, as POSIX promises for a regular
    file unless it is at its end) and [Failed] for [-1]; a call beyond the
    script moves all it can. *)

From S2P Require Import Prelude.

Record file := mkFile { f_bytes : list Z; f_off : nat }.

Inductive io_result := Moved (c : positive) | Failed.

(** [pwrite]: overwrite from [o] on; a hole is filled with zeros. *)
Definition splice (bs : list Z) (o : nat) (new : list Z) : list Z :=
  take o (bs ++ replicate (o - length bs) 0) ++ new ++ drop (o + length new) bs.

Definition write_some (f : file) (bs : list Z) : file :=
  if decide (bs = []) then f else mkFile (splice (f_bytes f) (f_off f) bs) (f_off f + length bs).

Definition moved (c : positive) (left_size : nat) : nat := Nat.min (Pos.to_nat c) left_size.

(** The loop of [WriteFully]; [bs] is what is left of [buf]. *)
Fixpoint write_loop (script : list io_result) (f : file) (bs : list Z) : file * bool :=
  match bs with
  | [] => (f, true)
  | _ => match script with
         | [] => (write_some f bs, true)
         | Failed :: _ => (f, false)
         | Moved c :: script => let n := moved c (length bs) in write_loop script (write_some f (take n bs)) (drop n bs)
         end
  end.

(** [fd] is [None] for [-1], [buf] is [None] for a null pointer. *)
Definition WriteFully (script : list io_result) (fd : option file) (buf : option (list Z)) : option file * Z :=
  match fd, buf with
  | Some f, Some bs =>
      if decide (length bs = 0%nat) then (Some f, 0)
      else let '(f, ok) := write_loop script f bs in (Some f, if ok then Z.of_nat (length bs) else -1)
  | _, _ => (fd, -1)
  end.

(** [read] of at most [n] bytes at the offset. *)
Definition read_some (f : file) (n : nat) : file * list Z :=
  let bs := take n (drop (f_off f) (f_bytes f)) in (mkFile (f_bytes f) (f_off f + length bs), bs).

(** The loop of [ReadFully]: [got] is what [*buf] already holds; a failure
    releases [*buf]. *)
Fixpoint read_loop (script : list io_result) (f : file) (got : list Z) (left_size : nat) : file * option (list Z) :=
  match left_size with
  | O => (f, Some got)
  | _ => match script with
         | Failed :: _ => (f, None)
         | Moved c :: script =>
             let '(f, bs) := read_some f (moved c left_size) in
             if decide (bs = []) then (f, Some got)
             else read_loop script f (got ++ bs) (left_size - length bs)
         | [] => let '(f, bs) := read_some f left_size in (f, Some (got ++ bs))
         end
  end.

(** [*buf] after [bzero] and [n] bytes read. *)
Definition zero_padded (size : nat) (bs : list Z) : list Z := bs ++ replicate (size - length bs) 0.

(** The result and [*buf] when it was set to a live array. *)
Definition ReadFully (script : list io_result) (fd : option file) (size : nat) : option file * Z * option (list Z) :=
  match fd with
  | None => (None, 0, None)
  | Some f =>
      if decide (size = 0%nat) then (Some f, 0, None)
      else match read_loop script f [] size with
           | (f, None) => (Some f, -1, None)
           | (f, Some bs) => (Some f, Z.of_nat (length bs), Some (zero_padded size bs))
           end
  end.

(** [ReadFully_V2] uses [pread] at [nread], so it starts at the file's first
    byte whatever the descriptor's offset; the loop stops at a call that
    returns no byte, also when nothing is left to read. *)
Fixpoint pread_loop (script : list io_result) (bs got : list Z) (total : nat) : option (list Z) :=
  match script with
  | [] => Some (got ++ take (total - length got) (drop (length got) bs))
  | Failed :: _ => None
  | Moved c :: script =>
      let new := take (moved c (total - length got)) (drop (length got) bs) in
      if decide (new = []) then Some got else pread_loop script bs (got ++ new) total
  end.

Definition ReadFully_V2 (script : list io_result) (fd : option file) (size : nat) : Z * option (list Z) :=
  match fd with
  | None => (0, None)
  | Some f =>
      if decide (size = 0%nat) then (0, None)
      else match pread_loop script (f_bytes f) [] size with
           | None => (-1, None)
           | Some bs => (Z.of_nat (length bs), Some (zero_padded size bs))
           end
  end.

(** ** Lemmas *)

Definition no_failure (script : list io_result) : Prop := Forall (fun r => r <> Failed) script.

Lemma splice_splice bs o a b : splice (splice bs o a) (o + length a) b = splice bs o (a ++ b).
Proof.
  unfold splice. set (p := take o (bs ++ replicate (o - length bs) 0)).
  assert (length p = o) as Hp by (subst p; rewrite length_take, length_app, length_replicate; lia).
  rewrite (take_app_le _ (replicate _ _)) by (rewrite !length_app; lia).
  rewrite (assoc (++) p a), (take_app_length' (p ++ a)) by (rewrite length_app; lia).
  rewrite (drop_app_ge (p ++ a)) by (rewrite length_app; lia).
  rewrite length_app, drop_drop, length_app, <- !(assoc (++)).
  do 4 f_equal. lia.
Qed.

Lemma write_some_app f a b : write_some (write_some f a) b = write_some f (a ++ b).
Proof.
  unfold write_some. destruct (decide (a = [])) as [->|Ha]; [done|]. simpl.
  destruct (decide (b = [])) as [->|Hb]; [rewrite app_nil_r; by rewrite decide_False|].
  rewrite decide_False by (by destruct a). rewrite splice_splice, length_app. f_equal. lia.
Qed.

Lemma moved_spec c n : (0 < n)%nat -> (0 < moved c n <= n)%nat.
Proof. unfold moved. lia. Qed.

(** What the loop has written when it stops. *)
Lemma write_loop_spec script f bs : exists k, (k <= length bs)%nat /\
  write_loop script f bs = (write_some f (take k bs), bool_decide (k = length bs)) /\
  (no_failure script -> k = length bs).
Proof.
  revert f bs. induction script as [|r script IH]; intros f bs.
  - exists (length bs). rewrite firstn_all, bool_decide_true by done. split_and!; [lia| |done]. by destruct bs.
  - destruct (decide (bs = [])) as [->|Hne].
    { exists 0%nat. split_and!; [simpl; lia| |done]. by rewrite bool_decide_true. }
    assert (0 < length bs)%nat as Hl by (destruct bs; simpl; [done|lia]).
    assert (write_loop (r :: script) f bs = match r with Failed => (f, false) | Moved c => let n := moved c (length bs) in write_loop script (write_some f (take n bs)) (drop n bs) end) as -> by (destruct bs, r; done).
    destruct r as [c|].
    + destruct (IH (write_some f (take (moved c (length bs)) bs)) (drop (moved c (length bs)) bs)) as (k & Hk & E & Hf).
      pose proof (moved_spec c _ Hl) as Hm. rewrite length_drop in Hk, E, Hf.
      exists (moved c (length bs) + k)%nat. split_and!; [lia| |].
      * cbv zeta. rewrite E, write_some_app, take_take_drop. f_equal. apply bool_decide_ext. lia.
      * intros H. inversion_clear H. rewrite Hf by done. lia.
    + exists 0%nat. split_and!; [lia| |].
      * rewrite bool_decide_false by lia. done.
      * intros H. inversion_clear H. done.
Qed.

Lemma read_loop_spec script f got n : no_failure script ->
  snd (read_loop script f got n) = Some (got ++ take n (drop (f_off f) (f_bytes f))).
Proof.
  revert f got n. induction script as [|r script IH]; intros f got n H.
  - destruct n; simpl; [by rewrite take_0, app_nil_r|done].
  - inversion_clear H as [|? ? Hr Hs]. destruct n as [|n]; [simpl; by rewrite take_0, app_nil_r|].
    destruct r as [c|]; [|done]. pose proof (moved_spec c (S n) ltac:(lia)) as Hm.
    cbn [read_loop]. unfold read_some. set (m := moved c (S n)) in *. set (rest := drop (f_off f) (f_bytes f)).
    destruct (decide (take m rest = [])) as [E|E].
    + assert (rest = []) as ->. { destruct rest; [done|]. destruct m; [lia|done]. }
      simpl. by rewrite app_nil_r.
    + rewrite IH by done. simpl. rewrite <- drop_drop. fold rest. rewrite <- (assoc (++)). do 2 f_equal.
      rewrite length_take. destruct (decide (m <= length rest)%nat) as [Hle|Hgt].
      * rewrite Nat.min_l by done. rewrite take_take_drop. f_equal. lia.
      * rewrite Nat.min_r by lia. rewrite drop_all, take_nil, app_nil_r, !take_ge by lia. done.
Qed.

Lemma pread_loop_spec script bs k n : no_failure script -> (k <= n)%nat -> (k <= length bs)%nat ->
  pread_loop script bs (take k bs) n = Some (take n bs).
Proof.
  revert k. induction script as [|r script IH]; intros k H Hk Hl.
  - simpl. rewrite length_take, Nat.min_l, take_take_drop by lia. do 2 f_equal. lia.
  - inversion_clear H as [|? ? Hr Hs]. destruct r as [c|]; [|done]. simpl.
    rewrite length_take, Nat.min_l by lia. rewrite take_take_drop.
    set (m := moved c (n - k)). destruct (decide (take m (drop k bs) = [])) as [E|E].
    + f_equal. apply (f_equal length) in E. rewrite length_take, length_drop in E. simpl in E.
      destruct (decide (k = n)) as [->|]; [done|]. pose proof (moved_spec c (n - k) ltac:(lia)).
      fold m in H. rewrite !take_ge by lia. done.
    + assert (k < n)%nat. { destruct (decide (k = n)) as [->|]; [|lia]. subst m. unfold moved in E.
        replace (n - n)%nat with 0%nat in E by lia. rewrite Nat.min_0_r in E. done. }
      pose proof (moved_spec c (n - k) ltac:(lia)) as Hm. fold m in Hm.
      destruct (decide (k + m <= length bs)%nat) as [|Hgt]; [apply IH; [done|lia|lia]|].
      rewrite (take_ge bs (k + m)) by lia. rewrite <- (firstn_all bs) at 2. apply IH; [done| |lia]. lia.
Qed.

(** ** Properties *)

(** [WriteFully] is exact under every sequence of short writes: it appends
    a prefix of the buffer at the offset, the whole buffer exactly when it
    returns the size, and it returns the size whenever no call fails. *)
Lemma WriteFully_exact (script : list io_result) (f : file) (bs : list Z) : exists k,
  (k <= length bs)%nat /\
  WriteFully script (Some f) (Some bs) =
    (Some (write_some f (take k bs)), if decide (k = length bs) then Z.of_nat (length bs) else -1) /\
  (no_failure script -> k = length bs).
Proof.
  destruct (write_loop_spec script f bs) as (k & Hk & E & Hf). exists k. split; [done|]. split; [|done].
  unfold WriteFully. destruct (decide (length bs = 0%nat)) as [H0|H0].
  - apply nil_length_inv in H0 as ->. rewrite take_nil, decide_True by (simpl in *; lia). done.
  - rewrite E. destruct (decide (k = length bs)); [by rewrite bool_decide_true|by rewrite bool_decide_false].
Qed.

(** C33.  What [WriteFully] stored is what both readers return, however the
    writes and the reads are cut: [ReadFully] from the same offset returns the
    buffer, and [ReadFully_V2] returns the file from its first byte on. *)
Theorem write_read_roundtrip (sw sr : list io_result) (f : file) (bs : list Z) :
  no_failure sw -> no_failure sr -> bs <> [] -> (f_off f <= length (f_bytes f))%nat ->
  exists f', WriteFully sw (Some f) (Some bs) = (Some f', Z.of_nat (length bs)) /\
    snd (ReadFully sr (Some (mkFile (f_bytes f') (f_off f))) (length bs)) = Some bs /\
    ReadFully_V2 sr (Some f') (f_off f + length bs) =
      (Z.of_nat (f_off f + length bs), Some (take (f_off f) (f_bytes f) ++ bs)).
Proof.
  intros Hw Hr Hne Hoff. destruct (WriteFully_exact sw f bs) as (k & _ & E & Hk). rewrite (Hk Hw) in E.
  rewrite firstn_all, decide_True in E by done. eexists. split; [exact E|].
  assert (0 < length bs)%nat as Hl by (destruct bs; [done|simpl; lia]).
  unfold write_some. rewrite decide_False by done. unfold splice. cbn [f_bytes f_off].
  replace (f_off f - length (f_bytes f))%nat with 0%nat by lia. cbn [replicate]. rewrite app_nil_r.
  set (p := take (f_off f) (f_bytes f)). assert (length p = f_off f) as Hp by (subst p; rewrite length_take; lia).
  split.
  - unfold ReadFully. rewrite decide_False by lia.
    pose proof (read_loop_spec sr (mkFile (p ++ bs ++ drop (f_off f + length bs) (f_bytes f)) (f_off f)) [] (length bs) Hr) as E2.
    cbn [f_off f_bytes] in E2. rewrite drop_app_length', take_app_length in E2 by done.
    destruct (read_loop _ _ _ _) as [f2 r]. cbn [snd] in E2. rewrite E2. cbn [snd app].
    unfold zero_padded. rewrite Nat.sub_diag. simpl. by rewrite app_nil_r.
  - unfold ReadFully_V2. rewrite decide_False by lia. cbn [f_bytes].
    pose proof (pread_loop_spec sr (p ++ bs ++ drop (f_off f + length bs) (f_bytes f)) 0 (f_off f + length bs) Hr ltac:(lia) ltac:(lia)) as E2.
    rewrite take_0 in E2. rewrite E2. rewrite (assoc (++)), take_app_length' by (rewrite length_app; lia).
    rewrite length_app, Hp. unfold zero_padded. rewrite length_app, Hp, Nat.sub_diag. simpl. by rewrite app_nil_r.
Qed.

Lemma write_read_roundtrip_witness : exists f',
  WriteFully [Moved 1; Moved 2] (Some (mkFile [7; 7; 7; 7; 7; 7; 7] 1)) (Some [1; 2; 3; 4]) = (Some f', 4) /\
  snd (ReadFully [Moved 3] (Some (mkFile (f_bytes f') 1)) 4) = Some [1; 2; 3; 4] /\
  ReadFully_V2 [Moved 3] (Some f') 5 = (5, Some [7; 1; 2; 3; 4]).
Proof.
  apply (write_read_roundtrip [Moved 1; Moved 2] [Moved 3] (mkFile [7; 7; 7; 7; 7; 7; 7] 1) [1; 2; 3; 4]).
  - repeat constructor; discriminate.
  - repeat constructor; discriminate.
  - discriminate.
  - simpl. lia.
Defined.
