(* ===== verification/FileUtils.v ===== *)
(** * FileUtils: directories

    Models src/src/fsio/file-utils.{h,cc}.  A path is the list of its character
    codes; the file system maps the components of a path to a directory, a
    regular file or a symbolic link with an absolute target, the root being the
    empty list.  The calls of the system resolve a path as path_resolution(7)
    says.  [refuse] are the paths whose creation or removal the system refuses,
    [refuse_open] those whose opening by opendir(3) fails, with the error
    number; readdir(3) gives every entry. *)

From S2P Require Import Prelude.

Definition SLASH : Z := 47.
Definition EEXIST : Z := 17.
Definition ENOENT : Z := 2.
Definition EBUSY : Z := 16.
Definition ENOTDIR : Z := 20.
Definition EISDIR : Z := 21.
Definition ENOTEMPTY : Z := 39.
Definition ELOOP : Z := 40.
Definition PATH_MAX : Z := 4096.

Abbreviation name := (list Z).
Abbreviation path := (list (list Z)).
Inductive kind := KDir | KFile (bytes : list Z) | KLink (target : list (list Z)).
#[export] Instance kind_eq_dec : EqDecision kind.
Proof. solve_decision. Defined.
Abbreviation fs := (gmap (list (list Z)) kind).

(** ** Paths *)

(** The components that are complete, and the one being read. *)
Definition read_char (st : path * name) (c : Z) : path * name :=
  if Z.eqb c SLASH then ((if decide (st.2 = []) then st.1 else st.1 ++ [st.2]), []) else (st.1, st.2 ++ [c]).
Definition scan (p : list Z) : path * name := foldl read_char ([], []) p.
Definition components (p : list Z) : path := let st := scan p in if decide (st.2 = []) then st.1 else st.1 ++ [st.2].

(** ** Path resolution *)

Definition lookup_path (f : fs) (q : path) : option kind := match q with [] => Some KDir | _ => f !! q end.

(** The components [rest] from the directory [cur], through [hops] links at most. *)
Fixpoint resolve (hops : nat) (f : fs) : path -> path -> path + Z :=
  fix go (cur rest : path) : path + Z :=
    match rest with
    | [] => inl cur
    | n :: rest =>
        match lookup_path f cur with
        | Some KDir =>
            match f !! (cur ++ [n]) with
            | Some (KLink t) => match hops with O => inr ELOOP | S hops => resolve hops f [] (t ++ rest) end
            | Some _ => go (cur ++ [n]) rest
            | None => inr ENOENT
            end
        | Some _ => inr ENOTDIR
        | None => inr ENOENT
        end
    end.
Definition SYMLINKS : nat := 40.
Definition find (f : fs) (q : path) : path + Z := resolve SYMLINKS f [] q.

(** The entry that mkdir(2), rmdir(2) and unlink(2) act on: the last component is not followed. *)
Definition entry_of (f : fs) (q : path) : path + Z :=
  match last q with
  | None => inr EBUSY
  | Some n =>
      match find f (removelast q) with
      | inl d => match lookup_path f d with Some KDir => inl (d ++ [n]) | _ => inr ENOTDIR end
      | inr e => inr e
      end
  end.

(** stat(2) follows links.  The empty string names nothing. *)
Definition stat_at (f : fs) (q : path) : kind + Z :=
  match find f q with
  | inl c => match lookup_path f c with Some k => inl k | None => inr ENOENT end
  | inr e => inr e
  end.
Definition stat (f : fs) (p : list Z) : option kind :=
  match p with [] => None | _ => match stat_at f (components p) with inl k => Some k | inr _ => None end end.

Section files.
Context (refuse refuse_open : path -> option Z).

Definition mkdir (f : fs) (p : list Z) : fs * Z :=
  match p with
  | [] => (f, ENOENT)
  | _ =>
      match components p with
      | [] => (f, EEXIST)
      | q =>
          match entry_of f q with
          | inr e => (f, e)
          | inl c =>
              match f !! c with
              | Some _ => (f, EEXIST)
              | None => match refuse c with Some e => (f, e) | None => (<[c := KDir]> f, 0) end
              end
          end
      end
  end.

Definition CreateDir (f : fs) (dir : list Z) : fs * Z :=
  match stat f dir with
  | Some KDir => (f, 0)
  | Some _ => (f, -1)
  | None =>
      let '(f, err) := mkdir f dir in
      if Z.eqb err 0 then (f, 0) else if Z.eqb err EEXIST then (f, 0) else (f, -1)
  end.

(** The loop of [CreateDirPath] with [done] behind [p]. *)
Fixpoint walk (f : fs) (done rest : list Z) : fs * Z :=
  match rest with
  | [] => CreateDir f done
  | c :: rest =>
      if Z.eqb c SLASH then
        let '(f, r) := CreateDir f done in
        if Z.eqb r (-1) then (f, -1) else walk f (done ++ [c]) rest
      else walk f (done ++ [c]) rest
  end.

(** [CreateDirPath]: [memcpy] reads [PATH_MAX] bytes, whatever the length of the
    string; [readable] is how many there are. *)
Definition CreateDirPath (readable : Z) (f : fs) (p : list Z) : outcome (fs * Z) :=
  if Z.ltb readable PATH_MAX then Undef "memcpy past the string"
  else
    let p := take (Z.to_nat PATH_MAX) p in
    let '(f, r) := match p with c :: rest => if Z.eqb c SLASH then walk f [c] rest else walk f [] p | [] => walk f [] [] end in
    Ret (f, if Z.eqb r (-1) then -1 else 0).

(** ** Removal *)

(** The names readdir(3) gives for a directory, without the entries for itself and its parent. *)
Definition child_name (q : path) (e : path * kind) : option name :=
  match last e.1 with Some n => if decide (e.1 = q ++ [n]) then Some n else None | None => None end.
Definition children (f : fs) (q : path) : list name := omap (child_name q) (map_to_list f).

(** What rmdir(2) and unlink(2) do with the entry they act on. *)
Definition take_out (f : fs) (c : path) : fs * Z := match refuse c with Some e => (f, e) | None => (delete c f, 0) end.
Definition rmdir (f : fs) (q : path) : fs * Z :=
  match entry_of f q with
  | inr e => (f, e)
  | inl c =>
      match f !! c with
      | None => (f, ENOENT)
      | Some KDir => if decide (children f c = []) then take_out f c else (f, ENOTEMPTY)
      | Some _ => (f, ENOTDIR)
      end
  end.
Definition unlink (f : fs) (q : path) : fs * Z :=
  match entry_of f q with
  | inr e => (f, e)
  | inl c => match f !! c with None => (f, ENOENT) | Some KDir => (f, EISDIR) | Some _ => take_out f c end
  end.

(** opendir(3) follows links. *)
Definition opendir (f : fs) (q : path) : path + Z :=
  match find f q with
  | inr e => inr e
  | inl c =>
      match lookup_path f c with
      | None => inr ENOENT
      | Some KDir => match refuse_open c with Some e => inr e | None => inl c end
      | Some _ => inr ENOTDIR
      end
  end.

(** The loop of [CleanDirectory] over the entries that are left. *)
Fixpoint clean_loop (rm : fs -> path -> fs * Z) (f : fs) (q : path) (names : list name) : fs * Z :=
  match names with
  | [] => (f, 0)
  | n :: names =>
      let '(f, r2) :=
        match stat_at f (q ++ [n]) with
        | inl KDir => rm f (q ++ [n])
        | inl _ => unlink f (q ++ [n])
        | inr e => (f, e)
        end in
      if Z.eqb r2 0 then clean_loop rm f q names else (f, r2)
  end.

(** [RemoveDirectory] and [CleanDirectory]; the fuel bounds the depth. *)
Definition clean_with (rm : fs -> path -> fs * Z) (f : fs) (q : path) : fs * Z :=
  match opendir f q with
  | inl d => clean_loop rm f q (children f d)
  | inr e => (f, e)
  end.
Fixpoint RemoveDirectory (fuel : nat) (f : fs) (q : path) : fs * Z :=
  match fuel with
  | O => (f, -1)
  | S fuel =>
      let '(f, rc) := clean_with (RemoveDirectory fuel) f q in
      if Z.eqb rc 0 then rmdir f q else (f, rc)
  end.
Definition CleanDirectory (fuel : nat) (f : fs) (q : path) : fs * Z := clean_with (RemoveDirectory fuel) f q.

End files.

Definition GetFileSize (f : fs) (p : list Z) (dir_size : Z) : Z :=
  match stat f p with Some KDir => dir_size | Some (KFile bs) => Z.of_nat (length bs) | _ => -1 end.
Definition ReadAllString (f : fs) (p : list Z) : list Z := match stat f p with Some (KFile bs) => bs | _ => [] end.
Definition Exist (f : fs) (p : list Z) : bool := match stat f p with Some _ => true | None => false end.
Definition IsDir (f : fs) (p : list Z) : bool := match stat f p with Some KDir => true | _ => false end.
Definition IsFile (f : fs) (p : list Z) : bool := match stat f p with Some (KFile _) => true | _ => false end.

(** ** Creating a path *)

Lemma scan_snoc p c : scan (p ++ [c]) = read_char (scan p) c.
Proof. unfold scan. rewrite foldl_app. reflexivity. Qed.

Lemma scan_grows p rest : (scan p).1 `prefix_of` (scan (p ++ rest)).1.
Proof.
  revert p. induction rest as [|c rest IH]; intros p; [rewrite app_nil_r; reflexivity|].
  replace (p ++ c :: rest) with ((p ++ [c]) ++ rest) by (rewrite <- app_assoc; reflexivity).
  etrans; [|apply IH]. rewrite scan_snoc. unfold read_char.
  destruct (Z.eqb c SLASH); [|reflexivity]. destruct (decide _); simpl; [reflexivity|apply prefix_app_r; reflexivity].
Qed.

Lemma scan_components p : (scan p).1 `prefix_of` components p.
Proof. unfold components. destruct (decide _); [reflexivity|apply prefix_app_r; reflexivity]. Qed.

Lemma scan_slash p : scan (p ++ [SLASH]) = (components p, []).
Proof. rewrite scan_snoc. unfold read_char, components. simpl. destruct (decide _); reflexivity. Qed.

Lemma scan_name p n : Forall (fun c => c <> SLASH) n -> scan ((p ++ [SLASH]) ++ n) = (components p, n).
Proof.
  intros Hn. induction n as [|c n IH] using rev_ind; [by rewrite app_nil_r, scan_slash|].
  apply Forall_app in Hn as [Hn Hc]. apply Forall_cons in Hc as [Hc _]. rewrite app_assoc, scan_snoc, IH by done.
  unfold read_char. cbn. by rewrite (proj2 (Z.eqb_neq _ _) Hc).
Qed.

(** The components of a file in a directory. *)
Lemma components_file p n : n <> [] -> Forall (fun c => c <> SLASH) n -> components (p ++ [SLASH] ++ n) = components p ++ [n].
Proof.
  intros H0 Hn. rewrite app_assoc. unfold components at 1. rewrite scan_name by done. cbn. by rewrite decide_False.
Qed.

Lemma scan_other p c : c <> SLASH -> (scan (p ++ [c])).1 = (scan p).1.
Proof. intros Hc. rewrite scan_snoc. unfold read_char. destruct (Z.eqb_spec c SLASH); [contradiction|reflexivity]. Qed.

(** Every nonempty prefix of a path is a directory. *)
Definition dirs (f : fs) (q : path) : Prop := forall r, r <> [] -> r `prefix_of` q -> f !! r = Some KDir.

Lemma dirs_snoc f q n : dirs f q -> f !! (q ++ [n]) = Some KDir -> dirs f (q ++ [n]).
Proof.
  intros Hq Hn r Hr [s Hs]. destruct s as [|x s _] using rev_ind.
  - rewrite app_nil_r in Hs. subst. exact Hn.
  - rewrite app_assoc in Hs. apply app_inj_tail in Hs as [-> ->]. apply Hq; [exact Hr|]. apply prefix_app_r. reflexivity.
Qed.

Lemma dirs_nil f : dirs f [].
Proof. intros r Hr Hp. by apply prefix_nil_inv in Hp. Qed.

Lemma dirs_lookup f q : dirs f q -> lookup_path f q = Some KDir.
Proof. intros Hq. destruct q; [done|]. by apply (Hq (_ :: _)). Qed.

Lemma dirs_prefix f q s : dirs f (q ++ s) -> dirs f q.
Proof. intros H r Hr Hp. apply H; [done|]. by apply prefix_app_r. Qed.

(** An entry of a directory, other than a link, is found where it is. *)
Lemma resolve_entry hops f n : forall pre cur, dirs f (cur ++ pre) -> (forall t, f !! (cur ++ pre ++ [n]) <> Some (KLink t)) ->
  resolve hops f cur (pre ++ [n]) = match f !! (cur ++ pre ++ [n]) with Some _ => inl (cur ++ pre ++ [n]) | None => inr ENOENT end.
Proof.
  assert (Hstep : forall cur x rest, resolve hops f cur (x :: rest) =
    match lookup_path f cur with
    | Some KDir => match f !! (cur ++ [x]) with
                   | Some (KLink t) => match hops with O => inr ELOOP | S hops => resolve hops f [] (t ++ rest) end
                   | Some _ => resolve hops f (cur ++ [x]) rest
                   | None => inr ENOENT end
    | Some _ => inr ENOTDIR
    | None => inr ENOENT
    end) by (intros; by destruct hops).
  induction pre as [|x pre IH]; intros cur Hd Hl; cbn [app] in *; rewrite Hstep.
  - rewrite app_nil_r in Hd. rewrite (dirs_lookup _ _ Hd). destruct (f !! (cur ++ [n])) as [[| |t]|] eqn:E; [by destruct hops..| |done]. by destruct (Hl t).
  - rewrite (dirs_lookup f cur) by (by eapply dirs_prefix). replace (cur ++ x :: pre) with ((cur ++ [x]) ++ pre) in Hd by (by rewrite <- app_assoc).
    assert (f !! (cur ++ [x]) = Some KDir) as ->.
    { apply Hd; [by destruct cur|]. by apply prefix_app_r. }
    replace (cur ++ x :: pre ++ [n]) with ((cur ++ [x]) ++ pre ++ [n]) in * by (by rewrite <- app_assoc). by apply IH.
Qed.

Lemma find_entry f q n : dirs f q -> (forall t, f !! (q ++ [n]) <> Some (KLink t)) ->
  find f (q ++ [n]) = match f !! (q ++ [n]) with Some _ => inl (q ++ [n]) | None => inr ENOENT end.
Proof. intros Hd Hl. by apply (resolve_entry SYMLINKS f n q []). Qed.

Lemma find_dirs f q : dirs f q -> find f q = inl q.
Proof.
  intros Hd. destruct q as [|n q _] using rev_ind; [done|].
  assert (f !! (q ++ [n]) = Some KDir) as E by (apply Hd; [by destruct q|done]). rewrite find_entry; [by rewrite E|by eapply dirs_prefix|congruence].
Qed.

Lemma stat_at_entry f q n : dirs f q -> (forall t, f !! (q ++ [n]) <> Some (KLink t)) ->
  stat_at f (q ++ [n]) = match f !! (q ++ [n]) with Some k => inl k | None => inr ENOENT end.
Proof.
  intros Hd Hl. unfold stat_at. rewrite find_entry by done. destruct (f !! (q ++ [n])) as [k|] eqn:E; [|done].
  unfold lookup_path. destruct (q ++ [n]) eqn:Eq; [by destruct q|]. by rewrite E.
Qed.

Lemma stat_at_dirs f q : dirs f q -> stat_at f q = inl KDir.
Proof. intros Hd. unfold stat_at. by rewrite find_dirs, dirs_lookup. Qed.

(** The call acts on the entry itself, whatever it is. *)
Lemma entry_of_dirs f q n : dirs f q -> entry_of f (q ++ [n]) = inl (q ++ [n]).
Proof. intros Hd. unfold entry_of. by rewrite last_snoc, removelast_last, find_dirs, dirs_lookup. Qed.

Section create.
Context (refuse : path -> option Z) (target : path) (f0 : fs).
Context (Hrefuse : forall r, r `prefix_of` target -> refuse r = None).
Context (Hfile : forall r k, r `prefix_of` target -> f0 !! r = Some k -> k = KDir).

(** Only directories on the way to [target] are added. *)
Definition towards (f : fs) : Prop :=
  forall r, f !! r = f0 !! r \/ (r <> [] /\ r `prefix_of` target /\ f !! r = Some KDir).

Lemma towards_dir f r k : towards f -> r `prefix_of` target -> f !! r = Some k -> k = KDir.
Proof. intros Hf Hr. destruct (Hf r) as [-> |(_ & _ & ->)]; [by apply Hfile|congruence]. Qed.

Lemma towards_insert f r : r <> [] -> r `prefix_of` target -> towards f -> towards (<[r := KDir]> f).
Proof.
  intros Hn Hr Hf s. destruct (decide (r = s)) as [<-|Hrs].
  - right. rewrite lookup_insert_eq. auto.
  - rewrite lookup_insert_ne by exact Hrs. apply Hf.
Qed.

Lemma dirs_insert f q r : dirs f q -> dirs (<[r := KDir]> f) q.
Proof.
  intros Hq s Hs Hp. destruct (decide (r = s)) as [<-|Hrs]; [apply lookup_insert_eq|].
  rewrite lookup_insert_ne by exact Hrs. auto.
Qed.

(** One level: when the levels above are there, the directory is made or found. *)
Lemma create_level f p :
  p <> [] -> towards f -> dirs f (scan p).1 -> components p `prefix_of` target ->
  exists f', CreateDir refuse f p = (f', 0) /\ towards f' /\ dirs f' (components p).
Proof.
  intros Hp Hf Hd Ht. pose proof (towards_dir f (components p)) as Hnf.
  unfold CreateDir, mkdir, stat. destruct p as [|c p]; [contradiction|]. set (w := c :: p) in *. clearbody w.
  unfold components in *. destruct (decide ((scan w).2 = [])) as [He|He].
  - exists f. split; [|split; assumption]. by rewrite stat_at_dirs.
  - set (q := (scan w).1) in *. set (n := (scan w).2) in *.
    assert (Hl : forall t, f !! (q ++ [n]) <> Some (KLink t)) by (intros t E; by apply Hnf in E).
    rewrite stat_at_entry by done. destruct (f !! (q ++ [n])) as [k|] eqn:E.
    + rewrite (Hnf k) by done. exists f. split; [done|]. split; [exact Hf|]. apply dirs_snoc; [done|]. by rewrite E, (Hnf k).
    + assert (match q ++ [n] with [] => (f, EEXIST) | q0 => match entry_of f q0 with inr e => (f, e) | inl c0 =>
        match f !! c0 with Some _ => (f, EEXIST) | None => match refuse c0 with Some e => (f, e) | None => (<[c0 := KDir]> f, 0) end end end end = (<[q ++ [n] := KDir]> f, 0)) as ->.
      { pose proof (entry_of_dirs f q n Hd) as Hen. destruct (q ++ [n]) eqn:Eq; [by destruct q|]. by rewrite Hen, E, Hrefuse. }
      exists (<[q ++ [n] := KDir]> f). split; [done|]. split; [apply towards_insert; [by destruct q|done|done]|].
      apply dirs_snoc; [by apply dirs_insert|apply lookup_insert_eq].
Qed.

Lemma walk_creates f don rest :
  towards f -> dirs f (scan don).1 -> components (don ++ rest) = target ->
  (don = [] -> exists c t, rest = c :: t /\ c <> SLASH) ->
  exists f', walk refuse f don rest = (f', 0) /\ towards f' /\ dirs f' target.
Proof.
  revert f don. induction rest as [|c rest IH]; intros f don Hf Hd Ht Hne; simpl.
  - rewrite app_nil_r in Ht. 
    enough (H : exists f', CreateDir refuse f don = (f', 0) /\ towards f' /\ dirs f' (components don)) by (rewrite Ht in H; exact H).
    apply create_level; [|exact Hf|exact Hd|rewrite Ht; reflexivity].
    intros ->. destruct (Hne eq_refl) as (c & t & H & _). discriminate H.
  - assert (Ht' : components ((don ++ [c]) ++ rest) = target) by (rewrite <- app_assoc; exact Ht).
    assert (Hne' : don ++ [c] = [] -> exists c' t, rest = c' :: t /\ c' <> SLASH) by (destruct don; discriminate).
    destruct (Z.eqb_spec c SLASH) as [-> |Hc].
    + assert (Hp : components don `prefix_of` target).
      { rewrite <- Ht'. etrans; [|apply scan_components]. etrans; [|apply scan_grows]. rewrite scan_slash. reflexivity. }
      destruct (create_level f don) as (f1 & E & H1 & H2); [|exact Hf|exact Hd|exact Hp|].
      { intros ->. destruct (Hne eq_refl) as (c & t & H & Hc). injection H as H _. congruence. }
      rewrite E. simpl. apply IH; [exact H1| |exact Ht'|exact Hne']. rewrite scan_slash. exact H2.
    + apply IH; [exact Hf| |exact Ht'|exact Hne']. rewrite scan_other by exact Hc. exact Hd.
Qed.

End create.

(** A path of at most PATH_MAX characters, none of whose levels is a file or a
    link or refused by the system: [CreateDirPath] returns 0, afterwards every level
    of the path is a directory, and nothing else of the file system changed. *)
Theorem create_dir_path (refuse : path -> option Z) (readable : Z) (f : fs) (p : list Z)
    (Hreadable : PATH_MAX <= readable) (Hlen : Z.of_nat (length p) <= PATH_MAX) (Hp : p <> [])
    (Hrefuse : forall r, r `prefix_of` components p -> refuse r = None)
    (Hfile : forall r k, r `prefix_of` components p -> f !! r = Some k -> k = KDir) :
  exists f', CreateDirPath refuse readable f p = Ret (f', 0) /\ dirs f' (components p) /\
    forall r, r = [] \/ ~ r `prefix_of` components p -> f' !! r = f !! r.
Proof.
  assert (H0 : dirs f []) by apply dirs_nil.
  assert (Hf : towards (components p) f f) by (intros r; left; reflexivity).
  assert (Hw : exists f', (match p with c :: rest => if Z.eqb c SLASH then walk refuse f [c] rest else walk refuse f [] p | [] => walk refuse f [] [] end) = (f', 0) /\
    towards (components p) f f' /\ dirs f' (components p)).
  { destruct p as [|c rest]; [contradiction|]. destruct (Z.eqb_spec c SLASH) as [-> |Hc].
    - apply walk_creates; try assumption; [reflexivity|discriminate].
    - apply walk_creates; try assumption; [reflexivity|]. intros _. eauto. }
  destruct Hw as (f' & E & H1 & H2). exists f'. unfold CreateDirPath. rewrite (proj2 (Z.ltb_ge _ _)) by exact Hreadable.
  rewrite take_ge by lia. rewrite E. split; [reflexivity|]. split; [exact H2|].
  intros r Hr. destruct (H1 r) as [H|(Hn & Hq & _)]; [exact H|]. destruct Hr; contradiction.
Qed.

(** ** Removing a tree *)

Lemma prefix_self (q : path) : q `prefix_of` q.
Proof. reflexivity. Qed.

(** Whatever is in the file system is in a directory of it. *)
Definition wf (f : fs) : Prop := forall r n, r <> [] -> is_Some (f !! (r ++ [n])) -> f !! r = Some KDir.

Lemma child_name_spec q e n : child_name q e = Some n <-> e.1 = q ++ [n].
Proof.
  unfold child_name. split.
  - destruct (last e.1) as [m|]; [|discriminate]. destruct (decide _) as [H|]; [|discriminate]. intros [= <-]. exact H.
  - intros ->. rewrite last_snoc. destruct (decide _); [reflexivity|contradiction].
Qed.

Lemma children_spec f q n : n ∈ children f q <-> is_Some (f !! (q ++ [n])).
Proof.
  unfold children. rewrite list_elem_of_omap. split.
  - intros ([r k] & Hin & Hc). apply child_name_spec in Hc. simpl in Hc. subst r.
    apply elem_of_map_to_list in Hin. eauto.
  - intros [k Hk]. exists (q ++ [n], k). split; [apply elem_of_map_to_list, Hk|]. apply child_name_spec. reflexivity.
Qed.

Lemma children_nodup f q : NoDup (children f q).
Proof.
  unfold children.
  pose proof (NoDup_fst_map_to_list f) as Hd. induction (map_to_list f) as [|e l IH]; simpl; [constructor|].
  simpl in Hd. apply NoDup_cons in Hd as [Hn Hd]. destruct (child_name q e) as [n|] eqn:E; [|auto].
  constructor; [|auto]. rewrite list_elem_of_omap. intros (e' & Hin & E').
  apply child_name_spec in E, E'. apply Hn. rewrite E, <- E'. apply list_elem_of_fmap. eauto.
Qed.

Lemma children_nil f q : (forall n, f !! (q ++ [n]) = None) -> children f q = [].
Proof.
  intros H. destruct (children f q) as [|n l] eqn:E; [reflexivity|].
  assert (Hn : n ∈ children f q) by (rewrite E; left). apply children_spec in Hn as [k Hk]. congruence.
Qed.

Lemma wf_above f q s : wf f -> q <> [] -> is_Some (f !! (q ++ s)) -> is_Some (f !! q).
Proof.
  intros Hf Hq. induction s as [|n s IH] using rev_ind; [rewrite app_nil_r; auto|].
  rewrite app_assoc. intros H. apply IH. apply Hf in H; [eauto|]. destruct q; [contradiction|discriminate].
Qed.

(** Taking out an entry with nothing below it. *)
Lemma wf_delete f q : wf f -> (forall n, f !! (q ++ [n]) = None) -> wf (delete q f).
Proof.
  intros Hf Hc r n Hr Hs. destruct (decide (q = r ++ [n])) as [-> |Hn]; [rewrite lookup_delete_eq in Hs; destruct Hs; discriminate|].
  rewrite lookup_delete_ne in Hs by exact Hn. destruct (decide (q = r)) as [-> |Hqr].
  - rewrite Hc in Hs. destruct Hs; discriminate.
  - rewrite lookup_delete_ne by exact Hqr. eauto.
Qed.

Lemma wf_dirs f q n : wf f -> is_Some (f !! (q ++ [n])) -> dirs f q.
Proof.
  intros Hf Hn r Hr [s ->]. destruct s as [|m s]; [rewrite app_nil_r in Hn; by apply (Hf r n)|].
  apply (Hf r m); [done|]. apply (wf_above f (r ++ [m]) (s ++ [n]) Hf); [by destruct r|]. by rewrite <- !app_assoc in *.
Qed.

Section remove.
Context (refuse refuse_open : path -> option Z).
Context (Hrefuse : forall r, refuse r <> Some 0).
Context (Hrefuse_open : forall r, refuse_open r <> Some 0).

(** What a removal under the paths [U] leaves: fewer entries, in order, the ones
    outside untouched; 0 when all went, else the error number of an entry that
    the system refused to remove or of a directory that it refused to open. *)
Record removed (U : path -> Prop) (f f' : fs) (rc : Z) : Prop := {
  rm_sub : forall r k, f' !! r = Some k -> f !! r = Some k;
  rm_wf : wf f';
  rm_out : forall r, ~ U r -> f' !! r = f !! r;
  rm_all : rc = 0 -> forall r, U r -> f' !! r = None;
  rm_err : rc <> 0 -> exists r k, U r /\ f' !! r = Some k /\ (refuse r = Some rc \/ k = KDir /\ refuse_open r = Some rc)
}.

Definition under (q r : path) : Prop := q `prefix_of` r.
Definition under_one (q : path) (names : list name) (r : path) : Prop := exists n, n ∈ names /\ under (q ++ [n]) r.

Lemma removed_mono (U V : path -> Prop) f f' rc :
  (forall r, U r -> V r) -> rc <> 0 -> removed U f f' rc -> removed V f f' rc.
Proof.
  intros HUV Hrc [H1 H2 H3 H4 H5]. constructor; auto; [intros H; contradiction|].
  intros _. destruct (H5 Hrc) as (r & k & Hr & Hx). exists r, k. auto.
Qed.

Lemma removed_seq (U V W : path -> Prop) f f1 f2 rc :
  (forall r, W r <-> U r \/ V r) -> removed U f f1 0 -> removed V f1 f2 rc -> removed W f f2 rc.
Proof.
  intros HW [A1 A2 A3 A4 A5] [B1 B2 B3 B4 B5]. constructor; auto.
  - intros r Hr. rewrite B3 by (rewrite HW in Hr; auto). apply A3. rewrite HW in Hr. auto.
  - intros -> r Hr. apply HW in Hr as [Hr|Hr]; [|auto]. destruct (f2 !! r) as [k|] eqn:E; [|reflexivity].
    apply B1 in E. rewrite A4 in E by auto. discriminate.
  - intros Hrc. destruct (B5 Hrc) as (r & k & Hr & Hx). exists r, k. split; [apply HW; auto|exact Hx].
Qed.

(** An entry with nothing below it, refused or taken out. *)
Lemma removed_leaf f q :
  wf f -> q <> [] -> is_Some (f !! q) -> (forall n, f !! (q ++ [n]) = None) ->
  removed (under q) f (take_out refuse f q).1 (take_out refuse f q).2.
Proof.
  intros Hf Hq [k0 Hk] Hc. unfold take_out. destruct (refuse q) as [e|] eqn:E; simpl.
  - assert (e <> 0) by (intros ->; exact (Hrefuse q E)).
    constructor; auto; [contradiction|]. intros _. exists q, k0. split; [apply prefix_self|auto].
  - constructor; [| apply wf_delete; assumption | | | contradiction].
    + intros r k H. apply lookup_delete_Some in H. tauto.
    + intros r Hr. apply lookup_delete_ne. intros ->. apply Hr. apply prefix_self.
    + intros _ r [s ->]. destruct s as [|n s]; [rewrite app_nil_r; apply lookup_delete_eq|].
      rewrite lookup_delete_ne; [|intros H; apply (f_equal length) in H; rewrite length_app in H; simpl in H; lia].
      destruct (f !! (q ++ n :: s)) as [k1|] eqn:E2; [|reflexivity].
      destruct (wf_above f (q ++ [n]) s Hf) as [k' Hk']; [destruct q; discriminate|rewrite <- app_assoc; simpl; rewrite E2; eauto|].
      rewrite Hc in Hk'. discriminate.
Qed.

Lemma file_childless f q bs : wf f -> q <> [] -> f !! q = Some (KFile bs) -> forall n, f !! (q ++ [n]) = None.
Proof.
  intros Hf Hq Hb n. destruct (f !! (q ++ [n])) eqn:E; [|reflexivity].
  rewrite (Hf q n Hq) in Hb by eauto. discriminate.
Qed.

(** There is no link in the tree. *)
Definition linkless (q : path) (f : fs) : Prop := forall r t, under q r -> f !! r <> Some (KLink t).

Lemma linkless_sub (q s : path) (f g : fs) : (forall r k, g !! r = Some k -> f !! r = Some k) -> linkless q f -> linkless (q ++ s) g.
Proof. intros Hsub Hl r t Hr E. apply (Hl r t); [|by apply Hsub]. unfold under in *. etrans; [|exact Hr]. by apply prefix_app_r. Qed.

(** An entry of the tree that is not a directory. *)
Lemma unlink_file f q n bs : wf f -> f !! (q ++ [n]) = Some (KFile bs) -> unlink refuse f (q ++ [n]) = take_out refuse f (q ++ [n]).
Proof. intros Hf E. unfold unlink. rewrite entry_of_dirs by (eapply wf_dirs; eauto). by rewrite E. Qed.

Lemma clean_removed rm f q names :
  q <> [] -> wf f -> linkless q f -> NoDup names -> (forall n, n ∈ names -> is_Some (f !! (q ++ [n]))) ->
  (forall g n, n ∈ names -> wf g -> (forall r k, g !! r = Some k -> f !! r = Some k) -> g !! (q ++ [n]) = Some KDir ->
     removed (under (q ++ [n])) g (rm g (q ++ [n])).1 (rm g (q ++ [n])).2) ->
  removed (under_one q names) f (clean_loop refuse rm f q names).1 (clean_loop refuse rm f q names).2.
Proof.
  intros Hq. revert f. induction names as [|n names IH]; intros f Hf Hlk Hnd Hin Hrm; simpl.
  { constructor; auto; [|contradiction]. intros _ r (n & Hn & _). inversion Hn. }
  apply NoDup_cons in Hnd as [Hnin Hnd].
  assert (Hqn : forall m : name, q ++ [m] <> []) by (intros m; destruct q; discriminate).
  assert (Hone : exists f1 r2, (match stat_at f (q ++ [n]) with inl KDir => rm f (q ++ [n]) | inl _ => unlink refuse f (q ++ [n]) | inr e => (f, e) end) = (f1, r2) /\ removed (under (q ++ [n])) f f1 r2).
  { destruct (Hin n) as [k Hk]; [left|]. assert (Hnl : forall t, f !! (q ++ [n]) <> Some (KLink t)) by (intros t; apply Hlk, prefix_app_r, prefix_self).
    rewrite stat_at_entry by (done || (eapply wf_dirs; eauto)). rewrite Hk. destruct k as [|bs|t]; [| |by destruct (Hnl t)].
    - specialize (Hrm f n ltac:(left) Hf ltac:(auto) Hk). destruct (rm f (q ++ [n])) as [f1 r2]. eauto.
    - pose proof (removed_leaf f (q ++ [n]) Hf (Hqn n) ltac:(eauto) (file_childless _ _ _ Hf (Hqn n) Hk)) as H.
      rewrite (unlink_file f q n bs Hf Hk). destruct (take_out refuse f (q ++ [n])) as [f1 r2]. eauto. }
  destruct Hone as (f1 & r2 & -> & H1). destruct (Z.eqb_spec r2 0) as [-> |Hr2].
  - eapply removed_seq; [|exact H1|]; [|apply IH].
    + intros r. unfold under_one. split.
      * intros (m & Hm & Hr). apply elem_of_cons in Hm as [-> |Hm]; eauto.
      * intros [Hr|(m & Hm & Hr)]; [exists n|exists m]; (split; [|exact Hr]); [left|right; exact Hm].
    + apply H1.
    + intros r t Hr E. apply (Hlk r t Hr). by apply (rm_sub _ _ _ _ H1).
    + exact Hnd.
    + intros m Hm. rewrite (rm_out _ _ _ _ H1); [apply Hin; right; exact Hm|].
      intros [s Hs]. rewrite <- app_assoc in Hs. apply app_inv_head in Hs. injection Hs as Hs _. subst. contradiction.
    + intros g m Hm Hg Hsub. apply Hrm; [right; exact Hm|exact Hg|]. intros r k Hk. apply (rm_sub _ _ _ _ H1). eauto.
  - simpl. eapply removed_mono; [|exact Hr2|exact H1]. intros r Hr. exists n. split; [left|exact Hr].
Qed.

(** The directory itself, when it is empty. *)
Lemma rmdir_leaf f q : wf f -> q <> [] -> f !! q = Some KDir -> (forall n, f !! (q ++ [n]) = None) -> rmdir refuse f q = take_out refuse f q.
Proof.
  intros Hf Hq Hd Hc. destruct q as [|n q _] using rev_ind; [done|]. unfold rmdir. rewrite entry_of_dirs by (eapply wf_dirs; eauto).
  by rewrite Hd, children_nil.
Qed.

Lemma clean_children rm f q :
  q <> [] -> wf f -> linkless q f ->
  (forall g n, wf g -> (forall r k, g !! r = Some k -> f !! r = Some k) -> g !! (q ++ [n]) = Some KDir ->
     removed (under (q ++ [n])) g (rm g (q ++ [n])).1 (rm g (q ++ [n])).2) ->
  removed (under_one q (children f q)) f (clean_loop refuse rm f q (children f q)).1 (clean_loop refuse rm f q (children f q)).2.
Proof.
  intros Hq Hf Hlk Hrm. apply clean_removed; auto using children_nodup. intros n. apply children_spec.
Qed.

Lemma removed_directory fuel f q :
  q <> [] -> wf f -> linkless q f -> f !! q = Some KDir -> (forall r, under q r -> is_Some (f !! r) -> (length r < length q + fuel)%nat) ->
  removed (under q) f (RemoveDirectory refuse refuse_open fuel f q).1 (RemoveDirectory refuse refuse_open fuel f q).2.
Proof.
  revert f q. induction fuel as [|fuel IH]; intros f q Hq Hf Hlk Hd Hdepth.
  { specialize (Hdepth q ltac:(apply prefix_self) ltac:(eauto)). lia. }
  assert (Hds : dirs f q).
  { destruct q as [|n q _] using rev_ind; [done|]. apply dirs_snoc; [|exact Hd]. eapply wf_dirs; eauto. }
  simpl. unfold clean_with, opendir. rewrite find_dirs, dirs_lookup by exact Hds. destruct (refuse_open q) as [e|] eqn:Eo.
  { assert (He : e <> 0) by (intros ->; exact (Hrefuse_open q Eo)). rewrite (proj2 (Z.eqb_neq _ _) He).
    constructor; auto; [contradiction|]. intros _. exists q, KDir. split; [apply prefix_self|auto]. }
  pose proof (clean_children (RemoveDirectory refuse refuse_open fuel) f q Hq Hf Hlk) as Hc.
  assert (Hstep : removed (under_one q (children f q)) f (clean_loop refuse (RemoveDirectory refuse refuse_open fuel) f q (children f q)).1 (clean_loop refuse (RemoveDirectory refuse refuse_open fuel) f q (children f q)).2).
  { apply Hc. intros g n Hg Hsub Hk. apply IH; [destruct q; discriminate|exact Hg|by apply (linkless_sub q [n] f)|exact Hk|].
    intros r [s ->] [k Hr]. specialize (Hdepth ((q ++ [n]) ++ s)). rewrite !length_app in *. simpl in *.
    assert (H : is_Some (f !! ((q ++ [n]) ++ s))) by eauto. specialize (Hdepth ltac:(rewrite <- app_assoc; apply prefix_app_r, prefix_self) H). lia. }
  clear Hc. destruct (clean_loop _ _ _ _ _) as [f1 rc]. simpl in Hstep. destruct (Z.eqb_spec rc 0) as [-> |Hrc].
  - assert (Hempty : forall n, f1 !! (q ++ [n]) = None).
    { intros n. destruct (f1 !! (q ++ [n])) as [k|] eqn:E; [|reflexivity].
      rewrite (rm_all _ _ _ _ Hstep eq_refl) in E; [discriminate|]. exists n. split; [|apply prefix_self].
      apply children_spec. apply (rm_sub _ _ _ _ Hstep) in E. eauto. }
    assert (Hd1 : f1 !! q = Some KDir).
    { rewrite (rm_out _ _ _ _ Hstep); [exact Hd|]. intros (n & _ & [s Hs]). apply (f_equal length) in Hs. rewrite !length_app in Hs. simpl in Hs. lia. }
    rewrite rmdir_leaf by (done || apply Hstep).
    pose proof (removed_leaf f1 q (rm_wf _ _ _ _ Hstep) Hq ltac:(eauto) Hempty) as Hlast.
    eapply removed_seq; [|exact Hstep|exact Hlast]. intros r. split; [auto|]. intros [(n & _ & Hr)|Hr]; [|exact Hr].
    unfold under in *. etrans; [|exact Hr]. apply prefix_app_r, prefix_self.
  - simpl. eapply removed_mono; [|exact Hrc|exact Hstep]. intros r (n & _ & Hr). unfold under in *. etrans; [|exact Hr]. apply prefix_app_r, prefix_self.
Qed.

End remove.

(** C35.  Removing a directory that has no symbolic link in its tree
    ([FileDemo.link_empties_target] is a directory that has one), in a
    well-formed file system, terminates within the depth of the tree, never
    touches a path outside it and never adds an entry; it returns 0 exactly
    when the whole tree is gone, and otherwise the error number of an entry the
    system refused to remove, or of a directory it refused to open, which is
    still there. *)
Theorem remove_directory (refuse refuse_open : path -> option Z) (fuel : nat) (f f' : fs) (q : path) (rc : Z)
    (Hrefuse : forall r, refuse r <> Some 0) (Hopen : forall r, refuse_open r <> Some 0)
    (Hq : q <> []) (Hwf : wf f) (Hlinks : linkless q f) (Hdir : f !! q = Some KDir)
    (Hdepth : forall r, q `prefix_of` r -> is_Some (f !! r) -> (length r < length q + fuel)%nat)
    (Hrun : RemoveDirectory refuse refuse_open fuel f q = (f', rc)) :
  wf f' /\ (forall r, ~ q `prefix_of` r -> f' !! r = f !! r) /\
  (rc = 0 <-> forall r, q `prefix_of` r -> f' !! r = None) /\
  (rc <> 0 -> exists r k, q `prefix_of` r /\ f' !! r = Some k /\ f !! r = Some k /\
     (refuse r = Some rc \/ k = KDir /\ refuse_open r = Some rc)).
Proof.
  pose proof (removed_directory refuse refuse_open Hrefuse Hopen fuel f q Hq Hwf Hlinks Hdir Hdepth) as H. rewrite Hrun in H. simpl in H.
  split; [apply H|]. split; [apply H|]. split.
  - split; [apply H|]. intros Hall. destruct (decide (rc = 0)) as [|Hrc]; [assumption|].
    destruct (rm_err _ _ _ _ _ _ H Hrc) as (r & k & Hr & Hk & _). rewrite Hall in Hk by exact Hr. discriminate.
  - intros Hrc. destruct (rm_err _ _ _ _ _ _ H Hrc) as (r & k & Hr & Hk & Href). exists r, k.
    split; [exact Hr|]. split; [exact Hk|]. split; [|exact Href]. eapply rm_sub; eauto.
Qed.

(** ** Examples *)

Module FileDemo.

(** [/a], [/a/b], the file [/a/f] and [/c]. *)
Definition tree : fs :=
  <[[[97]] := KDir]> (<[[[97]; [98]] := KDir]> (<[[[97]; [102]] := KFile [1; 2]]> (<[[[99]] := KDir]> ∅))).
Definition no (r : path) : option Z := None.
(** The file cannot be removed. *)
Definition stuck (r : path) : option Z := if decide (r = [[97]; [102]]) then Some 1 else None.

Definition wfb (f : fs) : bool :=
  forallb (fun e : path * kind => match removelast e.1 with [] => true | r => bool_decide (f !! r = Some KDir) end) (map_to_list f).
Definition shallow (n : nat) (f : fs) : bool := forallb (fun e : path * kind => Nat.ltb (length e.1) n) (map_to_list f).

Lemma forallb_entry (P : path * kind -> bool) (f : fs) r k :
  forallb P (map_to_list f) = true -> f !! r = Some k -> P (r, k) = true.
Proof.
  intros H Hk. rewrite forallb_forall in H. apply H, list_elem_of_In, elem_of_map_to_list, Hk.
Qed.

Lemma wfb_wf f : wfb f = true -> wf f.
Proof.
  intros H r n Hr [k Hk]. apply (forallb_entry _ _ _ _ H) in Hk. simpl in Hk. rewrite removelast_last in Hk.
  destruct r; [contradiction|]. apply bool_decide_eq_true in Hk. exact Hk.
Qed.

Lemma shallow_depth n f r : shallow n f = true -> is_Some (f !! r) -> (length r < n)%nat.
Proof. intros H [k Hk]. apply (forallb_entry _ _ _ _ H) in Hk. apply Nat.ltb_lt in Hk. exact Hk. Qed.

Lemma create_dir_path_witness :
  (exists f', CreateDirPath no PATH_MAX tree [97; 47; 98; 47; 120; 47; 121] = Ret (f', 0) /\
    dirs f' [[97]; [98]; [120]; [121]] /\
    forall r, r = [] \/ ~ r `prefix_of` [[97]; [98]; [120]; [121]] -> f' !! r = tree !! r).
Proof.
  apply (create_dir_path no PATH_MAX tree [97; 47; 98; 47; 120; 47; 121]); [vm_compute; congruence|vm_compute; congruence|discriminate|reflexivity|].
  intros r k Hr Hk. destruct (decide (r = [[97]; [102]])) as [-> |Hn].
  - exfalso. destruct Hr as [s Hs]. vm_compute in Hs. discriminate Hs.
  - unfold tree in Hk. rewrite !lookup_insert, !lookup_empty in Hk. repeat case_decide; congruence.
Defined.

Definition linkfree (f : fs) : bool := forallb (fun e : path * kind => match e.2 with KLink _ => false | _ => true end) (map_to_list f).
Lemma linkfree_linkless q f : linkfree f = true -> linkless q f.
Proof. intros H r t _ E. by apply (forallb_entry _ _ _ _ H) in E. Qed.

(** [/a] goes with all that is in it; with the file refused, the call reports 1
    and leaves the file in its directory. *)
Lemma remove_directory_witness :
  (forall r, [[97]] `prefix_of` r -> (RemoveDirectory no no 2 tree [[97]]).1 !! r = None) /\
  (exists r k, [[97]] `prefix_of` r /\ (RemoveDirectory stuck no 2 tree [[97]]).1 !! r = Some k /\ tree !! r = Some k /\
     (stuck r = Some 1 \/ k = KDir /\ no r = Some 1)).
Proof.
  assert (Hd : forall r, [[97]] `prefix_of` r -> is_Some (tree !! r) -> (length r < length [[97]] + 2)%nat).
  { intros r _. apply shallow_depth. vm_compute. reflexivity. }
  assert (Hl : linkless [[97]] tree) by (apply linkfree_linkless; vm_compute; reflexivity). split.
  - apply (remove_directory no no 2 tree (RemoveDirectory no no 2 tree [[97]]).1 [[97]] 0);
      [discriminate|discriminate|discriminate|apply wfb_wf; vm_compute; reflexivity|exact Hl|vm_compute; reflexivity|exact Hd|vm_compute; reflexivity|reflexivity].
  - apply (remove_directory stuck no 2 tree (RemoveDirectory stuck no 2 tree [[97]]).1 [[97]] 1);
      [intros r; unfold stuck; destruct (decide _); discriminate|discriminate|discriminate|apply wfb_wf; vm_compute; reflexivity|exact Hl|vm_compute; reflexivity|exact Hd|vm_compute; reflexivity|discriminate].
Defined.

(** [/a] has a link [/a/l] to [/c], in which there is the file [/c/f]. *)
Definition linked : fs := <[[[97]] := KDir]> (<[[[97]; [108]] := KLink [[99]]]> (<[[[99]] := KDir]> (<[[[99]; [102]] := KFile [1; 2]]> ∅))).

(** Removing [/a] follows the link: the file goes, which is outside [/a], while
    [/a], the link and the emptied directory stay and the call reports ENOTDIR. *)
Theorem link_empties_target :
  RemoveDirectory no no 5 linked [[97]] = (delete [[99]; [102]] linked, ENOTDIR).
Proof. vm_compute. reflexivity. Qed.

End FileDemo.
