(* ===== verification/RaftLog.v ===== *)
(** * RaftLog: the log file of a raft node

    Models src/src/server/rflog/realtime-disk-rflogger.{h,cc}: the in-memory
    vector of entries, its serialisation by [Sync] through a pool object, and
    the loading of an existing file by [initialize].  The results of the system
    calls are in [os]; the protobuf code of [RfLogEntry] is a parameter. *)

From S2P Require Import Prelude Codec PoolApi Buffer FsIo.

Definition RFLOG_MAGIC_NO : Z := 0x72666c67.
Definition RFLOG_MAGIC_NO_LEN : Z := 4.

Inductive RfLogEntryType := NONE | CONFIGURATION | DATA | NOOP.
Record RfLogEntry := mkEntry { term : Z; index : Z; type : RfLogEntryType; data : list Z }.

(** [SerializeToArray] and [ParseFromArray] of [RfLogEntry]. *)
Class EntryProto := {
  entry_bytes : RfLogEntry -> list Z;
  entry_parse : list Z -> option RfLogEntry
}.

(** What the system calls return; [mmap] at [os_mmap], or [MAP_FAILED]. *)
Record os := mkOs {
  os_open : bool; os_stat : bool; os_mmap : option Z; os_munmap : bool;
  os_write : list io_result; os_fsync : bool; os_lseek : bool
}.

Record RtDiskRfLogger := mkLogger {
  m_bAutoSync : bool;
  m_iFd : file;
  m_vEntries : list RfLogEntry;
  m_iCurIdxToSync : Z;
  m_iFileSize : Z
}.

(** [LOGFFUN]: the message is logged and the process ends. *)
Definition fatal_unless {T : Type} (ok : bool) (why : string) (k : outcome T) : outcome T :=
  if ok then k else Abort why.

(** [WriteFileFullyWithFatalLOG] (io-utils.h). *)
Definition WriteFileFullyWithFatalLOG (script : list io_result) (f : file) (bs : list Z) : outcome file :=
  match WriteFully script (Some f) (Some bs) with
  | (Some f', r) => if Z.eqb r (-1) then Abort "write file failed" else Ret f'
  | (None, _) => Abort "write file failed"
  end.

Definition GetLastEntry (l : RtDiskRfLogger) : outcome (option RfLogEntry) :=
  match m_vEntries l with
  | [] => Ret None
  | _ => match m_vEntries l !! length (m_vEntries l) with
         | Some e => Ret (Some e)
         | None => Undef "m_vEntries[m_vEntries.size()]"
         end
  end.

Definition GetEntry (l : RtDiskRfLogger) (idx : Z) : option RfLogEntry :=
  if Z.ltb idx (Z.of_nat (length (m_vEntries l))) then m_vEntries l !! Z.to_nat idx else None.

Section log.
Context `{A : MemPoolApi} `{U : ByteOrderUtils} `{P : EntryProto}.

(** One entry of the second loop of [Sync]; [offset] is the running offset.
    The argument of [SetPos] is the position plus the whole offset. *)
Definition sync_entry (curFileSize : Z) (m : mem) (b : Buffer) (offset : Z) (e : RfLogEntry) : outcome (mem * Buffer * Z) :=
  let entryStartOffset := u32 (curFileSize + offset) in
  let entrySize := Z.of_nat (length (entry_bytes e)) in
  let* m := WriteUInt32 m (m_pPos b) (u32 entrySize) in
  let offset := u32 (offset + 4) in
  let b := SetPos b (m_pPos b + offset) in
  let* m := poke_bytes m (m_pPos b) (entry_bytes e) in
  let offset := u32 (offset + entrySize) in
  let b := SetPos b (m_pPos b + offset) in
  let* m := WriteUInt32 m (m_pPos b) entryStartOffset in
  let offset := u32 (offset + 4) in
  let b := SetPos b (m_pPos b + offset) in
  Ret (m, b, offset).

Fixpoint sync_entries (curFileSize : Z) (m : mem) (b : Buffer) (offset : Z) (es : list RfLogEntry) : outcome (mem * Buffer) :=
  match es with
  | [] => Ret (m, b)
  | e :: es => let* (m, b, offset) := sync_entry curFileSize m b offset e in sync_entries curFileSize m b offset es
  end.

Definition sync_len (es : list RfLogEntry) : Z :=
  foldl (fun len e => u32 (u32 (len + 8) + Z.of_nat (length (entry_bytes e)))) 0 es.

Definition Sync (o : os) (w : world A) (l : RtDiskRfLogger) : outcome (world A * RtDiskRfLogger) :=
  let es := drop (Z.to_nat (m_iCurIdxToSync l)) (m_vEntries l) in
  let len := sync_len es in
  let* (w, k, bufferStart) := mp_get w len in
  let* (w, b) := Refresh w null_buffer bufferStart (bufferStart + len) bufferStart (bufferStart + len) (Some k) in
  let* (m, b) := sync_entries (m_iFileSize l) (w_mem w) b 0 es in
  let w := set_mem w m in
  let* bs := peek_bytes m (m_pStart b) (Z.to_nat len) in
  let* fd := WriteFileFullyWithFatalLOG (os_write o) (m_iFd l) bs in
  fatal_unless (os_fsync o) "fdatasync file failed" (
  let* (w, _) := Buffer_Put w b in
  Ret (w, mkLogger (m_bAutoSync l) fd (m_vEntries l) (m_iCurIdxToSync l) (u32 (m_iFileSize l + len)))).

(** [release_data] empties the data of the entry that is passed in. *)
Definition released (e : RfLogEntry) : RfLogEntry := mkEntry (term e) (index e) (type e) [].

Definition push_back (l : RtDiskRfLogger) (e : RfLogEntry) : RtDiskRfLogger :=
  mkLogger (m_bAutoSync l) (m_iFd l) (m_vEntries l ++ [e]) (m_iCurIdxToSync l) (m_iFileSize l).

Definition AppendEntry (o : os) (w : world A) (l : RtDiskRfLogger) (rfEntry : RfLogEntry)
    : outcome (world A * RtDiskRfLogger * RfLogEntry) :=
  let l := push_back l (mkEntry (term rfEntry) (index rfEntry) (type rfEntry) (data rfEntry)) in
  let* (w, l) := if m_bAutoSync l then Sync o w l else Ret (w, l) in
  Ret (w, l, released rfEntry).

Definition AppendEntries (o : os) (w : world A) (l : RtDiskRfLogger) (entries : list RfLogEntry)
    : outcome (world A * RtDiskRfLogger * list RfLogEntry) :=
  let l := foldl (fun l e => push_back l (mkEntry (term e) (index e) (type e) (data e))) l entries in
  let* (w, l) := if m_bAutoSync l then Sync o w l else Ret (w, l) in
  Ret (w, l, released <$> entries).

(** The pages [mmap] makes readable: the file's bytes, then zeros to the end of
    the last page. *)
Definition mmap_bytes (bs : list Z) : list Z :=
  bs ++ replicate (Z.to_nat (- Z.of_nat (length bs) mod 4096)) 0.

(** The loading loop.  [b] is the one [Buffer] of the function: every turn
    refreshes it. *)
Fixpoint load_entries (fuel : nat) (w : world A) (buf : Z) (b : Buffer) (offset : Z) (l : RtDiskRfLogger)
    : outcome (world A * Buffer * RtDiskRfLogger) :=
  if Z.leb offset (u32 (m_iFileSize l - 1)) then
    match fuel with
    | O => Abort "turn bound of initialize reached"
    | S fuel =>
        let* len := ReadUInt32 (w_mem w) (buf + offset) in
        let* startPos := ReadUInt32 (w_mem w) (buf + offset + len) in
        fatal_unless (Z.eqb startPos offset) "parse rflog failed" (
        let startPtr := buf + offset in
        let endPtr := buf + len - 1 in
        let* (w, b) := Refresh w b startPtr endPtr startPtr endPtr None in
        let* bs := peek_bytes (w_mem w) (m_pPos b) (Z.to_nat (AvailableLength b)) in
        match entry_parse bs with
        | None => Abort "deserialize rflog failed"
        | Some e =>
            let l := mkLogger (m_bAutoSync l) (m_iFd l) (m_vEntries l ++ [e]) (u32 (m_iCurIdxToSync l + 1)) (m_iFileSize l) in
            load_entries fuel w buf b (u32 (offset + (len + 4))) l
        end)
    end
  else Ret (w, b, l).

(** [lseek(m_iFd, 0, SEEK_END)]. *)
Definition seek_end (o : os) (w : world A) (l : RtDiskRfLogger) : outcome (world A * RtDiskRfLogger) :=
  fatal_unless (os_lseek o) "lseek file failed" (
  Ret (w, mkLogger (m_bAutoSync l) (mkFile (f_bytes (m_iFd l)) (length (f_bytes (m_iFd l)))) (m_vEntries l) (m_iCurIdxToSync l) (m_iFileSize l))).

(** [disk] is the file at the path, if there is one. *)
Definition initialize (fuel : nat) (o : os) (w : world A) (disk : option (list Z)) (autoSync : bool)
    : outcome (world A * RtDiskRfLogger) :=
  match disk with
  | None =>
      fatal_unless (os_open o) "create rflog file failed" (
      let* hdr := WriteUInt32 (touch ∅ 1 4) 1 RFLOG_MAGIC_NO in
      let* bs := peek_bytes hdr 1 4 in
      let* fd := WriteFileFullyWithFatalLOG (os_write o) (mkFile [] 0) bs in
      seek_end o w (mkLogger autoSync fd [] 0 0))
  | Some bytes =>
      fatal_unless (os_open o) "open rflog file failed" (
      fatal_unless (os_stat o) "get file size failed" (
      let l := mkLogger autoSync (mkFile bytes 0) [] 0 (u32 (Z.of_nat (length bytes))) in
      if Z.eqb (m_iFileSize l) 0 then Ret (w, l)
      else if Z.ltb (m_iFileSize l) RFLOG_MAGIC_NO_LEN then Abort "rflog header is corrupt"
      else match os_mmap o with
      | None => Abort "mmap rflog failed"
      | Some buf =>
          let w' := set_mem w (fill (w_mem w) buf (mmap_bytes bytes)) in
          let* magicNo := ReadUInt32 (w_mem w') buf in
          fatal_unless (Z.eqb RFLOG_MAGIC_NO magicNo) "rflog header is corrupt" (
          let* (w', b, l) := load_entries fuel w' buf null_buffer RFLOG_MAGIC_NO_LEN l in
          fatal_unless (os_munmap o) "munmap file failed" (
          let* (w', _) := Buffer_Put (set_mem w' (w_mem w)) b in
          seek_end o w' l))
      end))
  end.

End log.

Section properties.
Context `{A : MemPoolApi} `{U : ByteOrderUtils} `{UL : !ByteOrderLaws U} `{P : EntryProto}.

Lemma Sync_entries_kept o (w w' : world A) l l' : Sync o w l = Ret (w', l') -> m_vEntries l' = m_vEntries l.
Proof.
  unfold Sync, fatal_unless. intros H. outcome_inv. do 3 (case_match; outcome_inv). case_match; [|done].
  outcome_inv. by case_match; outcome_inv.
Qed.

Lemma push_back_all l es :
  foldl (fun l e => push_back l (mkEntry (term e) (index e) (type e) (data e))) l es =
  mkLogger (m_bAutoSync l) (m_iFd l) (m_vEntries l ++ es) (m_iCurIdxToSync l) (m_iFileSize l).
Proof.
  revert l. induction es as [|e es IH]; intros l; simpl; [rewrite app_nil_r; by destruct l|].
  rewrite IH. simpl. rewrite <- (assoc (++)). by destruct e.
Qed.

(** The log is append-only: whatever [AppendEntries] returns with, the
    entries are the old ones followed by the new ones in order, so [GetEntry]
    finds the old entries where they were and the new ones behind them; and
    without automatic synchronisation it always returns, the caller's
    entries left without their data. *)
Theorem log_append_get (o : os) (w : world A) (l : RtDiskRfLogger) (es : list RfLogEntry) :
  (m_bAutoSync l = false -> exists l', AppendEntries o w l es = Ret (w, l', released <$> es)) /\
  forall w' l' es', AppendEntries o w l es = Ret (w', l', es') ->
    m_vEntries l' = m_vEntries l ++ es /\
    forall i, 0 <= i -> GetEntry l' i =
      if Z.ltb i (Z.of_nat (length (m_vEntries l))) then GetEntry l i
      else es !! Z.to_nat (i - Z.of_nat (length (m_vEntries l))).
Proof.
  unfold AppendEntries. rewrite push_back_all. cbn [m_bAutoSync]. split; [intros ->; eexists; reflexivity|].
  intros w' l' es' H.
  assert (m_vEntries l' = m_vEntries l ++ es) as E.
  { destruct (m_bAutoSync l); outcome_inv; [|done]. case_match. outcome_inv.
    by apply Sync_entries_kept in E. }
  split; [done|]. intros i Hi. unfold GetEntry. rewrite E, length_app.
  destruct (Z.ltb_spec i (Z.of_nat (length (m_vEntries l)))).
  - rewrite (proj2 (Z.ltb_lt i (Z.of_nat (length (m_vEntries l) + length es)))) by lia.
    rewrite lookup_app_l by lia. done.
  - rewrite lookup_app_r by lia.
    replace (Z.to_nat i - length (m_vEntries l))%nat with (Z.to_nat (i - Z.of_nat (length (m_vEntries l)))) by lia.
    clear H.
    case_match eqn:E2; [done|]. apply Z.ltb_ge in E2. symmetry. apply lookup_ge_None_2. lia.
Qed.

Definition header : list Z := be_split 4 RFLOG_MAGIC_NO.

Lemma write_file_ok script f bs : no_failure script -> bs <> [] ->
  WriteFileFullyWithFatalLOG script f bs = Ret (write_some f bs).
Proof.
  intros Hs Hne. unfold WriteFileFullyWithFatalLOG. destruct (WriteFully_exact script f bs) as (k & _ & E & Hk).
  rewrite E, (Hk Hs), firstn_all, decide_True by done. by rewrite (proj2 (Z.eqb_neq _ _)) by lia.
Qed.

Definition os_ok (o : os) : Prop :=
  os_open o = true /\ os_stat o = true /\ os_mmap o <> None /\ os_munmap o = true /\
  no_failure (os_write o) /\ os_fsync o = true /\ os_lseek o = true.

Lemma create_log fuel o (w : world A) autoSync : os_ok o ->
  initialize fuel o w None autoSync = Ret (w, mkLogger autoSync (mkFile header 4) [] 0 0).
Proof using UL.
  intros (Ho & _ & _ & _ & Hw & _ & Hl). unfold initialize, seek_end, fatal_unless. rewrite Ho, Hl.
  rewrite WriteUInt32_fill by (try apply touch_range_ok; unfold in_u, RFLOG_MAGIC_NO; lia). cbn [obind].
  change 4%nat with (length header). rewrite peek_bytes_at by apply fill_bytes_at. cbn [obind].
  by rewrite write_file_ok.
Qed.

(** A log file that holds only its header, as a new log leaves it. *)
Lemma open_header_only fuel o (w : world A) autoSync : os_ok o ->
  initialize fuel o w (Some header) autoSync = Ret (w, mkLogger autoSync (mkFile header 4) [] 0 4).
Proof using UL.
  intros (Ho & Hst & Hm & Hu & _ & _ & Hl). unfold initialize, fatal_unless. rewrite Ho, Hst.
  destruct (os_mmap o) as [buf|]; [|done]. cbn [m_iFileSize]. change (u32 (Z.of_nat (length header))) with 4.
  change (Z.eqb 4 0) with false. change (Z.ltb 4 RFLOG_MAGIC_NO_LEN) with false. cbv iota zeta.
  rewrite (ReadUInt32_at _ _ RFLOG_MAGIC_NO); [|unfold in_u, RFLOG_MAGIC_NO; lia|].
  2: { cbn [w_mem set_mem]. intros i b Hi. apply fill_bytes_at. unfold mmap_bytes. by apply lookup_app_l_Some. }
  cbn [obind]. rewrite Z.eqb_refl. rewrite Hu.
  assert (forall w, load_entries (A := A) fuel w buf null_buffer RFLOG_MAGIC_NO_LEN (mkLogger autoSync (mkFile header 0) [] 0 4) =
    Ret (w, null_buffer, mkLogger autoSync (mkFile header 0) [] 0 4)) as -> by (intros; by destruct fuel).
  cbn [obind]. unfold Buffer_Put, Refresh. cbn. unfold seek_end, fatal_unless. rewrite Hl. cbn. by destruct w.
Qed.

(** A new log can be reopened: creating the log leaves a file with the magic
    number, and opening that file gives an empty log positioned at its end. *)
Theorem log_create_reopen (fuel : nat) (o : os) (w : world A) (autoSync : bool) : os_ok o ->
  exists l l', initialize fuel o w None autoSync = Ret (w, l) /\
    f_bytes (m_iFd l) = be_split 4 RFLOG_MAGIC_NO /\
    initialize fuel o w (Some (f_bytes (m_iFd l))) autoSync = Ret (w, l') /\
    m_vEntries l' = [] /\ m_iFd l' = m_iFd l /\ m_iFileSize l' = Z.of_nat (f_off (m_iFd l')).
Proof using UL.
  intros Ho. eexists _, _. split; [by apply create_log|]. split; [done|].
  split; [by apply open_header_only|]. done.
Qed.

(** ** Reopening a log with content *)

(** A buffer whose next [Refresh] deletes a pointer [new\[\]] never returned. *)
Definition stray (w : world A) (b : Buffer) : Prop :=
  m_pMpObject b = None /\ m_pStart b <> 0 /\ (m_pStart b ∉ w_arrays w).

Lemma stray_refresh w b p q s e k : stray w b -> forall r, Refresh w b p q s e k <> Ret r.
Proof.
  intros (Hm & Hs & Ha) r. unfold Refresh, delete_arr. rewrite Hm, (proj2 (Z.eqb_neq _ _) Hs).
  by rewrite decide_False.
Qed.

(** One more turn with such a buffer cannot finish. *)
Lemma load_stray fuel w buf b offset l r : stray w b -> load_entries fuel w buf b offset l = Ret r -> r = (w, b, l).
Proof.
  intros Hs. destruct fuel as [|fuel]; cbn [load_entries]; (destruct (Z.leb _ _); [|by intros [= <-]]); [done|].
  unfold fatal_unless. do 2 (destruct (ReadUInt32 _ _); cbn [obind]; try done). destruct (Z.eqb _ _); [|done].
  destruct (Refresh w b _ _ _ _ _) eqn:E; cbn [obind]; try done. by apply stray_refresh in E.
Qed.

Lemma load_first fuel w buf l r : 0 < buf -> 4 < m_iFileSize l < 2 ^ 32 ->
  (forall x, x ∈ w_arrays w -> ~ (buf <= x < buf + m_iFileSize l)) ->
  load_entries fuel w buf null_buffer RFLOG_MAGIC_NO_LEN l = Ret r ->
  exists w' b l', r = (w', b, l') /\ stray w' b /\ w_arrays w' = w_arrays w.
Proof.
  intros Hbuf Hsz Harr. destruct fuel as [|fuel]; cbn [load_entries];
    rewrite u32_id, (proj2 (Z.leb_le _ _)) by (unfold in_u, RFLOG_MAGIC_NO_LEN; lia); [done|].
  unfold fatal_unless. do 2 (destruct (ReadUInt32 _ _); cbn [obind]; try done). destruct (Z.eqb _ _); [|done].
  unfold Refresh, delete_arr. cbn [m_pMpObject null_buffer m_pStart]. rewrite Z.eqb_refl. cbn [obind].
  destruct (peek_bytes _ _ _); cbn [obind]; try done. destruct (entry_parse _); try done. intros H.
  match type of H with load_entries _ ?w1 _ ?b1 _ _ = _ => assert (stray w1 b1) as Hst end.
  { split_and!; simpl; [done|unfold RFLOG_MAGIC_NO_LEN; lia|]. intros Hin. apply (Harr _ Hin). unfold RFLOG_MAGIC_NO_LEN. lia. }
  apply load_stray in H; [|done]. subst r. by eexists _, _, _.
Qed.

(** A log with content cannot be reopened: for a file of more than four
    bytes, [initialize] never returns, whatever the bytes are.  Either it
    stops at a check, or its buffer ends up deleting a pointer into the mapped
    file, which [new\[\]] did not return. *)
Theorem log_reload_never_returns (fuel : nat) (o : os) (w : world A) (bytes : list Z) (autoSync : bool) (buf : Z) :
  os_mmap o = Some buf -> 0 < buf -> 4 < Z.of_nat (length bytes) < 2 ^ 32 ->
  (forall x, x ∈ w_arrays w -> ~ (buf <= x < buf + Z.of_nat (length bytes))) ->
  forall r, initialize fuel o w (Some bytes) autoSync <> Ret r.
Proof.
  intros Hm Hbuf Hsz Harr r. unfold initialize, fatal_unless. rewrite Hm. cbn [m_iFileSize].
  rewrite u32_id by (unfold in_u; lia). rewrite (proj2 (Z.eqb_neq _ _)), (proj2 (Z.ltb_ge _ _)) by (unfold RFLOG_MAGIC_NO_LEN; lia).
  destruct (os_open o); [|done]. destruct (os_stat o); [|done]. cbv zeta.
  destruct (ReadUInt32 _ _); cbn [obind]; try done. destruct (Z.eqb _ _); [|done].
  destruct (load_entries _ _ _ _ _ _) as [[[w' b] l']| | |] eqn:E; cbn [obind]; try done.
  apply load_first in E as (w1 & b1 & l1 & [= <- <- <-] & Hst & Ea); try done.
  destruct (os_munmap o); [|done]. unfold Buffer_Put.
  destruct (Refresh _ b _ _ _ _ _) eqn:E2; cbn [obind]; try done.
  exfalso. eapply stray_refresh; [|exact E2]. done.
Qed.

(** ** Where [Sync] puts the trailer *)

Lemma set_pos_fields b p : m_pPos (SetPos b p) = p /\ m_pStart (SetPos b p) = m_pStart b /\ m_pMpObject (SetPos b p) = m_pMpObject b.
Proof. done. Qed.

(** The memory after one entry at the start of the buffer: the length, the
    content, and the start position four bytes beyond the place for it. *)
Lemma sync_entry_at cur m b e a :
  is_bytes (entry_bytes e) -> in_u 32 (12 + Z.of_nat (length (entry_bytes e))) -> in_u 32 cur ->
  m_pPos b = a -> range_ok m a (12 + Z.of_nat (length (entry_bytes e))) ->
  let n := Z.of_nat (length (entry_bytes e)) in
  exists b' off, sync_entry cur m b 0 e = Ret (fill (fill (fill m a (be_split 4 n)) (a + 4) (entry_bytes e)) (a + 8 + n) (be_split 4 cur), b', off) /\
    m_pStart b' = m_pStart b /\ m_pMpObject b' = m_pMpObject b.
Proof using UL.
  intros Hb Hn Hc Hp Hr n. unfold in_u in Hn, Hc. unfold sync_entry. fold n in Hn, Hr |- *.
  rewrite Hp, (u32_id n) by (unfold in_u; lia).
  rewrite WriteUInt32_fill; [|unfold in_u; lia|eapply range_ok_sub; [exact Hr|lia..]]. cbn [obind].
  destruct (set_pos_fields b (a + u32 (0 + 4))) as (-> & E1 & E2). change (u32 (0 + 4)) with 4.
  rewrite poke_bytes_fill; [|done|apply fill_range_ok; eapply range_ok_sub; [exact Hr|lia..]]. cbn [obind].
  rewrite (u32_id (4 + n)) by (unfold in_u; lia).
  match goal with |- context [SetPos ?b1 (a + 4 + (4 + n))] =>
    destruct (set_pos_fields b1 (a + 4 + (4 + n))) as (-> & E3 & E4) end.
  rewrite (u32_id (cur + 0)) by (unfold in_u; lia). rewrite Z.add_0_r.
  replace (a + 4 + (4 + n)) with (a + 8 + n) by lia.
  rewrite WriteUInt32_fill; [|unfold in_u; lia|do 2 apply fill_range_ok; eapply range_ok_sub; [exact Hr|lia..]].
  cbn [obind]. eexists _, _. split; [reflexivity|]. done.
Qed.

(** [Sync] misplaces the position that ends a segment: for one unsynchronised
    entry of [n] bytes it stores the start position in the four bytes after
    the [8 + n] bytes it requested, and the file receives, where that position
    belongs, the four bytes the pool object happened to hold; the index of
    the next entry to synchronise stays where it was. *)
Theorem log_sync_trailer (o : os) (w : world A) (l : RtDiskRfLogger) (e : RfLogEntry) (p p' : pool) (k : positive) (a : Z) (stale : list Z) :
  let n := Z.of_nat (length (entry_bytes e)) in
  let m := touch (w_mem w) a (8 + n) in
  os_ok o -> drop (Z.to_nat (m_iCurIdxToSync l)) (m_vEntries l) = [e] -> is_bytes (entry_bytes e) ->
  12 + n < 2 ^ 32 -> in_u 32 (m_iFileSize l) ->
  pool_get (w_pool w) (8 + n) = Ret (p, Some k) -> Pointer p k = Ret a -> pool_put p (Some k) = Ret p' ->
  range_ok m a (12 + n) -> length stale = 4%nat -> bytes_at m (a + 4 + n) stale ->
  exists w' l', Sync o w l = Ret (w', l') /\
    m_iFd l' = write_some (m_iFd l) (be_split 4 n ++ entry_bytes e ++ stale) /\
    bytes_at (w_mem w') (a + 8 + n) (be_split 4 (m_iFileSize l)) /\
    m_iCurIdxToSync l' = m_iCurIdxToSync l.
Proof using UL.
  intros n m (_ & _ & _ & _ & Hw & Hf & _) Hes Hb Hn Hs Hg Hp Hpp Hr Hsl Hst. unfold Sync. rewrite Hes.
  assert (sync_len [e] = 8 + n) as -> by (unfold sync_len; cbn [foldl]; fold n; change (u32 (0 + 8)) with 8; by rewrite u32_id by (unfold in_u; lia)).
  unfold mp_get. rewrite Hg. cbn [obind]. rewrite Hp. cbn [obind]. fold m.
  unfold Refresh, delete_arr. cbn [m_pMpObject null_buffer m_pStart]. rewrite Z.eqb_refl. cbn [obind w_mem sync_entries].
  match goal with |- context [sync_entry _ _ ?b0 _ _] =>
    destruct (sync_entry_at (m_iFileSize l) m b0 e a) as (b' & off & -> & Est & Emp) end;
    [done|unfold in_u; fold n; lia|done|done|done|]. fold n. cbn [obind m_pStart check_available] in Est |- *. rewrite Est.
  set (m3 := fill _ (a + 8 + n) _).
  assert (bytes_at m3 a (be_split 4 n ++ entry_bytes e ++ stale)) as Hat.
  { subst m3. apply bytes_at_frame; [|left; rewrite !length_app, be_split_length; fold n; lia].
    apply bytes_at_app. rewrite be_split_length. split.
    - apply bytes_at_frame; [apply fill_bytes_at|left; rewrite be_split_length; lia].
    - apply bytes_at_app. split; [apply fill_bytes_at|].
      replace (a + Z.of_nat 4 + Z.of_nat (length (entry_bytes e))) with (a + 4 + n) by lia.
      apply bytes_at_frame; [|right; fold n; lia].
      apply bytes_at_frame; [done|right; rewrite be_split_length; lia]. }
  replace (Z.to_nat (8 + n)) with (length (be_split 4 n ++ entry_bytes e ++ stale)) by (rewrite !length_app, be_split_length; lia).
  rewrite (peek_bytes_at _ _ _ Hat). cbn [obind].
  rewrite write_file_ok; [|done|]. 2: { intros E. apply (f_equal length) in E. rewrite !length_app, be_split_length in E. done. }
  cbn [obind]. unfold fatal_unless. rewrite Hf. unfold Buffer_Put, Refresh. rewrite Emp. cbn [m_pMpObject check_available].
  unfold mp_put. cbn [w_pool set_mem]. rewrite Hpp. cbn [obind]. eexists _, _. split; [reflexivity|].
  split; [done|]. split; [|done]. cbn [w_mem set_pool set_mem]. apply fill_bytes_at.
Qed.
End properties.

(** ** Concrete runs *)

Module LogDemo.

(** A pool with one object, at address 4096. *)
#[local] Instance OnePool : MemPoolApi := {|
  pool := unit;
  pool_get p _ := Ret (p, Some 1%positive);
  pool_put p _ := Ret p;
  Pointer _ _ := Ret 4096
|}.

(** An encoding of entries by their data alone. *)
#[local] Instance DataProto : EntryProto := {|
  entry_bytes := data;
  entry_parse bs := Some (mkEntry 0 0 DATA bs)
|}.

Definition os0 : os := mkOs true true (Some 65536) true [Moved 1; Moved 3] true true.
Definition w0 : world OnePool := mkWorld (touch ∅ 4096 64) tt ∅.
Definition e0 : RfLogEntry := mkEntry 1 1 DATA [10; 20; 30].
Definition l0 : RtDiskRfLogger := mkLogger true (mkFile header 4) [e0] 0 0.

Lemma os0_ok : os_ok os0.
Proof. repeat split; try discriminate. repeat constructor; discriminate. Qed.

Lemma log_create_reopen_witness : exists l l', initialize 8 os0 w0 None true = Ret (w0, l) /\
    f_bytes (m_iFd l) = be_split 4 RFLOG_MAGIC_NO /\
    initialize 8 os0 w0 (Some (f_bytes (m_iFd l))) true = Ret (w0, l') /\
    m_vEntries l' = [] /\ m_iFd l' = m_iFd l /\ m_iFileSize l' = Z.of_nat (f_off (m_iFd l')).
Proof. apply (log_create_reopen 8 os0 w0 true), os0_ok. Defined.

Lemma log_reload_never_returns_witness :
  let bytes := header ++ be_split 4 3 ++ [10; 20; 30] ++ be_split 4 4 in
  length bytes = 15%nat /\ forall r, initialize 8 os0 w0 (Some bytes) true <> Ret r.
Proof.
  split; [reflexivity|].
  apply (log_reload_never_returns 8 os0 w0 (header ++ be_split 4 3 ++ [10; 20; 30] ++ be_split 4 4) true 65536).
  - reflexivity.
  - lia.
  - vm_compute. split; reflexivity.
  - intros x Hx. exfalso. revert Hx. apply not_elem_of_empty.
Defined.

Lemma log_sync_trailer_witness : let n := Z.of_nat (length (entry_bytes e0)) in
  exists w' l', Sync os0 w0 l0 = Ret (w', l') /\
    m_iFd l' = write_some (m_iFd l0) (be_split 4 n ++ entry_bytes e0 ++ [0; 0; 0; 0]) /\
    bytes_at (w_mem w') (4096 + 8 + n) (be_split 4 (m_iFileSize l0)) /\ m_iCurIdxToSync l' = m_iCurIdxToSync l0.
Proof.
  refine (log_sync_trailer os0 w0 l0 e0 tt tt 1%positive 4096 [0; 0; 0; 0] _ _ _ _ _ _ _ _ _ _ _).
  - apply os0_ok.
  - reflexivity.
  - repeat constructor; vm_compute; congruence.
  - vm_compute. reflexivity.
  - vm_compute. split; [discriminate|reflexivity].
  - reflexivity.
  - reflexivity.
  - reflexivity.
  - eapply range_ok_sub; [apply touch_keeps_range, touch_range_ok|vm_compute; discriminate..].
  - reflexivity.
  - intros [|[|[|[|i]]]] b E; try discriminate E; injection E as <-; vm_compute; reflexivity.
Defined.

End LogDemo.
