(* ===== verification/Queues.v ===== *)
(** * Queues: the blocking queue and the thread pool

    Models src/src/common/blocking-queue.h and src/src/ccsys/thread-pool.h.
    Every method of the queue runs under its mutex, up to its return or to
    [m_cond.wait]: such a section is one atomic step.  A thread inside
    [wait] is in [waiting]; a notification, or a spurious wake-up, moves it
    to [woken], from where it tests its loop condition again. *)

From S2P Require Import Prelude.

Module BlockingQueue.

Section queue.
Context {T : Type}.

(** A thread inside [Pop] or [Push(item)]. *)
Inductive waiter := WPop | WPush (item : T).

(** [accepted] and [left] are ghost: the items in the order they were pushed,
    and those that have left the queue. *)
Record BlockingQueue := mkBQ {
  m_iQueueMaxSize : Z;
  m_queue : list T;
  waiting : list waiter;
  woken : list waiter;
  accepted : list T;
  left : list T
}.

(** What a section does to [m_cond]. *)
Inductive notify := NotifyNone | NotifyOne | NotifyAll.

Definition new (queueMaxSize : Z) : BlockingQueue := mkBQ queueMaxSize [] [] [] [] [].

Definition full (q : BlockingQueue) : bool :=
  negb (Z.eqb (m_iQueueMaxSize q) 0) && Z.leb (m_iQueueMaxSize q) (Z.of_nat (length (m_queue q))).

(** [if (0 != m_iQueueMaxSize) m_cond.notify_one()]. *)
Definition pop_notify (q : BlockingQueue) : notify := if Z.eqb (m_iQueueMaxSize q) 0 then NotifyNone else NotifyOne.

Definition TryPop (q : BlockingQueue) : BlockingQueue * option T * notify :=
  match m_queue q with
  | [] => (q, None, NotifyNone)
  | item :: rest =>
      (mkBQ (m_iQueueMaxSize q) rest (waiting q) (woken q) (accepted q) (left q ++ [item]), Some item, pop_notify q)
  end.

Definition TryPush (q : BlockingQueue) (item : T) : BlockingQueue * bool * notify :=
  if full q then (q, false, NotifyNone)
  else (mkBQ (m_iQueueMaxSize q) (m_queue q ++ [item]) (waiting q) (woken q) (accepted q ++ [item]) (left q), true, NotifyOne).

Definition Empty (q : BlockingQueue) : bool := match m_queue q with [] => true | _ => false end.
Definition Size (q : BlockingQueue) : Z := Z.of_nat (length (m_queue q)).

Definition Clear (q : BlockingQueue) : BlockingQueue * notify :=
  (mkBQ (m_iQueueMaxSize q) [] (waiting q) (woken q) (accepted q) (left q ++ m_queue q), NotifyAll).

Definition set_threads (q : BlockingQueue) (wa wo : list waiter) : BlockingQueue :=
  mkBQ (m_iQueueMaxSize q) (m_queue q) wa wo (accepted q) (left q).

(** One pass through the loop of [Pop] or [Push]: the thread returns (with the
    item, for [Pop]) or waits. *)
Definition attempt (q : BlockingQueue) (a : waiter) : BlockingQueue * bool * notify :=
  match a with
  | WPop => match TryPop q with
            | (q', Some _, n) => (q', true, n)
            | (_, None, _) => (set_threads q (a :: waiting q) (woken q), false, NotifyNone)
            end
  | WPush item => if full q then (set_threads q (a :: waiting q) (woken q), false, NotifyNone) else TryPush q item
  end.

(** The notification reaches any one of the waiting threads, or nobody. *)
Inductive notified (q : BlockingQueue) : notify -> BlockingQueue -> Prop :=
| notified_none : notified q NotifyNone q
| notified_nobody : waiting q = [] -> notified q NotifyOne q
| notified_one l1 a l2 : waiting q = l1 ++ a :: l2 ->
    notified q NotifyOne (set_threads q (l1 ++ l2) (a :: woken q))
| notified_all : notified q NotifyAll (set_threads q [] (waiting q ++ woken q)).

Inductive step : BlockingQueue -> BlockingQueue -> Prop :=
| step_call q a q' n q'' ok : attempt q a = (q', ok, n) -> notified q' n q'' -> step q q''
| step_again q l1 a l2 q' n q'' ok : woken q = l1 ++ a :: l2 ->
    attempt (set_threads q (waiting q) (l1 ++ l2)) a = (q', ok, n) -> notified q' n q'' -> step q q''
| step_try_pop q q' r n q'' : TryPop q = (q', r, n) -> notified q' n q'' -> step q q''
| step_try_push q item q' r n q'' : TryPush q item = (q', r, n) -> notified q' n q'' -> step q q''
| step_clear q q' n q'' : Clear q = (q', n) -> notified q' n q'' -> step q q''
| step_spurious q l1 a l2 : waiting q = l1 ++ a :: l2 -> step q (set_threads q (l1 ++ l2) (a :: woken q)).

Definition reachable (max : Z) : BlockingQueue -> Prop := rtc step (new max).

(** ** Order and capacity *)

Record inv (max : Z) (q : BlockingQueue) : Prop := mkInv {
  inv_max : m_iQueueMaxSize q = max;
  inv_fifo : accepted q = left q ++ m_queue q;
  inv_cap : max <> 0 -> Z.of_nat (length (m_queue q)) <= max
}.

Lemma full_spec q : 0 <= m_iQueueMaxSize q -> full q = true <-> m_iQueueMaxSize q <> 0 /\ m_iQueueMaxSize q <= Z.of_nat (length (m_queue q)).
Proof. intros. unfold full. rewrite andb_true_iff, negb_true_iff, Z.eqb_neq, Z.leb_le. done. Qed.

Lemma inv_threads max q wa wo : inv max (set_threads q wa wo) <-> inv max q.
Proof. split; intros [H1 H2 H3]; by split. Qed.

Lemma inv_TryPop max q q' r n : inv max q -> TryPop q = (q', r, n) -> inv max q'.
Proof.
  intros [H1 H2 H3] E. unfold TryPop in E. destruct (m_queue q) as [|x rest] eqn:Eq; simplify_eq/=.
  - by split; rewrite ?Eq.
  - split; simpl in *; [done| |lia]. by rewrite H2, <- (assoc (++)).
Qed.

Lemma inv_TryPush max q x q' r n : 0 <= max -> inv max q -> TryPush q x = (q', r, n) -> inv max q'.
Proof.
  intros Hm [H1 H2 H3] E. unfold TryPush in E. destruct (full q) eqn:Ef; simplify_eq/=; [by split|].
  split; simpl; [done|by rewrite H2, (assoc (++))|]. intros Hne. rewrite length_app. simpl.
  assert (~ (m_iQueueMaxSize q <> 0 /\ m_iQueueMaxSize q <= Z.of_nat (length (m_queue q)))) as Hf
    by (rewrite <- full_spec by done; by rewrite Ef). lia.
Qed.

Lemma inv_attempt max q a q' ok n : 0 <= max -> inv max q -> attempt q a = (q', ok, n) -> inv max q'.
Proof.
  intros Hm Hi E. destruct a as [|x]; simpl in E.
  - destruct (TryPop q) as [[q1 [r|]] n1] eqn:E1; simplify_eq; [by eapply inv_TryPop|by apply inv_threads].
  - destruct (full q); simplify_eq; [by apply inv_threads|by eapply inv_TryPush].
Qed.

Lemma inv_notified max q n q' : inv max q -> notified q n q' -> inv max q'.
Proof. intros Hi Hn. destruct Hn; [done|done|by apply inv_threads..]. Qed.

Lemma queue_inv_step max q q' : 0 <= max -> inv max q -> step q q' -> inv max q'.
Proof.
  intros Hm Hi Hs. revert Hi. destruct Hs; intros Hi; try (eapply inv_notified; [|eassumption]).
  - eapply inv_attempt; eassumption.
  - eapply inv_attempt; [done| |eassumption]. by apply inv_threads.
  - eapply inv_TryPop; eassumption.
  - eapply inv_TryPush; eassumption.
  - unfold Clear in *. simplify_eq. destruct Hi as [H1 H2 H3]. split; simpl; [done|by rewrite app_nil_r|lia].
  - by apply inv_threads.
Qed.

Lemma queue_inv_reachable max q : 0 <= max -> reachable max q -> inv max q.
Proof.
  intros Hm Hr. eapply rtc_invariant; [|split|exact Hr]; simpl; [|done|done|lia].
  intros x y. by apply queue_inv_step.
Qed.

(** C19.  The queue is first-in first-out and bounded: in every interleaving the
    items that have left are exactly the first ones that were accepted, in
    that order, the rest being in the queue; a bounded queue never holds more
    than its bound. *)
Theorem queue_fifo_bounded (max : Z) (q : BlockingQueue) : 0 <= max -> reachable max q ->
  accepted q = left q ++ m_queue q /\ (max <> 0 -> Size q <= max).
Proof. intros Hm Hr. by destruct (queue_inv_reachable max q Hm Hr). Qed.

(** ** Wake-ups of an unbounded queue *)

Record woken_inv (q : BlockingQueue) : Prop := mkWoken {
  wi_max : m_iQueueMaxSize q = 0;
  wi_pops : Forall (fun a => a = WPop) (waiting q ++ woken q);
  wi_count : waiting q <> [] -> (length (m_queue q) <= length (woken q))%nat
}.

Lemma full_unbounded q : m_iQueueMaxSize q = 0 -> full q = false.
Proof. unfold full. by intros ->. Qed.

(** A section followed by its notification keeps the count, given what the
    section itself did to the queue. *)
Lemma woken_after_push q q' : m_iQueueMaxSize q = 0 -> Forall (fun a => a = WPop) (waiting q ++ woken q) ->
  (waiting q <> [] -> (length (m_queue q) <= S (length (woken q)))%nat) -> notified q NotifyOne q' -> woken_inv q'.
Proof.
  intros Hm Hp Hc Hn. inversion Hn as [|Hw| l1 a l2 Hw |]; subst.
  - split; [done|done|by rewrite Hw].
  - split; simpl; [done| |].
    + rewrite Hw in Hp. rewrite Forall_app in *. rewrite Forall_app, Forall_cons in *. naive_solver.
    + intros _. apply Hc. rewrite Hw. by destruct l1.
Qed.

Lemma woken_TryPush q x q' r n q'' : woken_inv q -> TryPush q x = (q', r, n) -> notified q' n q'' -> woken_inv q''.
Proof.
  intros [Hm Hp Hc] E. unfold TryPush in E. rewrite full_unbounded in E by done. simplify_eq. intros Hn.
  eapply woken_after_push; [| | |exact Hn]; simpl; [done|done|]. intros Hw. rewrite length_app. simpl. specialize (Hc Hw). lia.
Qed.

Lemma woken_TryPop q q' r n q'' : woken_inv q -> TryPop q = (q', r, n) -> notified q' n q'' -> woken_inv q''.
Proof.
  intros [Hm Hp Hc] E. unfold TryPop, pop_notify in E. rewrite Hm in E. simpl in E.
  destruct (m_queue q) as [|x rest] eqn:Eq; simplify_eq; intros Hn; inversion Hn; subst.
  - split; [done|done|]. by rewrite Eq.
  - split; simpl; [done|done|]. intros Hw. specialize (Hc Hw). simpl in Hc. lia.
Qed.

(** [Pop] by a thread that leaves [woken]: the count is one short before the section. *)
Lemma woken_pop_attempt q q' ok n q'' : m_iQueueMaxSize q = 0 -> Forall (fun a => a = WPop) (waiting q ++ woken q) ->
  (waiting q <> [] -> (length (m_queue q) <= S (length (woken q)))%nat) ->
  attempt q WPop = (q', ok, n) -> notified q' n q'' -> woken_inv q''.
Proof.
  intros Hm Hp Hc E. simpl in E. unfold TryPop, pop_notify in E. rewrite Hm in E. simpl in E.
  destruct (m_queue q) as [|x rest] eqn:Eq; simplify_eq; intros Hn; inversion Hn; subst.
  - split; simpl; [done|by constructor|]. intros _. rewrite Eq. simpl. lia.
  - split; simpl; [done|done|]. intros Hw. specialize (Hc Hw). simpl in Hc. lia.
Qed.

Lemma woken_step q q' : woken_inv q -> step q q' -> woken_inv q'.
Proof.
  intros Hi Hs. revert Hi. destruct Hs as [q a q1 n q2 ok E Hn|q l1 a l2 q1 n q2 ok Hw E Hn|q q1 r n q2 E Hn|q x q1 r n q2 E Hn|q q1 n q2 E Hn|q l1 a l2 Hw]; intros Hi.
  - destruct a as [|x].
    + destruct Hi as [Hm Hp Hc]. eapply woken_pop_attempt; [| | |exact E|exact Hn]; [done|done|]. intros H. specialize (Hc H). lia.
    + simpl in E. rewrite full_unbounded in E by apply Hi. by eapply woken_TryPush.
  - destruct Hi as [Hm Hp Hc]. rewrite Hw in Hp.
    assert (a = WPop) as -> by (rewrite !Forall_app, Forall_cons in Hp; naive_solver).
    eapply woken_pop_attempt; [| | |exact E|exact Hn]; simpl; [done| |].
    + rewrite !Forall_app, Forall_cons in *. naive_solver.
    + intros H. specialize (Hc H). rewrite Hw, length_app in Hc. simpl in Hc. rewrite length_app. lia.
  - by eapply woken_TryPop.
  - by eapply woken_TryPush.
  - unfold Clear in E. simplify_eq. inversion Hn; subst. destruct Hi as [Hm Hp Hc]. by split.
  - destruct Hi as [Hm Hp Hc]. split; simpl; [done| |].
    + rewrite Hw in Hp. rewrite !Forall_app, !Forall_cons in *. naive_solver.
    + intros _. assert (waiting q <> []) as H by (rewrite Hw; by destruct l1). specialize (Hc H). lia.
Qed.

(** An unbounded queue loses no wake-up: in every interleaving, whenever a
    thread waits in [Pop] while the queue holds items, at least as many other
    threads as there are items have been woken and will look at the queue,
    and no thread ever waits in [Push]. *)
Theorem unbounded_queue_wakes (q : BlockingQueue) : reachable 0 q ->
  (waiting q <> [] -> (length (m_queue q) <= length (woken q))%nat) /\
  Forall (fun a => a = WPop) (waiting q).
Proof.
  intros Hr. assert (woken_inv q) as [_ Hp Hc].
  { eapply rtc_invariant; [exact woken_step| |exact Hr]. by split. }
  split; [done|]. by apply Forall_app in Hp as [??].
Qed.
End queue.
Arguments BlockingQueue : clear implicits.
Arguments waiter : clear implicits.

Lemma by_call {T} (q q' q'' : BlockingQueue T) a ok n :
  attempt q a = (q', ok, n) -> notified q' n q'' -> step q q''.
Proof. apply step_call. Qed.

(** A bounded queue can lose a wake-up: with one slot, two consumers and two
    producers there is an interleaving after which every thread waits, a
    producer among them, although the queue is empty and has room.  The one
    condition variable serves both kinds of waiters, and the consumer's
    notification went to the other consumer. *)
Theorem bounded_queue_stuck (a b : Z) : exists q : BlockingQueue Z, reachable 1 q /\
  woken q = [] /\ m_queue q = [] /\ full q = false /\ waiting q = [WPop; WPush b].
Proof.
  exists (mkBQ 1 [] [WPop; WPush b] [] [a] [a]). split; [|done]. unfold reachable.
  eapply rtc_l; [apply (by_call _ (mkBQ 1 [] [WPop] [] [] []) _ WPop false NotifyNone); [done|constructor]|].
  eapply rtc_l; [apply (by_call _ (mkBQ 1 [] [WPop; WPop] [] [] []) _ WPop false NotifyNone); [done|constructor]|].
  eapply rtc_l.
  { apply (by_call _ (mkBQ 1 [a] [WPop; WPop] [] [a] []) _ (WPush a) true NotifyOne); [done|].
    by apply (notified_one _ [] WPop [WPop]). }
  eapply rtc_l; [apply (by_call _ (mkBQ 1 [a] [WPush b; WPop] [WPop] [a] []) _ (WPush b) false NotifyNone); [done|constructor]|].
  eapply rtc_l.
  { apply (step_again _ [] WPop [] (mkBQ 1 [] [WPush b; WPop] [] [a] [a]) NotifyOne _ true); [done|done|].
    by apply (notified_one _ [WPush b] WPop []). }
  eapply rtc_l.
  { apply (step_again _ [] WPop [] (mkBQ 1 [] [WPop; WPush b] [] [a] [a]) NotifyNone _ false); [done|done|constructor]. }
  apply rtc_refl.
Qed.

(** A run of an unbounded queue: a consumer waits, an item arrives and wakes it. *)
Definition demo : BlockingQueue Z := mkBQ 0 [5] [] [WPop] [5] [].

Lemma queue_demo_reachable : reachable 0 demo.
Proof.
  eapply rtc_l; [apply (by_call _ (mkBQ 0 [] [WPop] [] [] []) _ WPop false NotifyNone); [done|constructor]|].
  eapply rtc_l; [|apply rtc_refl].
  apply (by_call _ (mkBQ 0 [5] [WPop] [] [5] []) _ (WPush 5) true NotifyOne); [done|].
  exact (notified_one (mkBQ 0 [5] [WPop] [] [5] []) [] WPop [] eq_refl).
Qed.

Lemma queue_fifo_bounded_witness : accepted demo = left demo ++ m_queue demo /\ (0 <> 0 -> Size demo <= 0).
Proof. apply (queue_fifo_bounded 0 demo); [lia|exact queue_demo_reachable]. Defined.

Lemma unbounded_queue_wakes_witness : (waiting demo <> [] -> (length (m_queue demo) <= length (woken demo))%nat) /\
  Forall (fun a => a = WPop) (waiting demo).
Proof. exact (unbounded_queue_wakes demo queue_demo_reachable). Defined.

End BlockingQueue.

(** ** The thread pool

    [m_bqTasks] is an unbounded queue (the default of [BlockingQueue]), used
    here through what [queue_fifo_bounded] and [unbounded_queue_wakes] say of
    it: a first-in first-out list whose [Pop] blocks while it is empty.  A task
    is its context, a number; [None] is a [Task] without an action. *)
Module ThreadPool.

(** Where a worker is in [proc]: in [Pop], before the test of [m_bStopping]
    with the task it popped, inside the action, before the notification of a
    waiting client, or out of the loop. *)
Inductive worker := Popping | Holding (task : option Z) | Running (task : Z) | Notifying | Exited.

#[export] Instance worker_eq_dec : EqDecision worker.
Proof. solve_decision. Defined.

(** [owed] counts the empty tasks the destructor has still to add; [added],
    [finished] and [dropped] are ghost. *)
Record ThreadPool := mkTP {
  m_bStopping : bool;
  m_bqTasks : list (option Z);
  m_vThreadps : list worker;
  m_iActiveWorkersCnt : Z;
  owed : nat;
  added : list Z;
  finished : list Z;
  dropped : list Z
}.

(** [ThreadPool(threads_cnt)] on a machine with [nprocs] processors. *)
Definition threads_count (threads_cnt nprocs : Z) : Z := if Z.ltb 0 threads_cnt then threads_cnt else u32 (nprocs * 2).
Definition new (threads_cnt nprocs : Z) : ThreadPool :=
  mkTP false [] (replicate (Z.to_nat (threads_count threads_cnt nprocs)) Popping) 0 0 [] [] [].

Definition AddTask (s : ThreadPool) (t : Z) : ThreadPool :=
  mkTP (m_bStopping s) (m_bqTasks s ++ [Some t]) (m_vThreadps s) (m_iActiveWorkersCnt s) (owed s) (added s ++ [t]) (finished s) (dropped s).

(** The test of [WaitAll]: it returns when this holds. *)
Definition WaitAll_done (s : ThreadPool) : bool :=
  match m_bqTasks s with [] => Z.eqb (m_iActiveWorkersCnt s) 0 | _ => false end.

(** The test of the loop of [WaitAllUntilTimeAt]: it waits when this holds. *)
Definition WaitAllUntilTimeAt_waits (s : ThreadPool) : bool :=
  match m_bqTasks s with [] => false | _ => negb (Z.eqb (m_iActiveWorkersCnt s) 0) end.

Definition task_list (t : option Z) : list Z := match t with Some t => [t] | None => [] end.

Definition set_worker (s : ThreadPool) (ws : list worker) (active : Z) (fin drp : list Z) : ThreadPool :=
  mkTP (m_bStopping s) (m_bqTasks s) ws active (owed s) (added s) fin drp.

(** One step of a worker in [proc]. *)
Definition proc_step (s : ThreadPool) (l1 : list worker) (w : worker) (l2 : list worker) : option ThreadPool :=
  let at_ w := l1 ++ w :: l2 in
  match w with
  | Popping => match m_bqTasks s with
               | [] => None
               | t :: q => Some (mkTP (m_bStopping s) q (at_ (Holding t)) (m_iActiveWorkersCnt s) (owed s) (added s) (finished s) (dropped s))
               end
  | Holding t =>
      if m_bStopping s then Some (set_worker s (at_ Exited) (m_iActiveWorkersCnt s) (finished s) (dropped s ++ task_list t))
      else match t with
           | Some t => Some (set_worker s (at_ (Running t)) (m_iActiveWorkersCnt s + 1) (finished s) (dropped s))
           | None => Some (set_worker s (at_ Notifying) (m_iActiveWorkersCnt s) (finished s) (dropped s))
           end
  | Running t => Some (set_worker s (at_ Notifying) (m_iActiveWorkersCnt s - 1) (finished s ++ [t]) (dropped s))
  | Notifying => Some (set_worker s (at_ Popping) (m_iActiveWorkersCnt s) (finished s) (dropped s))
  | Exited => None
  end.

(** The destructor: it sets the flag, then adds one empty task per thread. *)
Definition begin_stop (s : ThreadPool) : ThreadPool :=
  mkTP true (m_bqTasks s) (m_vThreadps s) (m_iActiveWorkersCnt s) (length (m_vThreadps s)) (added s) (finished s) (dropped s).

Definition add_empty (s : ThreadPool) (n : nat) : ThreadPool :=
  mkTP (m_bStopping s) (m_bqTasks s ++ [None]) (m_vThreadps s) (m_iActiveWorkersCnt s) n (added s) (finished s) (dropped s).

(** A client adds tasks only before the destructor runs. *)
Inductive step : ThreadPool -> ThreadPool -> Prop :=
| step_add s t : m_bStopping s = false -> step s (AddTask s t)
| step_worker s l1 w l2 s' : m_vThreadps s = l1 ++ w :: l2 -> proc_step s l1 w l2 = Some s' -> step s s'
| step_stop s : m_bStopping s = false -> step s (begin_stop s)
| step_owed s n : owed s = S n -> step s (add_empty s n).

Definition reachable (threads_cnt nprocs : Z) : ThreadPool -> Prop := rtc step (new threads_cnt nprocs).

(** ** No task is lost or run twice *)

Definition in_hand (w : worker) : list Z :=
  match w with Holding t => task_list t | Running t => [t] | _ => [] end.
Definition held (s : ThreadPool) : list Z := flat_map in_hand (m_vThreadps s).
Definition queued (s : ThreadPool) : list Z := flat_map task_list (m_bqTasks s).
Definition running (ws : list worker) : Z := Z.of_nat (length (List.filter (fun w => match w with Running _ => true | _ => false end) ws)).

Definition count (l : list Z) (t : Z) : nat := count_occ Z.eq_dec l t.

#[local] Arguments count : simpl never.
#[local] Arguments running : simpl never.

Record inv (s : ThreadPool) : Prop := mkInv {
  inv_tasks : forall t, count (added s) t = (count (finished s) t + count (held s) t + count (queued s) t + count (dropped s) t)%nat;
  inv_active : m_iActiveWorkersCnt s = running (m_vThreadps s);
  inv_open : m_bStopping s = false -> dropped s = [] /\ owed s = 0%nat /\ Forall (fun w => w <> Exited) (m_vThreadps s)
}.

Lemma count_app l1 l2 t : count (l1 ++ l2) t = (count l1 t + count l2 t)%nat.
Proof. apply count_occ_app. Qed.

Lemma running_app l1 l2 : running (l1 ++ l2) = running l1 + running l2.
Proof. unfold running. rewrite List.filter_app, length_app. lia. Qed.

Lemma flat_map_step {B} (f : B -> list Z) x l : flat_map f (x :: l) = f x ++ flat_map f l.
Proof. done. Qed.

Lemma count_nil t : count [] t = 0%nat.
Proof. done. Qed.

Ltac tp_norm := repeat (progress (rewrite ?flat_map_app, ?flat_map_step, ?count_app, ?count_nil, ?running_app in *; cbn [in_hand task_list] in *)).

Lemma pool_inv_step s s' : inv s -> step s s' -> inv s'.
Proof.
  intros Hi Hs. revert Hi. destruct Hs as [s t Hb|s l1 w l2 s' Hw E|s Hb|s n Ho]; intros [H1 H2 H3].
  - split; cbn; [|done|done]. intros t'. specialize (H1 t'). unfold held, queued in *. cbn. tp_norm. lia.
  - unfold held, queued in *. rewrite Hw in *. destruct w as [|t|t| |]; cbn in E.
    + destruct (m_bqTasks s) as [|t q] eqn:Eq; simplify_eq. split; cbn.
      * intros t'. specialize (H1 t'). unfold held, queued. cbn. tp_norm. lia.
      * rewrite H2. tp_norm. done.
      * intros Hb. destruct (H3 Hb) as (H4 & H5 & H6). rewrite !Forall_app, !Forall_cons in *. naive_solver.
    + destruct (m_bStopping s) eqn:Eb; [|destruct t as [t|]]; simplify_eq; split; cbn.
      all: unfold held, queued; cbn; try (intros t'; specialize (H1 t'); tp_norm; lia).
      all: try (rewrite H2; tp_norm; unfold running; cbn; lia).
      all: try by rewrite Eb.
      all: intros _; destruct (H3 eq_refl) as (H4 & H5 & H6); rewrite !Forall_app, !Forall_cons in *; naive_solver.
    + simplify_eq. split; cbn.
      * intros t'. specialize (H1 t'). unfold held, queued. cbn. tp_norm. lia.
      * rewrite H2. tp_norm. unfold running. cbn. lia.
      * intros Hb. destruct (H3 Hb) as (H4 & H5 & H6). rewrite !Forall_app, !Forall_cons in *. naive_solver.
    + simplify_eq. split; cbn.
      * intros t'. specialize (H1 t'). unfold held, queued. cbn. tp_norm. lia.
      * rewrite H2. tp_norm. unfold running. cbn. lia.
      * intros Hb. destruct (H3 Hb) as (H4 & H5 & H6). rewrite !Forall_app, !Forall_cons in *. naive_solver.
    + done.
  - by split.
  - split; cbn; [|done|]. 
    + intros t'. specialize (H1 t'). unfold held, queued in *. cbn. tp_norm. lia.
    + intros Hb. destruct (H3 Hb) as (_ & ? & _). congruence.
Qed.

Lemma pool_inv_reachable k n s : reachable k n s -> inv s.
Proof.
  intros Hr. eapply rtc_invariant; [exact pool_inv_step| |exact Hr]. unfold new.
  set (m := Z.to_nat _). clearbody m. split; cbn.
  - intros t. unfold held, queued. cbn. by induction m.
  - unfold running. by induction m.
  - intros _. split_and!; [done|done|]. apply Forall_replicate. done.
Qed.

(** C20.  The pool neither loses nor repeats a task: in every interleaving, each
    task has been added exactly as often as it was finished, is held by a
    worker, is queued, or was dropped; nothing is dropped before the
    destructor starts, and the counter of active workers is the number of
    workers inside an action. *)
Theorem pool_runs_each_task_once (k n : Z) (s : ThreadPool) : reachable k n s ->
  added s ≡ₚ finished s ++ held s ++ queued s ++ dropped s /\
  (m_bStopping s = false -> dropped s = []) /\
  m_iActiveWorkersCnt s = running (m_vThreadps s).
Proof.
  intros [H1 H2 H3]%pool_inv_reachable. split; [|split; [|done]].
  - apply (Permutation_count_occ Z.eq_dec). intros t. specialize (H1 t). unfold count in H1.
    rewrite !count_occ_app. lia.
  - intros Hb. by apply H3.
Qed.

(** ** The destructor joins every worker *)

Definition weight (w : worker) : nat := match w with Running _ => 4 | Notifying => 3 | Popping => 2 | Holding _ => 1 | Exited => 0 end.
Definition measure (s : ThreadPool) : nat := sum_list_with weight (m_vThreadps s) + owed s.
Definition needs_pop (w : worker) : nat := match w with Running _ | Notifying | Popping => 1 | _ => 0 end.

(** Every worker that still has to pop a task finds one, now or when the
    destructor has added all it owes. *)
Definition stop_inv (s : ThreadPool) : Prop :=
  m_bStopping s = true -> (sum_list_with needs_pop (m_vThreadps s) <= length (m_bqTasks s) + owed s)%nat.

Lemma sum_at (f : worker -> nat) l1 w l2 :
  sum_list_with f (l1 ++ w :: l2) = (sum_list_with f l1 + f w + sum_list_with f l2)%nat.
Proof. rewrite sum_list_with_app. simpl. lia. Qed.

Lemma needs_pop_le ws : (sum_list_with needs_pop ws <= length ws)%nat.
Proof. induction ws as [|[] ws IH]; simpl; lia. Qed.

Lemma stop_inv_step s s' : inv s -> stop_inv s -> step s s' -> stop_inv s'.
Proof.
  intros Hv Hi Hs. revert Hv Hi. destruct Hs as [s t Hb|s l1 w l2 s' Hw E|s Hb|s n Ho]; intros Hv Hi; unfold stop_inv in *.
  - cbn. congruence.
  - rewrite Hw, sum_at in Hi. destruct w as [|t|t| |]; cbn in E; [| | | |done].
    + destruct (m_bqTasks s); simplify_eq. cbn in *. intros Hb. specialize (Hi Hb). rewrite sum_at. cbn. lia.
    + destruct (m_bStopping s) eqn:Eb; [|destruct t]; simplify_eq; cbn; [|congruence..].
      intros _. specialize (Hi eq_refl). rewrite sum_at. cbn in *. lia.
    + simplify_eq. cbn. intros Hb. specialize (Hi Hb). rewrite sum_at. cbn in *. lia.
    + simplify_eq. cbn. intros Hb. specialize (Hi Hb). rewrite sum_at. cbn in *. lia.
  - cbn. intros _. pose proof (needs_pop_le (m_vThreadps s)). lia.
  - cbn. intros Hb. specialize (Hi Hb). rewrite length_app. cbn. lia.
Qed.

Lemma stop_inv_reachable k n s : reachable k n s -> stop_inv s.
Proof.
  intros Hr. eapply (rtc_invariant step (fun s => inv s /\ stop_inv s)); [|split|exact Hr].
  - intros x y [H1 H2] Hs. split; [by eapply pool_inv_step|by eapply stop_inv_step].
  - apply (pool_inv_reachable k n), rtc_refl.
  - done.
Qed.

Lemma stopping_step s s' : m_bStopping s = true -> step s s' -> m_bStopping s' = true /\ (measure s' < measure s)%nat.
Proof.
  intros Hb Hs. revert Hb. destruct Hs as [s t Hb|s l1 w l2 s' Hw E|s Hb|s n Ho]; intros Hst; try congruence.
  - unfold measure. rewrite Hw, sum_at. destruct w as [|t|t| |]; cbn in E; [| | | |done].
    + destruct (m_bqTasks s); simplify_eq. cbn. split; [done|]. rewrite sum_at. cbn. lia.
    + rewrite Hst in E. simplify_eq. cbn. split; [done|]. rewrite sum_at. cbn. lia.
    + simplify_eq. cbn. split; [done|]. rewrite sum_at. cbn. lia.
    + simplify_eq. cbn. split; [done|]. rewrite sum_at. cbn. lia.
  - unfold measure. cbn. split; [done|lia].
Qed.

(** A worker that has not left the loop can step, or the destructor can. *)
Lemma stopping_progress s : m_bStopping s = true -> stop_inv s -> Exists (fun w => w <> Exited) (m_vThreadps s) -> exists s', step s s'.
Proof.
  intros Hb Hi Hx. apply Exists_exists in Hx as (w & (l1 & l2 & Hw)%list_elem_of_split & Hne).
  specialize (Hi Hb). rewrite Hw, sum_at in Hi. destruct (owed s) as [|n] eqn:Eo; [|by eexists; eapply step_owed].
  destruct w as [|t|t| |]; [| | | |done].
  - destruct (m_bqTasks s) as [|t q] eqn:Eq; [cbn in Hi; lia|]. eexists. eapply step_worker; [done|]. cbn. by rewrite Eq.
  - eexists. eapply step_worker; [done|]. cbn. by rewrite Hb.
  - eexists. by eapply step_worker.
  - eexists. by eapply step_worker.
Qed.

Lemma stopping_bound m s s' : m_bStopping s = true -> nsteps step m s s' -> (m + measure s' <= measure s)%nat /\ m_bStopping s' = true.
Proof.
  intros Hb Hn. induction Hn as [s|m x y z Hxy _ IH]; [done|].
  destruct (stopping_step _ _ Hb Hxy) as [Hb' Hm]. destruct (IH Hb') as [H1 H2]. split; [lia|done].
Qed.

(** C21.  The destructor's join terminates: once the pool is stopping, at most
    [measure s] further steps are possible in any interleaving, and a state
    in which no step is possible has every worker out of its loop. *)
Theorem pool_join_terminates (k n : Z) (s : ThreadPool) : reachable k n s -> m_bStopping s = true ->
  (forall m s', nsteps step m s s' -> (m <= measure s)%nat) /\
  (forall s', rtc step s s' -> (forall s'', ~ step s' s'') -> Forall (fun w => w = Exited) (m_vThreadps s')).
Proof.
  intros Hr Hb. split.
  - intros m s' Hn. destruct (stopping_bound _ _ _ Hb Hn). lia.
  - intros s' Hs Hstuck. destruct (rtc_nsteps_1 _ _ Hs) as [m Hn]. destruct (stopping_bound _ _ _ Hb Hn) as [_ Hb'].
    assert (stop_inv s') as Hi by (apply (stop_inv_reachable k n); unfold reachable; by transitivity s).
    apply Forall_forall. intros w Hw. destruct (decide (w = Exited)) as [|Hne]; [done|].
    destruct (stopping_progress s' Hb' Hi) as [s'' Hs'']; [|by apply Hstuck in Hs''].
    apply Exists_exists. eauto.
Qed.

(** ** Concrete runs *)

Definition one_added : ThreadPool := AddTask (new 1 4) 7.
Definition one_held : ThreadPool := mkTP false [] [Holding (Some 7)] 0 0 [7] [] [].
Definition one_stopping : ThreadPool := begin_stop one_held.

Lemma one_held_reachable : reachable 1 4 one_held.
Proof.
  apply (rtc_l _ _ one_added); [by apply step_add|]. eapply rtc_once. by apply (step_worker _ [] Popping []).
Qed.

(** [WaitAll] can return before a task has run: there is an interleaving in
    which a task was added and not finished while the queue is empty and the
    counter of active workers is zero; a worker has popped the task and not
    yet counted itself. *)
Theorem wait_all_returns_early : exists s, reachable 1 4 s /\ WaitAll_done s = true /\ added s = [7] /\ finished s = [].
Proof. exists one_held. split; [apply one_held_reachable|done]. Qed.

Lemma pool_runs_each_task_once_witness : added one_held ≡ₚ finished one_held ++ held one_held ++ queued one_held ++ dropped one_held /\
  (m_bStopping one_held = false -> dropped one_held = []) /\
  m_iActiveWorkersCnt one_held = running (m_vThreadps one_held).
Proof. exact (pool_runs_each_task_once 1 4 one_held one_held_reachable). Defined.

Lemma pool_join_terminates_witness :
  (forall m s', nsteps step m one_stopping s' -> (m <= measure one_stopping)%nat) /\
  (forall s', rtc step one_stopping s' -> (forall s'', ~ step s' s'') -> Forall (fun w => w = Exited) (m_vThreadps s')).
Proof.
  apply (pool_join_terminates 1 4 one_stopping).
  - eapply rtc_r; [exact one_held_reachable|]. by apply step_stop.
  - reflexivity.
Defined.

End ThreadPool.
