(* ===== verification/Timer.v ===== *)
(** * Timer: times, the timer's event tables, random latencies

    Models src/src/ccsys/cctime.h, src/src/ccsys/timer.{h,cc} and
    src/src/ccsys/random.{h,cc}.  The events wait in a multimap ordered by
    time; the table of event ids is a [std::map] whose comparator is
    [EventId::operator<], and every operation of that table requires the
    comparator to be a strict weak order on the keys present. *)

From Stdlib Require Import Sorting.Sorted.
From S2P Require Import Prelude.

(** ** cctime *)

Record cctime := mkTime { sec : Z; nsec : Z }.

#[export] Instance cctime_eq_dec : EqDecision cctime.
Proof. solve_decision. Defined.

(** The fields are [long]: an operation that overflows is undefined. *)
Definition get_total_nsecs (t : cctime) : outcome Z :=
  let* s := checked 64 (sec t * 1000000000) in checked 64 (s + nsec t).

(** [operator+=]; C division truncates. *)
Definition cctime_add (l r : cctime) : outcome cctime :=
  let* n := checked 64 (nsec l + nsec r) in
  let* s := checked 64 (sec r + Z.quot n 1000000000) in
  let* s := checked 64 (sec l + s) in
  Ret (mkTime s (Z.rem n 1000000000)).

Definition cctime_gtb (a b : cctime) : bool := Z.ltb (sec b) (sec a) || (Z.eqb (sec a) (sec b) && Z.ltb (nsec b) (nsec a)).
Definition cctime_leb (a b : cctime) : bool := negb (cctime_gtb a b).
Definition cctime_ltb (a b : cctime) : bool := Z.ltb (sec a) (sec b) || (Z.eqb (sec a) (sec b) && Z.ltb (nsec a) (nsec b)).
Definition cctime_geb (a b : cctime) : bool := negb (cctime_ltb a b).
Definition cctime_eqb (a b : cctime) : bool := Z.eqb (sec a) (sec b) && Z.eqb (nsec a) (nsec b).
Definition cctime_eq_tick (tick : Z) (b : cctime) : outcome bool := let* n := get_total_nsecs b in Ret (Z.eqb tick n).
Definition cctime_neb (a b : cctime) : bool := negb (Z.eqb (sec a) (sec b)) || negb (Z.eqb (nsec a) (nsec b)).

(** ** Events *)

Record Event := mkEvent { ctx : Z; callback : Z }.
Record EventId := mkEventId { when : cctime; how : Z }.

#[export] Instance EventId_eq_dec : EqDecision EventId.
Proof. solve_decision. Defined.

Definition EventId_ltb (a b : EventId) : bool := cctime_ltb (when a) (when b) || Z.ltb (how a) (how b).

(** The comparator is a strict weak order on [ks]: irreflexive, asymmetric,
    transitive, and its incomparability is transitive. *)
Definition incomparable (a b : EventId) : bool := negb (EventId_ltb a b) && negb (EventId_ltb b a).
Definition strict_weak_order (ks : list EventId) : bool :=
  forallb (fun a => negb (EventId_ltb a a)) ks &&
  forallb (fun a => forallb (fun b => negb (EventId_ltb a b && EventId_ltb b a)) ks) ks &&
  forallb (fun a => forallb (fun b => forallb (fun c =>
    implb (EventId_ltb a b && EventId_ltb b c) (EventId_ltb a c) &&
    implb (incomparable a b && incomparable b c) (incomparable a c)) ks) ks) ks.

(** A node of [m_mapSubscribedEvents]; [node_id] stands for the iterator. *)
Record node := mkNode { node_id : nat; at_ : cctime; ev : Event }.

(** [sl_held] is [m_thread_safe_sl] held by the running thread, inside a callback. *)
Record Timer := mkTimer {
  m_stop : bool;
  m_mapSubscribedEvents : list node;
  m_mapEventsEntry : list (EventId * nat);
  next_node : nat;
  m_pWorkThread : bool;
  sl_held : bool
}.

Definition Timer_new : Timer := mkTimer true [] [] 0 false false.

(** [SpinLock l(&m_thread_safe_sl)]: the lock is not recursive, a thread that
    holds it spins for ever. *)
Definition with_lock {A : Type} (t : Timer) (k : outcome A) : outcome A :=
  if sl_held t then Abort "waits for a spin lock held by the same thread" else k.

(** Every use of the id table needs its comparator to order the keys in it. *)
Definition with_table {A : Type} (ks : list EventId) (k : outcome A) : outcome A :=
  if strict_weak_order ks then k else Undef "std::map with an invalid comparator".

Definition keys (tbl : list (EventId * nat)) : list EventId := fst <$> tbl.

(** Keys are equivalent when neither is less. *)
Fixpoint tbl_find (tbl : list (EventId * nat)) (k : EventId) : option nat :=
  match tbl with
  | [] => None
  | (k', n) :: tbl => if incomparable k' k then Some n else tbl_find tbl k
  end.
Definition tbl_erase (tbl : list (EventId * nat)) (k : EventId) : list (EventId * nat) :=
  List.filter (fun p => negb (incomparable (fst p) k)) tbl.
Definition tbl_insert (tbl : list (EventId * nat)) (k : EventId) (n : nat) : list (EventId * nat) :=
  match tbl_find tbl k with Some _ => tbl | None => tbl ++ [(k, n)] end.

(** [multimap::insert]: behind the elements that are not later. *)
Fixpoint insert_node (n : node) (l : list node) : list node :=
  match l with
  | [] => [n]
  | x :: l' => if cctime_ltb (at_ n) (at_ x) then n :: l else x :: insert_node n l'
  end.

(** [multimap::find(when)] and the iterators from there to [end()]. *)
Fixpoint find_from (w : cctime) (l : list node) : list node :=
  match l with
  | [] => []
  | x :: l' => if negb (cctime_ltb (at_ x) w) && negb (cctime_ltb w (at_ x)) then l else find_from w l'
  end.

Definition erase_node (i : nat) (l : list node) : list node := List.filter (fun x => negb (Nat.eqb (node_id x) i)) l.

(** The id of a rejected subscription has the time [0]. *)
Definition SubscribeEventAt (t : Timer) (w : cctime) (e : Event) : outcome (Timer * EventId) :=
  if Z.eqb (callback e) 0 then Abort "assert(ev.callback)" else
  with_lock t (
  if existsb (fun x => Z.eqb (callback (ev x)) (callback e)) (find_from w (m_mapSubscribedEvents t)) then
    Ret (t, mkEventId (mkTime 0 0) (callback e))
  else
    let id := mkEventId w (callback e) in
    with_table (id :: keys (m_mapEventsEntry t)) (
    Ret (mkTimer (m_stop t) (insert_node (mkNode (next_node t) w e) (m_mapSubscribedEvents t))
           (tbl_insert (m_mapEventsEntry t) id (next_node t)) (S (next_node t)) (m_pWorkThread t) (sl_held t), id))).

Definition SubscribeEventAfter (now : cctime) (t : Timer) (duration : cctime) (e : Event) : outcome (Timer * EventId) :=
  if Z.eqb (callback e) 0 then Abort "assert(ev.callback)" else
  let* w := cctime_add now duration in SubscribeEventAt t w e.

Definition UnsubscribeEvent (t : Timer) (id : EventId) : outcome (Timer * bool) :=
  let* zero := cctime_eq_tick 0 (when id) in
  if zero || Z.eqb (how id) 0 then Ret (t, false)
  else with_lock t (with_table (id :: keys (m_mapEventsEntry t)) (
    match tbl_find (m_mapEventsEntry t) id with
    | Some n => Ret (mkTimer (m_stop t) (erase_node n (m_mapSubscribedEvents t)) (tbl_erase (m_mapEventsEntry t) id)
                       (next_node t) (m_pWorkThread t) (sl_held t), true)
    | None => Ret (t, false)
    end)).

Definition UnsubscribeAllEvent (t : Timer) : outcome Timer :=
  with_lock t (Ret (mkTimer (m_stop t) [] [] (next_node t) (m_pWorkThread t) (sl_held t))).

Definition Start (t : Timer) : outcome Timer :=
  with_lock t (Ret (if m_stop t then mkTimer false (m_mapSubscribedEvents t) (m_mapEventsEntry t) (next_node t) true (sl_held t) else t)).

Definition Stop (t : Timer) : outcome Timer :=
  let* t := UnsubscribeAllEvent t in
  with_lock t (Ret (mkTimer true (m_mapSubscribedEvents t) (m_mapEventsEntry t) (next_node t) (m_pWorkThread t) (sl_held t))).

(** [~Timer]: the thread is joined even when there is none. *)
Definition Timer_delete (t : Timer) : outcome Timer :=
  let* t := if m_stop t then Ret t else Stop t in
  if m_pWorkThread t then Ret t else Undef "join of a null thread".

(** The inner loop of [process], with the lock held: [now i] is the [i]-th
    reading of the clock, [cb] runs the callback.  The fired events are
    returned in order; the callback cannot change the tables, because every
    operation on them waits for the lock. *)
Fixpoint fire_due (now : nat -> cctime) (cb : Z -> Z -> outcome unit) (i : nat) (evs : list node) (tbl : list (EventId * nat))
    : outcome (list node * list (EventId * nat) * list node) :=
  match evs with
  | [] => Ret ([], tbl, [])
  | min :: rest =>
      if cctime_gtb (at_ min) (now i) then Ret (evs, tbl, [])
      else
        let* _ := cb (callback (ev min)) (ctx (ev min)) in
        let id := mkEventId (at_ min) (callback (ev min)) in
        with_table (id :: keys tbl) (
        let* (evs', tbl', fired) := fire_due now cb (S i) rest (tbl_erase tbl id) in
        Ret (evs', tbl', min :: fired))
  end.

(** One turn of [process]: the events that are due, then how long to wait:
    for a notification, or until the first event. *)
Inductive wait := WaitNotify | WaitUntil (t : Z).
Definition process_turn (now : nat -> cctime) (cb : Z -> Z -> outcome unit) (t : Timer) : outcome (Timer * list node * wait) :=
  let* (evs, tbl, fired) := fire_due now cb 0 (m_mapSubscribedEvents t) (m_mapEventsEntry t) in
  let* w := match evs with [] => Ret WaitNotify | min :: _ => let* n := get_total_nsecs (at_ min) in Ret (WaitUntil n) end in
  Ret (mkTimer (m_stop t) evs tbl (next_node t) (m_pWorkThread t) (sl_held t), fired, w).

(** ** Random *)

Record Range := mkRange { start : Z; end_ : Z }.
Definition INVALID_RANGE : Z := -1.
Definition Range_default : Range := mkRange INVALID_RANGE INVALID_RANGE.
Definition Range_new (s e : Z) : outcome Range :=
  if Z.ltb s e && Z.ltb 0 s && Z.ltb 0 e then Ret (mkRange s e) else Abort "assert(s < e && s > 0 && e > 0)".
Definition check_range (r : Range) : bool := negb (Z.eqb INVALID_RANGE (start r) || Z.eqb INVALID_RANGE (end_ r)).

(** [rand] is the value [rand()] returns, in [[0, RAND_MAX]]. *)
Definition GetNew (r : Range) (rand : Z) : Z :=
  if check_range r then Z.rem rand (end_ r - start r) + start r else rand.

(** The objects share the one generator of the C library: [srand] gives its
    state and [rand] the next one with the value drawn. *)
Section generator.
Context {G : Type} (srand : Z -> G) (rand : G -> G * Z).

(** [init_ts_seed] at the time of day [tv_sec], [tv_usec]. *)
Definition init_ts_seed (tv_sec tv_usec : Z) : G := srand (u32 (tv_sec * 1000 + tv_usec / 1000)).

(** The four constructors. *)
Definition Random_new (tv_sec tv_usec : Z) : G * Range := (init_ts_seed tv_sec tv_usec, Range_default).
Definition Random_seed (seed : Z) : G * Range := (srand seed, mkRange INVALID_RANGE INVALID_RANGE).
Definition Random_range (tv_sec tv_usec : Z) (r : Range) : G * Range := (init_ts_seed tv_sec tv_usec, r).
Definition Random_seed_range (seed : Z) (r : Range) : G * Range := (srand seed, r).

Definition Random_GetNew (g : G) (r : Range) : G * Z := let '(g, x) := rand g in (g, GetNew r x).
Definition GetNewWithSRand (tv_sec tv_usec : Z) : G * Z := rand (init_ts_seed tv_sec tv_usec).

End generator.

(** ** Times *)

Definition normal (t : cctime) : Prop := 0 <= nsec t < 1000000000.

(** The time in nanoseconds, and the times for which [get_total_nsecs] can give it. *)
Definition total (t : cctime) : Z := sec t * 1000000000 + nsec t.
Definition fits (t : cctime) : Prop := in_s 64 (sec t * 1000000000) /\ in_s 64 (total t).

Lemma total_fits t : fits t -> get_total_nsecs t = Ret (total t).
Proof. intros [H1 H2]. unfold get_total_nsecs. rewrite checked_ok by done. cbn [obind]. by apply checked_ok. Qed.

Lemma tick_fits t k : fits t -> cctime_eq_tick k t = Ret (Z.eqb k (total t)).
Proof. intros H. unfold cctime_eq_tick. by rewrite total_fits. Qed.

Lemma cctime_ltb_total a b : normal a -> normal b -> cctime_ltb a b = true <-> total a < total b.
Proof.
  unfold normal, cctime_ltb, total. intros Ha Hb.
  rewrite orb_true_iff, andb_true_iff, !Z.ltb_lt, Z.eqb_eq. lia.
Qed.

Lemma cctime_gtb_ltb a b : cctime_gtb a b = cctime_ltb b a.
Proof. unfold cctime_gtb, cctime_ltb. by rewrite (Z.eqb_sym (sec a)). Qed.

Lemma cctime_ltb_trans a b c : cctime_ltb a b = true -> cctime_ltb b c = true -> cctime_ltb a c = true.
Proof. unfold cctime_ltb. rewrite !orb_true_iff, !andb_true_iff, !Z.ltb_lt, !Z.eqb_eq. lia. Qed.

Lemma cctime_ltb_irrefl a : cctime_ltb a a = false.
Proof. unfold cctime_ltb. by rewrite !Z.ltb_irrefl, andb_false_r. Qed.

Lemma cctime_antisym a b : cctime_ltb a b = false -> cctime_ltb b a = false -> a = b.
Proof.
  destruct a, b. unfold cctime_ltb. simpl. rewrite !orb_false_iff, !andb_false_iff, !Z.ltb_ge, !Z.eqb_neq.
  intros. f_equal; lia.
Qed.

Lemma cctime_ltb_negtrans a b c : cctime_ltb a b = false -> cctime_ltb b c = false -> cctime_ltb a c = false.
Proof.
  unfold cctime_ltb. rewrite !orb_false_iff, !andb_false_iff, !Z.ltb_ge, !Z.eqb_neq. lia.
Qed.

(** [cctime] is time: on values with less than a second of nanoseconds and
    while the seconds, not negative, stay inside [long], [operator+=] gives such a value with the
    sum of the nanoseconds, and each comparison operator compares the
    nanoseconds. *)
Theorem cctime_arithmetic (a b : cctime) : normal a -> normal b -> 0 <= sec a -> 0 <= sec b -> sec a + sec b + 1 < 2 ^ 63 ->
  (exists c, cctime_add a b = Ret c /\ normal c /\ total c = total a + total b) /\
  cctime_ltb a b = Z.ltb (total a) (total b) /\
  cctime_leb a b = Z.leb (total a) (total b) /\
  cctime_eqb a b = Z.eqb (total a) (total b).
Proof.
  intros Ha Hb H0 H1 H2. unfold normal, total, cctime_add in *. split; [|split; [|split]].
  - rewrite checked_ok by (unfold in_s; lia). cbn [obind].
    rewrite Z.quot_div_nonneg, Z.rem_mod_nonneg by lia.
    pose proof (Z.div_mod (nsec a + nsec b) 1000000000 ltac:(lia)) as E. pose proof (Z.mod_pos_bound (nsec a + nsec b) 1000000000 ltac:(lia)).
    assert (0 <= (nsec a + nsec b) / 1000000000 <= 1) by lia. rewrite checked_ok by (unfold in_s; cbn in *; lia). cbn [obind].
    rewrite checked_ok by (unfold in_s; cbn in *; lia). cbn [obind]. eexists. split; [reflexivity|]. cbn [sec nsec]. lia.
  - apply eq_true_iff_eq. rewrite cctime_ltb_total, Z.ltb_lt by done. done.
  - unfold cctime_leb. apply eq_true_iff_eq. rewrite cctime_gtb_ltb, negb_true_iff, <- not_true_iff_false, cctime_ltb_total by done.
    rewrite Z.leb_le. unfold total. lia.
  - unfold cctime_eqb. apply eq_true_iff_eq. rewrite andb_true_iff, !Z.eqb_eq. lia.
Qed.

Lemma cctime_arithmetic_witness :
  (exists c, cctime_add (mkTime 1 999999999) (mkTime 2 1) = Ret c /\ normal c /\ total c = total (mkTime 1 999999999) + total (mkTime 2 1)) /\
  cctime_ltb (mkTime 1 999999999) (mkTime 2 1) = Z.ltb (total (mkTime 1 999999999)) (total (mkTime 2 1)) /\
  cctime_leb (mkTime 1 999999999) (mkTime 2 1) = Z.leb (total (mkTime 1 999999999)) (total (mkTime 2 1)) /\
  cctime_eqb (mkTime 1 999999999) (mkTime 2 1) = Z.eqb (total (mkTime 1 999999999)) (total (mkTime 2 1)).
Proof. apply (cctime_arithmetic (mkTime 1 999999999) (mkTime 2 1)); unfold normal; simpl; lia. Defined.

(** ** The id table *)

Lemma incomparable_eq a b : incomparable a b = true <-> a = b.
Proof.
  unfold incomparable, EventId_ltb. rewrite andb_true_iff, !negb_true_iff, !orb_false_iff. split.
  - intros [[H1 H2] [H3 H4]]. destruct a, b. simpl in *. f_equal; [by apply cctime_antisym|].
    apply Z.ltb_ge in H2, H4. lia.
  - intros ->. by rewrite cctime_ltb_irrefl, Z.ltb_irrefl.
Qed.

Lemma incomparable_dec a b : incomparable a b = bool_decide (a = b).
Proof. apply eq_true_iff_eq. by rewrite incomparable_eq, bool_decide_eq_true. Qed.

Lemma forallb_incl {B} (f g : B -> bool) (ks ks' : list B) : incl ks' ks -> (forall x, In x ks' -> f x = true -> g x = true) ->
  forallb f ks = true -> forallb g ks' = true.
Proof. intros Hs Hfg H. apply forallb_forall. intros x Hx. apply Hfg; [done|]. by eapply forallb_forall in H; [|apply Hs]. Qed.

Lemma swo_incl ks ks' : incl ks' ks -> strict_weak_order ks = true -> strict_weak_order ks' = true.
Proof.
  intros Hs. unfold strict_weak_order. rewrite !andb_true_iff. intros [[H1 H2] H3]. split; [split|].
  - by eapply forallb_incl; [exact Hs| |exact H1].
  - eapply forallb_incl; [exact Hs| |exact H2]. intros a _ Ha. by eapply forallb_incl; [exact Hs| |exact Ha].
  - eapply forallb_incl; [exact Hs| |exact H3]. intros a _ Ha. eapply forallb_incl; [exact Hs| |exact Ha].
    intros b _ Hb. by eapply forallb_incl; [exact Hs| |exact Hb].
Qed.

Lemma with_table_ok {B} ks ks' (k : outcome B) : incl ks' ks -> strict_weak_order ks = true -> with_table ks' k = k.
Proof. intros Hi Hs. unfold with_table. by rewrite (swo_incl _ _ Hi Hs). Qed.

Definition id_of (x : node) : EventId := mkEventId (at_ x) (callback (ev x)).
Definition entry_of (x : node) : EventId * nat := (id_of x, node_id x).

(** The table holds one entry per waiting event, the events are in order of
    time, and no two have the same time and callback. *)
Record timer_inv (t : Timer) : Prop := mkTimerInv {
  ti_sorted : StronglySorted (fun x y => cctime_ltb (at_ y) (at_ x) = false) (m_mapSubscribedEvents t);
  ti_table : m_mapEventsEntry t ≡ₚ entry_of <$> m_mapSubscribedEvents t;
  ti_ids : NoDup (id_of <$> m_mapSubscribedEvents t);
  ti_nodes : NoDup (node_id <$> m_mapSubscribedEvents t);
  ti_next : Forall (fun x => (node_id x < next_node t)%nat) (m_mapSubscribedEvents t)
}.

Lemma tbl_find_None tbl k : (k ∉ keys tbl) -> tbl_find tbl k = None.
Proof.
  induction tbl as [|[k' n] tbl IH]; simpl; intros H; [done|]. rewrite incomparable_dec.
  rewrite bool_decide_false by set_solver. apply IH. set_solver.
Qed.

Lemma tbl_find_Some tbl k n : NoDup (keys tbl) -> (k, n) ∈ tbl -> tbl_find tbl k = Some n.
Proof.
  induction tbl as [|[k' n'] tbl IH]; simpl; intros Hd Hin; [by apply not_elem_of_nil in Hin|].
  apply NoDup_cons in Hd as [Hn Hd]. rewrite incomparable_dec. apply elem_of_cons in Hin as [[= -> ->]|Hin].
  - by rewrite bool_decide_true.
  - rewrite bool_decide_false; [by apply IH|]. intros ->. apply Hn. apply list_elem_of_fmap. by exists (k, n).
Qed.

Lemma keys_entries evs : keys (entry_of <$> evs) = id_of <$> evs.
Proof. unfold keys. by rewrite <- list_fmap_compose. Qed.

Lemma keys_perm tbl evs : tbl ≡ₚ entry_of <$> evs -> keys tbl ≡ₚ id_of <$> evs.
Proof. intros H. unfold keys. rewrite H. by rewrite <- keys_entries. Qed.

#[global] Instance tbl_erase_perm : Proper ((≡ₚ) ==> eq ==> (≡ₚ)) tbl_erase.
Proof.
  intros l1 l2 H k _ <-. unfold tbl_erase. induction H; simpl; repeat case_match; eauto using Permutation.
Qed.

Lemma tbl_erase_absent evs k : (k ∉ id_of <$> evs) -> tbl_erase (entry_of <$> evs) k = entry_of <$> evs.
Proof.
  unfold tbl_erase. induction evs as [|x evs IH]; simpl; intros H; [done|].
  rewrite incomparable_dec, bool_decide_false by set_solver. simpl. f_equal. apply IH. set_solver.
Qed.

(** Erasing one event: its node and its entry go, nothing else. *)
Lemma erase_one l1 x l2 : NoDup (id_of <$> l1 ++ x :: l2) -> NoDup (node_id <$> l1 ++ x :: l2) ->
  tbl_erase (entry_of <$> l1 ++ x :: l2) (id_of x) = entry_of <$> l1 ++ l2 /\
  erase_node (node_id x) (l1 ++ x :: l2) = l1 ++ l2.
Proof.
  intros Hi Hn. rewrite !fmap_app, !fmap_cons in *.
  apply NoDup_app in Hi as (_ & Hi1 & [Hi2 _]%NoDup_cons). apply NoDup_app in Hn as (_ & Hn1 & [Hn2 _]%NoDup_cons). split.
  - unfold tbl_erase. rewrite List.filter_app. simpl. rewrite incomparable_dec, bool_decide_true by done. simpl.
    fold (tbl_erase (entry_of <$> l1) (id_of x)). fold (tbl_erase (entry_of <$> l2) (id_of x)).
    rewrite !tbl_erase_absent; [done|done|]. intros H. apply (Hi1 _ H). set_solver.
  - assert (forall l, (node_id x ∉ node_id <$> l) -> erase_node (node_id x) l = l) as Ha.
    { unfold erase_node. induction l as [|y l IH]; simpl; intros H; [done|].
      rewrite (proj2 (Nat.eqb_neq _ _)) by set_solver. simpl. f_equal. apply IH. set_solver. }
    unfold erase_node. rewrite List.filter_app. simpl. rewrite Nat.eqb_refl. simpl.
    fold (erase_node (node_id x) l1). fold (erase_node (node_id x) l2).
    rewrite !Ha; [done|done|]. intros H. apply (Hn1 _ H). set_solver.
Qed.

(** ** Subscribing *)

Lemma insert_node_perm n l : insert_node n l ≡ₚ n :: l.
Proof. induction l as [|x l IH]; simpl; [done|]. case_match; [done|]. rewrite IH. apply Permutation_swap. Qed.

Lemma insert_node_sorted n l : StronglySorted (fun x y => cctime_ltb (at_ y) (at_ x) = false) l ->
  StronglySorted (fun x y => cctime_ltb (at_ y) (at_ x) = false) (insert_node n l).
Proof.
  induction 1 as [|x l Hl IH Hx]; simpl; [by repeat constructor|]. case_match eqn:E.
  - constructor; [by constructor|]. constructor.
    + destruct (cctime_ltb (at_ x) (at_ n)) eqn:E2; [|done]. pose proof (cctime_ltb_trans _ _ _ E E2) as E3.
      by rewrite cctime_ltb_irrefl in E3.
    + rewrite Forall_forall in Hx |- *. intros y Hy. specialize (Hx y Hy).
      destruct (cctime_ltb (at_ y) (at_ n)) eqn:E2; [|done]. by rewrite (cctime_ltb_trans _ _ _ E2 E) in Hx.
  - constructor; [done|]. rewrite insert_node_perm. by constructor.
Qed.

Lemma find_from_all w l x : x ∈ l -> at_ x = w -> x ∈ find_from w l.
Proof.
  induction l as [|y l IH]; simpl; intros Hx Hw; [done|]. case_match eqn:E; [done|].
  apply elem_of_cons in Hx as [<-|Hx]; [|by apply IH]. rewrite Hw, cctime_ltb_irrefl in E. done.
Qed.

(** The events from the first one at [w] on are those that are not earlier. *)
Lemma find_from_spec w l y : StronglySorted (fun x y => cctime_ltb (at_ y) (at_ x) = false) l ->
  y ∈ find_from w l <-> y ∈ l /\ cctime_ltb (at_ y) w = false /\ exists x, x ∈ l /\ at_ x = w.
Proof.
  induction 1 as [|x l Hl IH Hx]; simpl; [set_solver|]. case_match eqn:E.
  - apply andb_true_iff in E as [E1 E2]. rewrite negb_true_iff in E1, E2. pose proof (cctime_antisym _ _ E1 E2) as Ex.
    split; [|by intros [? _]]. intros Hy. split; [done|]. split; [|exists x; set_solver].
    apply elem_of_cons in Hy as [->|Hy]; [done|]. rewrite Forall_forall in Hx. rewrite <- Ex. exact (Hx y Hy).
  - assert (at_ x <> w) as Hne. { intros <-. by rewrite cctime_ltb_irrefl in E. }
    rewrite IH. split.
    + intros (Hy & Hw & z & Hz & Ez). split; [by right|]. split; [done|]. exists z. split; [by right|done].
    + intros (Hy & Hw & z & Hz & Ez). apply elem_of_cons in Hz as [->|Hz]; [done|].
      split; [|split; [done|by exists z]]. apply elem_of_cons in Hy as [->|Hy]; [|done]. exfalso.
      rewrite Forall_forall in Hx. specialize (Hx z Hz). simpl in Hx. rewrite Ez in Hx. apply Hne. by apply cctime_antisym.
Qed.

(** A subscription of [e] at [w] is refused when some event waits at exactly
    that time and the callback of [e] waits then or later. *)
Definition refused (t : Timer) (w : cctime) (e : Event) : Prop :=
  (exists x, x ∈ m_mapSubscribedEvents t /\ at_ x = w) /\
  exists y, y ∈ m_mapSubscribedEvents t /\ callback (ev y) = callback e /\ cctime_ltb (at_ y) w = false.

Lemma refused_search t w e : StronglySorted (fun x y => cctime_ltb (at_ y) (at_ x) = false) (m_mapSubscribedEvents t) ->
  existsb (fun x => Z.eqb (callback (ev x)) (callback e)) (find_from w (m_mapSubscribedEvents t)) = true <-> refused t w e.
Proof.
  intros Hs. rewrite existsb_exists. unfold refused. split.
  - intros (y & Hy%list_elem_of_In & Hc%Z.eqb_eq). apply find_from_spec in Hy as (Hy & Hw & Hx); [|done]. split; [done|]. by exists y.
  - intros [Hx (y & Hy & Hc & Hw)]. exists y. rewrite <- list_elem_of_In, find_from_spec, Z.eqb_eq by done. done.
Qed.

(** A callback that is not found at its time has no event there. *)
Lemma not_subscribed w e evs :
  existsb (fun x => Z.eqb (callback (ev x)) (callback e)) (find_from w evs) = false ->
  mkEventId w (callback e) ∉ id_of <$> evs.
Proof.
  intros H (x & Hx & Hin)%list_elem_of_fmap. injection Hx as Hw Hc.
  assert (existsb (fun x => Z.eqb (callback (ev x)) (callback e)) (find_from w evs) = true) as H2; [|congruence].
  apply existsb_exists. exists x. split; [|by rewrite <- Hc, Z.eqb_refl]. apply list_elem_of_In. by apply find_from_all.
Qed.

Definition event_ids (t : Timer) : list EventId := id_of <$> m_mapSubscribedEvents t.

Lemma incl_keys t k : timer_inv t -> incl (k :: keys (m_mapEventsEntry t)) (k :: event_ids t).
Proof.
  intros Hi k' [->|H]; [by left|]. right. apply list_elem_of_In. apply list_elem_of_In in H.
  unfold event_ids. by rewrite <- (keys_perm _ _ (ti_table _ Hi)).
Qed.

(** What [SubscribeEventAt] does when it accepts. *)
Lemma subscribe_accept t w e : timer_inv t -> sl_held t = false -> callback e <> 0 ->
  strict_weak_order (mkEventId w (callback e) :: event_ids t) = true ->
  existsb (fun x => Z.eqb (callback (ev x)) (callback e)) (find_from w (m_mapSubscribedEvents t)) = false ->
  SubscribeEventAt t w e = Ret (
    mkTimer (m_stop t) (insert_node (mkNode (next_node t) w e) (m_mapSubscribedEvents t))
      (m_mapEventsEntry t ++ [(mkEventId w (callback e), next_node t)]) (S (next_node t)) (m_pWorkThread t) false, mkEventId w (callback e)).
Proof.
  intros Hi Hl Hc Hs Hf. unfold SubscribeEventAt, with_lock. rewrite (proj2 (Z.eqb_neq _ _) Hc), Hl, Hf.
  rewrite (with_table_ok _ _ _ (incl_keys t _ Hi) Hs). unfold tbl_insert. rewrite tbl_find_None; [done|].
  rewrite (keys_perm _ _ (ti_table _ Hi)). by apply not_subscribed.
Qed.

Lemma subscribe_inv t w e : timer_inv t ->
  existsb (fun x => Z.eqb (callback (ev x)) (callback e)) (find_from w (m_mapSubscribedEvents t)) = false ->
  timer_inv (mkTimer (m_stop t) (insert_node (mkNode (next_node t) w e) (m_mapSubscribedEvents t))
      (m_mapEventsEntry t ++ [(mkEventId w (callback e), next_node t)]) (S (next_node t)) (m_pWorkThread t) false).
Proof.
  intros [H1 H2 H3 H4 H5] Hf. split; simpl.
  - by apply insert_node_sorted.
  - rewrite insert_node_perm, H2. simpl. by rewrite Permutation_app_comm.
  - rewrite insert_node_perm. simpl. constructor; [|done]. by apply not_subscribed.
  - rewrite insert_node_perm. simpl. constructor; [|done]. intros (x & Hx & Hin)%list_elem_of_fmap.
    rewrite Forall_forall in H5. specialize (H5 x Hin). lia.
  - rewrite insert_node_perm. constructor; [simpl; lia|]. eapply Forall_impl; [exact H5|]. simpl. lia.
Qed.

Lemma sorted_erase l1 x l2 : StronglySorted (fun x y => cctime_ltb (at_ y) (at_ x) = false) (l1 ++ x :: l2) ->
  StronglySorted (fun x y => cctime_ltb (at_ y) (at_ x) = false) (l1 ++ l2).
Proof.
  induction l1 as [|y l1 IH]; simpl; intros H; inversion_clear H as [|? ? H1 H2]; [done|].
  constructor; [by apply IH|]. rewrite Forall_app, Forall_cons in *. naive_solver.
Qed.

Lemma erase_inv t l1 x l2 : timer_inv t -> m_mapSubscribedEvents t = l1 ++ x :: l2 ->
  timer_inv (mkTimer (m_stop t) (l1 ++ l2) (tbl_erase (m_mapEventsEntry t) (id_of x)) (next_node t) (m_pWorkThread t) (sl_held t)).
Proof.
  intros [H1 H2 H3 H4 H5] E. rewrite E in *. split; simpl.
  - by eapply sorted_erase.
  - rewrite H2. by rewrite (proj1 (erase_one l1 x l2 H3 H4)).
  - rewrite fmap_app, fmap_cons in *. eapply sublist_NoDup; [exact H3|]. apply sublist_app; [done|by apply sublist_cons].
  - rewrite fmap_app, fmap_cons in *. eapply sublist_NoDup; [exact H4|]. apply sublist_app; [done|by apply sublist_cons].
  - rewrite Forall_app, Forall_cons in *. naive_solver.
Qed.

Lemma unsubscribe_found t l1 x l2 : timer_inv t -> sl_held t = false -> m_mapSubscribedEvents t = l1 ++ x :: l2 ->
  cctime_eq_tick 0 (at_ x) = Ret false -> callback (ev x) <> 0 -> strict_weak_order (event_ids t) = true ->
  UnsubscribeEvent t (id_of x) =
    Ret (mkTimer (m_stop t) (l1 ++ l2) (tbl_erase (m_mapEventsEntry t) (id_of x)) (next_node t) (m_pWorkThread t) false, true).
Proof.
  intros Hi Hl E Hw Hc Hs. unfold UnsubscribeEvent, with_lock. cbn [when how id_of]. rewrite Hw. cbn [obind]. rewrite (proj2 (Z.eqb_neq _ _) Hc), Hl. cbn [orb].
  fold (id_of x).
  assert (id_of x ∈ event_ids t) as Hin. { unfold event_ids. rewrite E, fmap_app, fmap_cons. set_solver. }
  rewrite (with_table_ok (event_ids t)); [| |done].
  2: { intros k [<-|Hk]; [by apply list_elem_of_In|]. destruct (incl_keys t (id_of x) Hi k (or_intror Hk)) as [<-|]; [by apply list_elem_of_In|done]. }
  destruct Hi as [H1 H2 H3 H4 H5].
  rewrite (tbl_find_Some _ _ (node_id x)).
  - rewrite E in *. by rewrite (proj2 (erase_one l1 x l2 H3 H4)).
  - by rewrite (keys_perm _ _ H2).
  - rewrite H2, E, fmap_app, fmap_cons. apply elem_of_app. right. by left.
Qed.

Lemma insert_node_split n l : exists l1 l2, insert_node n l = l1 ++ n :: l2 /\ l1 ++ l2 = l.
Proof.
  induction l as [|x l IH]; simpl; [by exists [], []|]. case_match; [by exists [], (x :: l)|].
  destruct IH as (l1 & l2 & -> & E). exists (x :: l1), l2. simpl. by rewrite E.
Qed.

(** C23.  Subscribing and unsubscribing are inverse.  A subscription at a time
    other than zero is refused, with the timer unchanged and the time zero in
    the id, exactly when some event waits at that time and the same callback
    waits then or later.  Otherwise it adds exactly that event, keeps the
    tables consistent, and the returned id takes exactly that event out again.
    It holds while [EventId::operator<] orders the ids of the waiting
    events and the new one, which ids of one callback always satisfy
    ([swo_one_callback]) and ids of several need not
    ([timer_two_callbacks_undefined]). *)
Theorem timer_subscribe_unsubscribe (t : Timer) (w : cctime) (e : Event) :
  timer_inv t -> sl_held t = false -> callback e <> 0 -> cctime_eq_tick 0 w = Ret false ->
  strict_weak_order (mkEventId w (callback e) :: event_ids t) = true ->
  (refused t w e -> SubscribeEventAt t w e = Ret (t, mkEventId (mkTime 0 0) (callback e))) /\
  (~ refused t w e -> exists t' t'', SubscribeEventAt t w e = Ret (t', mkEventId w (callback e)) /\ timer_inv t' /\
    m_mapSubscribedEvents t' ≡ₚ mkNode (next_node t) w e :: m_mapSubscribedEvents t /\
    UnsubscribeEvent t' (mkEventId w (callback e)) = Ret (t'', true) /\ timer_inv t'' /\
    m_mapSubscribedEvents t'' = m_mapSubscribedEvents t).
Proof.
  intros Hi Hl Hc Hw Hs. rewrite <- (refused_search t w e (ti_sorted _ Hi)). split.
  - intros Ef. unfold SubscribeEventAt, with_lock. by rewrite (proj2 (Z.eqb_neq _ _) Hc), Hl, Ef.
  - intros Ef%not_true_is_false. pose proof (subscribe_inv t w e Hi Ef) as Hi'.
    destruct (insert_node_split (mkNode (next_node t) w e) (m_mapSubscribedEvents t)) as (l1 & l2 & E & E2).
    eexists _, _. split; [by apply subscribe_accept|]. split; [done|]. split; [apply insert_node_perm|].
    split; [|split].
    + apply (unsubscribe_found _ l1 (mkNode (next_node t) w e) l2 Hi'); try done.
      eapply swo_incl; [|exact Hs]. intros k Hk. apply list_elem_of_In. apply list_elem_of_In in Hk.
      unfold event_ids in *. cbn [m_mapSubscribedEvents] in Hk. by rewrite insert_node_perm in Hk.
    + exact (erase_inv _ l1 (mkNode (next_node t) w e) l2 Hi' E).
    + exact E2.
Qed.

(** ** Firing *)

(** [now i] is the reading of the clock before the first event is looked at. *)
Lemma fire_due_spec now cb i evs tbl ks :
  (forall c x, cb c x = Ret tt) ->
  StronglySorted (fun x y => cctime_ltb (at_ y) (at_ x) = false) evs ->
  incl (id_of <$> evs) ks -> incl (keys tbl) ks -> strict_weak_order ks = true ->
  exists evs' fired, fire_due now cb i evs tbl = Ret (evs', foldl tbl_erase tbl (id_of <$> fired), fired) /\
    evs = fired ++ evs' /\
    (forall j x, fired !! j = Some x -> cctime_leb (at_ x) (now (i + j)%nat) = true) /\
    Forall (fun x => cctime_ltb (now (i + length fired)%nat) (at_ x) = true) evs'.
Proof.
  intros Hcb. revert i tbl. induction evs as [|x evs IH]; intros i tbl Hsort He Ht Hs; cbn [fire_due].
  - by exists [], [].
  - inversion_clear Hsort as [|? ? Hsort' Hx]. destruct (cctime_gtb (at_ x) (now i)) eqn:Eg.
    + exists (x :: evs), []. split_and!; [done|done|done|]. rewrite cctime_gtb_ltb in Eg. cbn [length]. rewrite Nat.add_0_r. constructor; [done|].
      eapply Forall_impl; [exact Hx|]. intros y Hy. simpl in Hy.
      destruct (cctime_ltb (now i) (at_ y)) eqn:E2; [done|].
      by rewrite (cctime_ltb_negtrans _ _ _ E2 Hy) in Eg.
    + rewrite Hcb. cbn [obind]. fold (id_of x). rewrite (with_table_ok ks); [| |done].
      2: { intros k [<-|Hk]; [apply He; by left|by apply Ht]. }
      destruct (IH (S i) (tbl_erase tbl (id_of x))) as (evs' & fired & -> & E & Hf & Hr); [done| | |done|].
      * intros k Hk. apply He. by right.
      * intros k Hk. apply Ht. unfold keys, tbl_erase in *. apply list_elem_of_In in Hk. apply list_elem_of_In.
        apply list_elem_of_fmap in Hk as (p & -> & Hp). apply list_elem_of_fmap. exists p. split; [done|].
        apply list_elem_of_In in Hp. apply List.filter_In in Hp as [Hp _]. by apply list_elem_of_In.
      * cbn [obind]. exists evs', (x :: fired). split_and!; [done|by rewrite E| |].
        -- intros [|j] y Hy; cbn in Hy; [injection Hy as <-; rewrite Nat.add_0_r; unfold cctime_leb; by rewrite Eg|].
           rewrite Nat.add_succ_r. exact (Hf j y Hy).
        -- cbn [length]. by rewrite Nat.add_succ_r.
Qed.

Lemma clock_forward now i j : (forall k, cctime_ltb (now (S k)) (now k) = false) -> cctime_ltb (now (i + j)%nat) (now i) = false.
Proof.
  intros H. induction j as [|j IH]; [by rewrite Nat.add_0_r, cctime_ltb_irrefl|].
  rewrite Nat.add_succ_r. by eapply cctime_ltb_negtrans; [apply H|].
Qed.

Lemma fire_inv t fired rest : timer_inv t -> m_mapSubscribedEvents t = fired ++ rest ->
  timer_inv (mkTimer (m_stop t) rest (foldl tbl_erase (m_mapEventsEntry t) (id_of <$> fired)) (next_node t) (m_pWorkThread t) (sl_held t)).
Proof.
  revert t. induction fired as [|x fired IH]; intros t Hi E; simpl.
  - simpl in E. subst rest. by destruct t.
  - apply (erase_inv t [] x (fired ++ rest)) in Hi; [|done]. simpl in Hi. by apply IH in Hi.
Qed.

(** C24.  A turn of the timer fires the right events.  The events fired are the
    earliest ones in order of time; the clock is read before each event, and
    each event fired is due at its reading; the events that remain are not due
    at the last reading, so with a clock that does not go back every event
    that was due when the turn began is fired.  The tables stay consistent, and
    the timer then waits until the first remaining event, or for a notification
    if none is left.  It holds for callbacks that return, for times whose
    nanoseconds fit [long], and while [EventId::operator<] orders the ids of
    the waiting events, as it does for one callback and need not for several
    ([timer_two_callbacks_undefined]). *)
Theorem timer_fires_due_in_order (now : nat -> cctime) (cb : Z -> Z -> outcome unit) (t : Timer) :
  timer_inv t -> strict_weak_order (event_ids t) = true ->
  Forall (fun x => fits (at_ x)) (m_mapSubscribedEvents t) -> (forall c x, cb c x = Ret tt) ->
  exists t' fired wt, process_turn now cb t = Ret (t', fired, wt) /\ timer_inv t' /\
    m_mapSubscribedEvents t = fired ++ m_mapSubscribedEvents t' /\
    (forall j x, fired !! j = Some x -> cctime_leb (at_ x) (now j) = true) /\
    Forall (fun x => cctime_ltb (now (length fired)) (at_ x) = true) (m_mapSubscribedEvents t') /\
    ((forall j, cctime_ltb (now (S j)) (now j) = false) ->
       forall x, x ∈ m_mapSubscribedEvents t -> cctime_leb (at_ x) (now 0%nat) = true -> x ∈ fired) /\
    wt = match m_mapSubscribedEvents t' with [] => WaitNotify | x :: _ => WaitUntil (total (at_ x)) end.
Proof.
  intros Hi Hs Hfit Hcb.
  destruct (fire_due_spec now cb 0 (m_mapSubscribedEvents t) (m_mapEventsEntry t) (event_ids t)) as (evs' & fired & E & Ee & Hf & Hr);
    [done|by apply ti_sorted|by intros k| |done|].
  { intros k Hk. apply list_elem_of_In. apply list_elem_of_In in Hk. unfold event_ids. by rewrite <- (keys_perm _ _ (ti_table _ Hi)). }
  unfold process_turn. rewrite E. cbn [obind].
  assert ((match evs' with [] => Ret WaitNotify | min :: _ => let* n := get_total_nsecs (at_ min) in Ret (WaitUntil n) end) =
    Ret (match evs' with [] => WaitNotify | x :: _ => WaitUntil (total (at_ x)) end)) as Hwait.
  { rewrite Ee in Hfit. apply Forall_app in Hfit as [_ Hfit]. destruct evs' as [|x evs']; [done|].
    apply Forall_cons in Hfit as [Hx _]. by rewrite total_fits. }
  rewrite Hwait. cbn [obind]. eexists _, _, _. split; [reflexivity|]. cbn [m_mapSubscribedEvents].
  split; [by apply fire_inv|]. split; [done|]. split; [done|]. split; [done|]. split; [|done].
  intros Hclock x Hx Hdue. rewrite Ee in Hx. apply elem_of_app in Hx as [Hx|Hx]; [done|]. exfalso.
  rewrite Forall_forall in Hr. specialize (Hr x Hx). unfold cctime_leb in Hdue. rewrite negb_true_iff, cctime_gtb_ltb in Hdue.
  by rewrite (cctime_ltb_negtrans _ _ _ (clock_forward now 0 (length fired) Hclock) Hdue) in Hr.
Qed.

(** ** The comparator of the ids *)

(** It orders ids of one callback. *)
Lemma swo_one_callback ks c : (forall k, In k ks -> how k = c) -> strict_weak_order ks = true.
Proof.
  intros Hk. assert (forall a b, In a ks -> In b ks -> EventId_ltb a b = cctime_ltb (when a) (when b)) as E.
  { intros a b Ha Hb. unfold EventId_ltb. rewrite (Hk a Ha), (Hk b Hb), Z.ltb_irrefl. apply orb_false_r. }
  unfold strict_weak_order. rewrite !andb_true_iff. split_and!; apply forallb_forall; intros a Ha.
  - by rewrite E, cctime_ltb_irrefl.
  - apply forallb_forall. intros b Hb. rewrite !E by done.
    destruct (cctime_ltb (when a) (when b)) eqn:E1, (cctime_ltb (when b) (when a)) eqn:E2; try done.
    pose proof (cctime_ltb_trans _ _ _ E1 E2) as H. by rewrite cctime_ltb_irrefl in H.
  - apply forallb_forall. intros b Hb. apply forallb_forall. intros d Hd. rewrite andb_true_iff, !implb_true_iff. split.
    + rewrite andb_true_iff, !E by done. intros [H1 H2]. by eapply cctime_ltb_trans.
    + unfold incomparable. rewrite !andb_true_iff, !negb_true_iff, !E by done. intros [[H1 H2] [H3 H4]].
      split; by eapply cctime_ltb_negtrans.
Qed.

(** *** A timer with events of one callback *)

Definition one_callback (t : Timer) (c : Z) : Prop := Forall (fun x => callback (ev x) = c) (m_mapSubscribedEvents t).

Lemma one_callback_order t c id : one_callback t c -> how id = c -> strict_weak_order (id :: event_ids t) = true.
Proof.
  intros Ho Hh. apply (swo_one_callback _ c). intros k [<-|Hk]; [done|]. apply list_elem_of_In in Hk. unfold event_ids in Hk.
  apply list_elem_of_fmap in Hk as (x & -> & Hx). unfold one_callback in Ho. rewrite Forall_forall in Ho. exact (Ho x Hx).
Qed.

(** A subscription later than every waiting event is taken. *)
Lemma subscribe_one t c w e : timer_inv t -> sl_held t = false -> one_callback t c -> c <> 0 -> callback e = c ->
  Forall (fun x => cctime_ltb (at_ x) w = true) (m_mapSubscribedEvents t) ->
  exists t', SubscribeEventAt t w e = Ret (t', mkEventId w c) /\ timer_inv t' /\ sl_held t' = false /\ one_callback t' c /\
    m_mapSubscribedEvents t' ≡ₚ mkNode (next_node t) w e :: m_mapSubscribedEvents t.
Proof.
  intros Hi Hl Ho Hc <- Hw.
  assert (existsb (fun x => Z.eqb (callback (ev x)) (callback e)) (find_from w (m_mapSubscribedEvents t)) = false) as Ef.
  { apply not_true_is_false. rewrite refused_search by apply Hi. intros [(x & Hx & <-) _]. rewrite Forall_forall in Hw.
    specialize (Hw x Hx). simpl in Hw. by rewrite cctime_ltb_irrefl in Hw. }
  eexists. split; [apply subscribe_accept; try done; by apply (one_callback_order t (callback e))|].
  split; [by apply subscribe_inv|]. split; [done|]. cbn [m_mapSubscribedEvents]. split; [|apply insert_node_perm].
  unfold one_callback. cbn [m_mapSubscribedEvents]. rewrite insert_node_perm. by constructor.
Qed.

(** An id of the callback is taken out, or there is none. *)
Lemma unsubscribe_one t c id : timer_inv t -> sl_held t = false -> one_callback t c -> c <> 0 -> how id = c ->
  cctime_eq_tick 0 (when id) = Ret false ->
  exists t' b, UnsubscribeEvent t id = Ret (t', b) /\ timer_inv t' /\ sl_held t' = false /\ one_callback t' c /\
    m_mapSubscribedEvents t' `sublist_of` m_mapSubscribedEvents t.
Proof.
  intros Hi Hl Ho Hc Hh Hw. pose proof (one_callback_order t c id Ho Hh) as Hs.
  destruct (decide (id ∈ event_ids t)) as [Hin|Hin].
  - unfold event_ids in Hin. apply list_elem_of_fmap in Hin as (x & -> & (l1 & l2 & E)%list_elem_of_split).
    eexists _, true. split; [apply (unsubscribe_found t l1 x l2); try done|].
    + rewrite <- Hh in Hc. exact Hc.
    + eapply swo_incl; [|exact Hs]. intros k Hk. by right.
    + split; [by apply (erase_inv t l1 x l2) in Hi; [rewrite Hl in Hi|]|]. split; [done|]. unfold one_callback in *. cbn [m_mapSubscribedEvents]. rewrite E in *.
      rewrite Forall_app, Forall_cons in *. split; [by destruct Ho as (? & _ & ?)|]. apply sublist_app; [done|by apply sublist_cons].
  - exists t, false. split; [|done]. unfold UnsubscribeEvent, with_lock. rewrite Hw. cbn [obind]. rewrite Hh, (proj2 (Z.eqb_neq _ _) Hc), Hl. cbn [orb].
    rewrite (with_table_ok _ _ _ (incl_keys t _ Hi) Hs), tbl_find_None; [done|]. by rewrite (keys_perm _ _ (ti_table _ Hi)).
Qed.

(** Two callbacks break the id table: after a callback is subscribed, a
    second one with a lower address at a later time makes
    [EventId::operator<] hold in both directions, so that the insertion into
    the [std::map] is undefined. *)
Theorem timer_two_callbacks_undefined (w1 w2 : cctime) (e1 e2 : Event) :
  0 < callback e2 < callback e1 -> cctime_ltb w1 w2 = true ->
  exists t id, SubscribeEventAt Timer_new w1 e1 = Ret (t, id) /\ exists why, SubscribeEventAt t w2 e2 = Undef why.
Proof.
  intros Hc Hw. unfold SubscribeEventAt at 1, with_lock, with_table. cbn [Timer_new sl_held m_mapSubscribedEvents find_from existsb m_mapEventsEntry keys fmap list_fmap].
  rewrite (proj2 (Z.eqb_neq (callback e1) 0)) by lia.
  rewrite (swo_one_callback _ (callback e1)) by (intros k [<-|[]]; done).
  eexists _, _. split; [reflexivity|]. unfold SubscribeEventAt, with_lock. cbn.
  rewrite (proj2 (Z.eqb_neq (callback e2) 0)) by lia.
  assert (cctime_ltb w2 w1 = false) as Hw2.
  { destruct (cctime_ltb w2 w1) eqn:E; [|done]. pose proof (cctime_ltb_trans _ _ _ Hw E) as H. by rewrite cctime_ltb_irrefl in H. }
  rewrite Hw. cbn. eexists. unfold with_table.
  match goal with |- (if ?b then _ else _) = _ => assert (b = false) as ->; [|reflexivity] end.
  unfold strict_weak_order. cbn. unfold EventId_ltb. cbn. rewrite Hw, Hw2, !cctime_ltb_irrefl, !Z.ltb_irrefl.
  rewrite (proj2 (Z.ltb_lt (callback e2) (callback e1))) by lia. cbn.
  by rewrite ?andb_false_r.
Qed.

Lemma timer_two_callbacks_undefined_witness : exists t id,
  SubscribeEventAt Timer_new (mkTime 1 0) (mkEvent 0 8) = Ret (t, id) /\ exists why, SubscribeEventAt t (mkTime 2 0) (mkEvent 0 4) = Undef why.
Proof. apply (timer_two_callbacks_undefined (mkTime 1 0) (mkTime 2 0) (mkEvent 0 8) (mkEvent 0 4)); [simpl; lia|reflexivity]. Defined.

Module TimerDemo.

Definition n1 : node := mkNode 0 (mkTime 5 0) (mkEvent 0 8).
Definition n2 : node := mkNode 1 (mkTime 9 0) (mkEvent 0 8).
Definition t0 : Timer := mkTimer false [n1; n2] [entry_of n1; entry_of n2] 2 true false.

Lemma t0_inv : timer_inv t0.
Proof.
  split; simpl.
  - repeat constructor.
  - done.
  - apply (bool_decide_unpack _). vm_compute. exact I.
  - apply (bool_decide_unpack _). vm_compute. exact I.
  - repeat constructor; simpl; lia.
Qed.

(** The callback waits at 5 and 9 seconds: at 7 it is added, at 5 it is refused. *)
Lemma timer_subscribe_unsubscribe_witness :
  SubscribeEventAt t0 (mkTime 5 0) (mkEvent 1 8) = Ret (t0, mkEventId (mkTime 0 0) 8) /\
  exists t' t'', SubscribeEventAt t0 (mkTime 7 0) (mkEvent 1 8) = Ret (t', mkEventId (mkTime 7 0) 8) /\ timer_inv t' /\
    m_mapSubscribedEvents t' ≡ₚ mkNode 2 (mkTime 7 0) (mkEvent 1 8) :: m_mapSubscribedEvents t0 /\
    UnsubscribeEvent t' (mkEventId (mkTime 7 0) 8) = Ret (t'', true) /\ timer_inv t'' /\
    m_mapSubscribedEvents t'' = m_mapSubscribedEvents t0.
Proof.
  split.
  - apply (timer_subscribe_unsubscribe t0 (mkTime 5 0) (mkEvent 1 8) t0_inv eq_refl ltac:(discriminate) eq_refl eq_refl).
    split; exists n1; split; [left|reflexivity|left|split; reflexivity].
  - apply (timer_subscribe_unsubscribe t0 (mkTime 7 0) (mkEvent 1 8) t0_inv eq_refl ltac:(discriminate) eq_refl eq_refl).
    intros [(x & Hx & Ex) _]. unfold t0 in Hx. cbn [m_mapSubscribedEvents] in Hx.
    apply elem_of_cons in Hx as [->|Hx]; [discriminate Ex|]. apply list_elem_of_singleton in Hx as ->. discriminate Ex.
Defined.

Lemma timer_fires_due_in_order_witness : exists t' fired wt,
    process_turn (fun _ => mkTime 6 0) (fun _ _ => Ret tt) t0 = Ret (t', fired, wt) /\ timer_inv t' /\
    m_mapSubscribedEvents t0 = fired ++ m_mapSubscribedEvents t' /\ n1 ∈ fired /\
    Forall (fun x => cctime_ltb (mkTime 6 0) (at_ x) = true) (m_mapSubscribedEvents t').
Proof.
  destruct (timer_fires_due_in_order (fun _ => mkTime 6 0) (fun _ _ => Ret tt) t0 t0_inv eq_refl
    ltac:(repeat constructor; vm_compute; congruence) (fun _ _ => eq_refl)) as (t' & fired & wt & E & Hi & Ee & _ & Hr & Hall & _).
  exists t', fired, wt. split; [exact E|]. split; [exact Hi|]. split; [exact Ee|]. split; [|exact Hr].
  apply Hall; [reflexivity|left|reflexivity].
Defined.

End TimerDemo.
