(* ===== verification/PoolWait.v ===== *)
(** * PoolWait: clients that wait for the thread pool

    Models the waits of src/src/ccsys/thread-pool.h ([WaitAll],
    [WaitAllUntilTimeAt] and [WaitAllUntilAfter]) beside the workers of
    Queues.v: the pool finishes what it is given, a timed wait always returns,
    and an untimed wait can miss the last notification. *)

From S2P Require Import Prelude Timer Queues.

Module PoolWait.
Import ThreadPool.

(** ** The pool finishes every task *)

(** A step of a worker. *)
Definition worker_step (s s' : ThreadPool) : Prop :=
  exists l1 w l2, m_vThreadps s = l1 ++ w :: l2 /\ proc_step s l1 w l2 = Some s'.

Definition todo (w : worker) : nat := match w with Holding _ => 3 | Running _ => 2 | Notifying => 1 | Popping | Exited => 0 end.

(** The steps the workers have still to make. *)
Definition work (s : ThreadPool) : nat := 4 * length (m_bqTasks s) + sum_list_with todo (m_vThreadps s).

Lemma worker_step_work s s' : m_bStopping s = false -> worker_step s s' -> m_bStopping s' = false /\ (work s' < work s)%nat.
Proof.
  intros Hb (l1 & w & l2 & Hw & E). unfold work. rewrite Hw, sum_at. destruct w as [|t|t| |]; cbn in E; [| | | |done].
  - destruct (m_bqTasks s) as [|t q]; simplify_eq. cbn. rewrite sum_at. cbn. split; [done|lia].
  - rewrite Hb in E. destruct t; simplify_eq; cbn; rewrite sum_at; cbn; (split; [done|lia]).
  - simplify_eq. cbn. rewrite sum_at. cbn. split; [done|lia].
  - simplify_eq. cbn. rewrite sum_at. cbn. split; [done|lia].
Qed.

Lemma worker_steps_work m s s' : m_bStopping s = false -> nsteps worker_step m s s' ->
  (m + work s' <= work s)%nat /\ m_bStopping s' = false.
Proof.
  intros Hb Hn. induction Hn as [s|m x y z Hxy _ IH]; [done|].
  destruct (worker_step_work _ _ Hb Hxy) as [Hb' Hm]. destruct (IH Hb') as [H1 H2]. split; [lia|done].
Qed.

(** When no worker can step, each waits in [Pop] of an empty queue. *)
Lemma quiet_workers s : m_bStopping s = false -> inv s -> m_vThreadps s <> [] -> (forall s', ~ worker_step s s') ->
  m_bqTasks s = [] /\ Forall (fun w => w = Popping) (m_vThreadps s).
Proof.
  intros Hb Hi Hne Hq. destruct (inv_open _ Hi Hb) as (_ & _ & Hx).
  assert (Hall : Forall (fun w => w = Popping) (m_vThreadps s)).
  { apply Forall_forall. intros w Hw. pose proof Hw as (l1 & l2 & Hs)%list_elem_of_split.
    rewrite Forall_forall in Hx. specialize (Hx w Hw). destruct w as [|t|t| |]; [done| | | |done]; exfalso.
    - destruct t as [t|]; eapply Hq; [exists l1, (Holding (Some t)), l2|exists l1, (Holding None), l2]; cbn; rewrite Hb; done.
    - eapply Hq. by exists l1, (Running t), l2.
    - eapply Hq. by exists l1, Notifying, l2. }
  split; [|done]. destruct (m_bqTasks s) as [|t q] eqn:Eq; [done|]. exfalso.
  destruct (m_vThreadps s) as [|w ws] eqn:Ew; [done|]. apply Forall_cons in Hall as [-> _].
  eapply Hq. exists [], Popping, ws. rewrite Ew. cbn. rewrite Eq. done.
Qed.

Lemma quiet_held ws : Forall (fun w => w = Popping) ws -> flat_map in_hand ws = [] /\ running ws = 0.
Proof. induction 1 as [|w ws -> _ [IH1 IH2]]; [done|]. split; [done|]. unfold running in *. simpl. exact IH2. Qed.

(** The threads of the pool never change in number. *)
Lemma step_threads s s' : step s s' -> length (m_vThreadps s') = length (m_vThreadps s).
Proof.
  intros Hs. destruct Hs as [s t Hb|s l1 w l2 s' Hw E|s Hb|s n Ho]; [done| |done|done].
  rewrite Hw. destruct w as [|t|t| |]; cbn in E; repeat case_match; simplify_eq; cbn; rewrite !length_app; done.
Qed.

Lemma reachable_threads k n s : reachable k n s -> length (m_vThreadps s) = Z.to_nat (threads_count k n).
Proof.
  intros Hr. eapply (rtc_invariant step (fun s => length (m_vThreadps s) = Z.to_nat (threads_count k n))); [| |exact Hr].
  - intros x y Hx Hs. by rewrite (step_threads _ _ Hs).
  - cbn. apply length_replicate.
Qed.

Lemma drained k n s : reachable k n s -> m_bStopping s = false -> 0 < threads_count k n ->
  forall s', rtc worker_step s s' -> (forall s'', ~ worker_step s' s'') ->
     added s' ≡ₚ finished s' /\ added s' = added s /\ WaitAll_done s' = true.
Proof.
  intros Hr Hb Hk s' Hs Hq. pose proof (rtc_nsteps_1 _ _ Hs) as [m Hn]. destruct (worker_steps_work _ _ _ Hb Hn) as [_ Hb'].
  assert (Hr' : reachable k n s').
  { unfold reachable in *. transitivity s; [done|]. apply (rtc_subrel worker_step step); [|done].
    intros x y (l1 & w & l2 & Hw & E). by eapply step_worker. }
  pose proof (pool_inv_reachable _ _ _ Hr') as Hi. pose proof (reachable_threads _ _ _ Hr') as Hl.
  destruct (quiet_workers s' Hb' Hi) as [Hq1 Hq2]; [intros E; rewrite E in Hl; cbn in Hl; lia|done|].
  destruct (quiet_held _ Hq2) as [Hh Hz]. split; [|split].
  - apply (Permutation_count_occ Z.eq_dec). intros t. pose proof (inv_tasks _ Hi t) as Ht. unfold held, queued, count in Ht.
    rewrite Hh, Hq1, (proj1 (inv_open _ Hi Hb')) in Ht. simpl in Ht. lia.
  - clear -Hs. induction Hs as [|x y z (l1 & w & l2 & Hw & E) _ IH]; [done|]. rewrite IH.
    destruct w as [|t|t| |]; cbn in E; repeat case_match; by simplify_eq.
  - unfold WaitAll_done. rewrite Hq1, (inv_active _ Hi), Hz. done.
Qed.

(** ** A client that waits *)

(** Which wait it is: [WaitAll], or [WaitAllUntilTimeAt] with its deadline in
    nanoseconds. *)
Inductive wait_kind := Forever | Until (deadline : Z).

Definition WaitAllUntilTimeAt (duration_since_epoch : cctime) : outcome wait_kind :=
  let* n := get_total_nsecs duration_since_epoch in Ret (Until n).
Definition WaitAllUntilAfter (now duration : cctime) : outcome wait_kind :=
  let* t := cctime_add now duration in WaitAllUntilTimeAt t.

(** Where the client is: at the test of the queue (with the flag [first]), at
    the test of the counter, past the tests and before [wait], in [wait], or
    back. *)
Inductive waiter := TestQueue (first : bool) | TestCount | Deciding | Asleep | Returned.

(** The client's own steps.  It holds a mutex that no worker takes, so the
    workers step in between. *)
Definition wait_step (k : wait_kind) (s : ThreadPool) (w : waiter) : option waiter :=
  match k, w with
  | Forever, TestQueue _ => Some (match m_bqTasks s with [] => TestCount | _ => Deciding end)
  | Until _, TestQueue first => Some (if first then match m_bqTasks s with [] => Returned | _ => TestCount end else Returned)
  | _, TestCount => Some (if Z.eqb (m_iActiveWorkersCnt s) 0 then Returned else Deciding)
  | _, Deciding => Some Asleep
  | _, Asleep | _, Returned => None
  end.

(** A wait that begins on the pool [s], with no step of anybody else, returns
    without going to sleep: its own steps, which are determined, end it. *)
Definition returns_at_once (k : wait_kind) (s : ThreadPool) : Prop :=
  rtc (fun w w' => wait_step k s w = Some w') (TestQueue true) Returned.

Lemma idle_wait k s : WaitAll_done s = true -> returns_at_once k s.
Proof.
  unfold WaitAll_done, returns_at_once. destruct (m_bqTasks s) as [|t q] eqn:Eq; [|done]. intros Ez.
  destruct k as [|d].
  - eapply rtc_l; [cbn; by rewrite Eq|]. eapply rtc_once. cbn. by rewrite Ez.
  - eapply rtc_once. cbn. by rewrite Eq.
Qed.

(** C22.  The pool finishes what it is given: if it has a thread and is not being
    destroyed, the workers make at most [work s] steps without a new task, in
    any interleaving, and once none of them can step every task that was added
    has been finished, and a wait of any kind that is called then returns without
    sleeping.  A [WaitAll] that is already asleep by then need not
    ([wait_all_hangs]). *)
Theorem pool_drains (k n : Z) (s : ThreadPool) : reachable k n s -> m_bStopping s = false -> 0 < threads_count k n ->
  (forall m s', nsteps worker_step m s s' -> (m <= work s)%nat) /\
  (forall s', rtc worker_step s s' -> (forall s'', ~ worker_step s' s'') ->
     added s' ≡ₚ finished s' /\ added s' = added s /\ forall w, returns_at_once w s').
Proof.
  intros Hr Hb Hk. split.
  - intros m s' Hn. destruct (worker_steps_work _ _ _ Hb Hn). lia.
  - intros s' Hs Hq. destruct (drained _ _ _ Hr Hb Hk s' Hs Hq) as (H1 & H2 & H3). split; [done|]. split; [done|].
    intros w. by apply idle_wait.
Qed.

(** Waking up: the loop tests again, [first] is false. *)
Definition wake (w : waiter) : waiter := match w with Asleep => TestQueue false | _ => w end.

Record system := mkSystem { pool : ThreadPool; client : waiter; clock : Z }.

Inductive sstep (k : wait_kind) : system -> system -> Prop :=
| s_worker s c t l1 w l2 s' : m_vThreadps s = l1 ++ w :: l2 -> proc_step s l1 w l2 = Some s' ->
    sstep k (mkSystem s c t) (mkSystem s' (match w with Notifying => wake c | _ => c end) t)
| s_client s c t c' : wait_step k s c = Some c' -> sstep k (mkSystem s c t) (mkSystem s c' t)
| s_timeout s t d : k = Until d -> d <= t -> sstep k (mkSystem s Asleep t) (mkSystem s (TestQueue false) t)
| s_spurious s t : sstep k (mkSystem s Asleep t) (mkSystem s (TestQueue false) t)
| s_tick s c t t' : t < t' -> sstep k (mkSystem s c t) (mkSystem s c t')
| s_add s c t x : m_bStopping s = false -> sstep k (mkSystem s c t) (mkSystem (AddTask s x) c t).

(** [WaitAll] or a timed wait that starts on the pool [s] at time [t]. *)
Definition wait_begin (s : ThreadPool) (t : Z) : system := mkSystem s (TestQueue true) t.

(** ** A timed wait returns *)

Definition wait_left (w : waiter) : nat :=
  match w with TestQueue true => 5 | TestCount => 4 | Deciding => 3 | Asleep => 2 | TestQueue false => 1 | Returned => 0 end.

Lemma sstep_left d x y : sstep (Until d) x y -> (wait_left (client y) <= wait_left (client x))%nat.
Proof.
  intros Hs. destruct Hs as [s c t l1 w l2 s' Hw E|s c t c' E|s t d' _ _|s t|s c t t' _|s c t x _]; cbn; try lia.
  - destruct w, c; cbn; try lia; destruct first; lia.
  - destruct c as [[]| | | |]; cbn in E; repeat case_match; simplify_eq; cbn; lia.
Qed.

(** A timed wait returns: no step of the workers, of other clients or of the
    clock sets it back, and from its deadline on, unless it has returned, it
    has a step of its own that brings it closer; at most five remain. *)
Theorem timed_wait_returns d s t x : rtc (sstep (Until d)) (wait_begin s t) x ->
  (wait_left (client x) <= 5)%nat /\
  (forall y, sstep (Until d) x y -> (wait_left (client y) <= wait_left (client x))%nat) /\
  (d <= clock x -> client x <> Returned ->
     exists c, sstep (Until d) x (mkSystem (pool x) c (clock x)) /\ (wait_left c < wait_left (client x))%nat).
Proof.
  intros Hr. split; [|split].
  - change 5%nat with (wait_left (client (wait_begin s t))). induction Hr as [|a b c Hab _ IH]; [lia|].
    apply sstep_left in Hab. lia.
  - intros y. apply sstep_left.
  - intros Hd Hne. destruct x as [p c u]. cbn in *. destruct c as [[]| | | |].
    + eexists. split; [by apply s_client|]. cbn. destruct (m_bqTasks p); cbn; lia.
    + eexists. split; [by apply s_client|]. cbn. lia.
    + eexists. split; [by apply s_client|]. cbn. destruct (Z.eqb _ 0); cbn; lia.
    + eexists. split; [by apply s_client|]. cbn. lia.
    + eexists. split; [by eapply s_timeout|]. cbn. lia.
    + done.
Qed.

(** ** [WaitAll] can miss the last notification *)

Definition one_running : ThreadPool := mkTP false [] [Running 7] 1 0 [7] [] [].
Definition all_done : ThreadPool := mkTP false [] [Popping] 0 0 [7] [7] [].

Lemma one_running_reachable : reachable 1 4 one_running.
Proof. eapply rtc_r; [exact one_held_reachable|]. by apply (step_worker _ [] (Holding (Some 7)) []). Qed.

(** [WaitAll] can wait for ever: the worker counts itself out and notifies
    without the mutex of the condition, between the test of the counter and
    the wait.  Every task is then finished and the only thread sleeps in
    [Pop]: no step of the workers is left, and only a spurious wake-up or a
    new task can end the wait. *)
Theorem wait_all_hangs :
  reachable 1 4 one_running /\ rtc (sstep Forever) (wait_begin one_running 0) (mkSystem all_done Asleep 0) /\
  WaitAll_done all_done = true /\ (forall s', ~ worker_step all_done s') /\
  forall y, sstep Forever (mkSystem all_done Asleep 0) y ->
    y = mkSystem all_done (TestQueue false) 0 \/ client y = Asleep /\
      ((exists t, y = mkSystem all_done Asleep t) \/ exists x, pool y = AddTask all_done x).
Proof.
  split; [exact one_running_reachable|]. split; [|split; [done|split]].
  - eapply rtc_l; [by apply s_client|]. cbn. eapply rtc_l; [by apply s_client|]. cbn.
    eapply rtc_l; [by apply (s_worker _ _ _ _ [] (Running 7) [])|]. cbn.
    eapply rtc_l; [by apply (s_worker _ _ _ _ [] Notifying [])|]. cbn.
    eapply rtc_l; [by apply s_client|]. apply rtc_refl.
  - intros s' (l1 & w & l2 & Hw & E). cbn in Hw. destruct l1 as [|a l1]; [by injection Hw as <- <-|]. destruct l1; discriminate Hw.
  - intros y Hs. inversion Hs as [s c t l1 w l2 s' Hw E|s c t c' E|s t d' Hd|s t|s c t t'|s c t x]; subst; try done.
    + cbn in Hw. destruct l1 as [|a l1]; [by injection Hw as <- <-|]. destruct l1; discriminate Hw.
    + by left.
    + right. split; [done|]. left. by eexists.
    + right. split; [done|]. right. by eexists.
Qed.

(** ** Concrete runs *)

Lemma pool_drains_witness :
  (forall m s', nsteps worker_step m one_held s' -> (m <= work one_held)%nat) /\
  (forall s', rtc worker_step one_held s' -> (forall s'', ~ worker_step s' s'') ->
     added s' ≡ₚ finished s' /\ added s' = added one_held /\ forall w, returns_at_once w s').
Proof. exact (pool_drains 1 4 one_held one_held_reachable eq_refl eq_refl). Defined.

Lemma timed_wait_returns_witness : WaitAllUntilAfter (mkTime 3 0) (mkTime 1 0) = Ret (Until 4000000000) /\ exists c,
  sstep (Until 4000000000) (wait_begin one_added 4000000000) (mkSystem one_added c 4000000000) /\
  (wait_left c < 5)%nat.
Proof.
  split; [reflexivity|]. destruct (timed_wait_returns 4000000000 one_added 4000000000 (wait_begin one_added 4000000000) (rtc_refl _ _)) as (_ & _ & H).
  apply H; [cbn; lia|discriminate].
Defined.

End PoolWait.
