(* ===== verification/ServerConf.v ===== *)
(** * ServerConf: the cluster configuration file

    Models src/src/common/rf-server.h, src/src/common/rf-server-configuration.{h,cc},
    the trimming helpers of src/src/common/common-utils.h, and
    src/src/server/node/elector-manager-service.{h,cc}.  A text is the list of
    its character codes; [operator>>] of a stream is modelled as the C locale
    defines it for [int32_t], [uint16_t] and [std::string]. *)

From S2P Require Import Prelude Hash.

(** ** CommonUtils *)

Definition IsPowerOfTwo (x : Z) : bool := Z.ltb 0 x && Z.eqb (Z.land x (x - 1)) 0.

Definition isspace (c : Z) : bool := Z.eqb c 32 || (Z.leb 9 c && Z.leb c 13).

Fixpoint ltrim (s : list Z) : list Z :=
  match s with
  | [] => []
  | c :: s' => if isspace c then ltrim s' else s
  end.
Definition rtrim (s : list Z) : list Z := reverse (ltrim (reverse s)).
Definition trim (s : list Z) : list Z := rtrim (ltrim s).

(** ** Formatted input *)

Definition isdigit (c : Z) : bool := Z.leb 48 c && Z.leb c 57.

Fixpoint span (p : Z -> bool) (s : list Z) : list Z * list Z :=
  match s with
  | [] => ([], [])
  | c :: s' => if p c then let '(a, b) := span p s' in (c :: a, b) else ([], s)
  end.

Definition digits_value (ds : list Z) : Z := foldl (fun n c => n * 10 + (c - 48)) 0 ds.

(** The sign, the digits and what follows them; no digit is a failure. *)
Definition get_number (s : list Z) : option (bool * Z * list Z) :=
  let s := ltrim s in
  let '(neg, s) := match s with 45 :: s' => (true, s') | 43 :: s' => (false, s') | _ => (false, s) end in
  match span isdigit s with
  | ([], _) => None
  | (ds, rest) => Some (neg, digits_value ds, rest)
  end.

(** A value out of range sets [failbit]. *)
Definition get_int32 (s : list Z) : option (Z * list Z) :=
  match get_number s with
  | None => None
  | Some (neg, n, rest) =>
      let v := if neg then - n else n in
      if Z.leb (- 2 ^ 31) v && Z.ltb v (2 ^ 31) then Some (v, rest) else None
  end.

(** A negative number is taken modulo [2^16]. *)
Definition get_uint16 (s : list Z) : option (Z * list Z) :=
  match get_number s with
  | None => None
  | Some (neg, n, rest) => if Z.ltb n (2 ^ 16) then Some (if neg then u16 (- n) else n, rest) else None
  end.

Definition get_word (s : list Z) : option (list Z * list Z) :=
  match span (fun c => negb (isspace c)) (ltrim s) with
  | ([], _) => None
  | r => Some r
  end.

(** [std::getline] until the end of the file. *)
Fixpoint getlines (s : list Z) : list (list Z) :=
  match s with
  | [] => []
  | c :: s' => if Z.eqb c 10 then [] :: getlines s'
               else match getlines s' with
                    | [] => [[c]]
                    | l :: ls => (c :: l) :: ls
                    end
  end.

(** ** Servers *)

Record RfServer := mkServer { id : Z; addr : list Z; portForServer : Z; portForClient : Z }.

Record RfServerConfiguration := mkConf { m_selfServer : RfServer; m_mapOtherServers : gmap Z RfServer }.

Definition Configuration_new : RfServerConfiguration := mkConf (mkServer 0 [] 0 0) ∅.

Definition parse_server (line : list Z) : option (Z * list Z * Z * Z) :=
  match get_int32 line with
  | None => None
  | Some (id, s) =>
      match get_word s with
      | None => None
      | Some (addr, s) =>
          match get_uint16 s with
          | None => None
          | Some (p, s) => match get_uint16 s with None => None | Some (q, _) => Some (id, addr, p, q) end
          end
      end
  end.

(** One turn of the loop of [Initialize]: the configuration, and whether to go on. *)
Definition add_line (myId : Z) (c : RfServerConfiguration) (line : list Z) : outcome (RfServerConfiguration * bool) :=
  match ltrim line with
  | [] => Ret (c, true)
  | c0 :: rest =>
      if Z.eqb c0 35 then Ret (c, true) else
      match parse_server (c0 :: rest) with
      | None => Ret (c, false)
      | Some (sid, addr, p, q) =>
          if Z.leb sid 0 then Abort "Server id must be larger than 0."
          else if Z.eqb (u32 sid) myId then
            if Z.eqb (id (m_selfServer c)) (u32 sid) then Abort "Server id is duplicate!"
            else Ret (mkConf (mkServer (u32 sid) addr p q) (m_mapOtherServers c), true)
          else match m_mapOtherServers c !! u32 sid with
               | Some _ => Abort "Server id is duplicate!"
               | None => Ret (mkConf (m_selfServer c) (<[u32 sid := mkServer (u32 sid) addr p q]> (m_mapOtherServers c)), true)
               end
      end
  end.

Fixpoint add_lines (myId : Z) (c : RfServerConfiguration) (ls : list (list Z)) : outcome (RfServerConfiguration * bool) :=
  match ls with
  | [] => Ret (c, true)
  | l :: ls => let* (c, go) := add_line myId c l in if go then add_lines myId c ls else Ret (c, false)
  end.

(** [text] is the content of the file, [None] if it cannot be opened. *)
Definition Initialize (myId : Z) (text : option (list Z)) (c : RfServerConfiguration) : outcome (RfServerConfiguration * bool) :=
  match text with
  | None => Ret (c, false)
  | Some s => add_lines myId c (getlines s)
  end.

(** ** ElectorManagerService *)

Definition Elector_initialize (myId : Z) (text : option (list Z)) (c : RfServerConfiguration) : outcome (RfServerConfiguration * bool) :=
  if Z.eqb 0 myId then Abort "server id must be larger than 0." else Initialize myId text c.

(** [Start] with the flags [server_id] and the content of [servers_conf_path]. *)
Definition Elector_Start (server_id : Z) (text : option (list Z)) (c : RfServerConfiguration) : outcome RfServerConfiguration :=
  let* (c, ok) := Elector_initialize (u32 server_id) text c in
  if ok then Ret c else Abort "ElectorManagerService initialize failed!".

(** ** Lemmas *)

(** The file a cluster of [servers] is written as. *)
Definition print_server (s : RfServer) : list Z :=
  decimal (id s) ++ [32] ++ addr s ++ [32] ++ decimal (portForServer s) ++ [32] ++ decimal (portForClient s) ++ [10].

Definition word (a : list Z) : Prop := a <> [] /\ Forall (fun c => isspace c = false) a.

Record server_ok (s : RfServer) : Prop := mkServerOk {
  so_id : 0 < id s < 2 ^ 31;
  so_addr : word (addr s);
  so_srv : in_u 16 (portForServer s);
  so_cli : in_u 16 (portForClient s)
}.

Lemma digits_spec fuel z : 0 <= z < 10 ^ Z.of_nat fuel -> (0 < fuel)%nat ->
  digits fuel z <> [] /\ Forall (fun c => isdigit c = true) (digits fuel z) /\ digits_value (digits fuel z) = z.
Proof.
  revert z. induction fuel as [|fuel IH]; intros z Hz Hf; [lia|]. cbn [digits].
  assert (isdigit (48 + z mod 10) = true) as Hd.
  { unfold isdigit. pose proof (Z.mod_pos_bound z 10 ltac:(lia)). rewrite andb_true_iff, !Z.leb_le. lia. }
  assert (forall ds, digits_value (ds ++ [48 + z mod 10]) = digits_value ds * 10 + z mod 10) as Hv.
  { intros ds. unfold digits_value. rewrite foldl_app. simpl. lia. }
  split; [by destruct (if Z.ltb z 10 then _ else _)|].
  destruct (Z.ltb_spec z 10).
  - split; [by repeat constructor|]. rewrite (Z.mod_small z 10) by lia. unfold digits_value. simpl. lia.
  - assert (0 < fuel)%nat. { destruct fuel; [|lia]. change (10 ^ Z.of_nat 1) with 10 in Hz. lia. }
    destruct (IH (z / 10)) as (H1 & H2 & H3); [|done|].
    { rewrite Nat2Z.inj_succ, Z.pow_succ_r in Hz by lia. split; [apply Z.div_pos; lia|]. apply Z.div_lt_upper_bound; lia. }
    split; [apply Forall_app; split; [done|by repeat constructor]|]. rewrite Hv, H3.
    pose proof (Z.div_mod z 10 ltac:(lia)). lia.
Qed.

Lemma decimal_spec z : 0 <= z < 2 ^ 32 ->
  decimal z <> [] /\ Forall (fun c => isdigit c = true) (decimal z) /\ digits_value (decimal z) = z.
Proof. intros Hz. apply digits_spec; [|lia]. split; [lia|]. apply Z.lt_le_trans with (2 ^ 32); [lia|]. vm_compute. discriminate. Qed.

Lemma span_app p a b : Forall (fun c => p c = true) a -> match b with [] => True | c :: _ => p c = false end -> span p (a ++ b) = (a, b).
Proof.
  intros Ha Hb. induction Ha as [|c a Hc _ IH]; simpl.
  - destruct b; [done|]. simpl. by rewrite Hb.
  - by rewrite Hc, IH.
Qed.

Lemma digit_not_space c : isdigit c = true -> isspace c = false /\ c <> 45 /\ c <> 43 /\ c <> 35 /\ c <> 10.
Proof.
  unfold isdigit, isspace. rewrite andb_true_iff, !Z.leb_le. intros H.
  rewrite orb_false_iff, andb_false_iff, Z.eqb_neq, !Z.leb_gt. lia.
Qed.

(** Reading a printed number, behind any white space. *)
Lemma get_number_decimal z rest : 0 <= z < 2 ^ 32 -> match rest with [] => True | c :: _ => isdigit c = false end ->
  get_number (decimal z ++ rest) = Some (false, z, rest) /\ get_number (32 :: decimal z ++ rest) = Some (false, z, rest).
Proof.
  intros Hz Hr. destruct (decimal_spec z Hz) as (H1 & H2 & H3).
  assert (get_number (decimal z ++ rest) = Some (false, z, rest)) as E; [|split; [done|]; unfold get_number in *; done].
  pose proof (span_app isdigit (decimal z) rest H2 Hr) as Es. unfold get_number.
  destruct (decimal z) as [|c ds] eqn:Ed; [done|]. apply Forall_cons in H2 as [Hc H2].
  destruct (digit_not_space c Hc) as (Hsp & Hm & Hp & _). cbn [app ltrim] in *. rewrite Hsp.
  assert ((match c :: ds ++ rest with 45 :: s' => (true, s') | 43 :: s' => (false, s') | _ => (false, c :: ds ++ rest) end) = (false, c :: ds ++ rest)) as ->.
  { repeat (case_match; try done); congruence. }
  rewrite Es. by rewrite H3.
Qed.

Lemma get_int32_decimal z rest : 0 <= z < 2 ^ 31 -> match rest with [] => True | c :: _ => isdigit c = false end ->
  get_int32 (decimal z ++ rest) = Some (z, rest).
Proof.
  intros Hz Hr. unfold get_int32. rewrite (proj1 (get_number_decimal z rest ltac:(lia) Hr)).
  rewrite (proj2 (Z.leb_le _ _)), (proj2 (Z.ltb_lt _ _)) by lia. done.
Qed.

Lemma get_uint16_decimal z rest : in_u 16 z -> match rest with [] => True | c :: _ => isdigit c = false end ->
  get_uint16 (32 :: decimal z ++ rest) = Some (z, rest).
Proof.
  intros Hz Hr. unfold in_u in Hz. unfold get_uint16. rewrite (proj2 (get_number_decimal z rest ltac:(lia) Hr)).
  by rewrite (proj2 (Z.ltb_lt _ _)) by lia.
Qed.

Lemma get_word_space a rest : word a -> get_word (32 :: a ++ 32 :: rest) = Some (a, 32 :: rest).
Proof.
  intros [Hne Ha]. unfold get_word. change (ltrim (32 :: a ++ 32 :: rest)) with (ltrim (a ++ 32 :: rest)).
  assert (ltrim (a ++ 32 :: rest) = a ++ 32 :: rest) as ->.
  { destruct Ha as [|c a Hc _]; [done|]. simpl. by rewrite Hc. }
  rewrite span_app; [by destruct a| |done]. eapply Forall_impl; [exact Ha|]. simpl. by intros c ->.
Qed.

Definition server_line (s : RfServer) : list Z :=
  decimal (id s) ++ 32 :: addr s ++ 32 :: decimal (portForServer s) ++ 32 :: decimal (portForClient s).

Lemma parse_print s : server_ok s -> parse_server (server_line s) = Some (id s, addr s, portForServer s, portForClient s).
Proof.
  intros [H1 H2 H3 H4]. unfold parse_server, server_line. rewrite get_int32_decimal by (done || lia).
  rewrite get_word_space by done. rewrite get_uint16_decimal by done.
  rewrite <- (app_nil_r (decimal (portForClient s))). by rewrite get_uint16_decimal.
Qed.

Lemma line_starts s : server_ok s -> exists c r, server_line s = c :: r /\ isdigit c = true.
Proof.
  intros [H1 _ _ _]. destruct (decimal_spec (id s) ltac:(lia)) as (Hne & Hd & _). unfold server_line.
  destruct (decimal (id s)) as [|c r]; [done|]. inversion_clear Hd. simpl. by eexists _, _.
Qed.

(** A server that is not known yet is entered, as itself or among the others. *)
Definition enter (myId : Z) (c : RfServerConfiguration) (s : RfServer) : RfServerConfiguration :=
  if Z.eqb (id s) myId then mkConf s (m_mapOtherServers c)
  else mkConf (m_selfServer c) (<[id s := s]> (m_mapOtherServers c)).

Lemma add_line_print myId c s : server_ok s -> id (m_selfServer c) <> id s -> m_mapOtherServers c !! id s = None ->
  add_line myId c (server_line s) = Ret (enter myId c s, true).
Proof.
  intros Hs Hself Hoth. destruct (line_starts s Hs) as (ch & r & El & Hd). pose proof (parse_print s Hs) as Hp.
  destruct (digit_not_space ch Hd) as (Hsp & _ & _ & Hh & _). unfold add_line. rewrite El in *.
  cbn [ltrim]. rewrite Hsp, (proj2 (Z.eqb_neq _ _) Hh), Hp. destruct Hs as [H1 _ _ _].
  rewrite (proj2 (Z.leb_gt _ _)) by lia. rewrite u32_id by (unfold in_u; lia).
  unfold enter. destruct (Z.eqb (id s) myId); [|by rewrite Hoth; destruct s].
  rewrite (proj2 (Z.eqb_neq _ _) Hself). by destruct s.
Qed.

Lemma getlines_line a s : (10 ∉ a) -> getlines (a ++ 10 :: s) = a :: getlines s.
Proof.
  induction a as [|c a IH]; intros Ha; [done|]. cbn [app getlines]. rewrite IH by set_solver.
  by rewrite (proj2 (Z.eqb_neq _ _)) by set_solver.
Qed.

Lemma line_no_newline s : server_ok s -> 10 ∉ server_line s.
Proof.
  intros [H1 [_ H2] H3 H4]. unfold in_u in *. unfold server_line.
  assert (forall z, 0 <= z < 2 ^ 32 -> 10 ∉ decimal z) as Hd.
  { intros z Hz Hin. destruct (decimal_spec z Hz) as (_ & Hf & _). rewrite Forall_forall in Hf. by specialize (Hf _ Hin). }
  repeat match goal with
  | |- _ ∉ _ ++ _ => apply not_elem_of_app; split
  | |- _ ∉ _ :: _ => apply not_elem_of_cons; split
  end; try (apply Hd; lia); try lia.
  intros Hin. rewrite Forall_forall in H2. by specialize (H2 _ Hin).
Qed.

Lemma print_line s : print_server s = server_line s ++ [10].
Proof. unfold print_server, server_line. cbn [app]. repeat (rewrite <- (assoc (++)); cbn [app]). done. Qed.

Lemma getlines_servers ss : Forall server_ok ss -> getlines (ss ≫= print_server) = server_line <$> ss.
Proof.
  induction 1 as [|s ss Hs _ IH]; [done|]. cbn [mbind list_bind]. rewrite fmap_cons, <- IH.
  rewrite <- (getlines_line (server_line s)) by by apply line_no_newline.
  f_equal. by rewrite print_line, <- (assoc (++)).
Qed.

(** The configuration the file of [ss] describes for the node [myId]. *)
Definition conf_of (myId : Z) (ss : list RfServer) : RfServerConfiguration := foldl (enter myId) Configuration_new ss.

Lemma enter_keeps myId c s : 
  id (m_selfServer (enter myId c s)) = (if Z.eqb (id s) myId then id s else id (m_selfServer c)) /\
  (forall i, i <> id s -> m_mapOtherServers (enter myId c s) !! i = m_mapOtherServers c !! i).
Proof.
  unfold enter. destruct (Z.eqb_spec (id s) myId); simpl; split; try done. intros i Hi. by rewrite lookup_insert_ne.
Qed.

Lemma add_lines_print myId c ss : Forall server_ok ss -> NoDup (id <$> ss) ->
  Forall (fun s => id (m_selfServer c) <> id s /\ m_mapOtherServers c !! id s = None) ss ->
  add_lines myId c (server_line <$> ss) = Ret (foldl (enter myId) c ss, true).
Proof.
  revert c. induction ss as [|s ss IH]; intros c Hok Hnd Hnew; [done|].
  apply Forall_cons in Hok as [Hs Hok]. apply NoDup_cons in Hnd as [Hni Hnd]. apply Forall_cons in Hnew as [[Hn1 Hn2] Hnew].
  cbn [fmap list_fmap add_lines foldl]. rewrite add_line_print by done. cbn [obind]. apply IH; [done|done|].
  rewrite Forall_forall in *. intros s' Hs'. destruct (Hnew s' Hs') as [H1 H2]. destruct (enter_keeps myId c s) as [E1 E2].
  assert (id s' <> id s). { intros E. apply Hni. rewrite <- E. apply list_elem_of_fmap. by exists s'. }
  split; [|by rewrite E2]. rewrite E1. destruct (Z.eqb (id s) myId); congruence.
Qed.

(** What [conf_of] is: the node's own line, and the others by their id. *)
Lemma conf_of_spec myId ss : NoDup (id <$> ss) ->
  (forall s, s ∈ ss -> id s = myId -> m_selfServer (conf_of myId ss) = s) /\
  (forall i s, m_mapOtherServers (conf_of myId ss) !! i = Some s <-> s ∈ ss /\ id s = i /\ i <> myId).
Proof.
  unfold conf_of. induction ss as [|s ss IH] using rev_ind; intros Hnd.
  - split; [by intros s Hs%not_elem_of_nil|]. intros i s. simpl. rewrite lookup_empty. split; [done|]. by intros [?%not_elem_of_nil _].
  - rewrite fmap_app in Hnd. apply NoDup_app in Hnd as (Hnd & Hdis & _). destruct (IH Hnd) as [IH1 IH2].
    rewrite foldl_app. cbn [foldl]. set (c := foldl (enter myId) Configuration_new ss) in *. unfold enter.
    assert (forall s', s' ∈ ss -> id s' <> id s) as Hne.
    { intros s' Hs' E. apply (Hdis (id s')); [apply list_elem_of_fmap; by exists s'|]. rewrite E. set_solver. }
    destruct (Z.eqb_spec (id s) myId) as [E|E]; simpl; split.
    + intros s' [Hs'| ->%list_elem_of_singleton]%elem_of_app Ei; [|done]. specialize (Hne s' Hs'). congruence.
    + intros i s'. rewrite IH2. set_solver.
    + intros s' [Hs'| ->%list_elem_of_singleton]%elem_of_app Ei; [by apply IH1|done].
    + intros i s'. rewrite lookup_insert_Some, IH2. split.
      * intros [[<- <-]|(Hi & Hs' & Ei & Hm)]; set_solver.
      * intros ([Hs'| ->%list_elem_of_singleton]%elem_of_app & <- & Hm); [right; split; [|done]; by apply not_eq_sym, Hne|by left].
Qed.

(** C32.  The configuration file round-trips: for servers with distinct positive ids,
    addresses without white space and 16-bit ports, reading the file that
    lists them succeeds, with the node's own entry as its own server and
    exactly the other entries, by id, as the other servers. *)
Theorem conf_roundtrip (myId : Z) (ss : list RfServer) : Forall server_ok ss -> NoDup (id <$> ss) ->
  exists c, Initialize myId (Some (ss ≫= print_server)) Configuration_new = Ret (c, true) /\
    (forall s, s ∈ ss -> id s = myId -> m_selfServer c = s) /\
    (forall i s, m_mapOtherServers c !! i = Some s <-> s ∈ ss /\ id s = i /\ i <> myId).
Proof.
  intros Hok Hnd. exists (conf_of myId ss). split; [|by apply conf_of_spec].
  unfold Initialize. rewrite getlines_servers by done. apply add_lines_print; [done|done|].
  eapply Forall_impl; [exact Hok|]. intros s [Hs _ _ _]. simpl. split; [lia|apply lookup_empty].
Qed.

(** ** A concrete file *)

Definition servers0 : list RfServer := [mkServer 1 [104; 49] 9920 9921; mkServer 12 [104; 50] 9922 65535].

Lemma servers0_ok : Forall server_ok servers0.
Proof. repeat constructor; simpl; try lia; try discriminate. Qed.

Lemma conf_roundtrip_witness : exists c, Initialize 12 (Some (servers0 ≫= print_server)) Configuration_new = Ret (c, true) /\
    (forall s, s ∈ servers0 -> id s = 12 -> m_selfServer c = s) /\
    (forall i s, m_mapOtherServers c !! i = Some s <-> s ∈ servers0 /\ id s = i /\ i <> 12).
Proof. apply (conf_roundtrip 12 servers0); [exact servers0_ok|]. apply (bool_decide_unpack _). vm_compute. exact I. Defined.

(** Comment lines and blank lines are skipped, a second line for an id stops the process. *)
Example conf_comments : Initialize 1 (Some (string_bytes "# servers" ++ [10; 32; 10] ++ (servers0 ≫= print_server))) Configuration_new =
  Ret (conf_of 1 servers0, true).
Proof. vm_compute. reflexivity. Qed.
Example conf_duplicate : exists why, Initialize 1 (Some ((servers0 ++ servers0) ≫= print_server)) Configuration_new = Abort why.
Proof. eexists. vm_compute. reflexivity. Qed.
