(* ===== verification/Node.v ===== *)
(** * Node: the services of a raft node

    Models src/src/server/node/raft-state-machine.{h,cc} (Module
    [StateMachine]), src/src/server/node/raft-consensus.{h,cc} (Module
    [Consensus]) and src/src/server/node/service-manager.{h,cc} with
    client-rpc-service.cc (Module [Services]). *)

From S2P Require Import Prelude Codec PoolApi Buffer Message FsIo FileUtils RaftLog Timer ServerConf.

(** ** The key-value state machine *)
Module StateMachine.

Record StateMachineCommand := mkCommand { key : string; value : string }.

Record RfStateMachine := mkSM { m_bStopped : bool; m_mapKVs : gmap string string }.

Definition RfStateMachine_new : RfStateMachine := mkSM false ∅.

Definition Start (s : RfStateMachine) : RfStateMachine * bool :=
  if negb (m_bStopped s) then (s, true) else (mkSM false (m_mapKVs s), true).
Definition Stop (s : RfStateMachine) : RfStateMachine * bool :=
  if m_bStopped s then (s, true) else (mkSM true (m_mapKVs s), true).

Definition Apply (s : RfStateMachine) (commands : list StateMachineCommand) : RfStateMachine :=
  mkSM (m_bStopped s) (foldl (fun m c => <[key c := value c]> m) (m_mapKVs s) commands).

(** [m_mapKVs\[key\]] enters an empty value for a key that is not there. *)
Definition GetValue (s : RfStateMachine) (k : string) : RfStateMachine * string :=
  match m_mapKVs s !! k with
  | Some v => (s, v)
  | None => (mkSM (m_bStopped s) (<[k := EmptyString]> (m_mapKVs s)), EmptyString)
  end.

(** The value of the last command for [k], if there is one. *)
Fixpoint last_value (commands : list StateMachineCommand) (k : string) : option string :=
  match commands with
  | [] => None
  | c :: cs => match last_value cs k with Some v => Some v | None => if decide (key c = k) then Some (value c) else None end
  end.

Lemma apply_lookup commands (m : gmap string string) k :
  foldl (fun m c => <[key c := value c]> m) m commands !! k =
  match last_value commands k with Some v => Some v | None => m !! k end.
Proof.
  revert m. induction commands as [|c cs IH]; intros m; simpl; [done|]. rewrite IH.
  destruct (last_value cs k); [done|]. destruct (decide (key c = k)) as [->|]; [by rewrite lookup_insert_eq|by rewrite lookup_insert_ne].
Qed.

(** The state machine is a last-write-wins map: after a log of commands a read
    returns the value of the last command for its key, and the empty string
    for a key no command wrote; a read does not change what any key reads
    as, and applying a log in two parts is applying it at once. *)
Theorem state_machine_last_write (s : RfStateMachine) (cs cs' : list StateMachineCommand) (k : string) :
  snd (GetValue (Apply s cs) k) =
    match last_value cs k with Some v => v | None => snd (GetValue s k) end /\
  (forall k', snd (GetValue (fst (GetValue s k)) k') = snd (GetValue s k')) /\
  Apply (Apply s cs) cs' = Apply s (cs ++ cs').
Proof.
  split; [|split].
  - unfold GetValue, Apply. simpl. rewrite apply_lookup. destruct (last_value cs k); [done|].
    by destruct (m_mapKVs s !! k).
  - intros k'. unfold GetValue. destruct (m_mapKVs s !! k) eqn:E; [done|]. simpl.
    destruct (decide (k = k')) as [<-|]; [by rewrite lookup_insert_eq, E|]. rewrite lookup_insert_ne by done.
    by destruct (m_mapKVs s !! k').
  - unfold Apply. simpl. by rewrite foldl_app.
Qed.

End StateMachine.

(** ** Bringing the services up *)
Module Services.

Inductive ServiceType := ElectorManager | ClientRpc | RaftConsensus | RaftStateMachine.
#[export] Instance ServiceType_eq_dec : EqDecision ServiceType.
Proof. solve_decision. Defined.

Definition SERVICES_TYPES : list ServiceType := [ElectorManager; ClientRpc; RaftConsensus; RaftStateMachine].

(** The value of the enumerator, the order of the keys in [s_mapServices]. *)
Definition code (st : ServiceType) : Z :=
  match st with ElectorManager => 0 | ClientRpc => 1 | RaftConsensus => 2 | RaftStateMachine => 3 end.

(** The class of a service object. *)
Inductive Service := AnElectorManager | AClientRpc | ARaftConsensus | AStateMachine.

(** [std::map], in ascending order of its keys. *)
Fixpoint map_set (m : list (ServiceType * Service)) (st : ServiceType) (s : Service) : list (ServiceType * Service) :=
  match m with
  | [] => [(st, s)]
  | (st', s') :: m' =>
      if decide (st = st') then (st, s) :: m'
      else if Z.ltb (code st) (code st') then (st, s) :: m else (st', s') :: map_set m' st s
  end.

Section boot.
(** [new C()] and [Start()] of each class. *)
Context (construct : Service -> outcome unit).
Context (start : Service -> outcome bool).

(** The [switch] of [create_services]; the first case has no [break]. *)
Definition create_service (m : list (ServiceType * Service)) (st : ServiceType) : outcome (list (ServiceType * Service)) :=
  let* m := match st with
            | ElectorManager => let* _ := construct AnElectorManager in Ret (map_set m st AnElectorManager)
            | _ => Ret m
            end in
  match st with
  | ElectorManager | ClientRpc => let* _ := construct AClientRpc in Ret (map_set m st AClientRpc)
  | RaftConsensus => let* _ := construct ARaftConsensus in Ret (map_set m st ARaftConsensus)
  | RaftStateMachine => let* _ := construct AStateMachine in Ret (map_set m st AStateMachine)
  end.

Fixpoint create_services (m : list (ServiceType * Service)) (sts : list ServiceType) : outcome (list (ServiceType * Service)) :=
  match sts with
  | [] => Ret m
  | st :: sts => let* m := create_service m st in create_services m sts
  end.

Fixpoint start_services (m : list (ServiceType * Service)) : outcome bool :=
  match m with
  | [] => Ret true
  | (_, s) :: m => let* ok := start s in if ok then start_services m else Ret false
  end.

(** [ServiceBootstrap::Run], on the map and the flag [s_bServsBooted]. *)
Definition Run (m : list (ServiceType * Service)) (booted : bool) : outcome (list (ServiceType * Service) * bool) :=
  if booted then Ret (m, true)
  else
    let* m := create_services m SERVICES_TYPES in
    let* ok := start_services m in
    if ok then Ret (m, true) else Throw "Cannot start services!".

End boot.

(** [ClientRpcService::Start]. *)
Definition ClientRpc_Start : outcome bool := Ret false.
Definition ClientRpc_Stop : outcome bool := Ret false.

Fixpoint GetService (m : list (ServiceType * Service)) (st : ServiceType) : option Service :=
  match m with
  | [] => None
  | (st', s) :: m => if decide (st' = st) then Some s else GetService m st
  end.

(** [ServiceDestroyer::Run] stops every service twice: in the [for_each], then in the loop. *)
Fixpoint stop_all (stop : Service -> outcome bool) (m : list (ServiceType * Service)) : outcome unit :=
  match m with
  | [] => Ret tt
  | (_, s) :: m => let* _ := stop s in stop_all stop m
  end.
Definition Destroyer_Run (stop : Service -> outcome bool) (m : list (ServiceType * Service)) : outcome bool :=
  let* _ := stop_all stop m in
  let* _ := stop_all stop m in
  Ret true.

(** The services never come up: whatever the other services do, [Run] throws.
    The missing [break] leaves a [ClientRpcService] under the key of the
    elector manager, it is the first to be started, and its [Start] returns
    false. *)
Theorem services_never_boot (construct : Service -> outcome unit) (start : Service -> outcome bool) :
  (forall s, construct s = Ret tt) -> start AClientRpc = ClientRpc_Start ->
  Run construct start [] false = Throw "Cannot start services!" /\
  exists m, create_services construct [] SERVICES_TYPES = Ret m /\ GetService m ElectorManager = Some AClientRpc.
Proof.
  intros Hc Hs. unfold Run. simpl. unfold create_service. rewrite !Hc. simpl. rewrite Hs. simpl. split; [done|]. by eexists.
Qed.

Lemma services_never_boot_witness :
  Run (fun _ => Ret tt) (fun s => match s with AClientRpc => Ret false | _ => Ret true end) [] false = Throw "Cannot start services!" /\
  exists m, create_services (fun _ => Ret tt) [] SERVICES_TYPES = Ret m /\ GetService m ElectorManager = Some AClientRpc.
Proof.
  apply (services_never_boot (fun _ => Ret tt) (fun s => match s with AClientRpc => Ret false | _ => Ret true end)); reflexivity.
Defined.

End Services.

(** ** The consensus module *)
Module Consensus.

Definition RFSTATE_MAGIC_NO : Z := 0x72667374.
Definition RFSTATE_MAGIC_NO_LEN : Z := 4.

Inductive NodeRoleType := Leader | Candidate | Follower.

(** The messages of codegen/raft-state.pb.h and codegen/node-raft.pb.h. *)
Record RaftState := mkRaftState { currentTerm : Z; votedFor : Z }.
Record RequestVoteRequest := mkRVReq { rv_term : Z; candidateId : Z; lastLogIndex : Z; lastLogTerm : Z }.
Record RequestVoteResponse := mkRVResp { rvr_term : Z; voteGranted : bool }.
Record AppendEntriesResponse := mkAEResp { ae_term : Z; success : bool }.

(** [ParseFromArray] leaves the message in some state also when it fails. *)
Class StateProto := {
  state_bytes : RaftState -> list Z;
  state_parse : list Z -> RaftState
}.

(** The command-line flags the module reads. *)
Record flags := mkFlags {
  raft_election_interval : Z;
  request_vote_timeout : Z;
  rand_latency_low : Z;
  rand_latency_high : Z
}.

(** [outbox]: the requests handed to [ServerRpcService::RequestVoteAsync], with
    the address and port of the peer; [m_pElectorManager] is the configuration
    it holds. *)
Record RaftConsensus := mkRC {
  m_bStopped : bool;
  m_roleType : NodeRoleType;
  m_iCurrentTerm : Z;
  m_iMyId : Z;
  m_iVoteFor : Z;
  m_pRfLogger : RtDiskRfLogger;
  m_iRfStateFd : file;
  m_pTimer : Timer;
  m_random : Range;
  m_iRequestVoteTimeoutInterval : Z;
  m_sentMsgsId : gset Z;
  m_pElectorManager : RfServerConfiguration;
  outbox : list (RequestVoteRequest * (list Z * Z))
}.

(** The flags as they are defined; the timeout is [uint32_t(30 * 0.8)]. *)
Definition default_flags : flags := mkFlags 30 24 200 500.

(** The addresses of the two callback members. *)
Record callbacks := mkCallbacks { leader_hb_cb : Z; rv_timeout_cb : Z }.

Section consensus.
Context `{A : MemPoolApi} `{U : ByteOrderUtils} `{P : StateProto}.

(** *** Persistence *)

(** The part of [initialize] on the state file: [disk] is the file if it exists,
    [nb] the address [new char\[\]] returns in [ReadFully_V2]. *)
Definition load_state (o : os) (script : list io_result) (nb : Z) (w : world A) (disk : option (list Z))
    : outcome (world A * file * Z * Z) :=
  match disk with
  | None =>
      fatal_unless (os_open o) "create rfstate file failed" (
      let* hdr := WriteUInt32 (touch ∅ 1 4) 1 RFSTATE_MAGIC_NO in
      let* bs := peek_bytes hdr 1 4 in
      let* fd := WriteFileFullyWithFatalLOG (os_write o) (mkFile [] 0) bs in
      Ret (w, fd, 0, 0))
  | Some bytes =>
      fatal_unless (os_open o) "open rfstate file failed" (
      fatal_unless (os_stat o) "get file size failed" (
      let fileSize := Z.of_nat (length bytes) in
      let fd := mkFile bytes 0 in
      if Z.eqb (u32 fileSize) 0 then Ret (w, fd, 0, 0)
      else if Z.ltb fileSize RFSTATE_MAGIC_NO_LEN then Abort "rfstate header is corrupt"
      else match ReadFully_V2 script (Some fd) (length bytes) with
      | (_, None) => Abort "read file failed"
      | (_, Some content) =>
          let w := mkWorld (fill (w_mem w) nb content) (w_pool w) ({[nb]} ∪ w_arrays w) in
          let* magicNo := ReadUInt32 (w_mem w) nb in
          fatal_unless (Z.eqb RFSTATE_MAGIC_NO magicNo) "rfstate header is corrupt" (
          let startPtr := nb + RFSTATE_MAGIC_NO_LEN in
          let endPtr := nb + fileSize - 1 in
          let* (w, b) := Refresh w null_buffer startPtr endPtr startPtr endPtr None in
          let* bs := peek_bytes (w_mem w) (m_pPos b) (Z.to_nat (AvailableLength b)) in
          let rs := state_parse bs in
          let* (w, _) := Buffer_Put w b in
          let* w := delete_arr w nb in
          Ret (w, fd, currentTerm rs, votedFor rs))
      end))
  end.

(** [save_rf_state]; [size] is [Size()] of the pool object. *)
Definition save_rf_state (o : os) (size : Z) (w : world A) (c : RaftConsensus) : outcome (world A * file) :=
  let rs := mkRaftState (m_iCurrentTerm c) (m_iVoteFor c) in
  let len := Z.of_nat (length (state_bytes rs)) in
  let* (w, k, start) := mp_get w len in
  let* m := poke_bytes (w_mem w) start (state_bytes rs) in
  let* (w, b) := Refresh (set_mem w m) null_buffer start (start + len - 1) start (start + size - 1) (Some k) in
  fatal_unless (os_lseek o) "lseek file failed" (
  let fd := mkFile (f_bytes (m_iRfStateFd c)) (Z.to_nat RFSTATE_MAGIC_NO_LEN) in
  let* bs := peek_bytes (w_mem w) (m_pStart b) (Z.to_nat (AvailableLength b)) in
  let* fd := WriteFileFullyWithFatalLOG (os_write o) fd bs in
  fatal_unless (os_fsync o) "fdatasync file failed" (
  let* (w, _) := Buffer_Put w b in
  Ret (w, fd))).

(** *** Election *)

Definition prepare_new_election_env (c : RaftConsensus) : RaftConsensus :=
  mkRC (m_bStopped c) Candidate (u32 (m_iCurrentTerm c + 1)) (m_iMyId c) (m_iMyId c) (m_pRfLogger c) (m_iRfStateFd c)
    (m_pTimer c) (m_random c) (m_iRequestVoteTimeoutInterval c) ∅ (m_pElectorManager c) (outbox c).

Definition set_fd (c : RaftConsensus) (fd : file) : RaftConsensus :=
  mkRC (m_bStopped c) (m_roleType c) (m_iCurrentTerm c) (m_iMyId c) (m_iVoteFor c) (m_pRfLogger c) fd
    (m_pTimer c) (m_random c) (m_iRequestVoteTimeoutInterval c) (m_sentMsgsId c) (m_pElectorManager c) (outbox c).
Definition set_timer (c : RaftConsensus) (t : Timer) : RaftConsensus :=
  mkRC (m_bStopped c) (m_roleType c) (m_iCurrentTerm c) (m_iMyId c) (m_iVoteFor c) (m_pRfLogger c) (m_iRfStateFd c)
    t (m_random c) (m_iRequestVoteTimeoutInterval c) (m_sentMsgsId c) (m_pElectorManager c) (outbox c).
Definition set_sent (c : RaftConsensus) (s : gset Z) : RaftConsensus :=
  mkRC (m_bStopped c) (m_roleType c) (m_iCurrentTerm c) (m_iMyId c) (m_iVoteFor c) (m_pRfLogger c) (m_iRfStateFd c)
    (m_pTimer c) (m_random c) (m_iRequestVoteTimeoutInterval c) s (m_pElectorManager c) (outbox c).
Definition set_outbox (c : RaftConsensus) (out : list (RequestVoteRequest * (list Z * Z))) : RaftConsensus :=
  mkRC (m_bStopped c) (m_roleType c) (m_iCurrentTerm c) (m_iMyId c) (m_iVoteFor c) (m_pRfLogger c) (m_iRfStateFd c)
    (m_pTimer c) (m_random c) (m_iRequestVoteTimeoutInterval c) (m_sentMsgsId c) (m_pElectorManager c) out.

(** The iteration over the other servers, in the order [others] of their ids. *)
Definition broadcast_request_vote (c : RaftConsensus) (others : list RfServer) : outcome RaftConsensus :=
  let* last := GetLastEntry (m_pRfLogger c) in
  match last with
  | None => Undef "term() of a null entry"
  | Some e =>
      let pq := mkRVReq (m_iCurrentTerm c) (m_iMyId c) (index e) (term e) in
      Ret (set_outbox c (outbox c ++ ((fun s => (pq, (ServerConf.addr s, portForServer s))) <$> others)))
  end.

(** [0 == id.when] is fatal: the event was refused. *)
Definition subscribe (c : RaftConsensus) (now interval : cctime) (cb : Z) : outcome RaftConsensus :=
  let* (t, id) := SubscribeEventAfter now (m_pTimer c) interval (mkEvent 0 cb) in
  let* zero := cctime_eq_tick 0 (when id) in
  fatal_unless (negb zero) "timer event is replicated!" (Ret (set_timer c t)).

(** The interval of the heartbeat timer; the latency is multiplied as an
    [int32_t], which overflows from 2148 milliseconds on. *)
Definition hb_interval (f : flags) (rand : Z) (c : RaftConsensus) : outcome cctime :=
  let latency := GetNew (m_random c) rand in
  let* ns := checked 32 (latency * 1000) in
  let* ns := checked 32 (ns * 1000) in
  Ret (mkTime (raft_election_interval f) ns).

Definition subscribe_leader_hb_timer_tick (f : flags) (cbs : callbacks) (now : cctime) (rand : Z) (c : RaftConsensus) : outcome RaftConsensus :=
  let* interval := hb_interval f rand c in
  subscribe c now interval (leader_hb_cb cbs).

Definition subscribe_request_vote_timeout_tick (cbs : callbacks) (now : cctime) (c : RaftConsensus) : outcome RaftConsensus :=
  subscribe c now (mkTime (m_iRequestVoteTimeoutInterval c) 0) (rv_timeout_cb cbs).

(** [start_new_election], called by [on_leader_hb_timeout]. *)
Definition start_new_election (o : os) (size : Z) (f : flags) (cbs : callbacks) (now : cctime) (rand : Z) (others : list RfServer)
    (w : world A) (c : RaftConsensus) : outcome (world A * RaftConsensus) :=
  let c := prepare_new_election_env c in
  let* (w, fd) := save_rf_state o size w c in
  let c := set_fd c fd in
  let* c := broadcast_request_vote c others in
  let* c := subscribe_leader_hb_timer_tick f cbs now rand c in
  let* c := subscribe_request_vote_timeout_tick cbs now c in
  Ret (w, c).

(** The two callbacks of the timer. *)
Definition on_leader_hb_timeout := start_new_election.
Definition on_request_vote_timeout (c : RaftConsensus) : RaftConsensus := c.

(** *** Rpc handlers *)

Definition OnAppendEntries (c : RaftConsensus) : AppendEntriesResponse := mkAEResp 1111 true.
Definition OnRequestVote (c : RaftConsensus) (req : RequestVoteRequest) : RequestVoteResponse := mkRVResp 1111 true.

(** The answers of the peers are not looked at. *)
Definition OnRecvRpcReturnResult (c : RaftConsensus) : RaftConsensus := c.
Definition OnRecvRequestVoteRetRes (c : RaftConsensus) (resp : RequestVoteResponse) : RaftConsensus := c.
Definition OnRecvAppendEntriesRetRes (c : RaftConsensus) (resp : AppendEntriesResponse) : RaftConsensus := c.

(** The id is entered also when it is [INVALID_MSG_ID]. *)
Definition OnMessageSent (c : RaftConsensus) (msgId : Z) : RaftConsensus := set_sent c ({[msgId]} ∪ m_sentMsgsId c).

(** [is_valid_msg_id] on a received message with id [mid] and data buffer [b]. *)
Definition is_valid_msg_id (c : RaftConsensus) (m : mem) (mid : Z) (b : Buffer) : outcome (Buffer * bool) :=
  let nrt := m_roleType c in
  let* rpcCode := ReadUInt16 m (m_pPos b) in
  if negb (Z.eqb rpcCode (rpc_code OK)) then Ret (b, false)
  else
    let b := MoveHeadBack b 2 in
    match nrt with
    | Leader | Candidate => Ret (b, bool_decide (mid ∈ m_sentMsgsId c))
    | Follower => Ret (b, false)
    end.

(** *** Life cycle *)

(** The flags of the data directory and the kind of logger. *)
Record store_flags := mkStoreFlags { data_dir : list Z; rflogger_type : list Z }.

Definition RFLOG_DIR : list Z := string_bytes "rflogs".
Definition RFLOG_FILE_NAME : list Z := string_bytes "rflog".
Definition RFSTATE_FILE_NAME : list Z := string_bytes "rfstate".

Definition dataDirPath (sf : store_flags) : list Z := data_dir sf ++ [SLASH] ++ RFLOG_DIR.

(** What a file holds that is opened if it exists. *)
Definition disk_file (f : fs) (p : list Z) : outcome (option (list Z)) :=
  match stat f p with
  | None => Ret None
  | Some (KFile bytes) => Ret (Some bytes)
  | Some _ => Abort "open of a directory failed"
  end.

(** [initialize]: without [NDEBUG] the directory is made inside [assert];
    [refuse] and [readable] are those of [CreateDirPath], [fuel] bounds the
    loading of the log. *)
Definition Consensus_initialize (ndebug : bool) (refuse : path -> option Z) (readable : Z) (sf : store_flags) (fuel : nat) (o : os)
    (script : list io_result) (nb : Z) `{EntryProto} (f : fs) (w : world A) : outcome (fs * world A * RtDiskRfLogger * file * Z * Z) :=
  let* (f, r) := if ndebug then Ret (f, 0) else CreateDirPath refuse readable f (dataDirPath sf) in
  fatal_unless (negb (Z.eqb (-1) r)) "assert(-1 != CreateDirPath)" (
  let* log := disk_file f (dataDirPath sf ++ [SLASH] ++ RFLOG_FILE_NAME) in
  let* (w, l) := if decide (string_bytes "realtime-disk" = rflogger_type sf) then RaftLog.initialize fuel o w log true
                 else Abort "We don't have a rf logger named" in
  let* state := disk_file f (dataDirPath sf ++ [SLASH] ++ RFSTATE_FILE_NAME) in
  let* (w, fd, t, v) := load_state o script nb w state in
  Ret (f, w, l, fd, t, v)).

(** The constructor. *)
Definition RaftConsensus_new (f : flags) (ndebug : bool) (refuse : path -> option Z) (readable : Z) (sf : store_flags) (fuel : nat) (o : os)
    (script : list io_result) (nb : Z) `{EntryProto} (disk : fs) (w : world A) : outcome (fs * world A * RaftConsensus) :=
  let* r := Range_new (rand_latency_low f) (rand_latency_high f) in
  let* (disk, w, l, fd, t, v) := Consensus_initialize ndebug refuse readable sf fuel o script nb disk w in
  Ret (disk, w, mkRC true Follower t 0 v l fd Timer_new r (request_vote_timeout f) ∅ Configuration_new []).

(** The destructor, with an open state file: the timer goes first. *)
Definition RaftConsensus_delete (c : RaftConsensus) : outcome unit := let* _ := Timer_delete (m_pTimer c) in Ret tt.

(** [Start]: the elector manager's configuration, and what [ServerRpcService::Start] returns. *)
Definition Consensus_Start (conf : option RfServerConfiguration) (rpc_ok : bool) (f : flags) (cbs : callbacks) (now : cctime) (rand : Z)
    (c : RaftConsensus) : outcome (RaftConsensus * bool) :=
  if negb (m_bStopped c) then Ret (c, true)
  else match conf with
  | None => Abort "assert(m_pElectorManager)"
  | Some cf =>
      let c := mkRC false (m_roleType c) (m_iCurrentTerm c) (ServerConf.id (m_selfServer cf)) (m_iVoteFor c) (m_pRfLogger c) (m_iRfStateFd c)
                 (m_pTimer c) (m_random c) (m_iRequestVoteTimeoutInterval c) (m_sentMsgsId c) cf (outbox c) in
      if negb rpc_ok then Ret (c, false)
      else
        let* t := Timer.Start (m_pTimer c) in
        let* c := subscribe_leader_hb_timer_tick f cbs now rand (set_timer c t) in
        Ret (c, true)
  end.

Definition Consensus_Stop (rpc_ok : bool) (c : RaftConsensus) : outcome (RaftConsensus * bool) :=
  if m_bStopped c then Ret (c, true)
  else
    let* t := Timer.Stop (m_pTimer c) in
    let c := mkRC true (m_roleType c) (m_iCurrentTerm c) (m_iMyId c) (m_iVoteFor c) (m_pRfLogger c) (m_iRfStateFd c)
               t (m_random c) (m_iRequestVoteTimeoutInterval c) (m_sentMsgsId c) (m_pElectorManager c) (outbox c) in
    Ret (c, rpc_ok).

End consensus.

Section properties.
Context `{A : MemPoolApi} `{U : ByteOrderUtils} `{UL : !ByteOrderLaws U} `{P : StateProto}.

(** C36.  The state file after [save_rf_state]: the four bytes of the header, the
    serialised term and vote, and what the old file had beyond them; so a
    file that was not longer holds exactly the new state.  The pool object
    is given back. *)
Theorem saved_state_on_disk (o : os) (size : Z) (w : world A) (c : RaftConsensus) (p p' : pool) (k : positive) (a : Z) :
  let bs := state_bytes (mkRaftState (m_iCurrentTerm c) (m_iVoteFor c)) in
  let n := Z.of_nat (length bs) in
  let old := f_bytes (m_iRfStateFd c) in
  os_ok o -> is_bytes bs -> 0 < n < 2 ^ 31 -> (4 <= length old)%nat ->
  pool_get (w_pool w) n = Ret (p, Some k) -> Pointer p k = Ret a -> 0 < a -> 0 < size -> pool_put p (Some k) = Ret p' ->
  exists w' fd, save_rf_state o size w c = Ret (w', fd) /\ w_pool w' = p' /\
    f_bytes fd = take 4 old ++ bs ++ drop (4 + length bs) old /\
    ((length old <= 4 + length bs)%nat -> f_bytes fd = take 4 old ++ bs).
Proof.
  intros bs n old (_ & _ & _ & _ & Hw & Hf & Hl) Hb Hn Hold Hg Hp Ha Hsz Hpp. unfold save_rf_state. fold bs. fold n.
  unfold mp_get. rewrite Hg. cbn [obind]. rewrite Hp. cbn [obind w_mem].
  rewrite poke_bytes_fill by (try done; apply touch_range_ok). cbn [obind].
  unfold Refresh, delete_arr. cbn [m_pMpObject null_buffer m_pStart]. rewrite Z.eqb_refl. cbn [obind w_mem set_mem m_pStart check_available].
  unfold fatal_unless. rewrite Hl, Hf.
  assert (AvailableLength (check_available (mkBuffer a (a + n - 1) a (a + size - 1) (Some k) (m_bAvailable null_buffer))) = n) as ->.
  { unfold AvailableLength, check_available. cbn [m_bAvailable m_pStart m_pEnd m_pPos m_pLast]. zeqb. cbn [orb].
    rewrite (proj2 (Z.leb_le _ _)) by lia. cbn [negb]. rewrite i32_small by lia. lia. }
  unfold n. rewrite Nat2Z.id, (peek_bytes_at _ a bs) by apply fill_bytes_at. cbn [obind].
  rewrite write_file_ok; [|done|intros E; unfold n in Hn; rewrite E in Hn; simpl in Hn; lia]. cbn [obind].
  unfold Buffer_Put, Refresh. cbn [m_pMpObject check_available]. unfold mp_put. cbn [w_pool set_mem]. rewrite Hpp. cbn [obind].
  assert (f_bytes (write_some (mkFile (f_bytes (m_iRfStateFd c)) (Z.to_nat RFSTATE_MAGIC_NO_LEN)) bs) = take 4 old ++ bs ++ drop (4 + length bs) old) as E.
  { unfold write_some. rewrite decide_False by (intros E; unfold n in Hn; rewrite E in Hn; simpl in Hn; lia).
    unfold splice. cbn [f_bytes f_off]. change (Z.to_nat RFSTATE_MAGIC_NO_LEN) with 4%nat. fold old.
    replace (4 - length old)%nat with 0%nat by lia. cbn [replicate]. by rewrite app_nil_r. }
  eexists _, _. split; [reflexivity|]. split; [done|]. split; [exact E|].
  intros Hle. rewrite E, (drop_ge old) by lia. by rewrite app_nil_r.
Qed.

(** A node with a saved state cannot restart: for a state file of at least
    four bytes, loading it never returns.  Either a check stops it, or the
    local [Buffer] over the bytes behind the header deletes a pointer into the
    middle of the array that was read. *)
Theorem restart_never_returns (o : os) (script : list io_result) (nb : Z) (w : world A) (bytes : list Z) :
  0 < nb -> 4 <= Z.of_nat (length bytes) < 2 ^ 32 -> (nb + 4 ∉ w_arrays w) ->
  forall r, load_state o script nb w (Some bytes) <> Ret r.
Proof.
  intros Hnb Hsz Harr r. unfold load_state, fatal_unless. destruct (os_open o); [|done]. destruct (os_stat o); [|done]. cbv zeta.
  rewrite u32_id by (unfold in_u; lia). rewrite (proj2 (Z.eqb_neq _ _)), (proj2 (Z.ltb_ge _ _)) by (unfold RFSTATE_MAGIC_NO_LEN; lia).
  destruct (ReadFully_V2 _ _ _) as [? [content|]]; [|done].
  destruct (ReadUInt32 _ _); cbn [obind]; try done. destruct (Z.eqb _ _); [|done].
  unfold Refresh at 1, delete_arr at 1. cbn [m_pMpObject null_buffer m_pStart]. rewrite Z.eqb_refl. cbn [obind].
  destruct (peek_bytes _ _ _); cbn [obind]; try done. unfold Buffer_Put.
  match goal with |- context [Refresh ?w1 ?b1 0 0 0 0 None] => destruct (Refresh w1 b1 0 0 0 0 None) eqn:E end; cbn [obind]; try done.
  exfalso. eapply stray_refresh; [|exact E]. split; [done|]. cbn [m_pStart check_available w_arrays].
  unfold RFSTATE_MAGIC_NO_LEN. split; [lia|]. intros [Hin%elem_of_singleton|Hin]%elem_of_union; [lia|done].
Qed.

Lemma GetLastEntry_none l e : GetLastEntry l <> Ret (Some e).
Proof.
  unfold GetLastEntry. destruct (m_vEntries l) as [|x es] eqn:E; [done|]. rewrite <- E.
  by rewrite lookup_ge_None_2 by lia.
Qed.

(** C39.  No election ever finishes: whatever the log, the servers, the timer and the
    disk, [start_new_election] does not return.  An empty log gives a null
    entry that is dereferenced, any other log an access past the vector. *)
Theorem election_never_returns (o : os) (size : Z) (f : flags) (cbs : callbacks) (now : cctime) (rand : Z) (others : list RfServer)
    (w : world A) (c : RaftConsensus) : forall r, start_new_election o size f cbs now rand others w c <> Ret r.
Proof.
  intros r. unfold start_new_election. destruct (save_rf_state _ _ _ _) as [[w' fd]| | |]; cbn [obind]; try done.
  unfold broadcast_request_vote. destruct (GetLastEntry _) as [[e|]| | |] eqn:E; cbn [obind]; try done.
  by apply GetLastEntry_none in E.
Qed.

(** Which responses a node accepts: after a new election and the sending of
    the messages [ids], a response is accepted exactly when its code is OK
    and its id is among them; the code is consumed from the buffer only if it
    is OK.  A follower accepts none. *)
Theorem response_accepted (c : RaftConsensus) (ids : list Z) (m : mem) (mid rpcCode : Z) (b : Buffer) :
  in_u 16 rpcCode -> bytes_at m (m_pPos b) (be_split 2 rpcCode) ->
  is_valid_msg_id (foldl OnMessageSent (prepare_new_election_env c) ids) m mid b =
    Ret (if Z.eqb rpcCode 0 then MoveHeadBack b 2 else b, Z.eqb rpcCode 0 && bool_decide (mid ∈ ids)) /\
  (m_roleType c = Follower ->
   is_valid_msg_id c m mid b = Ret (if Z.eqb rpcCode 0 then MoveHeadBack b 2 else b, false)).
Proof.
  intros Hc Hb.
  assert (forall ids c', m_roleType c' = Candidate -> m_roleType (foldl OnMessageSent c' ids) = Candidate /\
    (forall i, i ∈ m_sentMsgsId (foldl OnMessageSent c' ids) <-> i ∈ ids \/ i ∈ m_sentMsgsId c')) as Hs.
  { clear. induction ids as [|x ids IH]; intros c' Hr; cbn [foldl]; [set_solver|].
    destruct (IH (OnMessageSent c' x)) as [H1 H2]; [done|]. split; [done|]. intros i. rewrite H2. cbn [OnMessageSent m_sentMsgsId set_sent]. set_solver. }
  destruct (Hs ids (prepare_new_election_env c) eq_refl) as [Hr Hids].
  unfold is_valid_msg_id. rewrite (ReadUInt16_at _ _ rpcCode) by done. cbn [obind rpc_code]. rewrite Hr.
  split; [|intros ->]; destruct (Z.eqb_spec rpcCode 0); cbn [negb andb]; try done.
  f_equal. f_equal. apply bool_decide_ext. rewrite Hids. cbn. set_solver.
Qed.

(** *** The first start of a node *)

Lemma create_state o script nb (w : world A) : os_ok o ->
  load_state o script nb w None = Ret (w, write_some (mkFile [] 0) (be_split 4 RFSTATE_MAGIC_NO), 0, 0).
Proof using UL.
  intros (Ho & _ & _ & _ & Hw & _). unfold load_state, fatal_unless. rewrite Ho.
  rewrite WriteUInt32_fill; [|unfold in_u, RFSTATE_MAGIC_NO; lia|apply touch_range_ok; lia]. cbn [obind].
  rewrite (peek_bytes_at _ _ (be_split 4 RFSTATE_MAGIC_NO)) by apply fill_bytes_at. cbn [obind].
  rewrite write_file_ok; [done|done|discriminate].
Qed.

(** A node that starts for the first time: if the data directory can be made
    and the system does not fail, the constructor makes every level of it,
    creates the log and the state file with their headers, and leaves a
    follower of term 0 that has voted for nobody and has an empty log.  Such
    a node must be started before it is destroyed. *)
Theorem consensus_first_boot `{EntryProto} (refuse : path -> option Z) (readable : Z) (dir : list Z) (fuel : nat) (o : os)
    (script : list io_result) (nb : Z) (f : fs) (w : world A) :
  let sf := mkStoreFlags dir (string_bytes "realtime-disk") in
  let q := components (dataDirPath sf) in
  os_ok o -> PATH_MAX <= readable -> Z.of_nat (length (dataDirPath sf)) <= PATH_MAX ->
  (forall r, r `prefix_of` q -> refuse r = None) -> (forall r k, r `prefix_of` q -> f !! r = Some k -> k = KDir) ->
  (forall n, f !! (q ++ [n]) = None) ->
  exists f' l fd, RaftConsensus_new default_flags false refuse readable sf fuel o script nb f w =
      Ret (f', w, mkRC true Follower 0 0 0 l fd Timer_new (mkRange 200 500) 24 ∅ Configuration_new []) /\
    dirs f' q /\ m_vEntries l = [] /\ f_bytes (m_iFd l) = be_split 4 RFLOG_MAGIC_NO /\ f_bytes fd = be_split 4 RFSTATE_MAGIC_NO /\
    RaftConsensus_delete (mkRC true Follower 0 0 0 l fd Timer_new (mkRange 200 500) 24 ∅ Configuration_new []) = Undef "join of a null thread".
Proof using UL.
  intros sf q Ho Hr Hl Href Hfile Hnone.
  destruct (create_dir_path refuse readable f (dataDirPath sf) Hr Hl) as (f' & E & Hd & Hsame);
    [unfold dataDirPath; intros E; apply (f_equal length) in E; rewrite !length_app in E; cbn in E; lia|done|done|].
  assert (Hdisk : forall name, name <> [] -> Forall (fun c => c <> SLASH) name -> disk_file f' (dataDirPath sf ++ [SLASH] ++ name) = Ret None).
  { intros name H0 Hn. unfold disk_file. assert (Hs : stat f' (dataDirPath sf ++ [SLASH] ++ name) = None); [|by rewrite Hs].
    unfold stat. destruct (dataDirPath sf ++ [SLASH] ++ name) eqn:Ep; [done|]. rewrite <- Ep, components_file by done. fold q.
    assert (Hn0 : f' !! (q ++ [name]) = None).
    { rewrite Hsame; [apply Hnone|]. right. fold q. intros Hpre%prefix_length. rewrite length_app in Hpre. cbn in Hpre. lia. }
    rewrite stat_at_entry by (done || (intros t; by rewrite Hn0)). by rewrite Hn0. }
  unfold RaftConsensus_new, Consensus_initialize. change (Range_new _ _) with (Ret (mkRange 200 500)). cbn [obind]. rewrite E. cbn [obind Z.eqb negb fatal_unless].
  rewrite !Hdisk by (try discriminate; vm_compute; repeat constructor; discriminate). cbn [obind]. rewrite decide_True by done.
  rewrite create_log by done. cbn [obind]. rewrite create_state by done. cbn [obind].
  eexists f', _, _. split; [reflexivity|]. done.
Qed.

End properties.
End Consensus.

Module ConsensusDemo.
Import Consensus.

(** An encoding of the state as two 32-bit numbers. *)
#[local] Instance FixedProto : StateProto := {|
  state_bytes rs := be_split 4 (currentTerm rs) ++ be_split 4 (votedFor rs);
  state_parse bs := mkRaftState (be_join (take 4 bs)) (be_join (drop 4 bs))
|}.

Definition c0 : RaftConsensus :=
  mkRC false Follower 6 2 1 LogDemo.l0 (mkFile (be_split 4 RFSTATE_MAGIC_NO) 4) Timer_new (mkRange 200 500) 24 ∅ Configuration_new [].

Lemma saved_state_on_disk_witness :
  let bs := state_bytes (mkRaftState (m_iCurrentTerm c0) (m_iVoteFor c0)) in
  let old := f_bytes (m_iRfStateFd c0) in
  exists w' fd, save_rf_state LogDemo.os0 32 LogDemo.w0 c0 = Ret (w', fd) /\ w_pool w' = tt /\
    f_bytes fd = take 4 old ++ bs ++ drop (4 + length bs) old /\
    ((length old <= 4 + length bs)%nat -> f_bytes fd = take 4 old ++ bs).
Proof.
  refine (saved_state_on_disk LogDemo.os0 32 LogDemo.w0 c0 tt tt 1%positive 4096 _ _ _ _ _ _ _ _ _).
  - exact LogDemo.os0_ok.
  - apply Forall_app; split; apply be_split_bytes.
  - vm_compute. split; reflexivity.
  - vm_compute. lia.
  - reflexivity.
  - reflexivity.
  - lia.
  - lia.
  - reflexivity.
Defined.

Lemma restart_never_returns_witness : forall r,
  load_state LogDemo.os0 [] 8192 LogDemo.w0 (Some (be_split 4 RFSTATE_MAGIC_NO ++ be_split 4 6 ++ be_split 4 1)) <> Ret r.
Proof.
  apply (restart_never_returns LogDemo.os0 [] 8192 LogDemo.w0 (be_split 4 RFSTATE_MAGIC_NO ++ be_split 4 6 ++ be_split 4 1)).
  - lia.
  - vm_compute. split; [discriminate|reflexivity].
  - apply not_elem_of_empty.
Defined.

Lemma response_accepted_witness :
  let m := fill ∅ 100 (be_split 2 0) in
  let b := Buffer_new 100 109 100 109 None in
  is_valid_msg_id (foldl OnMessageSent (prepare_new_election_env c0) [3; 5]) m 5 b =
    Ret (if Z.eqb 0 0 then MoveHeadBack b 2 else b, Z.eqb 0 0 && bool_decide (5 ∈ [3; 5])) /\
  (m_roleType c0 = Follower -> is_valid_msg_id c0 m 5 b = Ret (if Z.eqb 0 0 then MoveHeadBack b 2 else b, false)).
Proof.
  refine (response_accepted c0 [3; 5] (fill ∅ 100 (be_split 2 0)) 5 0 (Buffer_new 100 109 100 109 None) _ _).
  - split; [lia|reflexivity].
  - apply fill_bytes_at.
Defined.

#[local] Existing Instance LogDemo.DataProto.

Lemma consensus_first_boot_witness : exists f' c,
  RaftConsensus_new default_flags false (fun _ => None) 4096 (mkStoreFlags (string_bytes "/tmp/ccraft") (string_bytes "realtime-disk")) 10
    LogDemo.os0 [] 8192 ∅ LogDemo.w0 = Ret (f', LogDemo.w0, c) /\ dirs f' (string_bytes <$> ["tmp"; "ccraft"; "rflogs"]%string).
Proof.
  destruct (consensus_first_boot (fun _ => None) 4096 (string_bytes "/tmp/ccraft") 10 LogDemo.os0 [] 8192 ∅ LogDemo.w0) as (f' & l & fd & E & Hd & _).
  - exact LogDemo.os0_ok.
  - unfold PATH_MAX. lia.
  - vm_compute. discriminate.
  - done.
  - intros r bs _. by rewrite lookup_empty.
  - intros n. apply lookup_empty.
  - exists f', (mkRC true Follower 0 0 0 l fd Timer_new (mkRange 200 500) 24 ∅ Configuration_new []). split; [exact E|exact Hd].
Defined.

End ConsensusDemo.
