(* ===== verification/WorkerManager.v ===== *)
(** * WorkerManager: one connection per pair of nodes

    Models src/src/net/net-protocol-stacks/msg-worker-managers/unique-worker-manager.{h,cc}.
    A handler is its address; [lnpt] and [rnpt] are the logic and the real peer
    of its socket descriptor.  The logic peer is the address the other node
    listens on, the real peer the address of the connection. *)

From S2P Require Import Prelude Message.

Definition peer_code (p : net_peer_info_t) : string * Z * Z :=
  (addr (nat_ p), port (nat_ p), match sp p with ProtoNone => 0 | Tcp => 1 | Udp => 2 end).
Definition peer_decode (c : string * Z * Z) : net_peer_info_t :=
  let '(a, po, s) := c in mkPeer (mkAddr a po) (if Z.eqb s 0 then ProtoNone else if Z.eqb s 1 then Tcp else Udp).
#[export] Instance net_peer_countable : Countable net_peer_info_t.
Proof. refine (inj_countable' peer_code peer_decode _). by intros [[] []]. Defined.

(** The hash maps are keyed by peers under [operator==], which is equality
    ([peer_eqb_eq]). *)
Record UniqueWorkerManager := mkUWM {
  m_hmap_workers : gmap net_peer_info_t Z;
  m_hmap_rp_lp : gmap net_peer_info_t net_peer_info_t;
  m_hmap_handler_rp : gmap Z net_peer_info_t
}.

Definition UniqueWorkerManager_new : UniqueWorkerManager := mkUWM ∅ ∅ ∅.

Definition lookup_worker (s : UniqueWorkerManager) (logicNpt : net_peer_info_t) : option Z := m_hmap_workers s !! logicNpt.

Definition GetWorkerEventHandler (s : UniqueWorkerManager) (logicNpt : net_peer_info_t) : option Z := lookup_worker s logicNpt.

(** The destructor deletes the registered handlers and empties the maps. *)
Definition UniqueWorkerManager_delete (s : UniqueWorkerManager) : UniqueWorkerManager * list Z :=
  (mkUWM ∅ ∅ ∅, (map_to_list (m_hmap_workers s)).*2).

Section descriptors.
Context (lnpt rnpt : Z -> net_peer_info_t).

(** The handler and the reference counts after [AddRef]. *)
Definition GetWorkerEventHandlerWithRef (s : UniqueWorkerManager) (refs : gmap Z Z) (logicNpt : net_peer_info_t) : option Z * gmap Z Z :=
  match lookup_worker s logicNpt with
  | Some h => (Some h, alter (fun n => i32 (n + 1)) h refs)
  | None => (None, refs)
  end.

Definition PutWorkerEventHandler (s : UniqueWorkerManager) (h : Z) : UniqueWorkerManager * bool :=
  match lookup_worker s (lnpt h) with
  | Some _ => (s, false)
  | None => (mkUWM (<[lnpt h := h]> (m_hmap_workers s)) (<[rnpt h := lnpt h]> (m_hmap_rp_lp s)) (<[h := rnpt h]> (m_hmap_handler_rp s)), true)
  end.

(** The peer closed the connection. *)
Definition RemoveWorkerEventHandler_peer (s : UniqueWorkerManager) (logicNpt realNpt : net_peer_info_t) : UniqueWorkerManager * option Z :=
  match m_hmap_rp_lp s !! realNpt with
  | None => (s, None)
  | Some _ =>
      let s := mkUWM (m_hmap_workers s) (delete realNpt (m_hmap_rp_lp s)) (m_hmap_handler_rp s) in
      match lookup_worker s logicNpt with
      | Some h => (mkUWM (delete logicNpt (m_hmap_workers s)) (m_hmap_rp_lp s) (m_hmap_handler_rp s), Some h)
      | None => (s, None)
      end
  end.

(** This side closes the connection; [operator\[\]] makes a default peer for a
    handler without an entry. *)
Definition RemoveWorkerEventHandler_local (s : UniqueWorkerManager) (logicNpt : net_peer_info_t) : UniqueWorkerManager * option Z :=
  match lookup_worker s logicNpt with
  | None => (s, None)
  | Some h =>
      let realNpt := default (mkPeer (mkAddr EmptyString 0) ProtoNone) (m_hmap_handler_rp s !! h) in
      (mkUWM (delete logicNpt (m_hmap_workers s)) (delete realNpt (m_hmap_rp_lp s)) (delete h (m_hmap_handler_rp s)), Some h)
  end.

(** ** The calls a node makes

    The peer variant is called for a handler with the two peers of its own
    descriptor, the local variant with a logic peer. *)
Inductive step : UniqueWorkerManager -> UniqueWorkerManager -> Prop :=
| step_put s h : step s (PutWorkerEventHandler s h).1
| step_peer s h : step s (RemoveWorkerEventHandler_peer s (lnpt h) (rnpt h)).1
| step_local s l : step s (RemoveWorkerEventHandler_local s l).1.

Definition reachable : UniqueWorkerManager -> Prop := rtc step UniqueWorkerManager_new.

(** Connections have different real peers. *)
Hypothesis rnpt_inj : forall h h', rnpt h = rnpt h' -> h = h'.

(** The three maps agree: each entry of a map is the registered handler's. *)
Record inv (s : UniqueWorkerManager) : Prop := mkInv {
  inv_worker : forall l h, m_hmap_workers s !! l = Some h ->
    l = lnpt h /\ m_hmap_rp_lp s !! rnpt h = Some l /\ m_hmap_handler_rp s !! h = Some (rnpt h);
  inv_rp : forall r l, m_hmap_rp_lp s !! r = Some l -> exists h, m_hmap_workers s !! l = Some h /\ r = rnpt h
}.

Lemma put_inv s h : inv s -> inv (PutWorkerEventHandler s h).1.
Proof using rnpt_inj.
  intros [H1 H2]. unfold PutWorkerEventHandler, lookup_worker. destruct (m_hmap_workers s !! lnpt h) as [h'|] eqn:E; [by split|].
  split; simpl.
  - intros l x. rewrite lookup_insert_Some. intros [[<- <-]|[Hne Hx]].
    + by rewrite !lookup_insert_eq.
    + destruct (H1 _ _ Hx) as (-> & E1 & E2). assert (h <> x) by congruence.
      rewrite !lookup_insert_ne; [done|congruence|]. intros ?%rnpt_inj. congruence.
  - intros r l. rewrite lookup_insert_Some. intros [[<- <-]|[Hne Hr]].
    + exists h. by rewrite lookup_insert_eq.
    + destruct (H2 _ _ Hr) as (x & Hx & ->). exists x. split; [|done]. rewrite lookup_insert_ne; [done|]. congruence.
Qed.

Lemma peer_inv s h : inv s -> inv (RemoveWorkerEventHandler_peer s (lnpt h) (rnpt h)).1.
Proof using rnpt_inj.
  intros [H1 H2]. unfold RemoveWorkerEventHandler_peer. destruct (m_hmap_rp_lp s !! rnpt h) as [l|] eqn:E; [|by split].
  destruct (H2 _ _ E) as (x & Hx & Er). apply rnpt_inj in Er as <-. destruct (H1 _ _ Hx) as (-> & E1 & E2).
  unfold lookup_worker. cbn [m_hmap_workers]. rewrite Hx. split; simpl.
  - intros l x. rewrite lookup_delete_Some. intros [Hne Hx']. destruct (H1 _ _ Hx') as (-> & E3 & E4).
    rewrite lookup_delete_ne; [done|]. intros ?%rnpt_inj. congruence.
  - intros r l. rewrite lookup_delete_Some. intros [Hne Hr]. destruct (H2 _ _ Hr) as (x & Hx' & ->). exists x. split; [|done].
    rewrite lookup_delete_ne; [done|]. intros <-. congruence.
Qed.

Lemma local_inv s l : inv s -> inv (RemoveWorkerEventHandler_local s l).1.
Proof using rnpt_inj.
  intros [H1 H2]. unfold RemoveWorkerEventHandler_local, lookup_worker. destruct (m_hmap_workers s !! l) as [h|] eqn:E; [|by split].
  destruct (H1 _ _ E) as (-> & E1 & E2). rewrite E2. split; simpl.
  - intros l x. rewrite lookup_delete_Some. intros [Hne Hx]. destruct (H1 _ _ Hx) as (-> & E3 & E4).
    assert (h <> x) by congruence. rewrite !lookup_delete_ne; [done|congruence|]. intros ?%rnpt_inj. congruence.
  - intros r l. rewrite lookup_delete_Some. intros [Hne Hr]. destruct (H2 _ _ Hr) as (x & Hx & ->). exists x. split; [|done].
    rewrite lookup_delete_ne; [done|]. congruence.
Qed.

Lemma manager_inv_reachable s : reachable s -> inv s.
Proof using rnpt_inj.
  intros Hr. eapply rtc_invariant; [| |exact Hr].
  - intros x y Hi Hs. destruct Hs; [by apply put_inv|by apply peer_inv|by apply local_inv].
  - split; cbn [m_hmap_workers m_hmap_rp_lp UniqueWorkerManager_new]; intros ?? H; by rewrite lookup_empty in H.
Qed.

(** The manager keeps the first connection of a pair of nodes: in every state
    it can reach, a handler is entered exactly when its logic peer has none,
    and then it is the one that is found; closing a connection whose handler
    was refused changes nothing, and closing the registered one by either
    variant takes out exactly its logic peer. *)
Theorem manager_keeps_first (s : UniqueWorkerManager) (h : Z) : reachable s ->
  match GetWorkerEventHandler s (lnpt h) with
  | Some h' =>
      PutWorkerEventHandler s h = (s, false) /\
      (h <> h' -> RemoveWorkerEventHandler_peer s (lnpt h) (rnpt h) = (s, None)) /\
      (h = h' ->
         (RemoveWorkerEventHandler_peer s (lnpt h) (rnpt h)).2 = Some h /\
         m_hmap_workers (RemoveWorkerEventHandler_peer s (lnpt h) (rnpt h)).1 = delete (lnpt h) (m_hmap_workers s) /\
         (RemoveWorkerEventHandler_local s (lnpt h)).2 = Some h /\
         m_hmap_workers (RemoveWorkerEventHandler_local s (lnpt h)).1 = delete (lnpt h) (m_hmap_workers s))
  | None =>
      (PutWorkerEventHandler s h).2 = true /\
      m_hmap_workers (PutWorkerEventHandler s h).1 = <[lnpt h := h]> (m_hmap_workers s) /\
      RemoveWorkerEventHandler_local s (lnpt h) = (s, None)
  end.
Proof using rnpt_inj.
  intros [H1 H2]%manager_inv_reachable. unfold GetWorkerEventHandler, PutWorkerEventHandler, RemoveWorkerEventHandler_local, RemoveWorkerEventHandler_peer, lookup_worker.
  destruct (m_hmap_workers s !! lnpt h) as [h'|] eqn:E; [|done]. split; [done|]. destruct (H1 _ _ E) as (El & E1 & E2). split.
  - intros Hne. destruct (m_hmap_rp_lp s !! rnpt h) as [l|] eqn:Er; [|done]. destruct (H2 _ _ Er) as (x & Hx & Ex).
    apply rnpt_inj in Ex as <-. destruct (H1 _ _ Hx) as (-> & _ & _). congruence.
  - intros <-. rewrite E1. cbn [m_hmap_workers]. by rewrite E.
Qed.

(** The peer variant leaves the handler's entry behind: after a connection is
    entered and the peer closes it, the map from handlers to real peers still
    has its entry. *)
Theorem manager_leaks_entry (h : Z) :
  let s := (RemoveWorkerEventHandler_peer (PutWorkerEventHandler UniqueWorkerManager_new h).1 (lnpt h) (rnpt h)).1 in
  m_hmap_workers s = ∅ /\ m_hmap_rp_lp s = ∅ /\ m_hmap_handler_rp s = {[h := rnpt h]}.
Proof using.
  unfold PutWorkerEventHandler, RemoveWorkerEventHandler_peer, lookup_worker. cbn. rewrite lookup_empty. cbn.
  rewrite lookup_insert_eq. cbn. rewrite lookup_insert_eq. cbn. rewrite !delete_insert_eq, !delete_empty. done.
Qed.

End descriptors.

(** ** A concrete run *)

Definition peer_of (h : Z) : net_peer_info_t := mkPeer (mkAddr "10.0.0.1" h) Tcp.
Definition node_of (h : Z) : net_peer_info_t := mkPeer (mkAddr "10.0.0.1" 9920) Tcp.
Definition after_put : UniqueWorkerManager := (PutWorkerEventHandler node_of peer_of UniqueWorkerManager_new 7).1.

Lemma manager_keeps_first_witness : GetWorkerEventHandler after_put (node_of 8) = Some 7 /\
  PutWorkerEventHandler node_of peer_of after_put 8 = (after_put, false).
Proof.
  split; [vm_compute; reflexivity|].
  assert (forall h h', peer_of h = peer_of h' -> h = h') as Hi by (intros h h' E; injection E; auto).
  assert (reachable node_of peer_of after_put) as Hr by (apply rtc_once; apply (step_put node_of peer_of UniqueWorkerManager_new 7)).
  exact (proj1 (manager_keeps_first node_of peer_of Hi after_put 8 Hr)).
Defined.
