(* ===== verification/EventLoop.v ===== *)
(** * EventLoop: the epoll driver, the event worker and the event manager

    Models socket/event-drivers (epoll-event-driver.{h,cc}, event-worker.{h,cc},
    factory.h, ievent-driver.h), posix/event-manager.{h,cc} and
    posix/local/simple-read-event-handler.cc.  A handler is its address; [fd_of]
    is the descriptor of its socket.  The interest list of an epoll descriptor
    is a map from descriptors, with the errors of epoll_ctl(2); what
    epoll_wait(2) and read(2) return is a script.  The interleavings of the
    worker's loop with the other threads are in LoopSafety.v. *)

From S2P Require Import Prelude NetWorker.

Definition EVENT_NONE : Z := 0.
Definition EVENT_READ : Z := 1.
Definition EVENT_WRITE : Z := 2.

Record NetEvent := mkNetEvent { eh : Z; mask : Z }.

#[export] Instance NetEvent_eq_dec : EqDecision NetEvent.
Proof. solve_decision. Defined.

(** ** EpollEventDriver *)
Module Driver.

Definition EPOLLIN : Z := 1.
Definition EPOLLOUT : Z := 4.
Definition EPOLLERR : Z := 8.
Definition EPOLLHUP : Z := 16.
Definition EPOLLET : Z := 2 ^ 31.

Record epoll_event := mkEE { events : Z; ptr : Z }.
Inductive epoll_op := EPOLL_CTL_ADD | EPOLL_CTL_MOD | EPOLL_CTL_DEL.

(** epoll_ctl(2) on the interest list: adding a descriptor that is there, and
    changing or deleting one that is not, fail. *)
Definition epoll_ctl (ep : gmap Z epoll_event) (op : epoll_op) (fd : Z) (ee : epoll_event) : option (gmap Z epoll_event) :=
  match op, ep !! fd with
  | EPOLL_CTL_ADD, None => Some (<[fd := ee]> ep)
  | EPOLL_CTL_MOD, Some _ => Some (<[fd := ee]> ep)
  | EPOLL_CTL_DEL, Some _ => Some (delete fd ep)
  | _, _ => None
  end.

Definition ctl_result (ep : gmap Z epoll_event) (r : option (gmap Z epoll_event)) : gmap Z epoll_event * Z :=
  match r with Some ep => (ep, 0) | None => (ep, -1) end.

(** [if (mask & EVENT_READ) ee.events |= EPOLLIN; if (mask & EVENT_WRITE) ...]. *)
Definition wanted (base mask : Z) : Z :=
  let e := if Z.eqb (Z.land mask EVENT_READ) 0 then base else Z.lor base EPOLLIN in
  if Z.eqb (Z.land mask EVENT_WRITE) 0 then e else Z.lor e EPOLLOUT.

Section driver.
Context (fd_of : Z -> Z).

Definition AddEvent (ep : gmap Z epoll_event) (h cur_mask mask : Z) : outcome (gmap Z epoll_event * Z) :=
  if Z.eqb h 0 then Abort "assert(socketEventHandler)"
  else
    let op := if Z.eqb cur_mask EVENT_NONE then EPOLL_CTL_ADD else EPOLL_CTL_MOD in
    let ee := mkEE (wanted (Z.lor (Z.lor EPOLLHUP EPOLLERR) EPOLLET) (Z.lor mask cur_mask)) h in
    Ret (ctl_result ep (epoll_ctl ep op (fd_of h) ee)).

Definition DeleteEvent (ep : gmap Z epoll_event) (h cur_mask del_mask : Z) : outcome (gmap Z epoll_event * Z) :=
  if Z.eqb h 0 then Abort "assert(socketEventHandler)"
  else
    let mask := Z.land cur_mask (Z.lnot del_mask) in
    let ee := mkEE (wanted 0 mask) h in
    Ret (ctl_result ep (epoll_ctl ep (if Z.eqb mask EVENT_NONE then EPOLL_CTL_DEL else EPOLL_CTL_MOD) (fd_of h) ee)).

Definition DeleteHandler (ep : gmap Z epoll_event) (h : Z) : outcome (gmap Z epoll_event * Z) :=
  if Z.eqb h 0 then Abort "assert(socketEventHandler)"
  else Ret (ctl_result ep (epoll_ctl ep EPOLL_CTL_DEL (fd_of h) (mkEE 0 h))).

End driver.

(** The vector of events: its size, and the slots of its allocated storage. *)
Record events_vec := mkVec { v_size : nat; v_store : list NetEvent }.

Definition clear (v : events_vec) : events_vec := mkVec 0 (v_store v).
(** [reserve] of an empty vector. *)
Definition reserve (v : events_vec) (n : nat) : events_vec :=
  if (n <=? length (v_store v))%nat then v else mkVec (v_size v) (replicate n (mkNetEvent 0 0)).

(** [operator\[\]] of the vector does not look at the size; an access outside the storage is undefined. *)
Definition vec_set (v : events_vec) (i : nat) (e : NetEvent) : outcome events_vec :=
  if (i <? length (v_store v))%nat then Ret (mkVec (v_size v) (<[i := e]> (v_store v)))
  else Undef "write outside the vector's storage".
Definition vec_get (v : events_vec) (i : nat) : outcome NetEvent :=
  match v_store v !! i with Some e => Ret e | None => Undef "read outside the vector's storage" end.

Definition reported (revents : Z) : Z :=
  let m := if Z.eqb (Z.land revents EPOLLIN) 0 then 0 else EVENT_READ in
  let m := if Z.eqb (Z.land revents EPOLLOUT) 0 then m else Z.lor m EVENT_WRITE in
  if Z.eqb (Z.land revents EPOLLERR) 0 && Z.eqb (Z.land revents EPOLLHUP) 0 then m else Z.lor m EVENT_READ.

Fixpoint fill_events (v : events_vec) (i : nat) (evs : list epoll_event) : outcome events_vec :=
  match evs with
  | [] => Ret v
  | e :: evs => let* v := vec_set v i (mkNetEvent (ptr e) (reported (events e))) in fill_events v (S i) evs
  end.

(** What one epoll_wait(2) returns. *)
Inductive wait_result := WaitEvents (evs : list epoll_event) | WaitErr (e : Z).

(** [EventWait]: the result, or [None] while the call blocks. *)
Fixpoint wait_loop (script : list wait_result) (v : events_vec) : outcome (list wait_result * events_vec * option Z) :=
  match script with
  | [] => Ret ([], v, None)
  | WaitEvents evs :: rest =>
      let* v := fill_events (reserve v (length evs)) 0 evs in Ret (rest, v, Some (Z.of_nat (length evs)))
  | WaitErr e :: rest => if Z.eqb e EINTR then wait_loop rest v else Ret (rest, v, Some (-1))
  end.
Definition EventWait (script : list wait_result) (v : events_vec) : outcome (list wait_result * events_vec * option Z) :=
  wait_loop script (clear v).

(** *** What the driver registers and reports *)

Lemma vec_set_ok v i e : (i < length (v_store v))%nat -> vec_set v i e = Ret (mkVec (v_size v) (<[i := e]> (v_store v))).
Proof. intros H. unfold vec_set. by rewrite (proj2 (Nat.ltb_lt _ _)). Qed.

Definition net_event (e : epoll_event) : NetEvent := mkNetEvent (ptr e) (reported (events e)).

Lemma fill_events_ok evs : forall v i, (i + length evs <= length (v_store v))%nat ->
  fill_events v i evs = Ret (mkVec (v_size v) (take i (v_store v) ++ (net_event <$> evs) ++ drop (i + length evs) (v_store v))).
Proof.
  induction evs as [|e evs IH]; intros v i Hl; simpl in *.
  - rewrite Nat.add_0_r, take_drop. by destruct v.
  - rewrite vec_set_ok by lia. cbn [obind]. rewrite IH by (simpl; rewrite length_insert; lia). simpl.
    rewrite drop_insert_lt by lia. rewrite (take_S_r _ i (net_event e)) by (apply list_lookup_insert_eq; lia).
    rewrite take_insert_ge by lia. rewrite <- app_assoc. simpl. by rewrite Nat.add_succ_r.
Qed.

Lemma reserve_room v n : (n <= length (v_store (reserve v n)))%nat.
Proof. unfold reserve. destruct (Nat.leb_spec n (length (v_store v))); [done|]. simpl. by rewrite length_replicate. Qed.

Lemma wait_events k evs rest v :
  exists v', EventWait (replicate k (WaitErr EINTR) ++ WaitEvents evs :: rest) v = Ret (rest, v', Some (Z.of_nat (length evs))) /\
    take (length evs) (v_store v') = net_event <$> evs.
Proof.
  unfold EventWait. induction k as [|k IH]; [|apply IH]. cbn [replicate app wait_loop].
  rewrite fill_events_ok by (pose proof (reserve_room (clear v) (length evs)); simpl; lia). cbn [obind take].
  eexists. split; [reflexivity|]. cbn [v_store]. rewrite app_nil_l. apply take_app_length'. by rewrite length_fmap.
Qed.

Lemma land_bit m k : 0 <= k -> Z.eqb (Z.land m (2 ^ k)) 0 = negb (Z.testbit m k).
Proof.
  intros Hk. destruct (Z.eqb_spec (Z.land m (2 ^ k)) 0) as [E|E]; destruct (Z.testbit m k) eqn:B; try done; exfalso.
  - apply (f_equal (fun z => Z.testbit z k)) in E. by rewrite Z.land_spec, B, Z.pow2_bits_true, Z.bits_0 in E.
  - apply E. apply Z.bits_inj'. intros n Hn. rewrite Z.land_spec, Z.bits_0, Z.pow2_bits_eqb by done.
    destruct (Z.eqb_spec k n) as [->|]; [by rewrite B|apply andb_false_r].
Qed.

Lemma wanted_bits base m n : n = 0 \/ n = 2 \/ n = 31 -> Z.testbit (wanted base m) n =
  Z.testbit base n || (Z.testbit m 0 && Z.eqb n 0) || (Z.testbit m 1 && Z.eqb n 2).
Proof.
  intros Hn. unfold wanted. change EVENT_READ with (2 ^ 0). change EVENT_WRITE with (2 ^ 1). rewrite !land_bit by lia.
  change EPOLLIN with (2 ^ 0). change EPOLLOUT with (2 ^ 2).
  destruct (Z.testbit m 0), (Z.testbit m 1); cbn [negb andb]; rewrite ?Z.lor_spec, ?Z.pow2_bits_eqb, ?orb_false_r by lia;
    rewrite ?(Z.eqb_sym 0), ?(Z.eqb_sym 2); done.
Qed.

Lemma reported_spec r : reported r = (if Z.testbit r 0 || Z.testbit r 3 || Z.testbit r 4 then EVENT_READ else 0) +
  (if Z.testbit r 2 then EVENT_WRITE else 0).
Proof.
  unfold reported. change EPOLLIN with (2 ^ 0). change EPOLLOUT with (2 ^ 2). change EPOLLERR with (2 ^ 3). change EPOLLHUP with (2 ^ 4).
  rewrite !land_bit by lia. by destruct (Z.testbit r 0), (Z.testbit r 2), (Z.testbit r 3), (Z.testbit r 4).
Qed.

(** The driver reports what was asked for: [AddEvent] of an unregistered
    handler registers its descriptor for exactly the events of the mask, edge
    triggered; and when epoll_wait, after any number of interruptions, returns
    events of which each bit is a registered one or an error, then
    [EventWait] stores, in order, each handler with a mask in which WRITE is
    asked for, and READ is asked for or stands for an error. *)
Theorem driver_reports (fd_of : Z -> Z) (ep : gmap Z epoll_event) (h m : Z) (k : nat) (revents : Z) (rest : list wait_result) (v : events_vec) :
  h <> 0 -> 0 <= m < 4 -> ep !! fd_of h = None ->
  exists ev v', AddEvent fd_of ep h EVENT_NONE m = Ret (<[fd_of h := mkEE ev h]> ep, 0) /\
    Z.testbit ev 0 = Z.testbit m 0 /\ Z.testbit ev 2 = Z.testbit m 1 /\ Z.testbit ev 31 = true /\
    EventWait (replicate k (WaitErr EINTR) ++ WaitEvents [mkEE revents h] :: rest) v = Ret (rest, v', Some 1) /\
    vec_get v' 0 = Ret (mkNetEvent h (reported revents)) /\
    (Z.land revents ev = revents ->
     Z.testbit (reported revents) 1 = Z.testbit revents 2 /\
     (Z.testbit (reported revents) 1 = true -> Z.testbit m 1 = true) /\
     (Z.testbit (reported revents) 0 = true -> Z.testbit m 0 = true \/ Z.testbit revents 3 = true \/ Z.testbit revents 4 = true)).
Proof.
  intros Hh Hm Hn. destruct (wait_events k [mkEE revents h] rest v) as (v' & Ew & Et).
  eexists _, v'. unfold AddEvent. rewrite (proj2 (Z.eqb_neq h 0) Hh). cbn [Z.eqb EVENT_NONE]. unfold epoll_ctl. rewrite Hn. cbn [ctl_result].
  rewrite Z.lor_0_r. set (ev := wanted _ m).
  assert (Z.testbit ev 0 = Z.testbit m 0 /\ Z.testbit ev 2 = Z.testbit m 1 /\ Z.testbit ev 31 = true) as (B0 & B2 & B31).
  { unfold ev. rewrite !wanted_bits by lia. rewrite !andb_false_r, !andb_true_r, !orb_false_r. by split_and!. }
  split_and!; try done.
  - unfold vec_get. destruct (v_store v') as [|e l]; [discriminate|]. by injection Et as ->.
  - intros Hs. assert (forall n, Z.testbit revents n = true -> Z.testbit ev n = true) as Hb.
    { intros n Hr. rewrite <- Hs, Z.land_spec in Hr. by apply andb_true_iff in Hr as [_ Hr]. }
    pose proof (Hb 0) as H0. pose proof (Hb 2) as H2. rewrite B0 in H0. rewrite B2 in H2. rewrite reported_spec.
    destruct (Z.testbit revents 0), (Z.testbit revents 2), (Z.testbit revents 3), (Z.testbit revents 4);
      cbn [orb]; split_and!; intros; first [done|by apply H2|by left; apply H0|by right; left|by right; right|discriminate].
Qed.

Lemma driver_reports_witness : exists ev v', AddEvent (fun h => h + 3) ∅ 4096 EVENT_NONE 3 = Ret (<[4099 := mkEE ev 4096]> ∅, 0) /\
    EventWait [WaitErr EINTR; WaitEvents [mkEE 16 4096]] (mkVec 0 []) = Ret ([], v', Some 1) /\
    vec_get v' 0 = Ret (mkNetEvent 4096 1).
Proof.
  destruct (driver_reports (fun h => h + 3) ∅ 4096 3 1 16 [] (mkVec 0 [])) as (ev & v' & E1 & _ & _ & _ & E2 & E3 & _);
    [lia|lia|reflexivity|]. exists ev, v'. exact (conj E1 (conj E2 E3)).
Defined.

End Driver.

(** ** EventWorker *)
Module Worker.

Record EpollAddEvent := mkAdd { socketEventHandler : Z; cur_mask : Z; add_mask : Z }.

(** The three queues other threads fill, each under its own lock, and the bytes
    in the notification pipe. *)
Record EventWorker := mkEW {
  m_lRwOpExtEvents : list NetEvent;
  m_lAddEpExtEvents : list EpollAddEvent;
  m_lDelEpExtEvents : list Z;
  notify_pipe : Z
}.

Definition set_pipe (w : EventWorker) (n : Z) : EventWorker :=
  mkEW (m_lRwOpExtEvents w) (m_lAddEpExtEvents w) (m_lDelEpExtEvents w) n.

Definition AddExternalRWOpEvent (w : EventWorker) (ne : NetEvent) : EventWorker :=
  mkEW (m_lRwOpExtEvents w ++ [ne]) (m_lAddEpExtEvents w) (m_lDelEpExtEvents w) (notify_pipe w).
Definition GetExternalRWOpEvents (w : EventWorker) : EventWorker * list NetEvent :=
  (mkEW [] (m_lAddEpExtEvents w) (m_lDelEpExtEvents w) (notify_pipe w), m_lRwOpExtEvents w).

Definition AddExternalEpAddEvent (w : EventWorker) (h cur m : Z) : EventWorker :=
  mkEW (m_lRwOpExtEvents w) (m_lAddEpExtEvents w ++ [mkAdd h cur m]) (m_lDelEpExtEvents w) (notify_pipe w).
Definition GetExternalEpAddEvents (w : EventWorker) : EventWorker * list EpollAddEvent :=
  (mkEW (m_lRwOpExtEvents w) [] (m_lDelEpExtEvents w) (notify_pipe w), m_lAddEpExtEvents w).

(** [std::set<AFileEventHandler*>::insert]: the set as the list of its iteration. *)
Fixpoint set_insert (h : Z) (l : list Z) : list Z :=
  match l with
  | [] => [h]
  | x :: l' => if Z.ltb h x then h :: l else if Z.eqb h x then l else x :: set_insert h l'
  end.

Definition AddExternalEpDelEvent (w : EventWorker) (h : Z) : EventWorker :=
  mkEW (m_lRwOpExtEvents w) (m_lAddEpExtEvents w) (set_insert h (m_lDelEpExtEvents w)) (notify_pipe w).
Definition GetExternalEpDelEvents (w : EventWorker) : EventWorker * list Z :=
  (mkEW (m_lRwOpExtEvents w) (m_lAddEpExtEvents w) [] (notify_pipe w), m_lDelEpExtEvents w).

(** [Wakeup]: the sending end does not block, so that writing to a full pipe
    fails.  [capacity] is the size of the pipe. *)
Definition Wakeup (capacity : Z) (w : EventWorker) : outcome EventWorker :=
  if Z.ltb (notify_pipe w) capacity then Ret (set_pipe w (notify_pipe w + 1)) else Throw "Write notify pipe failed!".

Inductive NonBlockingEventModel := Posix | DPDK.

(** [EventDriverFactory::GetNewDriver]: there is no driver for DPDK. *)
Definition GetNewDriver (m : NonBlockingEventModel) : bool := match m with DPDK => false | Posix => true end.

(** What the system calls of the constructor return: pipe(2), the two fcntl(2). *)
Record pipe_calls := mkPipe { pipe_ok : bool; recv_nonblocking : bool; send_nonblocking : bool }.

Definition EventWorker_new (os : pipe_calls) (maxEvents : Z) (m : NonBlockingEventModel) : outcome EventWorker :=
  if negb (GetNewDriver m) then Undef "Init of a null driver"
  else if Z.leb (i32 maxEvents) 0 then Abort "assert(max_events > 0)"
  else if negb (pipe_ok os) then Throw "Create notify pipe failed!"
  else if negb (recv_nonblocking os) then Throw "Set notify pipe non-blocking failed!"
  else if negb (send_nonblocking os) then Throw "Set notify pipe non-blocking failed!"
  else Ret (mkEW [] [] [] 0).

(** [PosixLocalReadEventHandler::HandleReadEvent]: the script is what each
    read(2) of the pipe returns; beyond it the pipe is empty. *)
Fixpoint Local_HandleReadEvent (script : list rd_event) : outcome (list rd_event * bool) :=
  match script with
  | [] => Ret ([], true)
  | RdErr e :: rest =>
      if Z.eqb e EAGAIN then Ret (rest, true)
      else if Z.eqb e EINTR then Local_HandleReadEvent rest
      else Throw "Read err!"
  | RdEof :: _ => Throw "Read err!"
  | RdData _ :: rest => Local_HandleReadEvent rest
  end.
Definition Local_HandleWriteEvent : outcome bool := Throw "Not support -- PosixLocalReadEventHandler::HandleWriteEvent!".

End Worker.

(** ** PosixEventManager *)
Module Manager.
Import Worker.

(** [m_nat]: there is an address to listen on; [own] is [m_pOwnEvWorker] of the
    handlers, as the index of a connection worker. *)
Record PosixEventManager := mkPEM {
  m_sp_tcp : bool;
  m_nat : bool;
  m_iMaxEvents : Z;
  m_iConnWorkersCnt : Z;
  m_iCurWorkerIdx : Z;
  m_bStopped : bool;
  m_pServerEventHandler : option Z;
  m_pListenWorker : option EventWorker;
  m_vConnsWorkers : list EventWorker;
  own : gmap Z Z
}.

Definition PosixEventManager_new (tcp nat : bool) (maxEvents connWorkersCnt : Z) : PosixEventManager :=
  mkPEM tcp nat maxEvents connWorkersCnt (-1) true None None [] ∅.

Section manager.
Context (capacity : Z).

(** The [k] connection workers from the [i]-th on. *)
Fixpoint new_workers (os : nat -> pipe_calls) (maxEvents : Z) (m : NonBlockingEventModel) (i k : nat) : outcome (list EventWorker) :=
  match k with
  | O => Ret []
  | S k => let* w := EventWorker_new (os i) maxEvents m in let* ws := new_workers os maxEvents m (S i) k in Ret (w :: ws)
  end.

(** [Start]; [srv] is the handler of the listening socket, an exception when its
    constructor throws. *)
Definition Start (os_listen : pipe_calls) (os : nat -> pipe_calls) (srv : outcome Z) (m : NonBlockingEventModel) (s : PosixEventManager)
    : outcome (PosixEventManager * bool) :=
  if negb (m_bStopped s) then Ret (s, true)
  else if negb (m_sp_tcp s) then Throw "Not support now!"
  else
    let* (h, lw) :=
      if m_nat s then
        let* ew := EventWorker_new os_listen (m_iMaxEvents s) m in
        let* h := srv in
        let* ew := Wakeup capacity (AddExternalEpAddEvent ew h EVENT_NONE EVENT_READ) in
        Ret (Some h, Some ew)
      else Ret (m_pServerEventHandler s, m_pListenWorker s) in
    let* ws := new_workers os (m_iMaxEvents s) m 0 (Z.to_nat (m_iConnWorkersCnt s)) in
    Ret (mkPEM (m_sp_tcp s) (m_nat s) (m_iMaxEvents s) (m_iConnWorkersCnt s) (m_iCurWorkerIdx s) false h lw ws (own s), true).

(** [++m_iCurWorkerIdx; m_iCurWorkerIdx %= m_iConnWorkersCnt]: the remainder is
    taken in [uint32_t]. *)
Definition next_idx (idx cnt : Z) : outcome Z :=
  if Z.eqb cnt 0 then Undef "division by zero" else Ret (i32 (u32 (i32 (idx + 1)) mod cnt)).

Definition AddEvent (s : PosixEventManager) (h cur m : Z) : outcome PosixEventManager :=
  let* i := next_idx (m_iCurWorkerIdx s) (m_iConnWorkersCnt s) in
  match m_vConnsWorkers s !! Z.to_nat i with
  | None => Undef "worker index out of range"
  | Some ew =>
      let* ew := Wakeup capacity (AddExternalEpAddEvent ew h cur m) in
      Ret (mkPEM (m_sp_tcp s) (m_nat s) (m_iMaxEvents s) (m_iConnWorkersCnt s) i (m_bStopped s) (m_pServerEventHandler s)
             (m_pListenWorker s) (<[Z.to_nat i := ew]> (m_vConnsWorkers s)) (<[h := i]> (own s)))
  end.

(** [Stop]: every worker is woken and its thread joined, then deleted. *)
Fixpoint wake_all (ws : list EventWorker) : outcome unit :=
  match ws with [] => Ret tt | w :: ws => let* _ := Wakeup capacity w in wake_all ws end.

Definition Stop (s : PosixEventManager) : outcome (PosixEventManager * bool) :=
  if m_bStopped s then Ret (s, true)
  else
    let* h :=
      if m_nat s then
        match m_pListenWorker s with
        | None => Undef "Wakeup of a null worker"
        | Some ew => let* _ := Wakeup capacity ew in Ret None
        end
      else Ret (m_pServerEventHandler s) in
    let* _ := wake_all (m_vConnsWorkers s) in
    Ret (mkPEM (m_sp_tcp s) (m_nat s) (m_iMaxEvents s) (m_iConnWorkersCnt s) (m_iCurWorkerIdx s) true h None [] (own s), true).

End manager.

(** [process_event] over any handler: what reading, writing and finishing do to the state. *)
Definition process_event {S : Type} (read write : S -> outcome (S * bool)) (finish : S -> outcome S) (evMask : Z) (s : S) : outcome S :=
  let* (s, rc) := if Z.eqb (Z.land evMask EVENT_READ) 0 then Ret (s, true) else read s in
  let* (s, rc) := if rc && negb (Z.eqb (Z.land evMask EVENT_WRITE) 0) then write s else Ret (s, rc) in
  if rc then Ret s else finish s.

(** *** The distribution of the connections *)

(** The handlers added one after the other. *)
Fixpoint AddEvents (capacity : Z) (s : PosixEventManager) (hs : list Z) : outcome PosixEventManager :=
  match hs with
  | [] => Ret s
  | h :: hs => let* s := AddEvent capacity s h EVENT_NONE (Z.lor EVENT_READ EVENT_WRITE) in AddEvents capacity s hs
  end.

(** Of the handlers [hs], numbered from [k] on, those whose number is [i] modulo [n]. *)
Fixpoint assigned (n i k : nat) (hs : list Z) : list EpollAddEvent :=
  match hs with
  | [] => []
  | h :: hs => (if (k mod n =? i)%nat then [mkAdd h EVENT_NONE 3] else []) ++ assigned n i (S k) hs
  end.

Lemma next_idx_step (n k : nat) idx : (0 < n)%nat -> Z.of_nat n < 2 ^ 31 ->
  (k = 0%nat /\ idx = -1 \/ exists j, k = S j /\ idx = Z.of_nat (j mod n)) -> next_idx idx (Z.of_nat n) = Ret (Z.of_nat (k mod n)).
Proof.
  intros Hn Hb Hk. unfold next_idx. rewrite (proj2 (Z.eqb_neq _ 0)) by lia. f_equal.
  assert (i32 (idx + 1) = idx + 1 /\ 0 <= idx + 1 < 2 ^ 31 /\ (idx + 1) mod Z.of_nat n = Z.of_nat (k mod n)) as (E & Hr & Em).
  { destruct Hk as [[-> ->]|(j & -> & ->)].
    - rewrite Nat.Div0.mod_0_l. split_and!; [reflexivity|lia|lia|apply Zmod_0_l].
    - pose proof (Nat.mod_upper_bound j n ltac:(lia)). split_and!; [apply swrap_id; [lia|unfold in_s; lia]|lia..|].
      change (Z.of_nat (j mod n) + 1) with (Z.succ (Z.of_nat (j mod n))).
      rewrite <- Nat2Z.inj_succ, <- Nat2Z.inj_mod. f_equal. rewrite <- (Nat.add_1_r (j mod n)), <- (Nat.add_1_r j).
      by rewrite Nat.Div0.add_mod_idemp_l. }
  rewrite E, u32_id by (unfold in_u; lia). rewrite Em. apply swrap_id; [lia|]. unfold in_s.
  pose proof (Nat.mod_upper_bound k n ltac:(lia)). lia.
Qed.

Lemma assigned_length (n i k : nat) hs : (i < n)%nat ->
  (length (assigned n i k hs) + (k + (n - 1 - i)) / n = (k + length hs + (n - 1 - i)) / n)%nat.
Proof.
  intros Hi. revert k. induction hs as [|h hs IH]; intros k; simpl; [f_equal; lia|].
  specialize (IH (S k)). rewrite length_app.
  replace (k + S (length hs) + (n - 1 - i))%nat with (S k + length hs + (n - 1 - i))%nat by lia. rewrite <- IH.
  assert ((S k + (n - 1 - i)) / n = (k + (n - 1 - i)) / n + (if (k mod n =? i)%nat then 1 else 0))%nat as ->.
  { pose proof (Nat.div_mod_eq k n). pose proof (Nat.mod_upper_bound k n ltac:(lia)). set (q := (k / n)%nat) in *. set (r := (k mod n)%nat) in *.
    replace (S k + (n - 1 - i))%nat with (S r + (n - 1 - i) + q * n)%nat by lia.
    replace (k + (n - 1 - i))%nat with (r + (n - 1 - i) + q * n)%nat by lia. rewrite !Nat.div_add by lia.
    destruct (Nat.eqb_spec r i) as [->|Hne].
    - replace (S i + (n - 1 - i))%nat with (0 + 1 * n)%nat by lia. rewrite Nat.div_add, Nat.Div0.div_0_l by lia.
      rewrite (Nat.div_small (i + (n - 1 - i))) by lia. lia.
    - destruct (decide (r < i)%nat).
      + rewrite !Nat.div_small by lia. lia.
      + replace (S r + (n - 1 - i))%nat with (r - i + 1 * n)%nat by lia. replace (r + (n - 1 - i))%nat with (r - i - 1 + 1 * n)%nat by lia.
        rewrite !Nat.div_add, !Nat.div_small by lia. lia. }
  destruct (k mod n =? i)%nat; simpl; lia.
Qed.

Definition roomy (capacity : Z) (s : PosixEventManager) (m : nat) : Prop :=
  Forall (fun w => notify_pipe w + Z.of_nat m <= capacity) (m_vConnsWorkers s).

Lemma AddEvents_ok capacity (n : nat) hs : (0 < n)%nat -> Z.of_nat n < 2 ^ 31 -> forall (k : nat) s,
  m_iConnWorkersCnt s = Z.of_nat n -> length (m_vConnsWorkers s) = n -> roomy capacity s (length hs) ->
  (k = 0%nat /\ m_iCurWorkerIdx s = -1 \/ exists j, k = S j /\ m_iCurWorkerIdx s = Z.of_nat (j mod n)) ->
  exists s', AddEvents capacity s hs = Ret s' /\
    (forall i w, m_vConnsWorkers s !! i = Some w -> exists w', m_vConnsWorkers s' !! i = Some w' /\
       m_lAddEpExtEvents w' = m_lAddEpExtEvents w ++ assigned n i k hs) /\
    (NoDup hs -> forall h, h ∉ hs -> own s' !! h = own s !! h) /\
    (NoDup hs -> forall j h, hs !! j = Some h -> own s' !! h = Some (Z.of_nat ((k + j) mod n))).
Proof.
  intros Hn Hb. induction hs as [|h hs IH]; intros k s Hc Hl Hr Hk.
  { exists s. split; [done|]. split_and!; [|done|intros _ j h E; discriminate].
    intros i w E. exists w. by rewrite app_nil_r. }
  pose proof (Nat.mod_upper_bound k n ltac:(lia)) as Hm.
  destruct (lookup_lt_is_Some_2 (m_vConnsWorkers s) (k mod n)) as [ew Hew]; [lia|].
  assert (notify_pipe ew + Z.of_nat (S (length hs)) <= capacity) as Hroom.
  { unfold roomy in Hr. rewrite Forall_lookup in Hr. by apply (Hr _ _ Hew). }
  cbn [AddEvents]. unfold AddEvent. rewrite Hc, (next_idx_step n k) by done. cbn [obind]. rewrite Nat2Z.id, Hew.
  unfold Wakeup. cbn [notify_pipe AddExternalEpAddEvent]. rewrite (proj2 (Z.ltb_lt _ _)) by lia. cbn [obind].
  match goal with |- context [AddEvents _ ?x hs] => set (s1 := x) end.
  destruct (IH (S k) s1) as (s' & E & Hw & Ho & Hj); [done|by simpl; rewrite length_insert|..].
  { unfold roomy in *. simpl. rewrite Forall_lookup in *. intros i w. rewrite list_lookup_insert_Some.
    intros [(<- & <- & _)|(_ & Ew)]; [simpl; lia|]. specialize (Hr _ _ Ew). simpl in Hr. lia. }
  { right. by exists k. }
  exists s'. split; [done|]. split_and!.
  - intros i w Ei. destruct (decide (i = (k mod n)%nat)) as [->|Hne].
    + rewrite Hew in Ei. injection Ei as <-. edestruct (Hw (k mod n)%nat) as (w' & E1 & E2); [apply list_lookup_insert_eq; lia|].
      exists w'. split; [done|]. rewrite E2. simpl. rewrite Nat.eqb_refl, <- app_assoc. done.
    + destruct (Hw i w) as (w' & E1 & E2); [simpl; by rewrite list_lookup_insert_ne|].
      exists w'. split; [done|]. rewrite E2. simpl. rewrite (proj2 (Nat.eqb_neq _ _)); [done|congruence].
  - intros Hd x Hx. apply NoDup_cons in Hd as [Hnh Hd]. apply not_elem_of_cons in Hx as [Hxh Hx].
    rewrite (Ho Hd x Hx). simpl. by rewrite lookup_insert_ne.
  - intros Hd [|j] x E0; apply NoDup_cons in Hd as [Hnh Hd]; simpl in E0.
    + injection E0 as <-. rewrite (Ho Hd h Hnh). simpl. rewrite lookup_insert_eq. do 2 f_equal. f_equal. lia.
    + rewrite (Hj Hd j x E0). do 2 f_equal. f_equal. lia.
Qed.

(** The manager deals the connections out in turn: from a manager just
    started with [n] connection workers, adding the handlers [hs] puts the
    [j]-th of them into the queue of worker [j mod n] and makes that its own
    worker, nothing else enters the queues, and the shares of two workers
    differ by one at most. *)
Theorem manager_round_robin (capacity : Z) (n : nat) (hs : list Z) (s : PosixEventManager) :
  (0 < n)%nat -> Z.of_nat n < 2 ^ 31 -> m_iConnWorkersCnt s = Z.of_nat n -> m_iCurWorkerIdx s = -1 ->
  m_vConnsWorkers s = replicate n (mkEW [] [] [] 0) -> Z.of_nat (length hs) <= capacity -> NoDup hs ->
  exists s', AddEvents capacity s hs = Ret s' /\
    (forall i, (i < n)%nat -> exists w, m_vConnsWorkers s' !! i = Some w /\ m_lAddEpExtEvents w = assigned n i 0 hs) /\
    (forall j h, hs !! j = Some h -> own s' !! h = Some (Z.of_nat (j mod n))) /\
    (forall i j, (i < n)%nat -> (j < n)%nat -> (length (assigned n i 0 hs) <= length (assigned n j 0 hs) + 1)%nat).
Proof.
  intros Hn Hb Hc Hi Hw Hl Hd. destruct (AddEvents_ok capacity n hs Hn Hb 0 s) as (s' & E & Ha & _ & Ho); try done.
  { by rewrite Hw, length_replicate. }
  { unfold roomy. rewrite Hw. apply Forall_replicate. simpl. lia. }
  { by left. }
  exists s'. split_and!; [done|..].
  - intros i Hin. destruct (Ha i (mkEW [] [] [] 0)) as (w & E1 & E2); [rewrite Hw; by apply lookup_replicate_2|]. by exists w.
  - intros j h Eh. by rewrite (Ho Hd j h Eh).
  - intros i j Hin Hjn. pose proof (assigned_length n i 0 hs Hin) as Ei. pose proof (assigned_length n j 0 hs Hjn) as Ej.
    rewrite (Nat.div_small (0 + (n - 1 - i))) in Ei by lia. rewrite (Nat.div_small (0 + (n - 1 - j))) in Ej by lia.
    rewrite Nat.add_0_r in Ei, Ej. rewrite Ei, Ej. rewrite !Nat.add_0_l.
    transitivity ((length hs + (n - 1 - j) + 1 * n) / n)%nat; [apply Nat.Div0.div_le_mono; lia|]. rewrite Nat.div_add by lia. lia.
Qed.

Lemma manager_round_robin_witness : exists s', AddEvents 65536 (mkPEM true false 512 2 (-1) false None None (replicate 2 (mkEW [] [] [] 0)) ∅)
    [100; 200; 300] = Ret s' /\ own s' !! 300 = Some 0.
Proof.
  destruct (manager_round_robin 65536 2 [100; 200; 300] (mkPEM true false 512 2 (-1) false None None (replicate 2 (mkEW [] [] [] 0)) ∅))
    as (s' & E & _ & Ho & _); [lia|lia|reflexivity|reflexivity|reflexivity|simpl; lia| |].
  { apply (bool_decide_unpack _). vm_compute. exact I. }
  exists s'. split; [exact E|]. exact (Ho 2%nat 300 eq_refl).
Defined.

End Manager.
