(* ===== verification/Handlers.v ===== *)
(** * Handlers: the event handler of a connection

    Models src/src/net/net-protocol-stacks/nonblocking/socket/network-api/posix/tcp/connection-event-handler.cc
    and what the other two handlers do not support, and composes the handler
    with [process_event] of posix/event-manager.cc: what one event of a
    connection does, from the mask the driver reports to the bytes and
    messages. *)

From S2P Require Import Prelude Codec PoolApi Buffer Message NetWorker RecvProofs SendProofs Delivery Locks EventLoop.

Module Handlers.

Section handler.
Context `{A : MemPoolApi} `{U : ByteOrderUtils} `{P : ProtoMsg}.
Context (sizeof_RcvMessage : Z) (m_onLogicConnect : net_peer_info_t -> bool).
Abbreviation conn := (conn (A := A) (P := P)).

(** ** PosixTcpConnectionEventHandler *)

(** The two constructors make the worker, as a client with the logic port or
    as a server with port 0. *)
Definition ConnectionEventHandler_client (logicPort : Z) (real logic : net_peer_info_t) (e : env (A := A)) : outcome conn :=
  Worker_new Client logicPort real logic e.
Definition ConnectionEventHandler_server (real logic : net_peer_info_t) (e : env (A := A)) : outcome conn :=
  Worker_new Server 0 real logic e.
Definition ConnectionEventHandler_delete (c : conn) : outcome conn := Worker_delete c.

Definition Handler_Initialize (fuel : nat) (c : conn) : outcome (conn * init_result) := Initialize sizeof_RcvMessage m_onLogicConnect fuel c.
Definition HandleReadEvent (fuel : nat) (c : conn) : outcome (conn * bool) := Recv sizeof_RcvMessage m_onLogicConnect fuel c false.
Definition HandleWriteEvent (fuel : nat) (c : conn) : outcome (conn * bool) := Send fuel c.

(** The worker of a handler: only a connection has one. *)
Inductive handler := Connection (c : conn) | Listening | LocalRead.
Definition GetStackMsgWorker (h : handler) : outcome conn :=
  match h with
  | Connection c => Ret c
  | Listening => Throw "Not support -- PosixTcpServerEventHandler::GetStackMsgWorker!"
  | LocalRead => Throw "Not support -- PosixLocalReadEventHandler::GetStackMsgWorker!"
  end.

(** ** One event *)

(** The connection, and whether [m_onFinish] was called for it. *)
Definition connection_event (fuel : nat) (evMask : Z) (c : conn) : outcome (conn * bool) :=
  Manager.process_event
    (fun s : conn * bool => let* (c, ok) := HandleReadEvent fuel s.1 in Ret ((c, s.2), ok))
    (fun s => let* (c, ok) := HandleWriteEvent fuel s.1 in Ret ((c, s.2), ok))
    (fun s => Ret (s.1, true)) evMask (c, false).

(** *** Receiving leaves the sending half alone *)

Record frame (c c' : conn) : Prop := mkFrame {
  fr_snd : c_snd c' = c_snd c;
  fr_hs : c_hs c' = c_hs c;
  fr_wr : e_wr (c_env c') = e_wr (c_env c);
  fr_out : e_out (c_env c') = e_out (c_env c)
}.

Lemma frame_trans c1 c2 c3 : frame c1 c2 -> frame c2 c3 -> frame c1 c3.
Proof. intros [] []. split; congruence. Qed.

Ltac frame_cases H :=
  repeat (match type of H with
          | context [obind ?x _] => destruct x eqn:?; cbn [obind] in H; try discriminate H
          | context [match ?x with _ => _ end] => destruct x eqn:?; try discriminate H
          end); simplify_eq; try (split; reflexivity).

Lemma header_step_frame c pos n c' rc intr : rcv_header_step c pos n = Ret (c', rc, intr) -> frame c c'.
Proof.
  unfold rcv_header_step. intros H. destruct (Read _ _) as [rd res]. destruct res; [|frame_cases H..].
  destruct (poke_bytes _ _ _) as [m| | |]; cbn [obind] in H; try discriminate H. unfold ParseHeader in H. cbv zeta in H. frame_cases H.
Qed.

Lemma payload_step_frame recv send c b pos n brk c' rc intr : m_connState (c_hs c) = Connected ->
  rcv_payload_step sizeof_RcvMessage m_onLogicConnect recv send c b pos n brk = Ret (c', rc, intr) -> frame c c'.
Proof.
  intros Hc. unfold rcv_payload_step. intros H. destruct (Read _ _) as [rd res]. destruct res; [|frame_cases H..].
  destruct (poke_bytes _ _ _) as [m| | |]; cbn [obind] in H; try discriminate H. unfold CheckPayload, getNewRcvMessage in H. cbv zeta in H.
  cbn [set_rcv set_world set_env set_rd c_rcv c_hs c_env m_payloadBuffer] in H.
  destruct (Z.eqb _ _); [|frame_cases H].
  destruct (mp_get _ _) as [[[w k] p]| | |]; cbn [obind] in H; try discriminate H.
  cbn [c_hs set_world set_env set_rcv set_rd] in H. rewrite decide_True in H by exact Hc.
  destruct (buffer_data _ _) as [bs'| | |]; cbn [obind] in H; try discriminate H. frame_cases H.
Qed.

Lemma recv_turn_frame recv send c brk c' rc intr : m_connState (c_hs c) = Connected ->
  recv_turn sizeof_RcvMessage m_onLogicConnect recv send c brk = Ret (c', rc, intr) -> frame c c'.
Proof.
  intros Hc. unfold recv_turn. destruct (m_rcvState (c_rcv c)).
  - destruct (BZero _ _) as [[m hb]| | |]; cbn [obind]; intros H; try discriminate H. apply header_step_frame in H. by destruct H.
  - intros H. by apply header_step_frame in H.
  - destruct (mp_get _ _) as [[[w k] p]| | |]; cbn [obind]; intros H; try discriminate H.
    destruct (GetNewBuffer_mpo _ _ _ _ _) as [[[w' fb] b]| | |]; cbn [obind] in H; try discriminate H.
    apply payload_step_frame in H; [by destruct H|exact Hc].
  - destruct (m_payloadBuffer (c_rcv c)) as [b|]; intros H; [|discriminate H]. by apply payload_step_frame in H.
Qed.

Lemma Recv_frame fuel c c' rc : m_connState (c_hs c) = Connected -> Recv sizeof_RcvMessage m_onLogicConnect fuel c false = Ret (c', rc) -> frame c c'.
Proof.
  revert c. induction fuel as [|fuel IH]; intros c Hc H; cbn [Recv] in H; [discriminate H|].
  destruct (recv_turn _ _ _ _ _ _) as [[[c1 r] i]| | |] eqn:E; cbn [obind] in H; try discriminate H.
  apply recv_turn_frame in E; [|exact Hc]. destruct (r && negb i); [|by simplify_eq].
  eapply frame_trans; [exact E|]. apply IH; [by rewrite (fr_hs _ _ E)|exact H].
Qed.

End handler.

Section events.
Context `{A : MemPoolApi} `{AL : !MemPoolLaws A} `{U : ByteOrderUtils} `{UL : !ByteOrderLaws U} `{P : ProtoMsg} `{PL : !ProtoMsgLaws P}.
Context (sizeof_RcvMessage : Z) (m_onLogicConnect : net_peer_info_t -> bool) (sizeof_ok : 0 < sizeof_RcvMessage <= max_request).
Abbreviation conn := (conn (A := A) (P := P)).

(** A connection ready for an event: the bytes of [todo] arrive, part of the
    first message may be here already; the queued messages can be encoded and
    none is half written; the pool has room for both. *)
Record ready (c : conn) (ha : Z) (todo : list (Z * list Z)) : Prop := mkReady {
  rd_pending : pending (S (turns_left c)) c ha todo;
  rd_whole : m_pSendingBuffer (c_snd c) = None;
  rd_queue : Forall snd_ok (m_bqMessages (c_snd c));
  rd_writes : wr_clean (e_wr (c_env c))
}.

Lemma pending_sbase x c ha todo : pending x c ha todo -> m_pSendingBuffer (c_snd c) = None -> Forall snd_ok (m_bqMessages (c_snd c)) ->
  wr_clean (e_wr (c_env c)) -> sbase c [] x.
Proof.
  intros (Hb & _) Hn Hq Hw. destruct Hb as [Hp Hr Hf]. split; try done.
  - eapply room_weaken; [|exact Hr]. lia.
  - unfold sending. by rewrite Hn.
Qed.

(** The read half of an event. *)
Lemma read_part fuel mask c ha todo : ready c ha todo -> (rd_size (e_rd (c_env c)) < fuel)%nat ->
  exists c' dn todo', (if Z.eqb (Z.land mask EVENT_READ) 0 then Ret (c, true) else HandleReadEvent sizeof_RcvMessage m_onLogicConnect fuel c) = Ret (c', true) /\
    todo = dn ++ todo' /\ ready c' ha todo' /\ frame c c' /\
    e_notified (c_env c') = e_notified (c_env c) ++ (notification (m_logicPeer (c_hs c)) <$> dn) /\
    (Z.land mask EVENT_READ = 0 -> dn = []).
Proof using UL sizeof_ok.
  intros Hr Hf. destruct (Z.eqb_spec (Z.land mask EVENT_READ) 0) as [E|E].
  - exists c, [], todo. split; [done|]. split; [done|]. split; [done|]. split; [by split|]. by rewrite app_nil_r.
  - pose proof Hr as [Hp Hw Hq Hc]. destruct (Recv_pending sizeof_RcvMessage m_onLogicConnect sizeof_ok fuel _ c ha todo Hp Hf)
      as (c' & Er & (dn & todo' & -> & Hp' & _ & Hn) & _).
    destruct (Recv_frame _ _ _ _ _ _ (b_conn _ _ _ (proj1 Hp)) Er) as [F1 F2 F3 F4].
    exists c', dn, todo'. split; [exact Er|]. split; [done|]. split; [|split; [by split|by split]].
    split; try (by rewrite ?F1, ?F3). unfold turns_left. by rewrite F1, F3.
Qed.

(** The write half of an event. *)
Lemma write_part fuel mask c ha todo : ready c ha todo -> (turns_left c < fuel)%nat ->
  exists c' cur bs, (if Z.eqb (Z.land mask EVENT_WRITE) 0 then Ret (c, true) else HandleWriteEvent fuel c) = Ret (c', true) /\
    e_out (c_env c') = e_out (c_env c) ++ bs /\ to_send c [] = bs ++ to_send c' cur /\
    e_notified (c_env c') = e_notified (c_env c) /\ (Z.land mask EVENT_WRITE = 0 -> bs = []).
Proof using UL PL.
  intros [Hp Hw Hq Hc] Hf. destruct (Z.eqb_spec (Z.land mask EVENT_WRITE) 0) as [E|E].
  - exists c, [], []. split; [done|]. by rewrite app_nil_r.
  - destruct (Send_ok fuel c [] 0) as (c' & cur & Es & _ & [(bs & Ho & Ht) Hn _] & _); [|done|].
    { rewrite Nat.add_0_r. by eapply pending_sbase. }
    exists c', cur, bs. split; [exact Es|]. done.
Qed.

(** What one event does to an established connection: with a mask for
    reading, the messages that are complete are handed up in order and the
    rest stays pending; with a mask for writing, a prefix of the queued
    messages' bytes is written, in order, and exactly the rest is still to be
    sent; without the mask the half is not touched.  No handler fails, so the
    connection is not finished. *)
Theorem event_served (fuel : nat) (mask : Z) (c : conn) (ha : Z) (todo : list (Z * list Z)) :
  ready c ha todo -> (rd_size (e_rd (c_env c)) < fuel)%nat -> (turns_left c < fuel)%nat ->
  exists c' cur dn todo' bs, connection_event sizeof_RcvMessage m_onLogicConnect fuel mask c = Ret (c', false) /\
    todo = dn ++ todo' /\ e_notified (c_env c') = e_notified (c_env c) ++ (notification (m_logicPeer (c_hs c)) <$> dn) /\
    e_out (c_env c') = e_out (c_env c) ++ bs /\ to_send c [] = bs ++ to_send c' cur /\
    (Z.land mask EVENT_READ = 0 -> dn = []) /\ (Z.land mask EVENT_WRITE = 0 -> bs = []).
Proof using UL PL sizeof_ok.
  intros Hr Hf Hf2. destruct (read_part fuel mask c ha todo Hr Hf) as (c1 & dn & todo' & E1 & Et & Hr1 & F & Hn1 & Hd).
  destruct F as [F1 F2 F3 F4]. assert (turns_left c1 = turns_left c) as Etl by (unfold turns_left; by rewrite F1, F3).
  destruct (write_part fuel mask c1 ha todo' Hr1 ltac:(lia)) as (c2 & cur & bs & E2 & Ho & Hs & Hn2 & Hb).
  exists c2, cur, dn, todo', bs. split.
  - unfold connection_event, Manager.process_event. cbn [fst snd].
    assert ((if Z.eqb (Z.land mask EVENT_READ) 0 then Ret ((c, false), true) else let* (c, ok) := HandleReadEvent sizeof_RcvMessage m_onLogicConnect fuel c in Ret ((c, false), ok)) = Ret ((c1, false), true)) as ->.
    { destruct (Z.eqb _ _); [by simplify_eq|by rewrite E1]. }
    cbn [obind andb fst snd]. destruct (Z.eqb (Z.land mask EVENT_WRITE) 0); cbn [negb]; [by simplify_eq|by rewrite E2].
  - split; [done|]. split; [by rewrite Hn2|]. split; [by rewrite Ho, F4|]. split; [|done].
    rewrite <- Hs. unfold to_send. by rewrite F1.
Qed.

End events.

(** ** The base classes of the handlers *)
Section base_classes.

(** [FileDescriptor]: the descriptor and the two names of the peer. *)
Record FileDescriptor := mkFD { fd_m_fd : Z; m_real_peer : net_peer_info_t; m_logic_peer : net_peer_info_t }.
Definition no_peer : net_peer_info_t := mkPeer (mkAddr EmptyString 0) ProtoNone.
Definition FileDescriptor_new (sd : Z) (realPeer : net_peer_info_t) : FileDescriptor := mkFD sd realPeer no_peer.
Definition GetFd (d : FileDescriptor) : Z := fd_m_fd d.
Definition GetRealPeerInfo (d : FileDescriptor) : net_peer_info_t := m_real_peer d.
Definition SetLogicPeerInfo (d : FileDescriptor) (peer : net_peer_info_t) : FileDescriptor := mkFD (fd_m_fd d) (m_real_peer d) peer.
Definition GetLogicPeerInfo (d : FileDescriptor) : net_peer_info_t := m_logic_peer d.

(** [AFileEventHandler]: the count of the base class, the descriptor and the
    event worker, by its number. *)
Record AFileEventHandler := mkAFEH { m_iRef : Z; m_socketDesc : option FileDescriptor; m_pOwnEvWorker : option Z }.
Definition AFileEventHandler_new (socketDesc : option FileDescriptor) : AFileEventHandler := mkAFEH 1 socketDesc None.
Definition GetSocketDescriptor (h : AFileEventHandler) : option FileDescriptor := m_socketDesc h.
Definition setSocketDescriptor (h : AFileEventHandler) (psd : option FileDescriptor) : AFileEventHandler := mkAFEH (m_iRef h) psd (m_pOwnEvWorker h).
Definition SetOwnWorker (h : AFileEventHandler) (ew : Z) : AFileEventHandler := mkAFEH (m_iRef h) (m_socketDesc h) (Some ew).
Definition GetOwnWorker (h : AFileEventHandler) : option Z := m_pOwnEvWorker h.
Definition Handler_AddRef (h : AFileEventHandler) : AFileEventHandler := mkAFEH (ReferenceCounter.AddRef (m_iRef h)) (m_socketDesc h) (m_pOwnEvWorker h).

(** [Release]: the event worker that is told to delete the handler. *)
Definition Handler_Release (h : AFileEventHandler) : AFileEventHandler * option Z :=
  let '(n, gone) := ReferenceCounter.handler_Release (m_iRef h) in
  (mkAFEH n (m_socketDesc h) (m_pOwnEvWorker h), if gone then m_pOwnEvWorker h else None).

(** [PosixLocalReadEventHandler]: constructor and destructor, over the set of
    open descriptors. *)
Definition LocalRead_new (fd : Z) : AFileEventHandler := setSocketDescriptor (AFileEventHandler_new None) (Some (FileDescriptor_new fd no_peer)).
Definition LocalRead_delete (open : gset Z) (m_fd : Z) : gset Z := open ∖ {[m_fd]}.
Definition LocalRead_Initialize : bool := true.

(** The life of a handler: one reference for its owner and one for a sender at
    a time leave it to the last release; without an event worker nobody is
    told to delete it. *)
Lemma handler_life d ew :
  let h := AFileEventHandler_new d in
  (forall n : nat, (Handler_Release (Nat.iter n (fun h => (Handler_Release (Handler_AddRef h)).1) (SetOwnWorker h ew))).2 = Some ew) /\
  (forall h', m_pOwnEvWorker h' = None -> (Handler_Release h').2 = None).
Proof.
  cbv zeta. split.
  - intros n. replace (Nat.iter n _ _) with (SetOwnWorker (AFileEventHandler_new d) ew); [done|].
    induction n as [|n IH]; [done|]. rewrite Nat.iter_succ, <- IH. done.
  - intros h' E. unfold Handler_Release. rewrite E. by destruct (ReferenceCounter.handler_Release _) as [? []].
Qed.

End base_classes.

(** ** The end of a connection *)
Section finish.
Context `{A : MemPoolApi} `{U : ByteOrderUtils} `{P : ProtoMsg}.
Context (sizeof_RcvMessage : Z) (m_onLogicConnect : net_peer_info_t -> bool).

(** The peer has closed the connection between two messages: the user is
    told once, nothing is written even if the mask asks for it, and the
    connection is finished. *)
Theorem event_closed (fuel : nat) (mask : Z) (c : conn (A := A) (P := P)) (m : mem) (hb : Buffer) (rest : list rd_event) :
  m_rcvState (c_rcv c) = StartToRcvHeader -> e_rd (c_env c) = RdEof :: rest ->
  BZero (w_mem (e_world (c_env c))) (m_pHeaderBuffer (c_rcv c)) = Ret (m, hb) -> Z.land mask EVENT_READ <> 0 ->
  exists c', connection_event sizeof_RcvMessage m_onLogicConnect (S fuel) mask c = Ret (c', true) /\
    e_notified (c_env c') = e_notified (c_env c) ++ [WorkerNotifyMessage ClosedByPeer (m_realPeer (c_hs c))] /\
    e_out (c_env c') = e_out (c_env c) /\ c_snd c' = c_snd c.
Proof.
  intros Hs Hrd Hz Hm. unfold connection_event, Manager.process_event, HandleReadEvent. cbn [fst snd].
  rewrite (proj2 (Z.eqb_neq _ _) Hm). cbn [Recv]. unfold recv_turn at 1. rewrite Hs, Hz. cbn [obind].
  unfold rcv_header_step. cbn [set_rcv set_world set_env c_env e_rd]. rewrite Hrd.
  assert (forall n, Read (RdEof :: rest) n = (RdEof :: rest, RZero)) as Hread by (intros n; cbn [Read]; by destruct (Z.leb n 0)).
  rewrite Hread. cbn [obind andb]. eexists. split; [reflexivity|]. split; [reflexivity|]. split; reflexivity.
Qed.

End finish.
End Handlers.

(** ** Examples *)
Module HandlersDemo.
Import Process Handlers.

(** A connection with two queued messages, whose reads bring two others. *)
Definition busy : NetWorker.conn := worker Server Connected true q0 rd0 (replicate 60 (WrRoom 1)).

Lemma busy_ready : ready busy 4096 msgs0.
Proof.
  split.
  - split; [apply worker_base; [exact rd0_clean|vm_compute; reflexivity]|]. split; [exact msgs0_ok|].
    exists 0%nat. split; [cbn; lia|]. split; [reflexivity|vm_compute; reflexivity].
  - reflexivity.
  - exact (s_queue _ _ _ snd0_sbase).
  - apply Forall_replicate. done.
Qed.

Lemma event_served_witness : exists c' cur dn todo' bs, connection_event 120 (fun _ => true) 200 3 busy = Ret (c', false) /\
  msgs0 = dn ++ todo' /\ e_out (c_env c') = [] ++ bs /\ stream (snd_msg <$> q0) = bs ++ to_send c' cur.
Proof.
  destruct (event_served 120 (fun _ => true) sizeof_ok 200 3 busy 4096 msgs0 busy_ready ltac:(vm_compute; lia) ltac:(vm_compute; lia))
    as (c' & cur & dn & todo' & bs & E & Et & _ & Ho & Hs & _).
  exists c', cur, dn, todo', bs. split; [exact E|]. split; [exact Et|]. split; [exact Ho|exact Hs].
Defined.

End HandlersDemo.
