(* ===== verification/Duplex.v ===== *)
(** * Duplex: both directions of a connection, over many events

    The receiving and the sending half of a worker share the pool and the
    memory of the process.  This file separates what each half owns, shows
    that a turn of one half leaves the objects of the other alone, and
    concludes what any sequence of events and of messages posted in between
    does to an established connection (net-stack-worker.cc,
    connection-event-handler.cc and event-manager.cc together). *)

From S2P Require Import Prelude Codec PoolApi Buffer Message NetWorker RecvProofs SendProofs Delivery EventLoop Handlers.

Module Duplex.
Import Handlers.

Section duplex.
Context `{A : MemPoolApi} `{AL : !MemPoolLaws A} `{U : ByteOrderUtils} `{UL : !ByteOrderLaws U} `{P : ProtoMsg} `{PL : !ProtoMsgLaws P}.
Context (sizeof_RcvMessage : Z) (m_onLogicConnect : net_peer_info_t -> bool) (sizeof_ok : 0 < sizeof_RcvMessage <= max_request).
Abbreviation conn := (conn (A := A) (P := P)).
#[local] Abbreviation wld c := (e_world (c_env c)).
#[local] Abbreviation cpool c := (w_pool (e_world (c_env c))).
#[local] Abbreviation cmem c := (w_mem (e_world (c_env c))).
#[local] Abbreviation hbuf c := (m_pHeaderBuffer (c_rcv c)).

(** ** Objects that are left alone *)

(** The object [k] at [[a, a + s)] is still live and its bytes are unchanged. *)
Record keeps (w w' : world A) (k : positive) (a s : Z) : Prop := mkKeeps {
  ke_live : obj_live (w_pool w') k a s;
  ke_bytes : forall x v, a <= x < a + s -> w_mem w !! x = Some v -> w_mem w' !! x = Some v
}.

Lemma keeps_same w w' k a s : w_pool w' = w_pool w -> w_mem w' = w_mem w -> obj_live (w_pool w) k a s -> keeps w w' k a s.
Proof. intros E1 E2 H. split; [by rewrite E1|by rewrite E2]. Qed.

Lemma keeps_trans w1 w2 w3 k a s : keeps w1 w2 k a s -> keeps w2 w3 k a s -> keeps w1 w3 k a s.
Proof. intros [] []. split; [done|]. eauto. Qed.

Lemma keeps_range w w' k a s x n : keeps w w' k a s -> a <= x -> x + n <= a + s -> range_ok (w_mem w) x n -> range_ok (w_mem w') x n.
Proof. intros [_ Hb] H1 H2 Hr y Hy. destruct (Hr y Hy) as [v Hv]. exists v. apply Hb; [lia|done]. Qed.

Lemma keeps_bytes w w' k a s x bs : keeps w w' k a s -> a <= x -> x + Z.of_nat (length bs) <= a + s ->
  bytes_at (w_mem w) x bs -> bytes_at (w_mem w') x bs.
Proof. intros [_ Hb] H1 H2 Hr i b Hi. apply Hb; [|by apply Hr]. apply lookup_lt_Some in Hi. lia. Qed.

(** A request leaves every live object alone, and is none of them. *)
Lemma get_keeps w n w' k0 a0 m : mp_get w n = Ret (w', k0, a0) -> pool_ok (w_pool w) -> 0 < n <= max_request -> room (S m) (w_pool w) ->
  forall k a s, obj_live (w_pool w) k a s -> k <> k0 /\ keeps w w' k a s.
Proof.
  intros E Hp Hn Hr k a s Hl. destruct (mp_get_ok w n m Hp Hn Hr) as (w1 & k1 & a1 & s1 & E1 & Em & _ & _ & _ & _ & _ & _ & _ & Hno & Hiff).
  rewrite E in E1. injection E1 as <- <- <-. assert (k <> k0) as Hne by (intros ->; exact (Hno _ _ Hl)). split; [exact Hne|]. split; [by apply Hiff|].
  intros x v _ Hx. rewrite Em. by apply touch_keeps.
Qed.

(** So does a write inside another object. *)
Lemma fill_keeps w w' k' a' s' pos bs k a s : pool_ok (w_pool w) -> obj_live (w_pool w) k' a' s' -> obj_live (w_pool w) k a s -> k <> k' ->
  a' <= pos -> pos + Z.of_nat (length bs) <= a' + s' -> w_pool w' = w_pool w -> w_mem w' = fill (w_mem w) pos bs -> keeps w w' k a s.
Proof.
  intros Hp H1 H2 Hne Ha Hs E1 E2. split; [by rewrite E1|]. intros x v Hx Hv. rewrite E2, fill_lookup_out; [done|].
  destruct (law_disjoint _ _ _ _ _ _ _ Hp H1 H2) as [?|?]; [congruence|lia|lia].
Qed.

(** ** What a half owns *)

(** The start, the end and the object of a buffer. *)
Definition span (b : Buffer) : Z * Z * option positive := (m_pStart b, m_pEnd b, m_pMpObject b).

Lemma grow_span b n : span (grow b n) = span b.
Proof. unfold grow, span. destruct (Z.eqb _ _); unfold MoveTailBack, SetPos, check_available; repeat case_match; done. Qed.

(** The buffer lies in an object that is live. *)
Definition held (p : pool) (sp : Z * Z * option positive) : Prop :=
  exists k s, sp.2 = Some k /\ obj_live p k sp.1.1 s /\ sp.1.2 < sp.1.1 + s.

(** The header buffer, and the payload buffer while a payload is being received. *)
Definition rcv_spans (c : conn) : list (Z * Z * option positive) :=
  span (hbuf c) :: match m_rcvState (c_rcv c), m_payloadBuffer (c_rcv c) with RcvingPayload, Some b => [span b] | _, _ => [] end.
(** The buffer being sent. *)
Definition snd_spans (c : conn) : list (Z * Z * option positive) :=
  match m_pSendingBuffer (c_snd c) with Some b => [span b] | None => [] end.

Definition owns (l : list (Z * Z * option positive)) (k : positive) : Prop := Some k ∈ (snd <$> l).

Record owned (p : pool) (l : list (Z * Z * option positive)) : Prop := mkOwned {
  ow_held : Forall (held p) l;
  ow_nodup : NoDup (snd <$> l)
}.

(** A step from [c] to [c'] of the half that has the buffers [f]: its buffers
    are its own, and every other live object is left alone and does not
    become its own. *)
Record hstep (f : conn -> list (Z * Z * option positive)) (c c' : conn) : Prop := mkHstep {
  hs_owned : owned (cpool c') (f c');
  hs_keeps : forall k a s, obj_live (cpool c) k a s -> ~ owns (f c) k -> keeps (wld c) (wld c') k a s /\ ~ owns (f c') k
}.

Lemma hstep_trans f c1 c2 c3 : hstep f c1 c2 -> hstep f c2 c3 -> hstep f c1 c3.
Proof.
  intros [O1 K1] [O2 K2]. split; [exact O2|]. intros k a s Hl Hn. destruct (K1 k a s Hl Hn) as [H1 N1].
  destruct (K2 k a s (ke_live _ _ _ _ _ H1) N1) as [H2 N2]. split; [by eapply keeps_trans|exact N2].
Qed.

(** A step that gives up some buffers and takes [new] ones, of fresh objects. *)
Lemma hstep_intro f c c' new : owned (cpool c) (f c) -> f c' `sublist_of` f c ++ new ->
  Forall (held (cpool c')) new -> NoDup (snd <$> new) -> (forall k a s, owns new k -> ~ obj_live (cpool c) k a s) ->
  (forall sp, sp ∈ f c -> sp ∈ f c' -> held (cpool c) sp -> held (cpool c') sp) ->
  (forall k a s, obj_live (cpool c) k a s -> ~ owns (f c) k -> keeps (wld c) (wld c') k a s) -> hstep f c c'.
Proof.
  intros [Hh Hd] Hsub Hnew Hnd Hfresh Hold Hk. split; [split|].
  - apply Forall_forall. intros sp Hsp. pose proof (sublist_subseteq _ _ Hsub _ Hsp) as Hin. apply elem_of_app in Hin as [Hin|Hin].
    + rewrite Forall_forall in Hh. by apply Hold, Hh.
    + rewrite Forall_forall in Hnew. by apply Hnew.
  - apply (sublist_NoDup _ (snd <$> (f c ++ new))); [|by apply fmap_sublist]. rewrite fmap_app. apply NoDup_app. split; [exact Hd|]. split; [|exact Hnd].
    intros o Ho Ho'. apply list_elem_of_fmap in Ho as (sp & -> & Hsp). rewrite Forall_forall in Hh. destruct (Hh _ Hsp) as (k & s & E & Hl & _).
    rewrite E in Ho'. by eapply Hfresh.
  - intros k a s Hl Hn. split; [by apply Hk|]. intros Ho. unfold owns in *. apply list_elem_of_fmap in Ho as (sp & E & Hsp).
    pose proof (sublist_subseteq _ _ Hsub _ Hsp) as Hin. apply elem_of_app in Hin as [Hin|Hin].
    + apply Hn. apply list_elem_of_fmap. by exists sp.
    + eapply Hfresh; [|exact Hl]. apply list_elem_of_fmap. by exists sp.
Qed.

(** ** Receiving *)

Lemma owns_cons sp l k : owns (sp :: l) k <-> sp.2 = Some k \/ owns l k.
Proof. unfold owns. rewrite fmap_cons, elem_of_cons. split; intros [H|H]; auto. Qed.

Lemma held_same p sp sp' : span sp = span sp' -> held p (span sp) -> held p (span sp').
Proof. by intros ->. Qed.

(** A step that only writes into the header buffer or into nothing. *)
Lemma header_hstep c c' pos bs : owned (cpool c) (rcv_spans c) -> pool_ok (cpool c) ->
  rcv_spans c' = rcv_spans c -> cpool c' = cpool c -> cmem c' = fill (cmem c) pos bs ->
  m_pStart (hbuf c) <= pos -> pos + Z.of_nat (length bs) <= m_pEnd (hbuf c) + 1 -> hstep rcv_spans c c'.
Proof.
  intros Ho Hp Es Ep Em H1 H2. apply (hstep_intro _ _ _ []); try done; [rewrite Es, app_nil_r; done|constructor|intros k a s H; by apply elem_of_nil in H|by rewrite Ep|].
  intros k a s Hl Hn. destruct Ho as [Hh _]. apply Forall_cons in Hh as [(k' & s' & E & Hl' & Hs) _]. cbn [span fst snd] in E, Hl', Hs.
  eapply (fill_keeps _ _ k' _ s' pos bs); try done; [|lia]. intros ->. apply Hn. apply owns_cons. by left.
Qed.

(** A step that leaves the memory and the pool as they are. *)
Lemma same_hstep f c c' : owned (cpool c) (f c) -> f c' = f c -> wld c' = wld c -> hstep f c c'.
Proof.
  intros Ho Ef Ew. split; [by rewrite Ef, Ew|]. intros k a x Hl Hn. rewrite Ef. split; [|exact Hn]. apply keeps_same; [by rewrite Ew..|exact Hl].
Qed.

(** Reading into the header buffer. *)
Lemma header_step_hstep c ha m pos n c' rc intr : base c ha m -> owned (cpool c) (rcv_spans c) -> m_rcvState (c_rcv c) <> RcvingPayload ->
  0 < n -> ha <= pos -> pos + n <= ha + 16 -> rcv_header_step c pos n = Ret (c', rc, intr) -> hstep rcv_spans c c'.
Proof.
  intros Hb Ho Hst Hn Hp1 Hp2 H. unfold rcv_header_step in H.
  destruct (Read_clean (e_rd (c_env c)) n (b_clean _ _ _ Hb) Hn) as (s' & r & E & _ & _ & Hcase). rewrite E in H.
  destruct Hcase as [[-> _]|(bs & -> & _ & Hle & Hbb & _)].
  { cbn in H. simplify_eq. by apply same_hstep. }
  rewrite poke_bytes_fill in H; [|done|eapply range_ok_sub; [exact (b_range _ _ _ Hb)|lia|lia]]. cbn [obind] in H.
  pose proof (b_start _ _ _ Hb) as Hs. pose proof (b_end _ _ _ Hb) as He.
  assert (forall c1, c_env c1 = c_env (set_world (set_rd c s') (set_mem (wld c) (fill (cmem c) pos bs)) (e_free (c_env c))) \/
      (exists nm, c_env c1 = c_env (HandleMessage (set_world (set_rd c s') (set_mem (wld c) (fill (cmem c) pos bs)) (e_free (c_env c))) nm)) ->
    span (hbuf c1) = span (hbuf c) -> m_rcvState (c_rcv c1) <> RcvingPayload -> hstep rcv_spans c c1) as Hgo.
  { intros c1 Ec Eh Hs1. apply (header_hstep c c1 pos bs); try done; try (destruct Ec as [->|[nm ->]]; reflexivity); [by apply Hb| |lia|lia].
    unfold rcv_spans. rewrite Eh. f_equal. by destruct (m_rcvState (c_rcv c1)), (m_rcvState (c_rcv c)). }
  unfold ParseHeader in H. cbv zeta in H. destruct (Z.eqb _ _).
  - destruct (DecodeMsgHeader _ _ _) as [[ok h]| | |]; cbn [obind] in H; try discriminate H. destruct ok; cbn [negb] in H; simplify_eq.
    + apply Hgo; [by left|apply grow_span|done].
    + apply Hgo; [right; by eexists|apply grow_span|done].
  - simplify_eq. apply Hgo; [by left|apply grow_span|done].
Qed.

(** Reading into the payload buffer [b], which lies in the object [k]: the
    other objects are left alone, and the buffer is kept or, with the message,
    passes to the user. *)
Lemma payload_step_effect recv send c ha m b k s pos n brk c' rc intr : base c ha (S m) -> m_payloadBuffer (c_rcv c) = Some b ->
  obj_live (cpool c) k (m_pStart b) s -> 0 < n -> m_pStart b <= pos -> pos + n <= m_pStart b + s -> range_ok (cmem c) pos n ->
  rcv_payload_step sizeof_RcvMessage m_onLogicConnect recv send c b pos n brk = Ret (c', rc, intr) ->
  (forall k' a' s', obj_live (cpool c) k' a' s' -> obj_live (cpool c') k' a' s') /\
  (forall k' a' s', obj_live (cpool c) k' a' s' -> k' <> k -> keeps (wld c) (wld c') k' a' s') /\
  rcv_spans c' `sublist_of` [span (hbuf c); span b].
Proof using sizeof_ok.
  intros Hb Epb Hl Hn Hp1 Hp2 Hr H. unfold rcv_payload_step in H.
  destruct (Read_clean (e_rd (c_env c)) n (b_clean _ _ _ Hb) Hn) as (s' & r & E & _ & _ & Hcase). rewrite E in H.
  destruct Hcase as [[-> _]|(bs & -> & _ & Hle & Hbb & _)].
  { cbn in H. simplify_eq. split; [done|]. split; [intros; by apply keeps_same|]. unfold rcv_spans. cbn [set_rd set_env c_rcv]. rewrite Epb.
    destruct (m_rcvState _); try done; apply sublist_skip, sublist_nil_l. }
  rewrite poke_bytes_fill in H; [|done|eapply range_ok_sub; [exact Hr|lia|lia]]. cbn [obind] in H.
  set (w1 := set_mem (wld c) (fill (cmem c) pos bs)) in *.
  assert (forall k' a' s', obj_live (cpool c) k' a' s' -> k' <> k -> keeps (wld c) w1 k' a' s') as Hk1
    by (intros k' a' s2 Hl' Hne; eapply (fill_keeps _ _ k _ s pos bs); try done; [by apply Hb|lia]).
  unfold CheckPayload in H. cbn [set_rcv set_world set_rd set_env c_rcv c_env c_hs m_payloadBuffer rcv_header e_world e_free] in H.
  destruct (Z.eqb _ _).
  - unfold getNewRcvMessage in H. cbn [set_rcv set_world set_rd set_env c_rcv c_env c_hs e_world e_free] in H.
    destruct (mp_get _ _) as [[[w' km] am]| | |] eqn:Eg; cbn [obind] in H; try discriminate H.
    change (mp_get w1 sizeof_RcvMessage = Ret (w', km, am)) in Eg. pose proof (get_keeps _ _ _ _ _ _ Eg (b_pool _ _ _ Hb) sizeof_ok (b_room _ _ _ Hb)) as Hk2.
    cbn [set_rcv set_world set_rd set_env c_rcv c_env c_hs e_world e_free] in H. rewrite decide_True in H by (apply Hb).
    destruct (buffer_data _ _) as [data| | |]; cbn [obind] in H; try discriminate H. simplify_eq. cbn. split; [|split].
    + intros k' a' s2 Hl'. apply (Hk2 k' a' s2 Hl').
    + intros k' a' s2 Hl' Hne. eapply keeps_trans; [by apply Hk1|]. apply Hk2. exact Hl'.
    + apply sublist_skip, sublist_nil_l.
  - simplify_eq. cbn. split; [done|]. split; [exact Hk1|]. unfold rcv_spans. cbn. by rewrite grow_span.
Qed.

(** What the state of the receiving half says of its buffers. *)
Definition shape (c : conn) (ha : Z) : Prop :=
  match m_rcvState (c_rcv c) with
  | StartToRcvHeader => True
  | RcvingHeader => exists l, 0 < l < 16 /\ window (hbuf c) ha 16 0 l
  | StartToRcvPayload => 0 < len (rcv_header (c_rcv c)) <= max_request /\ len (rcv_header (c_rcv c)) <= 2 ^ 31
  | RcvingPayload => exists b pa n l, 0 < l < n /\ m_payloadBuffer (c_rcv c) = Some b /\ window b pa n 0 l /\ range_ok (cmem c) pa n
  end.

Lemma pending_shape x c ha todo : pending x c ha todo -> shape c ha.
Proof.
  intros (_ & Hm & Ht). unfold shape. destruct todo as [|[i pl] rest]; [by destruct Ht as [-> _]|].
  destruct Ht as (k & Hk & Hph & _). apply Forall_cons in Hm as [[_ [H1 H2] H3] _]. unfold MAX_MSG_PAYLOAD_SIZE in H2. unfold phase in Hph.
  destruct (m_rcvState (c_rcv c)); [done|..].
  - destruct Hph as (? & Hw & _). exists (Z.of_nat k). split; [lia|done].
  - destruct Hph as [_ ->]. cbn [len fst snd] in *. lia.
  - destruct Hph as (b & pa & l & _ & Hl & _ & Hb & Hw & _ & Hr). exists b, pa, (Z.of_nat (length pl)), (Z.of_nat l). split; [lia|done].
Qed.

(** [BZero] of the header buffer. *)
Lemma zero_header c ha m m' hb : base c ha m -> BZero (cmem c) (hbuf c) = Ret (m', hb) ->
  exists bs, length bs = 16%nat /\ m' = fill (cmem c) ha bs /\ span hb = span (hbuf c) /\ u64 (TotalLength hb) = 16.
Proof.
  intros Hb H. unfold BZero, bzero in H. rewrite (b_start _ _ _ Hb), (b_end _ _ _ Hb) in H. replace (ha + 16 - 1 - ha + 1) with 16 in H by lia.
  rewrite poke_bytes_fill in H; [|by apply Forall_replicate|exact (b_range _ _ _ Hb)]. cbn [obind] in H. simplify_eq.
  exists (replicate 16 0). split; [done|]. split; [done|]. pose proof (b_addr _ _ _ Hb). unfold span, TotalLength. cbn -[Z.add].
  rewrite (b_start _ _ _ Hb), (b_end _ _ _ Hb). split; [done|]. zeqb. cbn -[Z.add]. rewrite i32_small by lia. rewrite u64_id by (unfold in_u; lia). lia.
Qed.

(** The start of a header: the buffer is cleared, then read into. *)
Lemma start_header_hstep recv send c ha m brk c' rc intr : base c ha m -> owned (cpool c) (rcv_spans c) -> m_rcvState (c_rcv c) = StartToRcvHeader ->
  recv_turn sizeof_RcvMessage m_onLogicConnect recv send c brk = Ret (c', rc, intr) -> hstep rcv_spans c c'.
Proof.
  intros Hb Ho Es H. unfold recv_turn in H. rewrite Es in H. destruct (BZero _ _) as [[m' hb]| | |] eqn:Ez; cbn [obind] in H; try discriminate H.
  destruct (zero_header _ _ _ _ _ Hb Ez) as (bs & Hlen & -> & Eh & Et). rewrite Et in H. set (c1 := set_rcv _ _) in H.
  assert (hstep rcv_spans c c1) as H1.
  { apply (header_hstep c c1 ha bs); try done; [by apply Hb| |rewrite (b_start _ _ _ Hb); lia|rewrite (b_end _ _ _ Hb); lia].
    unfold rcv_spans, c1. cbn. by rewrite Es, Eh. }
  injection Eh as E1 E2 _. pose proof (b_start _ _ _ Hb) as Hs.
  eapply hstep_trans; [exact H1|]. apply (header_step_hstep c1 ha m (m_pStart hb) 16 c' rc intr); try done; try lia.
  - destruct Hb. split; cbn; try done; [congruence|congruence|by apply fill_range_ok].
  - exact (hs_owned _ _ _ H1).
Qed.

(** Both ways of receiving a payload: the buffer is among [l], the old and the new ones. *)
Lemma payload_hstep c c1 c' new b k s : owned (cpool c) (rcv_spans c) -> m_pMpObject b = Some k ->
  hbuf c1 = hbuf c -> (forall k' a' s', obj_live (cpool c) k' a' s' -> keeps (wld c) (wld c1) k' a' s' /\ obj_live (cpool c1) k' a' s') ->
  (owns (rcv_spans c ++ new) k) -> [span (hbuf c); span b] `sublist_of` rcv_spans c ++ new ->
  Forall (held (cpool c1)) new -> NoDup (snd <$> new) -> (forall k' a' s', owns new k' -> ~ obj_live (cpool c) k' a' s') ->
  (forall k' a' s', obj_live (cpool c1) k' a' s' -> obj_live (cpool c') k' a' s') ->
  (forall k' a' s', obj_live (cpool c1) k' a' s' -> k' <> k -> keeps (wld c1) (wld c') k' a' s') ->
  rcv_spans c' `sublist_of` [span (hbuf c1); span b] -> obj_live (cpool c1) k (m_pStart b) s -> hstep rcv_spans c c'.
Proof.
  intros Ho Eb Eh Hk1 Hown Hsub Hnew Hnd Hfresh Hlive Hk2 Hsp _.
  assert (forall sp, held (cpool c) sp -> held (cpool c') sp) as Hheld.
  { intros sp (k1 & s1 & E1 & L1 & B1). exists k1, s1. split; [done|]. split; [|done]. by apply Hlive, Hk1. }
  apply (hstep_intro _ _ _ new); try done; [|..].
  - rewrite Eh in Hsp. by etransitivity.
  - eapply Forall_impl; [exact Hnew|]. intros sp (k1 & s1 & E1 & L1 & B1). exists k1, s1. split; [done|]. split; [by apply Hlive|done].
  - auto.
  - intros k' a' s' Hl Hn. destruct (Hk1 _ _ _ Hl) as [K1 L1]. eapply keeps_trans; [exact K1|]. apply Hk2; [exact L1|]. intros ->.
    unfold owns in Hown, Hn. rewrite fmap_app, elem_of_app in Hown. destruct Hown as [?|Hown]; [done|]. by eapply Hfresh.
Qed.

Lemma recv_turn_hstep recv send c ha m brk c' rc intr : base c ha (S (S m)) -> shape c ha -> owned (cpool c) (rcv_spans c) ->
  recv_turn sizeof_RcvMessage m_onLogicConnect recv send c brk = Ret (c', rc, intr) -> hstep rcv_spans c c'.
Proof using sizeof_ok.
  intros Hb Hsh Ho H. unfold recv_turn in H. unfold shape in Hsh. pose proof (b_addr _ _ _ Hb) as Haddr. destruct (m_rcvState (c_rcv c)) eqn:Es.
  - apply (start_header_hstep recv send c ha (S (S m)) brk c' rc intr); [exact Hb|exact Ho|exact Es|]. unfold recv_turn. rewrite Es. exact H.
  - destruct Hsh as (l & Hl & Hw). rewrite (wi_last _ _ _ _ _ Hw), (window_unused _ _ _ _ _ Hw) in H.
    rewrite (proj2 (Z.eqb_neq _ _)) in H by lia. eapply header_step_hstep; [exact Hb|exact Ho|by rewrite Es| | | |exact H]; lia.
  - destruct Hsh as [Hn1 Hn2]. destruct (mp_get_ok (wld c) _ _ (b_pool _ _ _ Hb) Hn1 (b_room _ _ _ Hb))
      as (w1 & km & am & sm & Eg & Em & _ & Hp1 & Hr1 & Hl1 & Hs1 & Ha1 & Hb1 & Hno & Hiff). rewrite Eg in H. cbn [obind] in H.
    pose proof (get_keeps _ _ _ _ _ _ Eg (b_pool _ _ _ Hb) Hn1 (b_room _ _ _ Hb)) as Hkp.
    unfold GetNewBuffer_mpo in H. rewrite GetNewBuffer_refresh_ok in H by (apply Hb). cbn [obind] in H. rewrite u64_id in H by (unfold in_u; lia).
    set (b := Buffer_new _ _ _ _ _) in *. assert (TotalLength b = len (rcv_header (c_rcv c))) as Et.
    { unfold b, TotalLength, Buffer_new, check_available. cbn. zeqb. cbn. rewrite i32_small by lia. lia. }
    rewrite Et in H. rewrite u64_id in H by (unfold in_u; lia). set (c1 := set_rcv _ _) in H.
    assert (base c1 ha (S m)) as Hb1'.
    { destruct Hb. split; cbn; try done; [by apply Forall_tail|]. rewrite Em. by apply touch_keeps_range. }
    destruct (payload_step_effect recv send c1 ha m b km sm (m_pStart b) (len (rcv_header (c_rcv c))) brk c' rc intr Hb1' eq_refl Hl1 ltac:(lia) ltac:(reflexivity) ltac:(cbn; lia)) as (HL & HK & HS);
      [cbn; rewrite Em; apply touch_range_ok|exact H|].
    apply (payload_hstep c c1 c' [span b] b km sm); try done.
    + intros k' a' s' Hl'. destruct (Hkp _ _ _ Hl') as [_ K]. split; [exact K|apply K].
    + unfold owns. rewrite fmap_app, elem_of_app. right. by left.
    + unfold rcv_spans. by rewrite Es.
    + apply Forall_singleton. exists km, sm. split; [done|]. split; [exact Hl1|]. cbn. lia.
    + apply NoDup_singleton.
    + intros k' a' s' Hown. unfold owns in Hown. cbn in Hown. apply list_elem_of_singleton in Hown. injection Hown as ->. apply Hno.
  - destruct Hsh as (b & pa & n & l & Hl & Eb & Hw & Hr). rewrite Eb in H. rewrite (wi_last _ _ _ _ _ Hw), (window_unused _ _ _ _ _ Hw) in H.
    pose proof (wi_bounds _ _ _ _ _ Hw) as Hbd. rewrite (proj2 (Z.eqb_neq _ _)) in H by lia.
    pose proof Ho as [Hh _]. assert (rcv_spans c = [span (hbuf c); span b]) as Esp by (unfold rcv_spans; by rewrite Es, Eb).
    rewrite Esp in Hh. apply Forall_cons in Hh as [_ Hh]. apply Forall_cons in Hh as [(k & s & Ek & Hlk & Hsk) _]. cbn in Ek, Hlk, Hsk.
    pose proof (wi_start _ _ _ _ _ Hw) as Ew1. pose proof (wi_end _ _ _ _ _ Hw) as Ew2.
    destruct (payload_step_effect recv send c ha (S m) b k s (pa + l - 1 + 1) (n - l) brk c' rc intr Hb Eb Hlk ltac:(lia) ltac:(lia) ltac:(lia)) as (HL & HK & HS);
      [eapply range_ok_sub; [exact Hr|lia|lia]|exact H|].
    apply (payload_hstep c c c' [] b k s); try done; try (by rewrite app_nil_r, Esp).
    + rewrite app_nil_r, Esp. rewrite !owns_cons. right. by left.
    + apply NoDup_nil_2.
    + intros k' a' s' Hown. by apply elem_of_nil in Hown.
Qed.

Lemma Recv_hstep fuel x c ha todo c' rc : pending x c ha todo -> owned (cpool c) (rcv_spans c) ->
  (rd_size (e_rd (c_env c)) < fuel)%nat -> Recv sizeof_RcvMessage m_onLogicConnect fuel c false = Ret (c', rc) -> hstep rcv_spans c c'.
Proof using UL sizeof_ok.
  revert c todo. induction fuel as [|fuel IH]; intros c todo Hp Ho Hf H; [lia|]. cbn [Recv] in H.
  destruct (pending_turn sizeof_RcvMessage m_onLogicConnect sizeof_ok (fun c => Recv sizeof_RcvMessage m_onLogicConnect fuel c true) (Send fuel) x c ha todo Hp)
    as (c1 & intr & E & (dn & todo1 & _ & Hp1 & _) & _ & Hd).
  assert (hstep rcv_spans c c1) as H1.
  { destruct Hp as [Hb Hp2]. assert (m_rcvState (c_rcv c) = StartToRcvHeader \/ m_rcvState (c_rcv c) <> StartToRcvHeader) as [Es|Es] by (destruct (m_rcvState (c_rcv c)); auto).
    - eapply start_header_hstep; [exact Hb|exact Ho|exact Es|exact E].
    - assert (exists m, 2 * rd_size (e_rd (c_env c)) + x = S (S m))%nat as [m Em].
      { exists (2 * rd_size (e_rd (c_env c)) + x - 2)%nat. destruct Hp2 as [_ Ht]. destruct todo as [|[i pl] rest]; [by destruct Ht|].
        destruct Ht as (k & Hk & _ & Hrd). apply (f_equal length) in Hrd. rewrite length_app, length_drop, wire_length in Hrd.
        destruct (e_rd (c_env c)) as [|[] ?]; cbn in *; lia. }
      eapply (recv_turn_hstep _ _ c ha m); [rewrite <- Em; exact Hb|eapply pending_shape; by split|exact Ho|exact E]. }
  rewrite E in H. cbn [obind] in H. destruct intr; cbn [andb negb] in H; [by simplify_eq|].
  eapply hstep_trans; [exact H1|]. eapply IH; [exact Hp1|exact (hs_owned _ _ _ H1)| |exact H]. specialize (Hd eq_refl). lia.
Qed.

(** ** Sending *)

Lemma owned_nil p : owned p [].
Proof. split; [constructor|apply NoDup_nil_2]. Qed.

Lemma head_span b n : span (MoveHeadBack b n) = span b.
Proof. unfold span, MoveHeadBack. by destruct (_ || _). Qed.

(** The buffer that was sent is given back: its object is the only one to go. *)
Lemma put_hstep c b b1 c' : pool_ok (cpool c) -> owned (cpool c) (snd_spans c) -> m_pSendingBuffer (c_snd c) = Some b -> span b1 = span b ->
  Put_Send_Buffer c b1 = Ret c' -> hstep snd_spans c c'.
Proof.
  intros Hp [Hh _] Eb E1 H. unfold snd_spans in Hh. rewrite Eb in Hh. apply Forall_cons in Hh as [(k & s & Ek & Hl & _) _].
  injection E1 as _ _ E3. cbn in Ek, Hl. rewrite <- E3 in Ek. destruct (law_put _ _ _ _ Hp Hl) as (p' & Ep & _ & Hiff).
  unfold Put_Send_Buffer, PutBuffer, Buffer_Put, Refresh, mp_put in H. rewrite Ek, Ep in H. cbn [obind] in H. simplify_eq.
  split; [apply owned_nil|]. intros k' a' s' Hl' Hn. split; [|intros Ho; by apply elem_of_nil in Ho]. split; [|done]. cbn. apply Hiff.
  split; [|exact Hl']. intros ->. apply Hn. unfold snd_spans. rewrite Eb. apply owns_cons. left. cbn. congruence.
Qed.

(** The next message is encoded, into a fresh object. *)
Lemma encode_hstep c m sm w fb sm' b rest : sbase c [] (S m) -> snd_ok sm -> owned (cpool c) (snd_spans c) ->
  Encode (wld c) (e_free (c_env c)) sm = Ret (w, fb, sm', b) -> hstep snd_spans c (set_snd (set_world c w fb) (mkSH (Some b) rest)).
Proof using UL PL.
  intros [Hp Hr Hf _ _ _] [Hs1 Hs2 Hs3 Hs4] Ho E.
  destruct (Encode_ok _ _ sm m Hp Hr Hf Hs1 Hs2 Hs3 Hs4) as (w' & b' & k & a & s & E' & [Hwin Hk Hm _ [Hp' _] [Hl Hsz] Hno Hiff]).
  rewrite E in E'. injection E' as -> -> -> ->. pose proof (wi_start _ _ _ _ _ Hwin) as Ew1. pose proof (wi_end _ _ _ _ _ Hwin) as Ew2.
  assert (forall k' a' s', obj_live (cpool c) k' a' s' -> k' <> k) as Hne by (intros k' a' s' Hl' ->; by eapply Hno).
  apply (hstep_intro _ _ _ [span b']); cbn; try done.
  - apply sublist_inserts_l. done.
  - apply Forall_singleton. exists k, s. cbn. rewrite Ew1, Ew2. split; [done|]. split; [done|lia].
  - apply NoDup_singleton.
  - intros k' a' s' Hown. unfold owns in Hown. cbn in Hown. rewrite Hk in Hown. apply list_elem_of_singleton in Hown. injection Hown as ->. apply Hno.
  - intros sp _ _ (k1 & x & E1 & L1 & B1). exists k1, x. split; [done|]. split; [|done]. apply Hiff; [by eapply Hne|done].
  - intros k' a' s' Hl' _. split; [apply Hiff; [by eapply Hne|done]|]. intros x v Hx Hv. rewrite Hm, fill_lookup_out; [by apply touch_keeps|].
    assert (obj_live (w_pool w') k' a' s') as Hl2 by (apply Hiff; [by eapply Hne|done]). rewrite wire_length.
    destruct (law_disjoint _ _ _ _ _ _ _ Hp' Hl2 Hl (Hne _ _ _ Hl')); lia.
Qed.

(** A turn of [Send] leaves the receiving half alone. *)
Record sframe (c c' : conn) : Prop := mkSframe {
  sf_rcv : c_rcv c' = c_rcv c;
  sf_hs : c_hs c' = c_hs c;
  sf_rd : e_rd (c_env c') = e_rd (c_env c);
  sf_id : e_lastId (c_env c') = e_lastId (c_env c)
}.

Lemma sframe_refl c : sframe c c.
Proof. by split. Qed.

Lemma sframe_trans c1 c2 c3 : sframe c1 c2 -> sframe c2 c3 -> sframe c1 c3.
Proof. intros [] []. split; congruence. Qed.

Lemma put_sframe c b c' : Put_Send_Buffer c b = Ret c' -> sframe c c'.
Proof. unfold Put_Send_Buffer. destruct (PutBuffer _ _ _) as [[w fb]| | |]; cbn [obind]; intros H; simplify_eq. by split. Qed.

Lemma send_turn_hstep c cur m c' intr : sbase c cur (S m) -> owned (cpool c) (snd_spans c) -> send_turn c = Ret (c', true, intr) ->
  hstep snd_spans c c' /\ sframe c c'.
Proof using UL PL.
  intros Hb Ho H. pose proof Hb as [Hp Hr Hf Hc Hq Hw]. unfold send_turn in H. unfold sending in Hc. destruct (m_pSendingBuffer (c_snd c)) as [b|] eqn:Eb.
  - destruct Hc as (a & n & r & k & s & Hwin & _ & _ & _ & _). pose proof (wi_bounds _ _ _ _ _ Hwin) as Hbd.
    rewrite (window_available _ _ _ _ _ Hwin) in H. rewrite u64_id in H by (unfold in_u; lia). rewrite (proj2 (Z.ltb_lt _ _)) in H by lia.
    assert (snd_spans c = [span b]) as Esp by (unfold snd_spans; by rewrite Eb).
    destruct (Write _ _) as [wr [j| |e]].
    + destruct (peek_bytes _ _ _) as [bs| | |]; cbn [obind] in H; try discriminate H. destruct (Z.leb _ 0).
      * destruct (Put_Send_Buffer _ _) as [c1| | |] eqn:E1; cbn [obind] in H; try discriminate H. simplify_eq. split.
        -- apply (put_hstep (set_wr c wr (e_out (c_env c) ++ bs)) b) in E1; [by destruct E1|done|done|done|apply head_span].
        -- apply put_sframe in E1. by destruct E1.
      * simplify_eq. split; [|by split]. apply same_hstep; [done| |done]. rewrite Esp. unfold snd_spans. cbn. by rewrite head_span.
    + destruct (Put_Send_Buffer _ _); cbn [obind] in H; discriminate H.
    + destruct (negb _); [destruct (Put_Send_Buffer _ _); cbn [obind] in H; discriminate H|]. simplify_eq. split; [by apply same_hstep|by split].
  - subst cur. destruct (m_bqMessages (c_snd c)) as [|sm rest] eqn:Eq; [simplify_eq; split; [by apply same_hstep|by split]|].
    apply Forall_cons in Hq as [Hsm _]. destruct (Encode _ _ _) as [[[[w fb] sm'] b]| | |] eqn:E; cbn [obind] in H; try discriminate H. simplify_eq.
    split; [by eapply encode_hstep|by split].
Qed.

(** The loop of [Send], with what it leaves to the other half. *)
Lemma Send_duplex fuel c cur m : sbase c cur (S (turns_left c) + m) -> owned (cpool c) (snd_spans c) -> (turns_left c < fuel)%nat ->
  exists c' cur', Send fuel c = Ret (c', true) /\ sbase c' cur' m /\ sent c cur c' cur' /\ hstep snd_spans c c' /\ sframe c c' /\
    (turns_left c' <= turns_left c)%nat /\ e_wr (c_env c') `suffix_of` e_wr (c_env c).
Proof using UL PL.
  revert c cur. induction fuel as [|fuel IH]; intros c cur Hb Ho Hf; [lia|]. cbn [Send].
  destruct (turn_send c cur (turns_left c + m) Hb) as (c1 & cur1 & intr & E & Hb1 & Hs1 & Hle & Hlt & Hsuf & _).
  destruct (send_turn_hstep c cur _ c1 intr Hb Ho E) as [H1 F1]. rewrite E. cbn [obind].
  assert (forall k, (k <= turns_left c + m)%nat -> sbase c1 cur1 k) as Hw
    by (intros k Hk; destruct Hb1; split; try done; by eapply room_weaken; [|eassumption]; lia).
  destruct intr; cbn [andb negb].
  - exists c1, cur1. split; [done|]. split; [apply Hw; lia|]. done.
  - specialize (Hlt eq_refl). destruct (IH c1 cur1) as (c2 & cur2 & E2 & Hb2 & Hs2 & H2 & F2 & Hl2 & Hsuf2); [apply Hw; lia|exact (hs_owned _ _ _ H1)|lia|].
    exists c2, cur2. split; [done|]. split; [done|]. split; [by eapply sent_trans|]. split; [by eapply hstep_trans|]. split; [by eapply sframe_trans|].
    split; [lia|by etransitivity].
Qed.

(** ** Both halves *)

(** The bytes of the buffers [l] are unchanged. *)
Definition spans_kept (m m' : mem) (l : list (Z * Z * option positive)) : Prop :=
  forall sp x v, sp ∈ l -> sp.1.1 <= x <= sp.1.2 -> m !! x = Some v -> m' !! x = Some v.

(** No object is in both. *)
Definition apart (l1 l2 : list (Z * Z * option positive)) : Prop := forall k, owns l1 k -> owns l2 k -> False.

(** A step of one half leaves what the other half has. *)
Lemma other_half f c c' l : hstep f c c' -> owned (cpool c) l -> apart (f c) l ->
  owned (cpool c') l /\ apart (f c') l /\ spans_kept (cmem c) (cmem c') l.
Proof.
  intros [_ Hk] [Hh Hd] Hap. rewrite Forall_forall in Hh.
  assert (forall sp, sp ∈ l -> exists k s, sp.2 = Some k /\ sp.1.2 < sp.1.1 + s /\ keeps (wld c) (wld c') k sp.1.1 s /\ ~ owns (f c') k) as H.
  { intros sp Hsp. destruct (Hh _ Hsp) as (k & s & E & Hl & Hs). exists k, s. split; [done|]. split; [done|]. apply Hk; [exact Hl|].
    intros Ho. apply (Hap k Ho). apply list_elem_of_fmap. by exists sp. }
  split; [split; [apply Forall_forall|exact Hd]|split].
  - intros sp Hsp. destruct (H _ Hsp) as (k & s & E & Hs & K & _). exists k, s. split; [done|]. split; [apply K|done].
  - intros k Ho Hl. apply list_elem_of_fmap in Hl as (sp & E & Hsp). destruct (H _ Hsp) as (k' & s & E' & _ & _ & Hn). apply Hn. congruence.
  - intros sp x v Hsp Hx Hv. destruct (H _ Hsp) as (k & s & _ & Hs & K & _). eapply (ke_bytes _ _ _ _ _ K); [lia|exact Hv].
Qed.

Lemma kept_range m m' l sp a n : spans_kept m m' l -> sp ∈ l -> sp.1.1 <= a -> a + n - 1 <= sp.1.2 -> range_ok m a n -> range_ok m' a n.
Proof. intros H Hsp H1 H2 Hr x Hx. destruct (Hr x Hx) as [v Hv]. exists v. eapply H; [exact Hsp|lia|exact Hv]. Qed.

Lemma kept_bytes m m' l sp a bs : spans_kept m m' l -> sp ∈ l -> sp.1.1 <= a -> a + Z.of_nat (length bs) - 1 <= sp.1.2 -> bytes_at m a bs -> bytes_at m' a bs.
Proof. intros H Hsp H1 H2 Hr i b Hi. eapply H; [exact Hsp| |by apply Hr]. apply lookup_lt_Some in Hi. lia. Qed.

Lemma sending_kept c c' cur : c_snd c' = c_snd c -> owned (cpool c') (snd_spans c) -> spans_kept (cmem c) (cmem c') (snd_spans c) ->
  sending c cur -> sending c' cur.
Proof.
  intros Es [Hh _] Hk. unfold sending, snd_spans in *. rewrite Es. destruct (m_pSendingBuffer (c_snd c)) as [b|]; [|done].
  intros (a & n & r & k & s & Hw & Hlen & Hby & Ek & _). apply Forall_cons in Hh as [(k' & s' & Ek' & Hl' & _) _]. cbn in Ek', Hl'.
  pose proof (wi_start _ _ _ _ _ Hw) as Ew1. pose proof (wi_end _ _ _ _ _ Hw) as Ew2. pose proof (wi_bounds _ _ _ _ _ Hw).
  exists a, n, r, k, s'. split; [done|]. split; [done|]. split; [|split; [done|]].
  - eapply kept_bytes; [exact Hk|by left|cbn; lia|cbn; lia|exact Hby].
  - rewrite Ew1 in Hl'. congruence.
Qed.

Lemma phase_kept c c' ha i pl k : c_rcv c' = c_rcv c -> m_pStart (hbuf c) = ha -> m_pEnd (hbuf c) = ha + 16 - 1 ->
  spans_kept (cmem c) (cmem c') (rcv_spans c) -> phase c ha i pl k -> phase c' ha i pl k.
Proof.
  intros Er Hs He Hk. unfold phase, rcv_spans in *. rewrite Er. destruct (m_rcvState (c_rcv c)); [done| |done|].
  - intros (Hk1 & Hw & Hby). split; [done|]. split; [done|]. eapply kept_bytes; [exact Hk|by left|cbn; lia| |exact Hby].
    cbn. rewrite length_take. lia.
  - intros (b & pa & l & Ek & Hl & Hh & Eb & Hw & Hby & Hr). rewrite Eb in Hk. pose proof (wi_start _ _ _ _ _ Hw) as Ew1. pose proof (wi_end _ _ _ _ _ Hw) as Ew2.
    assert (span b ∈ [span (hbuf c); span b]) as Hin by (right; by left).
    exists b, pa, l. do 5 (split; [done|]). split.
    + eapply kept_bytes; [exact Hk|exact Hin|cbn; lia| |exact Hby]. cbn. rewrite length_take. lia.
    + eapply kept_range; [exact Hk|exact Hin|cbn; lia|cbn; lia|exact Hr].
Qed.

Lemma pending_kept x y c c' ha todo : c_rcv c' = c_rcv c -> c_hs c' = c_hs c -> e_rd (c_env c') = e_rd (c_env c) ->
  pool_ok (cpool c') -> room (2 * rd_size (e_rd (c_env c)) + y) (cpool c') -> fb_ok (e_free (c_env c')) ->
  spans_kept (cmem c) (cmem c') (rcv_spans c) -> pending x c ha todo -> pending y c' ha todo.
Proof.
  intros Er Eh Ed Hp Hr Hf Hk (Hb & Hm & Ht). split; [|split; [exact Hm|]].
  - destruct Hb. split; rewrite ?Er, ?Eh, ?Ed; try done. eapply kept_range; [exact Hk|by left|cbn; lia|cbn; lia|done].
  - rewrite Er, Ed. destruct todo as [|[i pl] rest]; [done|]. destruct Ht as (k & Hk1 & Hph & Hrd). exists k. split; [done|]. split; [|done].
    eapply phase_kept; [done|apply Hb|apply Hb|exact Hk|exact Hph].
Qed.

(** An established connection: the bytes of [todo] are arriving, [cur] is left
    of the message being written, the halves have their own objects, and the
    pool has room for [x] operations beyond those of the reads to come. *)
Record duplex (x : nat) (c : conn) (ha : Z) (cur : list Z) (todo : list (Z * list Z)) : Prop := mkDuplex {
  du_pending : pending x c ha todo;
  du_sending : sending c cur;
  du_queue : Forall snd_ok (m_bqMessages (c_snd c));
  du_writes : wr_clean (e_wr (c_env c));
  du_rcv : owned (cpool c) (rcv_spans c);
  du_snd : owned (cpool c) (snd_spans c);
  du_apart : apart (rcv_spans c) (snd_spans c)
}.

Lemma duplex_weaken x y c ha cur todo : (y <= x)%nat -> duplex x c ha cur todo -> duplex y c ha cur todo.
Proof. intros Hle [[Hb Hp]]. split; try done. split; [|done]. apply (base_weaken _ _ _ _ Hb). lia. Qed.

Lemma snd_spans_same c c' : c_snd c' = c_snd c -> snd_spans c' = snd_spans c.
Proof. unfold snd_spans. by intros ->. Qed.
Lemma rcv_spans_same c c' : c_rcv c' = c_rcv c -> rcv_spans c' = rcv_spans c.
Proof. unfold rcv_spans. by intros ->. Qed.

Lemma read_duplex fuel x c ha cur todo : duplex x c ha cur todo -> (rd_size (e_rd (c_env c)) < fuel)%nat ->
  exists c' dn todo', Recv sizeof_RcvMessage m_onLogicConnect fuel c false = Ret (c', true) /\ duplex x c' ha cur todo' /\
    todo = dn ++ todo' /\ e_notified (c_env c') = e_notified (c_env c) ++ (notification (m_logicPeer (c_hs c)) <$> dn) /\ frame c c' /\ rd_less c' c.
Proof using UL sizeof_ok.
  intros [Hp Hs Hq Hw Hor Hos Hap] Hf.
  destruct (Recv_pending sizeof_RcvMessage m_onLogicConnect sizeof_ok fuel x c ha todo Hp Hf) as (c' & E & (dn & todo' & Et & Hp' & _ & Hn) & Hd).
  pose proof (Recv_frame _ _ _ _ _ _ (b_conn _ _ _ (proj1 Hp)) E) as F. destruct F as [F1 F2 F3 F4].
  pose proof (Recv_hstep fuel x c ha todo c' true Hp Hor Hf E) as H1. destruct (other_half _ _ _ _ H1 Hos Hap) as (Hos' & Hap' & Hk).
  exists c', dn, todo'. split; [exact E|]. split; [|split; [done|split; [done|split; [by split|done]]]].
  split; rewrite ?F1, ?F3, ?(snd_spans_same _ _ F1); try done; [by eapply sending_kept|exact (hs_owned _ _ _ H1)].
Qed.

Lemma write_duplex fuel x c ha cur todo : duplex (S (turns_left c) + x) c ha cur todo -> (turns_left c < fuel)%nat ->
  exists c' cur' bs, Send fuel c = Ret (c', true) /\ duplex x c' ha cur' todo /\
    e_out (c_env c') = e_out (c_env c) ++ bs /\ to_send c cur = bs ++ to_send c' cur' /\ e_notified (c_env c') = e_notified (c_env c) /\
    sframe c c' /\ (turns_left c' <= turns_left c)%nat.
Proof using UL PL.
  intros [Hp Hs Hq Hw Hor Hos Hap] Hf. pose proof (proj1 Hp) as [Hpo Hro Hfb _ _ _ _ _ _].
  destruct (Send_duplex fuel c cur (2 * rd_size (e_rd (c_env c)) + x)) as (c' & cur' & E & [Hp' Hr' Hf' Hc' Hq' Hw'] & [(bs & Ho & Ht) Hn _] & H1 & F & Hle & _); [|done|done|].
  { split; try done. by eapply room_weaken; [|exact Hro]; lia. }
  assert (apart (snd_spans c) (rcv_spans c)) as Hap1 by (intros k H2 H3; exact (Hap k H3 H2)).
  destruct (other_half _ _ _ _ H1 Hor Hap1) as (Hor' & Hap' & Hk). pose proof F as [F1 F2 F3 _].
  exists c', cur', bs. split; [exact E|]. split; [|done].
  split; rewrite ?(rcv_spans_same _ _ F1); try done; [by eapply pending_kept|exact (hs_owned _ _ _ H1)|]. intros k H2 H3. exact (Hap' k H3 H2).
Qed.

(** ** Events and messages in between *)

(** The driver reports the connection, or a thread posts a message. *)
Inductive action := Ready (mask : Z) | Post (sm : SndMessage P).

(** Until the connection is finished. *)
Fixpoint run (fuel : nat) (acts : list action) (c : conn) : outcome (conn * bool) :=
  match acts with
  | [] => Ret (c, false)
  | Ready mask :: acts =>
      let* (c, finished) := connection_event sizeof_RcvMessage m_onLogicConnect fuel mask c in
      if finished : bool then Ret (c, true) else run fuel acts c
  | Post sm :: acts => let '(c, _, _) := SendMessage c sm in run fuel acts c
  end.

Fixpoint posted (acts : list action) : list (SndMessage P) :=
  match acts with [] => [] | Post sm :: acts => sm :: posted acts | _ :: acts => posted acts end.
Fixpoint reads (acts : list action) : nat :=
  match acts with
  | [] => 0
  | Ready mask :: acts => (if Z.eqb (Z.land mask EVENT_READ) 0 then 0 else 1) + reads acts
  | _ :: acts => reads acts
  end.

(** The pool operations of the writes, [t] being the turns that are left. *)
Fixpoint budget (acts : list action) (t : nat) : nat :=
  match acts with [] => 0 | Ready _ :: acts => S t + budget acts t | Post _ :: acts => budget acts (S t) end.

Lemma budget_mono acts t t' : (t' <= t)%nat -> (budget acts t' <= budget acts t)%nat.
Proof. revert t t'. induction acts as [|[mask|sm] acts IH]; intros t t' Hle; cbn [budget]; [done|specialize (IH t t' Hle); lia|apply IH; lia]. Qed.

(** What happened between [c] and [c']: the messages [dn] were handed up, the bytes [bs] written. *)
Record moved (c : conn) (cur : list Z) (c' : conn) (cur' : list Z) (dn : list (Z * list Z)) (bs : list Z) (new : list (SndMessage P)) : Prop := mkMoved {
  mv_notified : e_notified (c_env c') = e_notified (c_env c) ++ (notification (m_logicPeer (c_hs c)) <$> dn);
  mv_out : e_out (c_env c') = e_out (c_env c) ++ bs;
  mv_bytes : to_send c cur ++ stream (snd_msg <$> new) = bs ++ to_send c' cur';
  mv_hs : c_hs c' = c_hs c
}.

Lemma stream_app l1 l2 : stream (l1 ++ l2) = stream l1 ++ stream l2.
Proof. unfold stream. by rewrite fmap_app, concat_app. Qed.

Lemma moved_trans c0 cur0 c1 cur1 c2 cur2 dn1 dn2 bs1 bs2 n1 n2 : moved c0 cur0 c1 cur1 dn1 bs1 n1 -> moved c1 cur1 c2 cur2 dn2 bs2 n2 ->
  moved c0 cur0 c2 cur2 (dn1 ++ dn2) (bs1 ++ bs2) (n1 ++ n2).
Proof.
  intros [N1 O1 B1 H1] [N2 O2 B2 H2]. split; [|by rewrite O2, O1, app_assoc| |congruence].
  - by rewrite N2, N1, H1, fmap_app, app_assoc.
  - by rewrite fmap_app, stream_app, app_assoc, B1, <- app_assoc, B2, app_assoc.
Qed.

Lemma read_branch fuel mask x c ha cur todo : duplex x c ha cur todo -> (rd_size (e_rd (c_env c)) < fuel)%nat ->
  exists c' dn todo', (if Z.eqb (Z.land mask EVENT_READ) 0 then Ret (c, true) else HandleReadEvent sizeof_RcvMessage m_onLogicConnect fuel c) = Ret (c', true) /\
    duplex x c' ha cur todo' /\ todo = dn ++ todo' /\ moved c cur c' cur dn [] [] /\ turns_left c' = turns_left c /\
    if Z.eqb (Z.land mask EVENT_READ) 0 then e_rd (c_env c') = e_rd (c_env c) else rd_less c' c.
Proof using UL sizeof_ok.
  intros Hd Hf. destruct (Z.eqb _ _).
  { exists c, [], todo. split; [done|]. split; [done|]. split; [done|]. split; [|done]. by split; rewrite ?app_nil_r. }
  destruct (read_duplex fuel x c ha cur todo Hd Hf) as (c' & dn & todo' & E & Hd' & Et & Hn & [F1 F2 F3 F4] & Hl).
  exists c', dn, todo'. split; [exact E|]. split; [done|]. split; [done|]. split; [|split; [unfold turns_left; by rewrite F1, F3|done]].
  split; rewrite ?app_nil_r; try done. unfold to_send. by rewrite F1.
Qed.

Lemma write_branch fuel mask x c ha cur todo : duplex (S (turns_left c) + x) c ha cur todo -> (turns_left c < fuel)%nat ->
  exists c' cur' bs, (if Z.eqb (Z.land mask EVENT_WRITE) 0 then Ret (c, true) else HandleWriteEvent fuel c) = Ret (c', true) /\
    duplex x c' ha cur' todo /\ moved c cur c' cur' [] bs [] /\ (turns_left c' <= turns_left c)%nat /\ e_rd (c_env c') = e_rd (c_env c).
Proof using UL PL.
  intros Hd Hf. destruct (Z.eqb _ _).
  { exists c, cur, []. split; [done|]. split; [eapply duplex_weaken; [|exact Hd]; lia|]. split; [|done]. by split; rewrite ?app_nil_r. }
  destruct (write_duplex fuel x c ha cur todo Hd Hf) as (c' & cur' & bs & E & Hd' & Ho & Ht & Hn & [F1 F2 F3 _] & Hl).
  exists c', cur', bs. split; [exact E|]. split; [done|]. split; [|done]. split; rewrite ?app_nil_r; done.
Qed.

(** One event. *)
Lemma event_duplex fuel mask x c ha cur todo : duplex (S (turns_left c) + x) c ha cur todo ->
  (rd_size (e_rd (c_env c)) < fuel)%nat -> (turns_left c < fuel)%nat ->
  exists c' cur' dn todo' bs, connection_event sizeof_RcvMessage m_onLogicConnect fuel mask c = Ret (c', false) /\ duplex x c' ha cur' todo' /\
    todo = dn ++ todo' /\ moved c cur c' cur' dn bs [] /\ (turns_left c' <= turns_left c)%nat /\
    if Z.eqb (Z.land mask EVENT_READ) 0 then e_rd (c_env c') = e_rd (c_env c) else rd_less c' c.
Proof using UL PL sizeof_ok.
  intros Hd Hf Hf2. destruct (read_branch fuel mask _ c ha cur todo Hd Hf) as (c1 & dn & todo' & E1 & Hd1 & Et & Hm1 & Etl & Hl1). rewrite <- Etl in Hd1.
  destruct (write_branch fuel mask x c1 ha cur todo' Hd1 ltac:(lia)) as (c2 & cur2 & bs & E2 & Hd2 & Hm2 & Hl2 & Er2).
  exists c2, cur2, dn, todo', bs. split; [|split; [done|split; [done|split; [|split; [lia|]]]]].
  - unfold connection_event, Manager.process_event. cbn [fst snd].
    assert ((if Z.eqb (Z.land mask EVENT_READ) 0 then Ret ((c, false), true) else let* (c, ok) := HandleReadEvent sizeof_RcvMessage m_onLogicConnect fuel c in Ret ((c, false), ok)) = Ret ((c1, false), true)) as ->.
    { destruct (Z.eqb _ _); [by simplify_eq|by rewrite E1]. }
    cbn [obind andb fst snd]. destruct (Z.eqb (Z.land mask EVENT_WRITE) 0); cbn [negb]; [by simplify_eq|by rewrite E2].
  - pose proof (moved_trans _ _ _ _ _ _ _ _ _ _ _ _ Hm1 Hm2) as Hm. by rewrite app_nil_r in Hm.
  - unfold rd_less in *. by rewrite Er2.
Qed.

(** A posted message. *)
Lemma post_duplex x c ha cur todo sm c' rc wake : duplex x c ha cur todo -> snd_ok sm -> SendMessage c sm = (c', rc, wake) ->
  duplex x c' ha cur todo /\ moved c cur c' cur [] [] [sm] /\ turns_left c' = S (turns_left c) /\ e_rd (c_env c') = e_rd (c_env c).
Proof.
  intros [Hp Hs Hq Hw Hor Hos Hap] Hsm H. unfold SendMessage, InsertMessage in H. simplify_eq. split; [|split; [|split; [|done]]].
  - split; try done; [pose proof (proj1 Hp) as []; apply (pending_kept x x c); try done; intros sp y v _ _ Hv; exact Hv|]. cbn. apply Forall_app. split; [done|by constructor].
  - split; rewrite ?app_nil_r; try done. unfold to_send. cbn [set_snd c_snd m_bqMessages app]. by rewrite fmap_app, stream_app, app_assoc.
  - unfold turns_left. cbn. rewrite length_app. cbn. lia.
Qed.

Lemma duplex_done x c ha cur todo : duplex x c ha cur todo -> e_rd (c_env c) = [] -> todo = [].
Proof.
  intros [(_ & _ & Hp)] E. destruct todo as [|[i pl] rest]; [done|]. destruct Hp as (k & Hk & _ & Hrd). rewrite E in Hrd.
  apply (f_equal length) in Hrd. rewrite length_app, length_drop, wire_length in Hrd. cbn in Hrd. lia.
Qed.

Lemma run_duplex fuel acts c ha cur todo : duplex (budget acts (turns_left c)) c ha cur todo -> Forall snd_ok (posted acts) ->
  (rd_size (e_rd (c_env c)) < fuel)%nat -> (turns_left c + length (posted acts) < fuel)%nat ->
  exists c' cur' dn todo' bs, run fuel acts c = Ret (c', false) /\ duplex 0 c' ha cur' todo' /\ todo = dn ++ todo' /\
    moved c cur c' cur' dn bs (posted acts) /\ ((rd_size (e_rd (c_env c)) <= reads acts)%nat -> e_rd (c_env c') = []).
Proof using UL PL sizeof_ok.
  revert c cur todo. induction acts as [|[mask|sm] acts IH]; intros c cur todo Hd Hq Hf Hf2; cbn [run posted reads budget] in *.
  - exists c, cur, [], todo, []. split; [done|]. split; [done|]. split; [done|]. split; [by split; rewrite ?app_nil_r|].
    intros H. by destruct (e_rd (c_env c)) as [|[] ?]; cbn in H; try lia.
  - destruct (event_duplex fuel mask _ c ha cur todo Hd Hf ltac:(lia)) as (c1 & cur1 & dn1 & todo1 & bs1 & E1 & Hd1 & Et1 & Hm1 & Hl1 & Hr1).
    rewrite E1. cbn [obind].
    assert (rd_size (e_rd (c_env c1)) <= rd_size (e_rd (c_env c)))%nat as Hle by (destruct (Z.eqb _ _); [by rewrite Hr1|by apply rd_less_le]).
    destruct (IH c1 cur1 todo1) as (c2 & cur2 & dn2 & todo2 & bs2 & E2 & Hd2 & Et2 & Hm2 & Hr2); [|done|lia|lia|].
    { eapply duplex_weaken; [|exact Hd1]. by apply budget_mono. }
    exists c2, cur2, (dn1 ++ dn2), todo2, (bs1 ++ bs2). split; [done|]. split; [done|]. split; [by rewrite Et1, Et2, app_assoc|].
    split; [exact (moved_trans _ _ _ _ _ _ _ _ _ _ _ _ Hm1 Hm2)|]. intros H. apply Hr2.
    destruct (Z.eqb _ _); cbn in H; [by rewrite Hr1|]. destruct Hr1 as [?|[_ ->]]; cbn; lia.
  - destruct (SendMessage c sm) as [[c1 rc] wake] eqn:Es. apply Forall_cons in Hq as [Hsm Hq]. cbn [length] in Hf2.
    destruct (post_duplex _ _ _ _ _ _ _ _ _ Hd Hsm Es) as (Hd1 & Hm1 & Etl & Er).
    destruct (IH c1 cur todo) as (c2 & cur2 & dn2 & todo2 & bs2 & E2 & Hd2 & Et2 & Hm2 & Hr2); [by rewrite Etl|done|by rewrite Er|lia|].
    exists c2, cur2, dn2, todo2, bs2. split; [done|]. split; [done|]. split; [done|]. rewrite Er in Hr2. split; [|done].
    exact (moved_trans _ _ _ _ _ _ _ _ _ _ _ _ Hm1 Hm2).
Qed.

(** C9.  Any sequence of events and of messages posted in between: no handler
    fails, so the connection is not finished; the messages that are complete
    are handed up in order, and all of them once there were as many read
    events as the socket can answer; the bytes written are a prefix of what
    was to be sent followed by the messages posted, in order, and exactly the
    rest is still to be sent; the invariant holds again, with both halves
    still on memory of their own. *)
Theorem full_duplex (fuel : nat) (acts : list action) (c : conn) (ha : Z) (cur : list Z) (todo : list (Z * list Z)) :
  duplex (budget acts (turns_left c)) c ha cur todo -> Forall snd_ok (posted acts) ->
  (rd_size (e_rd (c_env c)) < fuel)%nat -> (turns_left c + length (posted acts) < fuel)%nat ->
  exists c' cur' dn todo' bs, run fuel acts c = Ret (c', false) /\ duplex 0 c' ha cur' todo' /\
    todo = dn ++ todo' /\ e_notified (c_env c') = e_notified (c_env c) ++ (notification (m_logicPeer (c_hs c)) <$> dn) /\
    e_out (c_env c') = e_out (c_env c) ++ bs /\ to_send c cur ++ stream (snd_msg <$> posted acts) = bs ++ to_send c' cur' /\
    ((rd_size (e_rd (c_env c)) <= reads acts)%nat -> todo' = []).
Proof using UL PL sizeof_ok.
  intros Hd Hq Hf Hf2. destruct (run_duplex fuel acts c ha cur todo Hd Hq Hf Hf2) as (c' & cur' & dn & todo' & bs & E & Hd' & Et & [Hn Ho Hb _] & Hr).
  exists c', cur', dn, todo', bs. do 6 (split; [done|]). intros H. eapply duplex_done; [exact Hd'|by apply Hr].
Qed.

(** ** A payload that is late *)

(** A call that finds no byte of the payload takes an object and drops it. *)
Lemma late_turn recv send c ha m : base c ha (S m) -> m_rcvState (c_rcv c) = StartToRcvPayload ->
  0 < len (rcv_header (c_rcv c)) <= max_request -> len (rcv_header (c_rcv c)) <= 2 ^ 31 -> e_rd (c_env c) = [] ->
  exists c' k a s, recv_turn sizeof_RcvMessage m_onLogicConnect recv send c false = Ret (c', true, true) /\ base c' ha m /\
    m_rcvState (c_rcv c') = StartToRcvPayload /\ rcv_header (c_rcv c') = rcv_header (c_rcv c) /\ e_rd (c_env c') = [] /\
    obj_live (cpool c') k a s /\ (forall a' s', ~ obj_live (cpool c) k a' s') /\
    (forall k' a' s', obj_live (cpool c) k' a' s' -> obj_live (cpool c') k' a' s').
Proof.
  intros Hb Es Hn1 Hn2 Hrd. unfold recv_turn. rewrite Es. destruct (mp_get_ok (wld c) _ _ (b_pool _ _ _ Hb) Hn1 (b_room _ _ _ Hb))
    as (w1 & k & a & s & Eg & Em & _ & Hp1 & Hr1 & Hl1 & Hs1 & Ha1 & Hb1 & Hno & Hiff). rewrite Eg. cbn [obind].
  unfold GetNewBuffer_mpo. rewrite GetNewBuffer_refresh_ok by (apply Hb). cbn [obind]. rewrite u64_id by (unfold in_u; lia).
  set (b := Buffer_new _ _ _ _ _). assert (TotalLength b = len (rcv_header (c_rcv c))) as Et.
  { unfold b, TotalLength, Buffer_new, check_available. cbn. zeqb. cbn. rewrite i32_small by lia. lia. }
  rewrite Et, u64_id by (unfold in_u; lia). unfold rcv_payload_step. cbn [set_rcv set_world set_env c_env e_rd Read]. rewrite Hrd. cbn [Read].
  rewrite (proj2 (Z.leb_gt _ _)) by lia. cbn [Z.eqb negb]. eexists _, k, a, s. split; [reflexivity|]. split.
  { destruct Hb. split; cbn; try done; [by apply Forall_tail|rewrite Em; by apply touch_keeps_range|constructor]. }
  cbn. do 5 (split; [done|]). intros k' a' s' Hl. apply Hiff; [|exact Hl]. intros ->. by eapply Hno.
Qed.

(** A peer that sends a header and keeps the payload back: [n] calls of [Recv]
    succeed, and leave [n] objects of the payload's size in use that no part
    of the connection refers to, except perhaps the last. *)
Theorem late_payload_leaks (n m fuel : nat) (c : conn) (ha : Z) : base c ha (n + m) -> m_rcvState (c_rcv c) = StartToRcvPayload ->
  0 < len (rcv_header (c_rcv c)) <= max_request -> len (rcv_header (c_rcv c)) <= 2 ^ 31 -> e_rd (c_env c) = [] ->
  exists c' ks, pump sizeof_RcvMessage m_onLogicConnect n (S fuel) c = Ret (c', true) /\ base c' ha m /\ m_rcvState (c_rcv c') = StartToRcvPayload /\
    (forall k a s, obj_live (cpool c) k a s -> obj_live (cpool c') k a s) /\
    length ks = n /\ NoDup ks /\ Forall (fun k => (exists a s, obj_live (cpool c') k a s) /\ forall a s, ~ obj_live (cpool c) k a s) ks.
Proof.
  revert c. induction n as [|n IH]; intros c Hb Es Hn1 Hn2 Hrd.
  { exists c, []. do 5 (split; [done|]). split; [apply NoDup_nil_2|constructor]. }
  cbn [pump Recv]. destruct (late_turn (fun c => Recv sizeof_RcvMessage m_onLogicConnect fuel c true) (Send fuel) c ha (n + m) Hb Es Hn1 Hn2 Hrd)
    as (c1 & k & a & s & E1 & Hb1 & Es1 & Eh1 & Er1 & Hl1 & Hno & Hk). rewrite E1. cbn [obind andb negb].
  destruct (IH c1 Hb1 Es1 ltac:(by rewrite Eh1) ltac:(by rewrite Eh1) Er1) as (c2 & ks & E2 & Hb2 & Es2 & Hk2 & Hlen & Hnd & Hks).
  exists c2, (k :: ks). do 3 (split; [done|]). split; [auto|]. split; [cbn; lia|]. split.
  - constructor; [|done]. intros Hin. rewrite Forall_forall in Hks. destruct (Hks _ Hin) as [_ H]. by eapply H.
  - constructor.
    + split; [|done]. exists a, s. by apply Hk2.
    + eapply Forall_impl; [exact Hks|]. intros k' [Hl Hn]. split; [done|]. intros a' s' Hl'. by eapply Hn, Hk.
Qed.

End duplex.
End Duplex.

(** ** Examples *)
Module DuplexDemo.
Import Process Handlers HandlersDemo Duplex.

(** Two events, a message posted in between, and then enough events to read
    everything. *)
Definition later : SndMessage TestProto := mkSnd (mkHeader 0 77 0) true None (ConnectResponseMessage StatusOK []).
Definition acts0 : list action := Ready 3 :: Post later :: replicate 60 (Ready 3).

Lemma busy_duplex : duplex (budget acts0 (turns_left busy)) busy 4096 [] msgs0.
Proof.
  split; [|reflexivity|exact (rd_queue _ _ _ busy_ready)|exact (rd_writes _ _ _ busy_ready)| | |].
  - split; [apply worker_base; [exact rd0_clean|vm_compute; reflexivity]|]. split; [exact msgs0_ok|].
    exists 0%nat. split; [cbn; lia|]. split; [reflexivity|vm_compute; reflexivity].
  - split; [|apply NoDup_singleton]. apply Forall_singleton. exists 1%positive, 16. split; [reflexivity|]. split; [reflexivity|]. vm_compute. reflexivity.
  - apply owned_nil.
  - intros k _ Hk. by apply elem_of_nil in Hk.
Qed.

Lemma full_duplex_witness : exists c' cur' bs, run 120 (fun _ => true) 200 acts0 busy = Ret (c', false) /\
  e_notified (c_env c') = notification (m_logicPeer (c_hs busy)) <$> msgs0 /\
  e_out (c_env c') = [] ++ bs /\ stream (snd_msg <$> q0) ++ stream [snd_msg later] = bs ++ to_send c' cur'.
Proof.
  assert (Forall snd_ok (posted acts0)) as Hq.
  { apply Forall_singleton. split; [reflexivity| |split; vm_compute; congruence|vm_compute; congruence].
    split; [apply bytes_dec_ok; vm_compute; reflexivity|vm_compute; split; congruence]. }
  destruct (full_duplex 120 (fun _ => true) sizeof_ok 200 acts0 busy 4096 [] msgs0 busy_duplex Hq ltac:(vm_compute; lia) ltac:(vm_compute; lia))
    as (c' & cur' & dn & todo' & bs & E & _ & Et & Hn & Ho & Hs & Hall).
  rewrite Hall, app_nil_r in Et by (vm_compute; lia). subst dn. exists c', cur', bs. split; [exact E|]. split; [exact Hn|]. split; [exact Ho|exact Hs].
Defined.

(** The header of a five byte message has been received, its payload has not. *)
Definition waiting : NetWorker.conn :=
  mkConn (mkRH StartToRcvPayload (mkHeader MESSAGE_MAGIC_NO 5 5) hb0 None) (mkSH None []) (c_hs busy) (mkEnv world0 [] 0 [] [] [] []).

Lemma late_payload_leaks_witness : exists c' (ks : list positive), pump 120 (fun _ => true) 100 1 waiting = Ret (c', true) /\ length ks = 100%nat /\ NoDup ks.
Proof.
  assert (base waiting 4096 (100 + 0)) as Hb.
  { destruct (worker_base Server true [] [] [] (100 + 0) ltac:(constructor) ltac:(vm_compute; reflexivity)). by split. }
  destruct (late_payload_leaks 120 (fun _ => true) 100 0 0 waiting 4096 Hb eq_refl ltac:(vm_compute; split; [reflexivity|congruence]) ltac:(vm_compute; congruence) eq_refl)
    as (c' & ks & E & _ & _ & _ & Hl & Hn & _). exists c', ks. split; [exact E|]. split; [exact Hl|exact Hn].
Defined.

End DuplexDemo.
