(* ===== verification/Handshake.v ===== *)
(** * Handshake: how a connection is established

    [Initialize] of posix/tcp/net-stack-worker.cc on both ends of a new
    connection: the nested calls of [Recv] and [Send] from [handshake], with
    the memory they take and give back, and what the two ends then know of
    each other.  Every message of the handshake arrives in one read; what
    happens otherwise is in Delivery.v. *)

From S2P Require Import Prelude Codec PoolApi Buffer Message NetWorker RecvProofs SendProofs Delivery EventLoop Handlers Duplex.

Module Handshake.
Import Duplex.

Section handshake.
Context `{A : MemPoolApi} `{AL : !MemPoolLaws A} `{U : ByteOrderUtils} `{UL : !ByteOrderLaws U} `{P : ProtoMsg} `{PL : !ProtoMsgLaws P}.
Context (sizeof_RcvMessage : Z) (m_onLogicConnect : net_peer_info_t -> bool) (sizeof_ok : 0 < sizeof_RcvMessage <= max_request).
Abbreviation conn := (conn (A := A) (P := P)).
#[local] Abbreviation cpool c := (w_pool (e_world (c_env c))).
#[local] Abbreviation cmem c := (w_mem (e_world (c_env c))).
#[local] Abbreviation hbuf c := (m_pHeaderBuffer (c_rcv c)).

(** ** Between two messages of the handshake *)

(** Nothing is half received or half sent, the pool has room for [m]
    operations and the socket for [r] bytes. *)
Record quiet (c : conn) (ha : Z) (m r : nat) : Prop := mkQuiet {
  q_pool : pool_ok (cpool c);
  q_room : room m (cpool c);
  q_fb : fb_ok (e_free (c_env c));
  q_start : m_pStart (hbuf c) = ha;
  q_end : m_pEnd (hbuf c) = ha + 16 - 1;
  q_addr : 0 < ha /\ ha + 16 <= 2 ^ 64;
  q_range : range_ok (cmem c) ha 16;
  q_hdr : held (cpool c) (span (hbuf c));
  q_state : m_rcvState (c_rcv c) = StartToRcvHeader;
  q_snd : c_snd c = mkSH None [];
  q_clean : wr_clean (e_wr (c_env c));
  q_block : WrErr EAGAIN ∉ e_wr (c_env c);
  q_rooms : (r <= rooms (e_wr (c_env c)))%nat
}.

Lemma quiet_weaken c ha m r m' r' : quiet c ha m r -> (m' <= m)%nat -> (r' <= r)%nat -> quiet c ha m' r'.
Proof. intros [] H1 H2. split; try done; [by eapply room_weaken|lia]. Qed.

(** The objects in use stay in use. *)
Definition kept (c c' : conn) : Prop := forall k a s, obj_live (cpool c) k a s -> obj_live (cpool c') k a s.

Lemma held_kept c c' sp : kept c c' -> held (cpool c) sp -> held (cpool c') sp.
Proof. intros Hk (k & s & E & Hl & Hs). exists k, s. split; [done|]. split; [by apply Hk|done]. Qed.

(** A part of the handshake that wrote [bs] and left [rest] to be read. *)
Record part (c c' : conn) (bs : list Z) (rest : list rd_event) : Prop := mkPart {
  pt_hdr : span (hbuf c') = span (hbuf c);
  pt_notified : e_notified (c_env c') = e_notified (c_env c);
  pt_out : e_out (c_env c') = e_out (c_env c) ++ bs;
  pt_rd : e_rd (c_env c') = rest;
  pt_wr : (length (e_wr (c_env c')) <= length (e_wr (c_env c)))%nat;
  pt_kept : kept c c'
}.

Lemma part_trans c1 c2 c3 bs1 bs2 r1 r2 : part c1 c2 bs1 r1 -> part c2 c3 bs2 r2 -> part c1 c3 (bs1 ++ bs2) r2.
Proof. intros [] []. split; try congruence; [by rewrite pt_out1, pt_out0, app_assoc|lia|]. intros k a s H. auto. Qed.

(** The message a worker has received: two objects that were not in use, and the bytes in one of them. *)
Record arrived (c0 c : conn) (rm : RcvMessage) (pl : list Z) : Prop := mkArrived {
  ar_window : exists a, window (rm_pBuffer rm) a (Z.of_nat (length pl)) 0 (Z.of_nat (length pl)) /\ bytes_at (cmem c) a pl;
  ar_objects : exists k a s a' s', m_pMpObject (rm_pBuffer rm) = Some k /\ k <> rm_refMpo rm /\
    obj_live (cpool c) k a s /\ obj_live (cpool c) (rm_refMpo rm) a' s' /\
    (forall a s, ~ obj_live (cpool c0) k a s) /\ (forall a s, ~ obj_live (cpool c0) (rm_refMpo rm) a s)
}.

(** ** A message of the handshake is received *)

Lemma Read_split bs1 bs2 rest n : bs1 <> [] -> bs2 <> [] -> Z.of_nat (length bs1) = n ->
  Read (RdData (bs1 ++ bs2) :: rest) n = (RdData bs2 :: rest, RBytes bs1).
Proof.
  intros H1 H2 <-. assert (0 < length bs1)%nat by (destruct bs1; cbn; [done|lia]). assert (0 < length bs2)%nat by (destruct bs2; cbn; [done|lia]).
  unfold Read. rewrite (proj2 (Z.leb_gt _ _)) by lia. destruct (bs1 ++ bs2) as [|b l] eqn:E; [by destruct bs1|]. rewrite <- E.
  rewrite length_app, (proj2 (Z.leb_gt _ _)) by lia. by rewrite Nat2Z.id, drop_app_length, take_app_length.
Qed.

Lemma Read_all bs rest n : bs <> [] -> Z.of_nat (length bs) = n -> Read (RdData bs :: rest) n = (rest, RBytes bs).
Proof.
  intros H1 <-. assert (0 < length bs)%nat by (destruct bs; cbn; [done|lia]). unfold Read. rewrite (proj2 (Z.leb_gt _ _)) by lia.
  destruct bs as [|b l]; [done|]. by rewrite Z.leb_refl.
Qed.

Lemma BZero_span m b m' b' : BZero m b = Ret (m', b') -> span b' = span b.
Proof. unfold BZero. destruct (bzero _ _ _); cbn [obind]; intros H; by simplify_eq. Qed.

Lemma header_is_bytes i l : is_bytes (header_bytes i l).
Proof. unfold header_bytes, is_bytes. rewrite !Forall_app. split_and!; apply be_split_bytes. Qed.

(** The header of the message with id [i] and payload [pl]. *)
Lemma header_turn recv send c ha m r i pl rest brk : quiet c ha m r -> msg_ok i pl -> e_rd (c_env c) = RdData (wire_bytes i pl) :: rest ->
  exists w hb, recv_turn sizeof_RcvMessage m_onLogicConnect recv send c brk =
      Ret (mkConn (mkRH StartToRcvPayload (mkHeader MESSAGE_MAGIC_NO i (Z.of_nat (length pl))) hb (m_payloadBuffer (c_rcv c))) (c_snd c) (c_hs c)
        (mkEnv w (e_free (c_env c)) (e_lastId (c_env c)) (RdData pl :: rest) (e_wr (c_env c)) (e_out (c_env c)) (e_notified (c_env c))), true, false) /\
    w_pool w = cpool c /\ range_ok (w_mem w) ha 16 /\ span hb = span (hbuf c).
Proof using UL.
  intros Hq Hm Hrd. unfold recv_turn. rewrite (q_state _ _ _ _ Hq). pose proof (q_addr _ _ _ _ Hq) as Haddr. destruct Hm as [Hi [Hl1 Hl2] _].
  destruct (BZero_ok (cmem c) (hbuf c) ha 16 (q_start _ _ _ _ Hq) (q_end _ _ _ _ Hq) ltac:(lia) ltac:(lia) ltac:(lia) (q_range _ _ _ _ Hq)) as (m' & hb & E & Hw & Hr).
  rewrite E. cbn [obind set_rcv set_world set_env c_rcv c_env]. rewrite (empty_window_total _ _ _ Hw), (ew_start _ _ _ Hw), u64_id by done.
  assert (pl <> []) as Hne by (intros ->; cbn in Hl1; lia). unfold rcv_header_step. cbn [set_rcv set_world set_env c_rcv c_env e_rd]. rewrite Hrd. unfold wire_bytes.
  rewrite (Read_split _ pl rest 16) by done. cbn [set_rd set_env c_env e_world set_mem w_mem].
  set (hbs := header_bytes i (Z.of_nat (length pl))). assert (length hbs = 16%nat) as El by reflexivity.
  rewrite poke_bytes_fill; [|apply header_is_bytes|by apply Hr, Hq]. cbn [obind].
  assert (window (grow hb 16) ha 16 0 16) as Hw'.
  { apply (grow_filled hb ha 16 0 16); [by left|lia|lia]. }
  unfold ParseHeader. cbn [set_rcv set_rd set_world set_env c_rcv c_env c_snd c_hs m_pHeaderBuffer e_world set_mem w_mem rcv_header m_rcvState m_payloadBuffer].
  rewrite El. change (Z.of_nat 16) with 16. rewrite (window_available _ _ _ _ _ Hw'), (window_total _ _ _ _ _ Hw'). cbn [Z.eqb Z.sub].
  rewrite (DecodeMsgHeader_ok _ _ ha 16 0 i (Z.of_nat (length pl)) _ Hw') by (try done; try lia; rewrite Z.add_0_r; apply fill_bytes_at).
  cbn [obind negb]. eexists _, _. split; [reflexivity|]. split; [done|]. split; [by apply fill_range_ok, Hr, Hq|].
  cbn [m_pHeaderBuffer]. rewrite grow_span. by eapply BZero_span.
Qed.

(** Its payload: a message object is made and the handshake goes on. *)
Lemma payload_turn recv send c ha m i pl rest : pool_ok (cpool c) -> room (S (S m)) (cpool c) -> fb_ok (e_free (c_env c)) -> msg_ok i pl -> is_bytes pl ->
  m_rcvState (c_rcv c) = StartToRcvPayload -> rcv_header (c_rcv c) = mkHeader MESSAGE_MAGIC_NO i (Z.of_nat (length pl)) ->
  e_rd (c_env c) = RdData pl :: rest -> m_connState (c_hs c) <> Connected -> range_ok (cmem c) ha 16 ->
  exists w rm b, recv_turn sizeof_RcvMessage m_onLogicConnect recv send c true =
      (let* c := handshake m_onLogicConnect recv send
         (mkConn (mkRH StartToRcvHeader (mkHeader MESSAGE_MAGIC_NO i (Z.of_nat (length pl))) (hbuf c) (Some b)) (c_snd c) (c_hs c)
           (mkEnv w (tail (e_free (c_env c))) (e_lastId (c_env c)) rest (e_wr (c_env c)) (e_out (c_env c)) (e_notified (c_env c)))) rm in
       Ret (set_rcv c (mkRH (m_rcvState (c_rcv c)) (rcv_header (c_rcv c)) (hbuf c) None), true, true)) /\
    pool_ok (w_pool w) /\ room m (w_pool w) /\ range_ok (w_mem w) ha 16 /\
    (exists a, window (rm_pBuffer rm) a (Z.of_nat (length pl)) 0 (Z.of_nat (length pl)) /\ bytes_at (w_mem w) a pl) /\
    (exists k a s a' s', m_pMpObject (rm_pBuffer rm) = Some k /\ k <> rm_refMpo rm /\ obj_live (w_pool w) k a s /\ obj_live (w_pool w) (rm_refMpo rm) a' s' /\
       (forall a s, ~ obj_live (cpool c) k a s) /\ (forall a s, ~ obj_live (cpool c) (rm_refMpo rm) a s)) /\
    (forall k a s, obj_live (cpool c) k a s -> obj_live (w_pool w) k a s).
Proof using sizeof_ok.
  intros Hp Hr Hf Hm Hby Es Eh Hrd Hc Hra. unfold recv_turn. rewrite Es, Eh. cbn [len]. destruct Hm as [Hi [Hl1 Hl2] Hl3]. unfold MAX_MSG_PAYLOAD_SIZE in Hl2.
  destruct (mp_get_ok (e_world (c_env c)) (Z.of_nat (length pl)) (S m) Hp ltac:(lia) Hr) as (w1 & k & a & s & Eg & Em & _ & Hp1 & Hr1 & Hlk & Hs & Ha & Hb & Hno & Hiff).
  rewrite Eg. cbn [obind]. unfold GetNewBuffer_mpo. rewrite GetNewBuffer_refresh_ok by done. cbn [obind]. rewrite u64_id by (unfold in_u; lia).
  set (b := Buffer_new 0 0 a (a + Z.of_nat (length pl) - 1) (Some k)).
  assert (empty_window b a (Z.of_nat (length pl))) as Hw by (unfold b, Buffer_new, check_available; split; simpl; try done; try lia; zeqb; done).
  rewrite (empty_window_total _ _ _ Hw), (ew_start _ _ _ Hw), u64_id by (unfold in_u; lia).
  assert (pl <> []) as Hne by (intros ->; cbn in Hl1; lia).
  unfold rcv_payload_step. cbn [set_rcv set_world set_env c_env e_rd]. rewrite Hrd, (Read_all pl rest) by done.
  cbn [set_rd set_rcv set_world set_env c_env c_rcv e_world m_rcvState m_pHeaderBuffer rcv_header e_free].
  rewrite poke_bytes_fill; [|done|rewrite Em; apply touch_range_ok]. cbn [obind].
  pose proof (grow_filled b a _ 0 (Z.of_nat (length pl)) (or_introl (conj eq_refl Hw)) ltac:(lia) ltac:(lia)) as Hg. cbn [Z.add] in Hg.
  unfold CheckPayload. cbn [set_rcv set_world set_env c_env c_rcv c_hs c_snd m_payloadBuffer rcv_header].
  rewrite (window_available _ _ _ _ _ Hg), Z.sub_0_r, u32_id by (unfold in_u; lia). cbn [len]. rewrite Z.eqb_refl.
  unfold getNewRcvMessage. cbn [set_rcv set_world set_env c_env c_rcv c_hs c_snd e_world].
  destruct (mp_get_ok (set_mem w1 (fill (w_mem w1) a pl)) sizeof_RcvMessage m Hp1 sizeof_ok Hr1) as (w2 & k2 & a2 & s2 & Eg2 & Em2 & _ & Hp2 & Hr2 & Hlk2 & _ & _ & _ & Hno2 & Hiff2).
  rewrite Eg2. cbn [obind set_rcv set_world set_env c_env c_rcv c_hs c_snd e_world e_free]. rewrite decide_False by done.
  assert (k <> k2) as Hkk by (intros ->; by eapply Hno2).
  eexists w2, _, _. split; [reflexivity|]. cbn [rm_pBuffer rm_refMpo]. split; [done|]. split; [done|]. split.
  { rewrite Em2. apply touch_keeps_range, fill_range_ok. rewrite Em. by apply touch_keeps_range. }
  split; [|split].
  - exists a. split; [exact Hg|]. rewrite Em2. apply touch_keeps_bytes. cbn. apply fill_bytes_at.
  - exists k, a, s, a2, s2. split; [exact (f_equal snd (grow_span b (Z.of_nat (length pl))))|]. split; [done|]. split; [by apply Hiff2|]. split; [done|].
    split; [exact Hno|]. intros a' s' Hl. eapply Hno2. cbn. apply Hiff; [|exact Hl]. congruence.
  - intros k' a' s' Hl. assert (k' <> k) by (intros ->; by eapply Hno). assert (k' <> k2) by (intros ->; eapply Hno2; cbn; by apply Hiff).
    apply Hiff2; [done|]. cbn. by apply Hiff.
Qed.

(** [m_payloadBuffer = nullptr] after the handshake. *)
Definition drop_payload (c : conn) : conn := set_rcv c (mkRH (m_rcvState (c_rcv c)) (rcv_header (c_rcv c)) (hbuf c) None).

(** A whole message: what is left to do is the handshake with it. *)
Lemma receive fuel c ha m r i pl rest : quiet c ha (S (S m)) r -> msg_ok i pl -> is_bytes pl -> e_rd (c_env c) = RdData (wire_bytes i pl) :: rest ->
  m_connState (c_hs c) <> Connected ->
  exists c1 rm, Recv sizeof_RcvMessage m_onLogicConnect (S (S fuel)) c true =
      (let* c := handshake m_onLogicConnect (fun c => Recv sizeof_RcvMessage m_onLogicConnect fuel c true) (Send fuel) c1 rm in Ret (drop_payload c, true)) /\
    quiet c1 ha m r /\ part c c1 [] rest /\ arrived c c1 rm pl /\ c_hs c1 = c_hs c /\ e_lastId (c_env c1) = e_lastId (c_env c).
Proof using UL sizeof_ok.
  intros Hq Hm Hby Hrd Hc. pose proof Hq as [].
  destruct (header_turn (fun c => Recv sizeof_RcvMessage m_onLogicConnect (S fuel) c true) (Send (S fuel)) c ha _ r i pl rest true Hq Hm Hrd) as (w & hb & E1 & Ew & Hrg & Esp).
  set (c1 := mkConn _ _ _ _) in E1.
  destruct (payload_turn (fun c => Recv sizeof_RcvMessage m_onLogicConnect fuel c true) (Send fuel) c1 ha m i pl rest) as (w2 & rm & b & E2 & Hp2 & Hr2 & Hrg2 & Hwin & Hobj & Hk); try done;
    [cbn; by rewrite Ew..|]. cbn in Hobj, Hk. rewrite Ew in Hobj, Hk.
  set (c2 := mkConn _ _ _ _) in E2. exists c2, rm. split.
  { cbn [Recv]. cbn [Recv] in E1. rewrite E1. cbn [obind andb negb]. rewrite E2. by destruct (handshake _ _ _ _ _). }
  injection Esp as E3 E4 E5. split; [|split; [|split; [|done]]].
  - split; cbn; try done; [by apply Forall_tail|congruence|congruence|]. unfold span. rewrite E3, E4, E5. by apply (held_kept c c2).
  - split; cbn; try done; [unfold span; congruence|by rewrite app_nil_r].
  - by split.
Qed.

(** Both objects of a message are given back. *)
Lemma release c0 c1 c ha m r rm pl bs rest : held (cpool c0) (span (hbuf c0)) -> arrived c0 c1 rm pl -> kept c1 c -> part c0 c bs rest -> quiet c ha (S (S m)) r ->
  exists c', releaseRcvMessage c rm = Ret c' /\ quiet c' ha m r /\ part c0 c' bs rest /\ c_hs c' = c_hs c /\ e_lastId (c_env c') = e_lastId (c_env c).
Proof.
  intros Hh0 [_ (k & a & s & a' & s' & Ek & Hne & Hl1 & Hl2 & Hn1 & Hn2)] Hk [] []. apply Hk in Hl1, Hl2. unfold releaseRcvMessage, mp_put.
  destruct (law_put _ _ _ _ q_pool0 Hl2) as (p1 & E1 & Hp1 & Hiff1). rewrite E1. cbn [obind].
  assert (obj_live p1 k a s) as Hl3 by (by apply Hiff1). pose proof (proj2 q_room0 _ _ E1) as Hr1.
  destruct (law_put _ _ _ _ Hp1 Hl3) as (p2 & E2 & Hp2 & Hiff2). pose proof (proj2 Hr1 _ _ E2) as Hr2.
  unfold PutBuffer, Buffer_Put, Refresh, mp_put. rewrite Ek. cbn [set_pool w_pool]. rewrite E2. cbn [obind].
  set (c' := set_world _ _ _). exists c'. split; [reflexivity|].
  assert (kept c0 c') as Hk'.
  { intros k' x y Hl. apply Hiff2. split; [intros ->; by eapply Hn1|]. apply Hiff1. split; [intros ->; by eapply Hn2|]. by apply pt_kept0. }
  split; [|split; [by split|done]]. split; try done.
  - apply Forall_app. split; [done|by constructor].
  - change (span (hbuf c')) with (span (hbuf c)). rewrite pt_hdr0. by apply (held_kept c0).
Qed.

(** ** A message of the handshake is sent *)

(** Nothing is left to be sent. *)
Lemma all_sent c cur m : sbase c cur m -> to_send c cur = [] -> c_snd c = mkSH None [].
Proof.
  intros [_ _ _ Hc _ _] H. unfold to_send in H. apply app_eq_nil in H as [-> H]. unfold sending in Hc. destruct (c_snd c) as [[b|] q]; cbn in *.
  - destruct Hc as (a & n & r & k & s & Hw & Hl & _). pose proof (wi_bounds _ _ _ _ _ Hw). cbn in Hl. lia.
  - destruct q as [|sm q]; [done|]. apply (f_equal length) in H. unfold stream in H. cbn in H. discriminate H.
Qed.

Lemma send_one fuel c ha m r sm : quiet c ha (length (e_wr (c_env c)) + 2 + m) (length (wire_bytes (id (m_header sm)) (payload_bytes (body sm))) + r) ->
  snd_ok sm -> (length (e_wr (c_env c)) + 1 < fuel)%nat ->
  exists c', Send fuel (InsertMessage c sm).1 = Ret (c', true) /\ quiet c' ha m r /\
    part c c' (wire_bytes (id (m_header sm)) (payload_bytes (body sm))) (e_rd (c_env c)) /\ c_hs c' = c_hs c /\ e_lastId (c_env c') = e_lastId (c_env c).
Proof using UL PL.
  intros [] Hsm Hf. unfold InsertMessage. rewrite q_snd0. cbn [fst m_pSendingBuffer m_bqMessages app].
  set (c1 := set_snd c (mkSH None [sm])). assert (turns_left c1 = (length (e_wr (c_env c)) + 1)%nat) as Et by reflexivity.
  assert (to_send c1 [] = wire_bytes (id (m_header sm)) (payload_bytes (body sm))) as Es by (unfold to_send, stream; cbn; by rewrite app_nil_r).
  assert (sbase c1 [] (S (turns_left c1) + m)) as Hsb.
  { rewrite Et. split; try done; [|by constructor]. eapply room_weaken; [|exact q_room0]. lia. }
  destruct (Send_duplex fuel c1 [] m Hsb (owned_nil _) ltac:(lia)) as (c' & cur & E & Hb & [(bs & Ho & Ht) Hn Hr] & Hs & [F1 F2 F3 F4] & Hle & Hsuf).
  assert (to_send c' cur = []) as E0.
  { destruct (Send_ok fuel c1 [] m Hsb ltac:(lia)) as (c2 & cur2 & E2 & Hb2 & [(bs2 & Ho2 & Ht2) _ Hr2] & Hstop).
    rewrite E in E2. injection E2 as <-. rewrite Ho in Ho2. apply app_inv_head in Ho2 as <-. rewrite Ht in Ht2. apply app_inv_head in Ht2.
    destruct Hstop as [?|[?|Hz]%blocked_rooms]; [congruence|done|]. rewrite Ht2. rewrite Hz, Es in Hr2. cbn [c1 set_snd c_env] in Hr2. destruct (to_send c' cur2); [done|cbn [length] in Hr2; lia]. }
  rewrite E0, app_nil_r, Es in Ht. subst bs. rewrite Es, E0 in Hr. change (e_wr (c_env c1)) with (e_wr (c_env c)) in Hr, Hsuf. cbn [length] in Hr.
  assert (owned (cpool c1) [span (hbuf c)]) as Hoh by (split; [by apply Forall_singleton|apply NoDup_singleton]).
  destruct (other_half _ _ _ _ Hs Hoh) as (Hoh' & _ & Hkp); [intros k Hk; by apply elem_of_nil in Hk|].
  exists c'. split; [exact E|]. pose proof Hb as []. split; [|split; [|done]].
  - split; rewrite ?F1; try done.
    + eapply kept_range; [exact Hkp|by left|cbn; lia|cbn; lia|done].
    + exact (proj1 (Forall_singleton _ _) (ow_held _ _ Hoh')).
    + by eapply all_sent.
    + intros Hin. apply q_block0. destruct Hsuf as [pre ->]. apply elem_of_app. by right.
    + lia.
  - split; rewrite ?F1; try done; [by apply suffix_length in Hsuf|]. intros k a s Hl. apply (hs_keeps _ _ _ Hs k a s Hl). intros Hk. by apply elem_of_nil in Hk.
Qed.

(** ** The server *)

Context (max_ok : 18 <= max_request).

Lemma GetNewId_range l : in_u 64 (GetNewId l).
Proof. unfold GetNewId. destruct (Z.eqb _ _); [unfold in_u; lia|apply u64_range]. Qed.

Lemma status_range stat : in_u 16 (status_code stat).
Proof. destruct stat; vm_compute; split; congruence. Qed.

(** The wire bytes of an answer without text. *)
Definition answer (l : Z) (stat : ConnectStatus) : list Z := wire_bytes (GetNewId l) (be_split 2 (status_code stat)).

Lemma quiet_same c c' ha m r : quiet c ha m r -> hbuf c' = hbuf c -> m_rcvState (c_rcv c') = m_rcvState (c_rcv c) -> c_snd c' = c_snd c -> e_world (c_env c') = e_world (c_env c) ->
  e_free (c_env c') = e_free (c_env c) -> e_wr (c_env c') = e_wr (c_env c) -> quiet c' ha m r.
Proof. intros [] E0 E1 E2 E3 E4 E5. split; rewrite ?E0, ?E1, ?E2, ?E3, ?E4, ?E5; done. Qed.

Lemma part_same c c' : c_rcv c' = c_rcv c -> c_env c' = c_env c -> part c c' [] (e_rd (c_env c)).
Proof. intros E1 E2. split; rewrite ?E1, ?E2, ?app_nil_r; try done. intros k a s. by rewrite E2. Qed.

Lemma respond fuel c ha m r stat : quiet c ha (length (e_wr (c_env c)) + 2 + m) (18 + r) -> (length (e_wr (c_env c)) + 1 < fuel)%nat ->
  exists c1 c', with_response c stat [] = (c1, true) /\ Send fuel c1 = Ret (c', true) /\ quiet c' ha m r /\
    part c c' (answer (e_lastId (c_env c)) stat) (e_rd (c_env c)) /\ c_hs c' = c_hs c /\ e_lastId (c_env c') = GetNewId (e_lastId (c_env c)).
Proof using UL PL max_ok.
  intros Hq Hf. unfold with_response, new_message. set (i := GetNewId (e_lastId (c_env c))). set (sm := mkSnd (mkHeader 0 i 0) true None (ConnectResponseMessage stat [])).
  assert (payload_bytes (body sm) = be_split 2 (status_code stat)) as Ep by (unfold sm; cbn [body payload_bytes]; by rewrite app_nil_r).
  assert (snd_ok sm) as Hsm.
  { split; [done| |apply GetNewId_range|rewrite Ep, be_split_length; lia]. split; rewrite Ep; [apply be_split_bytes|rewrite be_split_length; unfold MAX_MSG_PAYLOAD_SIZE; lia]. }
  destruct (send_one fuel (set_lastId c i) ha m r sm) as (c' & E & Hq' & Hp & Hh & Hl); [|done|done|].
  { rewrite Ep, wire_length, be_split_length. by apply (quiet_same c). }
  eexists _, c'. split; [reflexivity|]. split; [exact E|]. split; [done|]. rewrite Ep in Hp. split; [|done]. by destruct Hp.
Qed.

Definition answers (h : hs_half) (st : ConnectionState) (logic : net_peer_info_t) : hs_half := mkHS (m_ct h) st true (m_iLogicPort h) (m_realPeer h) logic.

(** Whether the service takes the connection, as the server tells it. *)
Definition verdict (ok : bool) : ConnectStatus := if ok then StatusOK else StatusERROR.

(** The end of the handshake on the server: the client's answer is not looked at. *)
Lemma server_last fuel c ha m r i pl rest : quiet c ha (length (e_wr (c_env c)) + 6 + m) (18 + r) -> msg_ok i pl -> is_bytes pl ->
  e_rd (c_env c) = RdData (wire_bytes i pl) :: rest -> m_connState (c_hs c) = ConnectingRe -> (length (e_wr (c_env c)) + 1 < fuel)%nat ->
  let ok := m_onLogicConnect (m_logicPeer (c_hs c)) in
  exists c', Recv sizeof_RcvMessage m_onLogicConnect (S (S fuel)) c true = Ret (c', true) /\ quiet c' ha m r /\
    part c c' (answer (e_lastId (c_env c)) (verdict ok)) rest /\
    c_hs c' = answers (c_hs c) (if ok then Connected else ConnectingRe) (m_logicPeer (c_hs c)) /\ e_lastId (c_env c') = GetNewId (e_lastId (c_env c)).
Proof using UL PL sizeof_ok max_ok.
  intros Hq Hm Hby Hrd Hc Hf ok. replace (length (e_wr (c_env c)) + 6 + m)%nat with (S (S (S (S (length (e_wr (c_env c)) + 2 + m))))) in Hq by lia.
  destruct (receive fuel c ha _ _ i pl rest Hq Hm Hby Hrd ltac:(by rewrite Hc)) as (c1 & rm & E & Hq1 & Hp1 & Har & Hh1 & Hi1). rewrite E.
  unfold handshake. rewrite Hh1, Hc.
  destruct (release c c1 c1 ha _ _ rm pl [] rest (q_hdr _ _ _ _ Hq) Har ltac:(by intros k a s) Hp1 Hq1) as (c2 & E2 & Hq2 & Hp2 & Hh2 & Hi2). rewrite E2. cbn [obind].
  rewrite Hh2, Hh1. fold ok.
  destruct (respond fuel c2 ha m r (verdict ok)) as (c3 & c4 & E3 & E4 & Hq4 & Hp4 & Hh4 & Hi4).
  { apply (quiet_weaken _ _ _ _ _ _ Hq2); [|lia]. pose proof (pt_wr _ _ _ _ Hp2). lia. } { pose proof (pt_wr _ _ _ _ Hp2). lia. }
  unfold verdict in E3. rewrite E3. cbn [negb]. rewrite E4. cbn [obind]. rewrite andb_true_r. eexists. split; [reflexivity|].
  rewrite Hi2, Hi1 in Hp4, Hi4. rewrite Hh2, Hh1 in Hh4. rewrite (pt_rd _ _ _ _ Hp2) in Hp4.
  pose proof (part_trans _ _ _ _ _ _ _ Hp2 Hp4) as Hp. cbn [app] in Hp. destruct ok.
  - split; [by apply (quiet_same c4)|]. split; [by destruct Hp|]. split; [|done]. cbn. by rewrite Hh4.
  - split; [by apply (quiet_same c4)|]. split; [by destruct Hp|]. split; [|done]. cbn. rewrite Hh4. unfold answers. by rewrite Hc.
Qed.

(** The two bytes of a message. *)
Lemma arrived_u16 c0 c rm n : in_u 16 n -> arrived c0 c rm (be_split 2 n) ->
  AvailableLength (rm_pBuffer rm) = 2 /\ ReadUInt16 (cmem c) (m_pPos (rm_pBuffer rm)) = Ret n.
Proof using UL.
  intros Hn [(a & Hw & Hb) _]. rewrite be_split_length in Hw. split; [by rewrite (window_available _ _ _ _ _ Hw)|].
  rewrite (wi_pos _ _ _ _ _ Hw), Z.add_0_r. by apply ReadUInt16_at.
Qed.

Lemma u16_msg_ok i n : in_u 64 i -> msg_ok i (be_split 2 n).
Proof using max_ok. intros Hi. split; [done|rewrite be_split_length; unfold MAX_MSG_PAYLOAD_SIZE; lia|rewrite be_split_length; lia]. Qed.

(** The peer as the server knows it: the address of the socket, the port the client told. *)
Definition told_peer (h : hs_half) (port : Z) : net_peer_info_t := mkPeer (mkAddr (addr (nat_ (m_realPeer h))) port) Tcp.

(** [Recv(true)] of a new server connection. *)
Lemma server_recv fuel c ha m r i1 i2 port pl rest : quiet c ha (2 * length (e_wr (c_env c)) + 12 + m) (36 + r) -> in_u 16 port -> in_u 64 i1 ->
  msg_ok i2 pl -> is_bytes pl -> e_rd (c_env c) = RdData (wire_bytes i1 (be_split 2 port)) :: RdData (wire_bytes i2 pl) :: rest ->
  m_connState (c_hs c) = Connecting -> (length (e_wr (c_env c)) + 1 < fuel)%nat ->
  let logic := told_peer (c_hs c) port in let ok := m_onLogicConnect logic in let l := e_lastId (c_env c) in
  exists c', Recv sizeof_RcvMessage m_onLogicConnect (S (S (S (S fuel)))) c true = Ret (c', true) /\ quiet c' ha m r /\
    part c c' (answer l StatusOK ++ answer (GetNewId l) (verdict ok)) rest /\
    c_hs c' = answers (c_hs c) (if ok then Connected else ConnectingRe) logic.
Proof using UL PL sizeof_ok max_ok.
  intros Hq Hport Hi1 Hm2 Hby2 Hrd Hc Hf logic ok l.
  replace (2 * length (e_wr (c_env c)) + 12 + m)%nat with (S (S (length (e_wr (c_env c)) + 2 + (length (e_wr (c_env c)) + 6 + S (S m))))) in Hq by lia.
  destruct (receive (S (S fuel)) c ha _ _ i1 _ _ Hq (u16_msg_ok i1 port Hi1) (be_split_bytes _ _) Hrd ltac:(by rewrite Hc)) as (c1 & rm & E & Hq1 & Hp1 & Har & Hh1 & Hi'). rewrite E.
  destruct (arrived_u16 _ _ _ _ Hport Har) as [Eav Erd]. unfold handshake. rewrite Hh1, Hc, Eav, Erd. cbn [Z.eqb Pos.eqb negb obind].
  fold (told_peer (c_hs c) port). fold logic. rewrite <- Hh1. set (c2 := set_hs c1 _). pose proof (pt_wr _ _ _ _ Hp1) as Hw1.
  destruct (respond (S (S fuel)) c2 ha (length (e_wr (c_env c)) + 6 + S (S m)) (18 + r) StatusOK) as (c3 & c4 & E3 & E4 & Hq4 & Hp4 & Hh4 & Hi4).
  { apply (quiet_same c1); try done. apply (quiet_weaken _ _ _ _ _ _ Hq1); [cbn; lia|lia]. } { cbn. lia. }
  rewrite E3. cbn [negb]. rewrite E4. cbn [obind negb]. pose proof (pt_wr _ _ _ _ Hp4) as Hw4. cbn in Hw4.
  set (c5 := set_connState c4 ConnectingRe).
  assert (e_rd (c_env c5) = RdData (wire_bytes i2 pl) :: rest) as Hrd5 by (cbn; rewrite (pt_rd _ _ _ _ Hp4); exact (pt_rd _ _ _ _ Hp1)).
  destruct (server_last fuel c5 ha (S (S m)) r i2 pl rest) as (c6 & E6 & Hq6 & Hp6 & Hh6 & Hi6); try done.
  { apply (quiet_same c4); try done. apply (quiet_weaken _ _ _ _ _ _ Hq4); [cbn; lia|lia]. } { cbn. lia. }
  rewrite E6. cbn [obind negb]. assert (m_logicPeer (c_hs c5) = logic) as El by (cbn; by rewrite Hh4). rewrite El in Hp6, Hh6.
  assert (e_lastId (c_env c5) = GetNewId l) as Ei by (cbn; rewrite Hi4; cbn; by rewrite Hi'). rewrite Ei in Hp6.
  assert (part c c6 (answer l StatusOK ++ answer (GetNewId l) (verdict ok)) rest) as Hp.
  { replace (answer l StatusOK) with ([] ++ answer l StatusOK) by done. eapply part_trans; [eapply part_trans; [exact Hp1|]|exact Hp6].
    cbn in Hp4. rewrite Hi' in Hp4. destruct Hp4. by split. }
  assert (kept c1 c6) as Hk by (intros k a s Hl; apply (pt_kept _ _ _ _ Hp6), (pt_kept _ _ _ _ Hp4), Hl).
  destruct (release c c1 c6 ha m r rm _ _ _ (q_hdr _ _ _ _ Hq) Har Hk Hp Hq6) as (c7 & E7 & Hq7 & Hp7 & Hh7 & Hi7). rewrite E7. cbn [obind].
  eexists. split; [reflexivity|]. split; [by apply (quiet_same c7)|]. split; [by destruct Hp7|]. cbn. rewrite Hh7, Hh6. cbn. rewrite Hh4. cbn. by rewrite Hh1.
Qed.

(** [Initialize] of a new server connection. *)
Lemma server_initialize fuel c ha m r i1 i2 port pl rest : quiet c ha (2 * length (e_wr (c_env c)) + 12 + m) (36 + r) -> m_ct (c_hs c) = Server -> in_u 16 port -> in_u 64 i1 ->
  msg_ok i2 pl -> is_bytes pl -> e_rd (c_env c) = RdData (wire_bytes i1 (be_split 2 port)) :: RdData (wire_bytes i2 pl) :: rest ->
  (length (e_wr (c_env c)) + 1 < fuel)%nat ->
  let logic := told_peer (c_hs c) port in let ok := m_onLogicConnect logic in let l := e_lastId (c_env c) in
  exists c', Initialize sizeof_RcvMessage m_onLogicConnect (S (S (S (S fuel)))) c = Ret (c', InitDone ok) /\ quiet c' ha m r /\
    part c c' (answer l StatusOK ++ answer (GetNewId l) (verdict ok)) rest /\
    c_hs c' = answers (c_hs c) (if ok then Connected else ConnectingRe) logic.
Proof using UL PL sizeof_ok max_ok.
  intros Hq Hct Hport Hi1 Hm2 Hby2 Hrd Hf logic ok l. unfold Initialize. set (c0 := set_connState c Connecting).
  destruct (server_recv fuel c0 ha m r i1 i2 port pl rest) as (c' & E & Hq' & Hp & Hh); try done; [by apply (quiet_same c)|].
  cbn [c0 set_connState set_hs c_hs m_ct]. rewrite Hct. cbn [obind negb]. fold c0. rewrite E. cbn [obind negb]. rewrite Hh. cbn [m_bConnHandShakeCompleted answers m_connState].
  change (m_onLogicConnect (told_peer (c_hs c0) port)) with ok. exists c'. split; [|split; [done|split; [by destruct Hp|done]]].
  by destruct ok.
Qed.

(** ** The client *)

(** The server's last word. *)
Lemma client_last fuel c ha m r i stat rest : quiet c ha (4 + m) r -> in_u 64 i -> e_rd (c_env c) = RdData (wire_bytes i (be_split 2 (status_code stat))) :: rest ->
  m_connState (c_hs c) = WaitLastACK ->
  let ok := Z.eqb (status_code stat) (status_code StatusOK) && m_onLogicConnect (m_logicPeer (c_hs c)) in
  exists c', Recv sizeof_RcvMessage m_onLogicConnect (S (S fuel)) c true = Ret (c', true) /\ quiet c' ha m r /\ part c c' [] rest /\
    c_hs c' = answers (c_hs c) (if ok then Connected else WaitLastACK) (m_logicPeer (c_hs c)).
Proof using UL sizeof_ok max_ok.
  intros Hq Hi Hrd Hc ok.
  destruct (receive fuel c ha _ _ i _ _ Hq (u16_msg_ok i _ Hi) (be_split_bytes _ _) Hrd ltac:(by rewrite Hc)) as (c1 & rm & E & Hq1 & Hp1 & Har & Hh1 & Hi1). rewrite E.
  destruct (arrived_u16 _ _ _ _ (status_range stat) Har) as [_ Erd]. unfold handshake. rewrite Hh1, Hc, Erd. cbn [obind].
  destruct (release c c1 c1 ha _ _ rm _ [] rest (q_hdr _ _ _ _ Hq) Har ltac:(by intros k a s) Hp1 Hq1) as (c2 & E2 & Hq2 & Hp2 & Hh2 & Hi2). rewrite E2. cbn [obind].
  rewrite Hh2, Hh1. fold ok. eexists. split; [reflexivity|]. destruct ok.
  - split; [by apply (quiet_same c2)|]. split; [by destruct Hp2|]. cbn. by rewrite Hh2, Hh1.
  - split; [by apply (quiet_same c2)|]. split; [by destruct Hp2|]. cbn. rewrite Hh2, Hh1. unfold answers. by rewrite Hc.
Qed.

Lemma client_recv fuel c ha m r i1 i2 stat rest : quiet c ha (length (e_wr (c_env c)) + 10 + m) (18 + r) -> in_u 64 i1 -> in_u 64 i2 ->
  e_rd (c_env c) = RdData (wire_bytes i1 (be_split 2 (status_code StatusOK))) :: RdData (wire_bytes i2 (be_split 2 (status_code stat))) :: rest ->
  m_connState (c_hs c) = ConnectSe -> (length (e_wr (c_env c)) + 1 < fuel)%nat ->
  let ok := Z.eqb (status_code stat) (status_code StatusOK) && m_onLogicConnect (m_logicPeer (c_hs c)) in
  exists c', Recv sizeof_RcvMessage m_onLogicConnect (S (S (S (S fuel)))) c true = Ret (c', true) /\ quiet c' ha m r /\
    part c c' (answer (e_lastId (c_env c)) StatusOK) rest /\
    c_hs c' = answers (c_hs c) (if ok then Connected else WaitLastACK) (m_logicPeer (c_hs c)).
Proof using UL PL sizeof_ok max_ok.
  intros Hq Hi1 Hi2 Hrd Hc Hf ok. replace (length (e_wr (c_env c)) + 10 + m)%nat with (S (S (length (e_wr (c_env c)) + 2 + (4 + S (S m))))) in Hq by lia.
  destruct (receive (S (S fuel)) c ha _ _ i1 _ _ Hq (u16_msg_ok i1 _ Hi1) (be_split_bytes _ _) Hrd ltac:(by rewrite Hc)) as (c1 & rm & E & Hq1 & Hp1 & Har & Hh1 & Hi'). rewrite E.
  destruct (arrived_u16 _ _ _ _ (status_range StatusOK) Har) as [_ Erd]. unfold handshake. rewrite Hh1, Hc, Erd. cbn [obind]. rewrite Z.eqb_refl. cbn [negb].
  pose proof (pt_wr _ _ _ _ Hp1) as Hw1.
  destruct (respond (S (S fuel)) c1 ha (4 + S (S m)) r StatusOK) as (c3 & c4 & E3 & E4 & Hq4 & Hp4 & Hh4 & Hi4); [apply (quiet_weaken _ _ _ _ _ _ Hq1); lia|lia|].
  rewrite E3. cbn [negb]. rewrite E4. cbn [obind negb]. set (c5 := set_connState c4 WaitLastACK).
  assert (e_rd (c_env c5) = RdData (wire_bytes i2 (be_split 2 (status_code stat))) :: rest) as Hrd5 by (cbn -[status_code be_split]; rewrite (pt_rd _ _ _ _ Hp4); exact (pt_rd _ _ _ _ Hp1)).
  destruct (client_last fuel c5 ha (S (S m)) r i2 stat rest) as (c6 & E6 & Hq6 & Hp6 & Hh6); try done; [by apply (quiet_same c4)|].
  rewrite E6. cbn [obind negb]. assert (m_logicPeer (c_hs c5) = m_logicPeer (c_hs c)) as El by (cbn; by rewrite Hh4, Hh1). rewrite El in Hh6. rewrite Hi' in Hp4.
  assert (part c c6 (answer (e_lastId (c_env c)) StatusOK) rest) as Hp.
  { rewrite <- (app_nil_r (answer _ _)). replace (answer (e_lastId (c_env c)) StatusOK) with ([] ++ answer (e_lastId (c_env c)) StatusOK) by done.
    eapply part_trans; [eapply part_trans; [exact Hp1|exact Hp4]|]. destruct Hp6. by split. }
  assert (kept c1 c6) as Hk by (intros k a s Hl; apply (pt_kept _ _ _ _ Hp6), (pt_kept _ _ _ _ Hp4), Hl).
  destruct (release c c1 c6 ha m r rm _ _ _ (q_hdr _ _ _ _ Hq) Har Hk Hp Hq6) as (c7 & E7 & Hq7 & Hp7 & Hh7 & Hi7). rewrite E7. cbn [obind].
  eexists. split; [reflexivity|]. split; [by apply (quiet_same c7)|]. split; [by destruct Hp7|]. cbn. rewrite Hh7, Hh6. cbn. rewrite Hh4, Hh1. by fold ok.
Qed.

Lemma u16_i16 port : in_u 16 port -> u16 (i16 port) = port.
Proof.
  intros H. unfold u16, i16, swrap, wrap. rewrite Zminus_mod_idemp_l. replace (port + 2 ^ (16 - 1) - 2 ^ (16 - 1)) with port by lia. by apply Z.mod_small.
Qed.

(** The first message of a client. *)
Definition greeting (l port : Z) : list Z := wire_bytes (GetNewId l) (be_split 2 port).

Lemma client_initialize fuel c ha m r i1 i2 stat rest : quiet c ha (2 * length (e_wr (c_env c)) + 12 + m) (36 + r) -> m_ct (c_hs c) = Client ->
  in_u 16 (m_iLogicPort (c_hs c)) -> in_u 64 i1 -> in_u 64 i2 ->
  e_rd (c_env c) = RdData (wire_bytes i1 (be_split 2 (status_code StatusOK))) :: RdData (wire_bytes i2 (be_split 2 (status_code stat))) :: rest ->
  (length (e_wr (c_env c)) + 1 < fuel)%nat ->
  let ok := Z.eqb (status_code stat) (status_code StatusOK) && m_onLogicConnect (m_logicPeer (c_hs c)) in let l := e_lastId (c_env c) in
  exists c', Initialize sizeof_RcvMessage m_onLogicConnect (S (S (S (S fuel)))) c = Ret (c', InitDone ok) /\ quiet c' ha m r /\
    part c c' (greeting l (m_iLogicPort (c_hs c)) ++ answer (GetNewId l) StatusOK) rest /\
    c_hs c' = answers (c_hs c) (if ok then Connected else WaitLastACK) (m_logicPeer (c_hs c)).
Proof using UL PL sizeof_ok max_ok.
  intros Hq Hct Hport Hi1 Hi2 Hrd Hf ok l. unfold Initialize. cbn [set_connState set_hs c_hs m_ct]. rewrite Hct.
  unfold new_message. fold (set_connState c Connecting). set (c0 := set_connState c Connecting). change (e_lastId (c_env c0)) with l.
  change (m_iLogicPort (c_hs c0)) with (m_iLogicPort (c_hs c)).
  set (port := m_iLogicPort (c_hs c)) in *. set (sm := mkSnd (mkHeader 0 (GetNewId l) 0) true None (ConnectRequestMessage (i16 port))).
  assert (payload_bytes (body sm) = be_split 2 port) as Ep by (unfold sm; cbn [body payload_bytes]; by rewrite u16_i16).
  assert (snd_ok sm) as Hsm.
  { split; [done| |apply GetNewId_range|rewrite Ep, be_split_length; lia]. split; rewrite Ep; [apply be_split_bytes|rewrite be_split_length; unfold MAX_MSG_PAYLOAD_SIZE; lia]. }
  destruct (send_one (S (S (S (S fuel)))) (set_lastId c0 (GetNewId l)) ha (length (e_wr (c_env c)) + 10 + m) (18 + r) sm) as (c1 & E1 & Hq1 & Hp1 & Hh1 & Hl1); [|done|cbn; lia|].
  { rewrite Ep, wire_length, be_split_length. apply (quiet_same c); try done. apply (quiet_weaken _ _ _ _ _ _ Hq); [cbn; lia|lia]. }
  unfold InsertMessage in E1 |- *. cbn [fst] in E1. cbn [negb m_iLogicPort]. fold sm. rewrite E1. cbn [obind negb]. rewrite Ep in Hp1. pose proof (pt_wr _ _ _ _ Hp1) as Hw1. cbn in Hw1.
  set (c2 := set_connState c1 ConnectSe).
  destruct (client_recv fuel c2 ha m r i1 i2 stat rest) as (c' & E2 & Hq2 & Hp2 & Hh2); try done.
  { apply (quiet_same c1); try done. apply (quiet_weaken _ _ _ _ _ _ Hq1); [cbn; lia|lia]. } { cbn -[status_code be_split]. rewrite (pt_rd _ _ _ _ Hp1). exact Hrd. } { cbn. lia. }
  rewrite E2. cbn [obind negb]. assert (m_logicPeer (c_hs c2) = m_logicPeer (c_hs c)) as El by (cbn; by rewrite Hh1). rewrite El in Hh2. fold ok in Hh2. rewrite Hh2.
  cbn [answers m_bConnHandShakeCompleted m_connState]. exists c'. split; [by destruct ok|]. split; [done|].
  change (e_lastId (c_env c2)) with (e_lastId (c_env c1)) in Hp2. rewrite Hl1 in Hp2. change (e_lastId (c_env (set_lastId c0 (GetNewId l)))) with (GetNewId l) in Hp2. split.
  - unfold greeting. eapply part_trans; [destruct Hp1; by split|]. destruct Hp2. by split.
  - rewrite Hh2. unfold answers. cbn [c_hs c2 set_connState set_hs m_ct m_iLogicPort m_realPeer]. by rewrite Hh1.
Qed.

(** An established connection is ready for its events (Duplex.v). *)
Lemma quiet_duplex x c ha r todo : quiet c ha (2 * rd_size (e_rd (c_env c)) + x) r -> m_connState (c_hs c) = Connected -> clean (e_rd (c_env c)) ->
  Forall (fun m => msg_ok m.1 m.2) todo -> rd_bytes (e_rd (c_env c)) = stream todo -> duplex x c ha [] todo.
Proof.
  intros [] Hc Hcl Hm Hrd. split.
  - split; [by split|]. split; [done|]. destruct todo as [|[i pl] rest]; [done|]. exists 0%nat. split; [lia|]. split; [|done]. unfold phase. by rewrite q_state0.
  - unfold sending. by rewrite q_snd0.
  - by rewrite q_snd0.
  - done.
  - unfold rcv_spans. rewrite q_state0. split; [by apply Forall_singleton|apply NoDup_singleton].
  - unfold snd_spans. rewrite q_snd0. apply owned_nil.
  - unfold snd_spans. rewrite q_snd0. intros k _ Hk. by apply elem_of_nil in Hk.
Qed.

End handshake.

(** One end of a new connection: the messages [first] and [second] of the
    handshake and then, in [rest], the bytes of [todo] arrive; its pool has room for the
    handshake, for these and for [x] operations more. *)
Record fresh_end `{A : MemPoolApi} `{AL : !MemPoolLaws A} `{P : ProtoMsg} (c : conn (A := A) (P := P)) (ct : CreatorType) (ha : Z)
    (first second : list Z) (rest : list rd_event) (x : nat) (todo : list (Z * list Z)) : Prop := mkFreshEnd {
  fe_ct : m_ct (c_hs c) = ct;
  fe_max : 18 <= max_request;
  fe_quiet : quiet c ha (2 * length (e_wr (c_env c)) + 12 + (2 * rd_size rest + x)) 36;
  fe_rd : e_rd (c_env c) = RdData first :: RdData second :: rest;
  fe_clean : clean rest;
  fe_todo : Forall (fun m => msg_ok m.1 m.2) todo;
  fe_bytes : rd_bytes rest = stream todo
}.

(** C10.  A new connection between two hosts on which every message of the
    handshake arrives in one read and no write finds the socket full
    ([fresh_end]; [Delivery.initialize_short_read_waits] is the other case, in
    which [Initialize] waits for an event it is not subscribed to): the client
    sends its logic port, the two acknowledge each other, and the server tells
    its verdict.  Both calls of [Initialize] return; each end writes exactly what the other one
    reads; the server succeeds iff its service takes the peer that has the
    address of the socket and the port the client told, the client iff the
    server does and its own service takes the connection; all memory of the
    handshake is given back ([kept] in [part] and the buffers of [duplex]), and
    an end that succeeded is ready for its events. *)
Theorem handshake_agrees `{A1 : MemPoolApi} `{AL1 : !MemPoolLaws A1} `{A2 : MemPoolApi} `{AL2 : !MemPoolLaws A2}
    (U1 U2 : ByteOrderUtils) (UL1 : ByteOrderLaws U1) (UL2 : ByteOrderLaws U2) `{P : ProtoMsg} `{PL : !ProtoMsgLaws P}
    (size : Z) (on1 on2 : net_peer_info_t -> bool) (c1 : conn (A := A1) (P := P)) (c2 : conn (A := A2) (P := P))
    (ha1 ha2 : Z) (rest1 rest2 : list rd_event) (x1 x2 fuel : nat) (todo1 todo2 : list (Z * list Z)) :
  let port := m_iLogicPort (c_hs c1) in let logic := told_peer (c_hs c2) port in
  let l1 := e_lastId (c_env c1) in let l2 := e_lastId (c_env c2) in
  0 < size <= @max_request A1 AL1 -> size <= @max_request A2 AL2 -> in_u 16 port ->
  fresh_end c1 Client ha1 (answer l2 StatusOK) (answer (GetNewId l2) (verdict (on2 logic))) rest1 x1 todo1 ->
  fresh_end c2 Server ha2 (greeting l1 port) (answer (GetNewId l1) StatusOK) rest2 x2 todo2 ->
  (length (e_wr (c_env c1)) + 1 < fuel)%nat -> (length (e_wr (c_env c2)) + 1 < fuel)%nat ->
  exists c1' c2',
    Initialize (U := U1) size on1 (4 + fuel) c1 = Ret (c1', InitDone (on2 logic && on1 (m_logicPeer (c_hs c1)))) /\
    Initialize (U := U2) size on2 (4 + fuel) c2 = Ret (c2', InitDone (on2 logic)) /\
    part c1 c1' (greeting l1 port ++ answer (GetNewId l1) StatusOK) rest1 /\
    part c2 c2' (answer l2 StatusOK ++ answer (GetNewId l2) (verdict (on2 logic))) rest2 /\
    m_logicPeer (c_hs c2') = logic /\
    (on2 logic = true -> duplex x2 c2' ha2 [] todo2) /\
    (on2 logic && on1 (m_logicPeer (c_hs c1)) = true -> duplex x1 c1' ha1 [] todo1).
Proof.
  intros port logic l1 l2 Hs1 Hs2 Hport [Hct1 Hmx1 Hq1 Hrd1 Hc1 Ht1 Hb1] [Hct2 Hmx2 Hq2 Hrd2 Hc2 Ht2 Hb2] Hf1 Hf2.
  destruct (client_initialize (U := U1) size on1 Hs1 Hmx1 fuel c1 ha1 (2 * rd_size rest1 + x1) 0 (GetNewId l2) (GetNewId (GetNewId l2)) (verdict (on2 logic)) rest1)
    as (c1' & E1 & Q1 & P1 & H1); try done; try apply GetNewId_range.
  destruct (server_initialize (U := U2) size on2 (conj (proj1 Hs1) Hs2) Hmx2 fuel c2 ha2 (2 * rd_size rest2 + x2) 0 (GetNewId l1) (GetNewId (GetNewId l1)) port (be_split 2 (status_code StatusOK)) rest2)
    as (c2' & E2 & Q2 & P2 & H2); try done; try apply GetNewId_range; [apply (u16_msg_ok Hmx2), GetNewId_range|apply be_split_bytes|].
  assert (Z.eqb (status_code (verdict (on2 logic))) (status_code StatusOK) = on2 logic) as Ev by (by destruct (on2 logic)). rewrite Ev in *.
  exists c1', c2'. split; [exact E1|]. split; [exact E2|]. split; [exact P1|]. split; [exact P2|]. split; [by rewrite H2|].
  fold logic in H2. pose proof (pt_rd _ _ _ _ P1) as R1. pose proof (pt_rd _ _ _ _ P2) as R2. split; intros Hok.
  - rewrite Hok in H2. apply (quiet_duplex x2 c2' ha2 0); rewrite ?R2, ?H2; done.
  - rewrite Hok in H1. apply (quiet_duplex x1 c1' ha1 0); rewrite ?R1, ?H1; done.
Qed.

End Handshake.

(** ** Examples *)
Module HandshakeDemo.
Import Process Duplex Handshake.

(** The client calls itself by port 2001; each end is sent one message once the connection is made. *)
Definition told : net_peer_info_t := mkPeer (mkAddr "10.0.0.7" 2001) Tcp.
Definition hello : Z * list Z := (9, [4]).
Definition client0 : NetWorker.conn := worker Client Connecting false []
  [RdData (answer 0 StatusOK); RdData (answer 1 StatusOK); RdData (stream [hello])] (replicate 60 (WrRoom 1)).
Definition server0 : NetWorker.conn := worker Server Connecting false []
  [RdData (greeting 0 2001); RdData (answer 1 StatusOK); RdData (stream [hello])] (replicate 60 (WrRoom 1)).

Lemma worker_quiet ct rd n m r : Z.of_nat m < 2 ^ 30 -> (r <= n)%nat -> quiet (worker ct Connecting false [] rd (replicate n (WrRoom 1))) 4096 m r.
Proof.
  intros Hm Hr. split; try done; [apply world0_ok|apply bump_room; cbn; unfold bump_max; lia|constructor|apply touch_range_ok| | | |].
  - exists 1%positive, 16. split; [reflexivity|]. split; [reflexivity|]. vm_compute. reflexivity.
  - by apply Forall_replicate.
  - cbn. intros H. apply elem_of_replicate in H as [H _]. discriminate H.
  - cbn. clear Hm. revert r Hr. induction n as [|n IH]; intros r Hr; cbn; [lia|]. destruct r as [|r]; [lia|]. specialize (IH r ltac:(lia)). lia.
Qed.

Lemma fresh ct a b : fresh_end (worker ct Connecting false [] [RdData a; RdData b; RdData (stream [hello])] (replicate 60 (WrRoom 1))) ct 4096 a b [RdData (stream [hello])] 100 [hello].
Proof.
  split; [done|vm_compute; congruence|apply worker_quiet; [vm_compute; reflexivity|lia]|done| | |].
  - constructor; [|constructor]. apply bytes_dec_ok. vm_compute. reflexivity.
  - apply Forall_singleton. split; [vm_compute; split; congruence|vm_compute; split; [lia|congruence]|vm_compute; congruence].
  - cbn [rd_bytes]. by rewrite app_nil_r.
Qed.

Lemma handshake_agrees_witness : exists c1' c2',
  Initialize (U := LittleEndianHost) 120 (fun _ => true) 104 client0 = Ret (c1', InitDone true) /\
  Initialize (U := BigEndianHost) 120 (fun p => bool_decide (p = told)) 104 server0 = Ret (c2', InitDone true) /\
  m_logicPeer (c_hs c2') = told /\ duplex 100 c1' 4096 [] [hello] /\ duplex 100 c2' 4096 [] [hello].
Proof.
  destruct (handshake_agrees LittleEndianHost BigEndianHost LittleEndianHost_laws BigEndianHost_laws 120 (fun _ => true) (fun p => bool_decide (p = told)) client0 server0 4096 4096
    [RdData (stream [hello])] [RdData (stream [hello])] 100 100 100 [hello] [hello]) as (c1' & c2' & E1 & E2 & _ & _ & El & D2 & D1).
  - exact sizeof_ok.
  - vm_compute. congruence.
  - vm_compute. split; congruence.
  - apply fresh.
  - apply fresh.
  - vm_compute. lia.
  - vm_compute. lia.
  - exists c1', c2'. split; [exact E1|]. split; [exact E2|]. split; [exact El|]. split; [exact (D1 eq_refl)|exact (D2 eq_refl)].
Defined.

End HandshakeDemo.
