(* ===== verification/LoopSafety.v ===== *)
(** * LoopSafety: the worker's loop and the other threads

    [PosixEventManager::worker_loop] (posix/event-manager.cc:108-147) as a
    transition system, interleaved with the threads that connect, send,
    disconnect and stop (nb-socket-service.cc, net-stack-msg-worker.cc:41-57,
    abstract-file-event-handler.h:44-52).  A step is a section under one of
    the spin locks, one atomic access of a reference count, or one system
    call.  An action on an object that has been deleted is undefined. *)

From S2P Require Import Prelude Locks EventLoop.
Import Worker.

(** A live [AFileEventHandler]: its reference count, whether the worker manager
    has it, and whether [m_pOwnEvWorker] is set. *)
Record handler := mkHandler { m_iRef : Z; registered : bool; owned : bool }.

(** What a thread does next. *)
Inductive thread :=
| Connecting (h : Z)        (* entered by on_logic_connect, SetOwnWorker is next *)
| Enrolling (h : Z)         (* AddExternalEpAddEvent is next *)
| Holding (h : Z)           (* has a reference of GetWorkerEventHandlerWithRef *)
| Releasing (h : Z)         (* took the handler from the manager, Release is next *)
| Dropped (h : Z)           (* has decremented the count, GetRef is next *)
| Waking (k : option Z).    (* Wakeup is next; then it holds [k], or ends *)

(** An event of epoll: the notification pipe or a connection. *)
Inductive source := ILocal | IConn (h : Z).

#[export] Instance source_eq_dec : EqDecision source.
Proof. solve_decision. Defined.

(** Where the worker is; [Finishing] is a call of [m_onFinish] it makes. *)
Inductive task := FReleasing (h : Z) | FDropped (h : Z) | FWaking.
Inductive phase :=
| Waiting
| Woken (evs : list source)
| Deleting (todo pendingDelete : list Z) (evs : list source)
| Internal (evs : list source) (pendingDelete : list Z)
| External (externalEvents : list NetEvent) (pendingDelete : list Z)
| Freeing (todo : list Z)
| Adding (addEvs : list EpollAddEvent)
| Exited
| Finishing (t : task) (k : phase).

(** [edge]: bytes have been written to the pipe since epoll last reported it
    (the pipe is registered edge triggered); [interest]: the handlers in the
    epoll descriptor. *)
Record loop := mkLoop {
  objs : gmap Z handler;
  threads : list thread;
  ew : EventWorker;
  edge : bool;
  interest : gset Z;
  m_bStopped : bool;
  at_ : phase
}.

Definition loop_new : loop := mkLoop ∅ [] (mkEW [] [] [] 0) false ∅ false Waiting.

Definition set_objs (s : loop) o := mkLoop o (threads s) (ew s) (edge s) (interest s) (m_bStopped s) (at_ s).
Definition set_threads (s : loop) t := mkLoop (objs s) t (ew s) (edge s) (interest s) (m_bStopped s) (at_ s).
Definition set_ew (s : loop) w := mkLoop (objs s) (threads s) w (edge s) (interest s) (m_bStopped s) (at_ s).
Definition set_interest (s : loop) i := mkLoop (objs s) (threads s) (ew s) (edge s) i (m_bStopped s) (at_ s).
Definition set_at (s : loop) p := mkLoop (objs s) (threads s) (ew s) (edge s) (interest s) (m_bStopped s) p.

(** Access to a handler object. *)
Definition access {A : Type} (s : loop) (h : Z) (k : handler -> outcome A) : outcome A :=
  match objs s !! h with Some o => k o | None => Undef "use of a deleted handler" end.

Section loop.
Context (capacity : Z).

(** [Wakeup]. *)
Definition wake (s : loop) : outcome loop :=
  let* w := Wakeup capacity (ew s) in
  Ret (mkLoop (objs s) (threads s) w true (interest s) (m_bStopped s) (at_ s)).

Definition decrement (s : loop) (h : Z) : outcome loop :=
  access s h (fun o => Ret (set_objs s (<[h := mkHandler (ReferenceCounter.Release (m_iRef o)) (registered o) (owned o)]> (objs s)))).

(** [if (0 == GetRef()) if (m_pOwnEvWorker) m_pOwnEvWorker->AddExternalEpDelEvent(this)]:
    whether a [Wakeup] follows. *)
Definition check_ref (s : loop) (h : Z) : outcome (loop * bool) :=
  access s h (fun o =>
    let '(n, r) := ReferenceCounter.GetRef (m_iRef o) in
    let s := set_objs s (<[h := mkHandler r (registered o) (owned o)]> (objs s)) in
    if Z.eqb 0 n && owned o then Ret (set_ew s (AddExternalEpDelEvent (ew s) h), true) else Ret (s, false)).

(** *** The worker *)

(** [process_event] of a connection; [ok] is the result of its handlers. *)
Definition serve (s : loop) (ok : bool) (h : Z) (pending : list Z) (k : phase) : outcome loop :=
  if decide (h ∈ pending) then Ret (set_at s k)
  else access s h (fun o =>
    if ok || m_bStopped s || negb (registered o) then Ret (set_at s k)
    else Ret (set_at (set_objs s (<[h := mkHandler (m_iRef o) false (owned o)]> (objs s))) (Finishing (FReleasing h) k))).

Definition worker_step (s : loop) (ok : bool) : outcome loop :=
  match at_ s with
  | Waiting | Exited => Ret s
  | Woken evs =>
      let '(w, del) := GetExternalEpDelEvents (ew s) in Ret (set_at (set_ew s w) (Deleting del del evs))
  | Deleting [] p evs => Ret (set_at s (Internal evs p))
  | Deleting (h :: t) p evs => access s h (fun _ => Ret (set_at (set_interest s (interest s ∖ {[h]})) (Deleting t p evs)))
  | Internal [] p =>
      let '(w, rw) := GetExternalRWOpEvents (ew s) in Ret (set_at (set_ew s w) (External rw p))
  | Internal (ILocal :: t) p => Ret (set_at (set_ew s (set_pipe (ew s) 0)) (Internal t p))
  | Internal (IConn h :: t) p => serve s ok h p (Internal t p)
  | External [] p => Ret (set_at s (Freeing p))
  | External (e :: t) p => serve s ok (eh e) p (External t p)
  | Freeing [] =>
      let '(w, add) := GetExternalEpAddEvents (ew s) in Ret (set_at (set_ew s w) (Adding add))
  | Freeing (h :: t) => access s h (fun _ => Ret (set_at (set_objs s (delete h (objs s))) (Freeing t)))
  | Adding [] => Ret (set_at s (if m_bStopped s then Exited else Waiting))
  | Adding (a :: t) =>
      access s (socketEventHandler a) (fun _ => Ret (set_at (set_interest s (interest s ∪ {[socketEventHandler a]})) (Adding t)))
  | Finishing (FReleasing h) k => let* s := decrement s h in Ret (set_at s (Finishing (FDropped h) k))
  | Finishing (FDropped h) k => let* (s, b) := check_ref s h in Ret (set_at s (if b then Finishing FWaking k else k))
  | Finishing FWaking k => let* s := wake s in Ret (set_at s k)
  end.

(** *** The actions *)

Inductive action :=
| AConnect (h : Z)          (* a connection is established and entered in the manager *)
| AAcquire (h : Z)          (* GetWorkerEventHandlerWithRef *)
| ADisconnect (h : Z)       (* RemoveWorkerEventHandler in Disconnect *)
| AThread (i : nat)         (* the next step of thread i *)
| ASend (i : nat)           (* thread i, which holds a reference, pushes a write event *)
| AStop                     (* Stop sets the flag *)
| AWait (evs : list source) (* epoll_wait returns *)
| AWorker (ok : bool).      (* the next step of the worker *)

Definition others (i : nat) (l : list thread) : list thread := take i l ++ drop (S i) l.
(** Thread [i] becomes [t]. *)
Definition resume (s : loop) (i : nat) (t : list thread) : loop := set_threads s (t ++ others i (threads s)).

Definition thread_step (s : loop) (i : nat) (t : thread) : outcome loop :=
  match t with
  | Connecting h => access s h (fun o => Ret (resume (set_objs s (<[h := mkHandler (m_iRef o) (registered o) true]> (objs s))) i [Enrolling h]))
  | Enrolling h => Ret (resume (set_ew s (AddExternalEpAddEvent (ew s) h EVENT_NONE (Z.lor EVENT_READ EVENT_WRITE))) i [Waking None])
  | Holding h | Releasing h => let* s := decrement s h in Ret (resume s i [Dropped h])
  | Dropped h => let* (s, b) := check_ref s h in Ret (resume s i (if b then [Waking None] else []))
  | Waking k => let* s := wake s in Ret (resume s i (match k with Some h => [Holding h] | None => [] end))
  end.

Definition readable (s : loop) : bool := edge s && Z.ltb 0 (notify_pipe (ew s)).

(** An action in a state, [None] where it is not possible. *)
Definition act (s : loop) (a : action) : option (outcome loop) :=
  match a with
  | AConnect h =>
      match objs s !! h with
      | Some _ => None
      | None => Some (Ret (set_threads (set_objs s (<[h := mkHandler 1 true false]> (objs s))) (Connecting h :: threads s)))
      end
  | AAcquire h =>
      match objs s !! h with
      | Some (mkHandler r true o) =>
          Some (Ret (set_threads (set_objs s (<[h := mkHandler (ReferenceCounter.AddRef r) true o]> (objs s))) (Holding h :: threads s)))
      | _ => None
      end
  | ADisconnect h =>
      match objs s !! h with
      | Some (mkHandler r true o) =>
          Some (Ret (set_threads (set_objs s (<[h := mkHandler r false o]> (objs s))) (Releasing h :: threads s)))
      | _ => None
      end
  | AThread i => match threads s !! i with Some t => Some (thread_step s i t) | None => None end
  | ASend i =>
      match threads s !! i with
      | Some (Holding h) =>
          Some (access s h (fun o => if owned o then Ret (resume (set_ew s (AddExternalRWOpEvent (ew s) (mkNetEvent h EVENT_WRITE))) i [Waking (Some h)])
                                     else Undef "null event worker"))
      | _ => None
      end
  | AStop => Some (Ret (mkLoop (objs s) (Waking None :: threads s) (ew s) (edge s) (interest s) true (at_ s)))
  | AWait evs =>
      match at_ s with
      | Waiting =>
          if bool_decide (evs <> [] /\ NoDup evs) && forallb (fun e => match e with ILocal => readable s | IConn h => bool_decide (h ∈ interest s) end) evs then
            Some (Ret (mkLoop (objs s) (threads s) (ew s) (if decide (ILocal ∈ evs) then false else edge s) (interest s) (m_bStopped s)
                         (if m_bStopped s then Exited else Woken evs)))
          else None
      | _ => None
      end
  | AWorker ok => match at_ s with Waiting | Exited => None | _ => Some (worker_step s ok) end
  end.

End loop.

(** ** Schedules without the races of the reference count

    What is in the hands of the threads, of the worker, and of the queues. *)

Definition same (x h : Z) : Z := if Z.eqb x h then 1 else 0.

Definition t_holds (h : Z) (t : thread) : Z :=
  match t with Holding x | Releasing x | Waking (Some x) => same x h | _ => 0 end.
Definition t_drops (h : Z) (t : thread) : Z := match t with Dropped x => same x h | _ => 0 end.
Definition t_conn (h : Z) (t : thread) : Z := match t with Connecting x => same x h | _ => 0 end.
Definition t_enrol (h : Z) (t : thread) : Z := match t with Enrolling x => same x h | _ => 0 end.
Definition f_holds (h : Z) (p : phase) : Z := match p with Finishing (FReleasing x) _ => same x h | _ => 0 end.
Definition f_drops (h : Z) (p : phase) : Z := match p with Finishing (FDropped x) _ => same x h | _ => 0 end.

Fixpoint total (f : thread -> Z) (l : list thread) : Z := match l with [] => 0 | t :: l => f t + total f l end.

Fixpoint base (p : phase) : phase := match p with Finishing _ k => base k | _ => p end.

Definition sources (p : phase) : list source :=
  match p with Woken evs | Deleting _ _ evs | Internal evs _ => evs | _ => [] end.
Definition externals (p : phase) : list Z := match p with External l _ => eh <$> l | _ => [] end.
Definition addings (p : phase) : list Z := match p with Adding l => socketEventHandler <$> l | _ => [] end.
(** The handlers this turn deletes; those already out of epoll; those whose
    write events have been taken out of the queue. *)
Definition pending (p : phase) : list Z :=
  match p with Deleting _ d _ | Internal _ d | External _ d => d | Freeing d => d | _ => [] end.
Definition cleared (h : Z) (p : phase) : Prop :=
  match p with Deleting t d _ => h ∈ d /\ h ∉ t | Internal _ d | External _ d => h ∈ d | Freeing d => h ∈ d | _ => False end.
Definition quiet (h : Z) (p : phase) : Prop := match p with External _ d => h ∈ d | Freeing d => h ∈ d | _ => False end.

Definition holds (s : loop) (h : Z) : Z := total (t_holds h) (threads s) + f_holds h (at_ s).
Definition drops (s : loop) (h : Z) : Z := total (t_drops h) (threads s) + f_drops h (at_ s).
Definition enrolling (s : loop) (h : Z) : Prop :=
  0 < total (t_conn h) (threads s) \/ 0 < total (t_enrol h) (threads s) \/
  h ∈ (socketEventHandler <$> m_lAddEpExtEvents (ew s)) \/ h ∈ addings (base (at_ s)).

(** The schedules that avoid the races: a reference is taken only of a handler
    that has its worker and no other reference than the manager's; two
    releases of a handler do not overlap; and a handler leaves the manager
    only after the worker has entered it in epoll. *)
Definition disciplined (s : loop) (a : action) : Prop :=
  match a with
  | AAcquire h => drops s h = 0 /\ match objs s !! h with Some o => m_iRef o = 1 /\ owned o = true | None => False end
  | ADisconnect h => ~ enrolling s h
  | AThread i => match threads s !! i with Some (Holding h | Releasing h) => drops s h = 0 | _ => True end
  | AWorker ok =>
      match at_ s with
      | Finishing (FReleasing h) _ => drops s h = 0
      | Internal (IConn h :: _) _ => ok = false -> ~ enrolling s h
      | External (e :: _) _ => ok = false -> ~ enrolling s (eh e)
      | _ => True
      end
  | _ => True
  end.

#[export] Instance enrolling_dec s h : Decision (enrolling s h).
Proof. apply _. Defined.
#[export] Instance disciplined_dec s a : Decision (disciplined s a).
Proof.
  destruct a as [h|h|h|i|i| |evs|ok]; simpl; try apply _.
  - destruct (objs s !! h); apply _.
  - destruct (threads s !! i) as [[]|]; apply _.
  - destruct (at_ s) as [|evs|[|h t] d evs|[|[|h] t] d|[|e t] d|[|h t]|[|a t]| |[h|h|] k]; apply _.
Defined.

(** What holds of one address. *)
Definition good (o : option handler) (vh vd vc : Z) (enr rw ext int src del pen clr qui : Prop) : Prop :=
  0 <= vh /\ 0 <= vd /\ 0 <= vc /\
  match o with
  | None => vh = 0 /\ vd = 0 /\ ~ enr /\ ~ rw /\ ~ ext /\ ~ int /\ ~ src /\ ~ del /\ ~ pen
  | Some o =>
      m_iRef o = (if registered o then 1 else 0) + vh /\ m_iRef o + vd <= 2 /\ vd <= 1 /\
      (enr -> registered o = true) /\ (owned o = false -> 0 < vc) /\ (0 < vh -> owned o = true) /\
      (del \/ pen -> m_iRef o = 0 /\ vd = 0) /\ (pen -> ~ del) /\ (clr -> ~ int) /\ (qui -> ~ rw)
  end.

Definition inv_at (s : loop) (h : Z) : Prop :=
  good (objs s !! h) (holds s h) (drops s h) (total (t_conn h) (threads s)) (enrolling s h) (h ∈ (eh <$> m_lRwOpExtEvents (ew s))) (h ∈ externals (base (at_ s)))
    (h ∈ interest s) (IConn h ∈ sources (base (at_ s))) (h ∈ m_lDelEpExtEvents (ew s)) (h ∈ pending (base (at_ s)))
    (cleared h (base (at_ s))) (quiet h (base (at_ s))).

Definition flat (p : phase) : Prop :=
  match p with
  | Finishing _ (Internal _ _ | External _ _) => True
  | Finishing _ _ => False
  | Deleting t d _ => t ⊆ d
  | _ => True
  end.

Definition inv (s : loop) : Prop :=
  (forall h, inv_at s h) /\ NoDup (pending (base (at_ s))) /\ NoDup (m_lDelEpExtEvents (ew s)) /\ flat (at_ s).

Lemma same_range x h : 0 <= same x h <= 1.
Proof. unfold same. destruct (Z.eqb x h); lia. Qed.
Lemma same_refl h : same h h = 1.
Proof. unfold same. by rewrite Z.eqb_refl. Qed.
Lemma same_other x h : x <> h -> same x h = 0.
Proof. unfold same. intros H. by rewrite (proj2 (Z.eqb_neq _ _) H). Qed.

Lemma total_nonneg f l : (forall t, 0 <= f t) -> 0 <= total f l.
Proof. intros Hf. induction l as [|t l IH]; simpl; [lia|]. specialize (Hf t). lia. Qed.

Lemma total_app f l l' : total f (l ++ l') = total f l + total f l'.
Proof. induction l as [|t l IH]; simpl; [done|]. rewrite IH. lia. Qed.

Lemma total_others f i t l : l !! i = Some t -> total f (others i l) = total f l - f t.
Proof. intros E. unfold others. rewrite <- (take_drop_middle l i t E) at 3. rewrite !total_app. simpl. lia. Qed.

Lemma elem_of_set_insert h x l : x ∈ set_insert h l <-> x = h \/ x ∈ l.
Proof.
  induction l as [|y l IH]; simpl; [set_solver|].
  destruct (Z.ltb_spec h y); [set_solver|]. destruct (Z.eqb_spec h y) as [->|]; [set_solver|]. set_solver.
Qed.

Lemma NoDup_set_insert h l : NoDup l -> h ∉ l -> NoDup (set_insert h l).
Proof.
  induction l as [|y l IH]; intros Hd Hn; simpl; [apply NoDup_singleton|].
  apply NoDup_cons in Hd as [Hy Hd]. destruct (Z.ltb_spec h y); [by constructor; [|constructor]|].
  destruct (Z.eqb_spec h y) as [->|]; [by constructor|]. constructor; [|apply IH; set_solver].
  rewrite elem_of_set_insert. set_solver.
Qed.

(** The goal [good ...] for one address, with the hypothesis for the state
    before, after the addresses have been told apart. *)
Ltac good_at x h :=
  destruct (decide (x = h)) as [->|];
  [try rewrite !lookup_insert_eq; try rewrite !same_refl in *
  |try rewrite !(lookup_insert_ne _ h) by congruence; try rewrite !(same_other h) in * by congruence;
   rewrite ?Z.sub_0_r, ?Z.add_0_r, ?Z.add_0_l].
Ltac views := unfold inv_at, holds, drops, enrolling, good in *; simpl in *.
Ltac split_all := repeat match goal with H : _ /\ _ |- _ => destruct H end.
Ltac good_leaf := first [done | congruence | lia | match goal with H : _ -> ?g |- ?g => apply H; lia end].
Ltac solve_good := cbn [m_iRef registered owned] in *; rewrite ?Z.add_0_l in *; split_all; split_and?; intros; split_all;
  first [done | lia | by auto | by (intuition good_leaf)].

Section proofs.
Context (capacity : Z).

Lemma loop_inv_init : inv loop_new.
Proof.
  split; [|split_and!; [constructor|constructor|done]]. intros h. views. rewrite lookup_empty.
  split_and!; try done; try lia; try apply not_elem_of_nil; try apply not_elem_of_empty.
  intros [?|[?|[E|E]]]; [lia|lia|by apply elem_of_nil in E..].
Qed.

Lemma inv_connect s h : inv s -> objs s !! h = None ->
  inv (set_threads (set_objs s (<[h := mkHandler 1 true false]> (objs s))) (Connecting h :: threads s)).
Proof.
  intros (H & Hr) E. split; [|done]. intros x. specialize (H x). views. good_at x h; rewrite ?E in *.
  - solve_good.
  - exact H.
Qed.

Lemma inv_acquire s h : inv s -> disciplined s (AAcquire h) -> objs s !! h = Some (mkHandler 1 true true) ->
  inv (set_threads (set_objs s (<[h := mkHandler (ReferenceCounter.AddRef 1) true true]> (objs s))) (Holding h :: threads s)).
Proof.
  intros (H & Hr) (Hd & _) E. split; [|done]. change (ReferenceCounter.AddRef 1) with 2.
  intros x. specialize (H x). views. good_at x h; rewrite ?E in *.
  - solve_good.
  - exact H.
Qed.

Lemma inv_disconnect s h r o : inv s -> disciplined s (ADisconnect h) -> objs s !! h = Some (mkHandler r true o) ->
  inv (set_threads (set_objs s (<[h := mkHandler r false o]> (objs s))) (Releasing h :: threads s)).
Proof.
  intros (H & Hr) Hd E. split; [|done]. simpl in Hd.
  intros x. specialize (H x). views. good_at x h; rewrite ?E in *.
  - destruct o; solve_good.
  - exact H.
Qed.

Lemma t_holds_nonneg h t : 0 <= t_holds h t.
Proof. destruct t as [| | | | |[]]; simpl; try lia; apply same_range. Qed.
Lemma t_drops_nonneg h t : 0 <= t_drops h t.
Proof. destruct t; simpl; try lia; apply same_range. Qed.
Lemma t_conn_nonneg h t : 0 <= t_conn h t.
Proof. destruct t; simpl; try lia; apply same_range. Qed.
Lemma t_enrol_nonneg h t : 0 <= t_enrol h t.
Proof. destruct t; simpl; try lia; apply same_range. Qed.
Lemma f_holds_nonneg h p : 0 <= f_holds h p.
Proof. destruct p as [| | | | | | | |[]]; simpl; try lia; apply same_range. Qed.
Lemma f_drops_nonneg h p : 0 <= f_drops h p.
Proof. destruct p as [| | | | | | | |[]]; simpl; try lia; apply same_range. Qed.

Lemma total_at f l i t : (forall t, 0 <= f t) -> l !! i = Some t -> f t <= total f l.
Proof.
  intros Hf E. rewrite <- (take_drop_middle l i t E), total_app. simpl.
  pose proof (total_nonneg f (take i l) Hf). pose proof (total_nonneg f (drop (S i) l) Hf). lia.
Qed.

(** A thread's handler is live. *)
Lemma thread_live s i t h : inv s -> threads s !! i = Some t ->
  0 < t_holds h t \/ 0 < t_drops h t \/ 0 < t_conn h t \/ 0 < t_enrol h t -> exists o, objs s !! h = Some o.
Proof.
  intros [H _] E Ht. specialize (H h). views. destruct (objs s !! h) as [o|]; [by eauto|]. exfalso.
  pose proof (total_at _ _ _ _ (t_holds_nonneg h) E). pose proof (total_at _ _ _ _ (t_drops_nonneg h) E).
  pose proof (total_at _ _ _ _ (t_conn_nonneg h) E). pose proof (total_at _ _ _ _ (t_enrol_nonneg h) E).
  pose proof (f_holds_nonneg h (at_ s)). pose proof (f_drops_nonneg h (at_ s)).
  destruct H as (_ & _ & _ & ? & ? & He & _). destruct Ht as [?|[?|[?|?]]]; [lia|lia|apply He; lia|apply He; lia].
Qed.

Ltac resumed E := rewrite !(total_others _ _ _ _ E); simpl.

Lemma inv_owned s i h o : inv s -> threads s !! i = Some (Connecting h) -> objs s !! h = Some o ->
  inv (resume (set_objs s (<[h := mkHandler (m_iRef o) (registered o) true]> (objs s))) i [Enrolling h]).
Proof.
  intros Hi E Eo. pose proof Hi as (H & Hr). split; [|done]. intros x. specialize (H x).
  pose proof (total_at _ _ _ _ (t_conn_nonneg x) E). views. resumed E.
  good_at x h; rewrite ?Eo in *; [solve_good|]. rewrite ?Z.sub_0_r, ?Z.add_0_r, ?Z.add_0_l. exact H.
Qed.

Lemma inv_enrol s i h m : inv s -> threads s !! i = Some (Enrolling h) ->
  inv (resume (set_ew s (AddExternalEpAddEvent (ew s) h EVENT_NONE m)) i [Waking None]).
Proof.
  intros Hi E. pose proof Hi as (H & Hr). split; [|done]. intros x. specialize (H x).
  pose proof (total_at _ _ _ _ (t_enrol_nonneg x) E) as Ht. views. resumed E. rewrite fmap_app.
  good_at x h; rewrite ?Z.sub_0_r, ?Z.add_0_r, ?Z.add_0_l.
  - destruct (objs s !! h); [|exfalso; destruct H as (_ & _ & _ & _ & _ & He & _); apply He; lia]. solve_good.
  - destruct (objs s !! x); rewrite elem_of_app; simpl; rewrite list_elem_of_singleton; solve_good.
Qed.

Lemma Release_small n : 0 <= n <= 2 -> ReferenceCounter.Release n = n - 1.
Proof. intros Hn. apply swrap_id; [lia|]. unfold in_s. lia. Qed.

Lemma GetRef_small n : 0 <= n <= 1 -> ReferenceCounter.GetRef n = (n, n).
Proof. intros Hn. assert (n = 0 \/ n = 1) as [-> | ->] by lia; done. Qed.

Lemma inv_drop s i t h o : inv s -> threads s !! i = Some t -> t = Holding h \/ t = Releasing h -> drops s h = 0 -> objs s !! h = Some o ->
  exists s', decrement s h = Ret s' /\ inv (resume s' i [Dropped h]).
Proof.
  intros Hi E Ht Hd Eo. unfold decrement, access. rewrite Eo. eexists. split; [reflexivity|].
  pose proof Hi as (H & Hr). split; [|done]. intros x. specialize (H x).
  assert (t_holds x t = same h x /\ t_drops x t = 0 /\ t_conn x t = 0 /\ t_enrol x t = 0) as (T1 & T2 & T3 & T4) by by destruct Ht as [-> | ->].
  pose proof (total_at _ _ _ _ (t_holds_nonneg x) E) as Hh. rewrite T1 in Hh. pose proof (f_holds_nonneg x (at_ s)).
  views. resumed E. rewrite T1, T2, T3, T4. good_at x h.
  - rewrite Eo in H. rewrite Release_small by (split_all; destruct (registered o); lia). destruct (registered o); solve_good.
  - rewrite ?Z.sub_0_r, ?Z.add_0_r, ?Z.add_0_l. exact H.
Qed.

Lemma dropped_small s i h o : inv s -> threads s !! i = Some (Dropped h) -> objs s !! h = Some o -> 0 <= m_iRef o <= 1.
Proof.
  intros [H _] E Eo. specialize (H h). pose proof (total_at _ _ _ _ (t_drops_nonneg h) E) as Hd. simpl in Hd. rewrite same_refl in Hd.
  pose proof (f_drops_nonneg h (at_ s)). views. rewrite Eo in H. split_all. destruct (registered o); lia.
Qed.

(** [set_objs] with the same object. *)
Lemma same_obj s h o : objs s !! h = Some o -> set_objs s (<[h := mkHandler (m_iRef o) (registered o) (owned o)]> (objs s)) = s.
Proof. intros E. destruct o, s. unfold set_objs. simpl in *. by rewrite insert_id. Qed.

Lemma inv_check s i h o : inv s -> threads s !! i = Some (Dropped h) -> objs s !! h = Some o ->
  exists s' b, check_ref s h = Ret (s', b) /\ inv (resume s' i (if b then [Waking None] else [])).
Proof.
  intros Hi E Eo. unfold check_ref, access. rewrite Eo, GetRef_small by (by eapply dropped_small). rewrite same_obj by done.
  pose proof (dropped_small _ _ _ _ Hi E Eo) as Hs. destruct (Z.eqb 0 (m_iRef o) && owned o) eqn:Eb.
  - eexists _, true. split; [reflexivity|]. apply andb_true_iff in Eb as [E0%Z.eqb_eq Eow].
    pose proof Hi as (H & Hp & Hn & Hf). split.
    + intros x. specialize (H x). pose proof (total_at _ _ _ _ (t_drops_nonneg x) E) as Hd. simpl in Hd. pose proof (f_drops_nonneg x (at_ s)).
      views. resumed E. rewrite ?Z.sub_0_r, ?Z.add_0_r, ?Z.add_0_l. good_at x h.
      * rewrite Eo in *. rewrite elem_of_set_insert. destruct (registered o); solve_good.
      * destruct (objs s !! x); rewrite elem_of_set_insert; solve_good.
    + simpl. split_and!; try done. apply NoDup_set_insert; [done|]. intros Hin. specialize (H h).
      pose proof (total_at _ _ _ _ (t_drops_nonneg h) E) as Hd. simpl in Hd. rewrite same_refl in Hd. pose proof (f_drops_nonneg h (at_ s)).
      views. rewrite Eo in H. destruct H as (_ & _ & _ & _ & _ & _ & _ & _ & _ & Hg & _).
      destruct (Hg (or_introl Hin)). lia.
  - eexists _, false. split; [reflexivity|]. pose proof Hi as (H & Hr). split; [|done].
    intros x. specialize (H x). pose proof (total_at _ _ _ _ (t_drops_nonneg x) E) as Hd. simpl in Hd. pose proof (f_drops_nonneg x (at_ s)).
    views. resumed E. rewrite ?Z.sub_0_r, ?Z.add_0_r, ?Z.add_0_l. good_at x h; [|exact H]. rewrite Eo in *. destruct (registered o); solve_good.
Qed.

Lemma wake_cases s : inv s -> (exists s', wake capacity s = Ret s' /\ inv s' /\ threads s' = threads s /\ at_ s' = at_ s) \/
  (wake capacity s = Throw "Write notify pipe failed!" /\ capacity <= notify_pipe (ew s)).
Proof.
  intros Hi. unfold wake, Wakeup. destruct (Z.ltb_spec (notify_pipe (ew s)) capacity); [left|by right].
  eexists. split; [reflexivity|]. split_and!; [|done..]. exact Hi.
Qed.

Lemma inv_woken s i k : inv s -> threads s !! i = Some (Waking k) ->
  inv (resume s i (match k with Some h => [Holding h] | None => [] end)).
Proof.
  intros Hi E. pose proof Hi as (H & Hr). split; [|done]. intros x. specialize (H x).
  destruct k as [h|]; views; resumed E; rewrite ?Z.sub_0_r, ?Z.add_0_r, ?Z.add_0_l; [|exact H].
  replace (same h x + (total (t_holds x) (threads s) - same h x)) with (total (t_holds x) (threads s)) by lia. exact H.
Qed.

Lemma thread_ok s i t : inv s -> disciplined s (AThread i) -> threads s !! i = Some t ->
  (exists s', thread_step capacity s i t = Ret s' /\ inv s') \/
  (thread_step capacity s i t = Throw "Write notify pipe failed!" /\ capacity <= notify_pipe (ew s)).
Proof.
  intros Hi Hd E. simpl in Hd. rewrite E in Hd.
  assert (forall h, 0 < t_holds h t \/ 0 < t_drops h t \/ 0 < t_conn h t \/ 0 < t_enrol h t -> exists o, objs s !! h = Some o) as Hl
    by (intros h; by apply (thread_live s i t h)).
  destruct t as [h|h|h|h|h|k]; cbn [thread_step].
  - destruct (Hl h) as [o Eo]; [simpl; rewrite same_refl; lia|]. left. unfold access. rewrite Eo. eexists. split; [reflexivity|]. by apply inv_owned.
  - left. eexists. split; [reflexivity|]. by apply inv_enrol.
  - destruct (Hl h) as [o Eo]; [simpl; rewrite same_refl; lia|]. left.
    destruct (inv_drop s i _ h o Hi E ltac:(by left) Hd Eo) as (s' & -> & Hs'). eexists. split; [reflexivity|done].
  - destruct (Hl h) as [o Eo]; [simpl; rewrite same_refl; lia|]. left.
    destruct (inv_drop s i _ h o Hi E ltac:(by right) Hd Eo) as (s' & -> & Hs'). eexists. split; [reflexivity|done].
  - destruct (Hl h) as [o Eo]; [simpl; rewrite same_refl; lia|]. left.
    destruct (inv_check s i h o Hi E Eo) as (s' & b & -> & Hs'). eexists. split; [reflexivity|done].
  - destruct (wake_cases s Hi) as [(s' & -> & Hs' & Et & _)|[-> Hc]]; [left|by right].
    eexists. split; [reflexivity|]. apply inv_woken; [done|by rewrite Et].
Qed.

Lemma quiet_pending h p : quiet h p -> h ∈ pending p.
Proof. by destruct p. Qed.

Lemma holding_owned s i h o : inv s -> threads s !! i = Some (Holding h) -> objs s !! h = Some o -> owned o = true /\ 0 < m_iRef o.
Proof.
  intros [H _] E Eo. specialize (H h). pose proof (total_at _ _ _ _ (t_holds_nonneg h) E) as Hd. simpl in Hd. rewrite same_refl in Hd.
  pose proof (f_holds_nonneg h (at_ s)). views. rewrite Eo in H. split_all. split; [by apply H8; lia|]. destruct (registered o); lia.
Qed.

Lemma inv_send s i h : inv s -> threads s !! i = Some (Holding h) ->
  exists s', act capacity s (ASend i) = Some (Ret s') /\ inv s'.
Proof.
  intros Hi E. destruct (thread_live s i _ h Hi E) as [o Eo]; [left; simpl; rewrite same_refl; lia|].
  destruct (holding_owned s i h o Hi E Eo) as [Ho Hp]. cbn [act]. rewrite E. unfold access. rewrite Eo, Ho.
  eexists. split; [reflexivity|]. pose proof Hi as (H & Hr). split; [|done]. intros x. specialize (H x).
  pose proof (quiet_pending x (base (at_ s))) as Hq. views. resumed E. rewrite fmap_app.
  replace (same h x + (total (t_holds x) (threads s) - same h x)) with (total (t_holds x) (threads s)) by lia.
  rewrite ?Z.sub_0_r, ?Z.add_0_l. destruct (decide (x = h)) as [->|Hne].
  - rewrite Eo in *. solve_good.
  - destruct (objs s !! x); rewrite elem_of_app; simpl; rewrite list_elem_of_singleton; solve_good.
Qed.

Lemma inv_stop s : inv s -> inv (mkLoop (objs s) (Waking None :: threads s) (ew s) (edge s) (interest s) true (at_ s)).
Proof. intros (H & Hr). split; [|done]. intros x. exact (H x). Qed.

Lemma inv_wait s evs r : inv s -> act capacity s (AWait evs) = Some r -> exists s', r = Ret s' /\ inv s'.
Proof.
  intros (H & Hp & Hn & Hf). cbn [act]. destruct (at_ s) eqn:Ea; try done.
  destruct (bool_decide _ && forallb _ _) eqn:Eb; [|done]. intros [= <-]. eexists. split; [reflexivity|].
  apply andb_true_iff in Eb as [_ Eb]. rewrite forallb_forall in Eb.
  split; [|split_and!; [destruct (m_bStopped s); constructor|done|by destruct (m_bStopped s)]].
  intros x. specialize (H x). views. rewrite Ea in H. simpl in H. destruct (objs s !! x) as [o|] eqn:Eo.
  - destruct (m_bStopped s); simpl; solve_good.
  - destruct H as (? & ? & ? & ? & ? & He & Hrw & _ & Hint & _ & Hdel & _).
    assert (IConn x ∉ evs) as Hsrc.
    { intros Hin%list_elem_of_In. specialize (Eb _ Hin). simpl in Eb. by apply bool_decide_eq_true in Eb. }
    destruct (m_bStopped s); simpl; split_and!; try done; apply not_elem_of_nil.
Qed.

(** A worker's step that changes nothing but its place. *)
Lemma inv_serve s ok h d k : inv s -> h ∈ externals (base (at_ s)) \/ IConn h ∈ sources (base (at_ s)) -> base k = k ->
  (ok = false -> ~ enrolling s h) -> f_holds h (at_ s) = 0 -> 
  inv (set_at s k) -> (forall x, f_holds x k = 0 /\ f_drops x k = 0) -> flat (Finishing (FReleasing h) k) -> d = pending k ->
  pending k = pending (base (at_ s)) ->
  exists s', serve s ok h d k = Ret s' /\ inv s'.
Proof.
  intros Hi Hs Hb Hd Hf0 Hk Hfk Hfl -> Hpk. unfold serve. destruct (decide (h ∈ pending k)) as [|Hnp]; [by eauto|].
  unfold access. destruct (objs s !! h) as [o|] eqn:Eo.
  2: { exfalso. destruct Hi as [H _]. specialize (H h). views. rewrite Eo in H. split_all. by destruct Hs. }
  destruct (ok || m_bStopped s || negb (registered o)) eqn:Eb; [by eauto|].
  apply orb_false_iff in Eb as [[-> _]%orb_false_iff Ereg%negb_false_iff].
  eexists. split; [reflexivity|]. destruct Hk as (H & Hp & Hn & _). split; [|simpl in *; rewrite Hb in *; done].
  intros x. specialize (H x). destruct (Hfk x) as [F1 F2]. specialize (Hd eq_refl). pose proof Hi as [H0 _]. specialize (H0 x).
  assert (addings k = []) as Ha by by destruct k.
  views. rewrite F1, F2, Hb, Ha in *. good_at x h; [|rewrite !Z.add_0_r in H; exact H]. rewrite Eo in *.
  assert (h ∉ @nil Z) by apply not_elem_of_nil. destruct (owned o) eqn:Eow; rewrite Ereg in *; solve_good.
Qed.

(** *** The steps of the worker *)

(** Reads the invariant of a state with a known phase. *)
Ltac at_phase Ea x H := specialize (H x); views; rewrite Ea in *; simpl in *.

Lemma inv_take_del s evs : inv s -> at_ s = Woken evs ->
  inv (set_at (set_ew s (GetExternalEpDelEvents (ew s)).1) (Deleting (m_lDelEpExtEvents (ew s)) (m_lDelEpExtEvents (ew s)) evs)).
Proof.
  intros (H & Hp & Hn & Hf) Ea. split; [|by split_and!; [|constructor|simpl]]. intros x. at_phase Ea x H.
  assert (x ∉ @nil Z) by apply not_elem_of_nil. destruct (objs s !! x); solve_good.
Qed.

Lemma inv_del s h t d evs : inv s -> at_ s = Deleting (h :: t) d evs ->
  inv (set_at (set_interest s (interest s ∖ {[h]})) (Deleting t d evs)).
Proof.
  intros (H & Hp & Hn & Hf) Ea. split; [|rewrite Ea in *; split_and!; [done..|simpl in *; set_solver]]. intros x. at_phase Ea x H.
  pose proof (not_elem_of_cons t x h) as Hc. destruct (decide (x = h)) as [->|].
  - assert (h ∉ interest s ∖ {[h]}) by set_solver. destruct (objs s !! h); solve_good.
  - assert (x ∈ interest s ∖ {[h]} <-> x ∈ interest s) as Hi by set_solver. destruct (objs s !! x); rewrite Hi; solve_good.
Qed.

Lemma inv_take_rw s d : inv s -> at_ s = Internal [] d ->
  inv (set_at (set_ew s (GetExternalRWOpEvents (ew s)).1) (External (m_lRwOpExtEvents (ew s)) d)).
Proof.
  intros (H & Hp & Hn & Hf) Ea. split; [|by rewrite Ea in *]. intros x. at_phase Ea x H.
  assert (x ∉ @nil Z) by apply not_elem_of_nil. destruct (objs s !! x); solve_good.
Qed.

Lemma inv_take_add s : inv s -> at_ s = Freeing [] ->
  inv (set_at (set_ew s (GetExternalEpAddEvents (ew s)).1) (Adding (m_lAddEpExtEvents (ew s)))).
Proof.
  intros (H & Hp & Hn & Hf) Ea. split; [|by split_and!; [constructor| |]]. intros x. at_phase Ea x H.
  assert (x ∉ @nil Z) by apply not_elem_of_nil. destruct (objs s !! x); solve_good.
Qed.

Lemma inv_free s h t : inv s -> at_ s = Freeing (h :: t) -> inv (set_at (set_objs s (delete h (objs s))) (Freeing t)).
Proof.
  intros (H & Hp & Hn & Hf) Ea. rewrite Ea in Hp. simpl in Hp. apply NoDup_cons in Hp as [Hh Hp]. split; [|done].
  intros x. at_phase Ea x H. destruct (decide (x = h)) as [->|].
  - rewrite lookup_delete_eq. destruct (objs s !! h) as [o|]; [|exfalso; set_solver].
    assert (h ∉ @nil Z) by apply not_elem_of_nil. assert (h ∈ h :: t) by set_solver. assert (IConn h ∉ []) by apply not_elem_of_nil.
    destruct (registered o); solve_good.
  - rewrite lookup_delete_ne by done. assert (x ∈ h :: t <-> x ∈ t) as Hx by set_solver.
    destruct (objs s !! x); rewrite ?Hx in *; solve_good.
Qed.

Lemma inv_add s a t : inv s -> at_ s = Adding (a :: t) -> objs s !! socketEventHandler a <> None ->
  inv (set_at (set_interest s (interest s ∪ {[socketEventHandler a]})) (Adding t)).
Proof.
  intros (H & Hp & Hn & Hf) Ea Hl. split; [|by split_and!; [constructor| |]]. intros x. at_phase Ea x H.
  destruct (decide (x = socketEventHandler a)) as [->|].
  - destruct (objs s !! socketEventHandler a); [|done]. rewrite elem_of_cons in H. solve_good.
  - assert (x ∈ interest s ∪ {[socketEventHandler a]} <-> x ∈ interest s) as Hi by set_solver.
    destruct (objs s !! x); rewrite Hi; rewrite elem_of_cons in H; solve_good.
Qed.

(** A step to a phase that knows fewer events. *)
Lemma inv_move s k : inv s -> flat k -> NoDup (pending (base k)) ->
  (forall x, (f_holds x k = f_holds x (at_ s) /\ f_drops x k = f_drops x (at_ s)) /\
     (x ∈ externals (base k) -> x ∈ externals (base (at_ s))) /\ (IConn x ∈ sources (base k) -> IConn x ∈ sources (base (at_ s))) /\
     addings (base k) = addings (base (at_ s)) /\ (x ∈ pending (base k) <-> x ∈ pending (base (at_ s))) /\
     (cleared x (base k) -> cleared x (base (at_ s))) /\ (quiet x (base k) -> quiet x (base (at_ s)))) ->
  inv (set_at s k).
Proof.
  intros (H & Hp & Hn & _) Hf Hpk Hk. split; [|done]. intros x. specialize (H x).
  destruct (Hk x) as ((Eh & Ed) & He & Hs & Ha & Hx & Hc & Hq). views. rewrite Eh, Ed, Ha.
  destruct (objs s !! x); solve_good.
Qed.

Lemma flat_base k t : flat (Finishing t k) -> base k = k /\ (forall x, f_holds x k = 0) /\ (forall x, f_drops x k = 0) /\ flat k.
Proof. by destruct k. Qed.

(** The handler the worker's call of [m_onFinish] works on is live. *)
Lemma task_live s h k t : inv s -> at_ s = Finishing t k -> t = FReleasing h \/ t = FDropped h ->
  exists o, objs s !! h = Some o /\ 0 <= m_iRef o <= 2.
Proof.
  intros [H _] Ea Ht. specialize (H h). pose proof (total_nonneg _ (threads s) (t_holds_nonneg h)). pose proof (total_nonneg _ (threads s) (t_drops_nonneg h)).
  views. rewrite Ea in H. destruct (objs s !! h) as [o|].
  - exists o. split; [done|]. split_all. destruct (registered o); lia.
  - exfalso. destruct H as (_ & _ & _ & ? & ? & _). destruct Ht as [-> | ->]; simpl in *; rewrite same_refl in *; lia.
Qed.

Lemma inv_fdrop s h k : inv s -> at_ s = Finishing (FReleasing h) k -> drops s h = 0 ->
  exists s', decrement s h = Ret s' /\ inv (set_at s' (Finishing (FDropped h) k)).
Proof.
  intros Hi Ea Hd. destruct (task_live s h k _ Hi Ea ltac:(by left)) as (o & Eo & Ho). unfold decrement, access. rewrite Eo.
  eexists. split; [reflexivity|]. rewrite Release_small by done. destruct Hi as (H & Hp & Hn & Hf). rewrite Ea in Hp, Hf.
  split; [|done]. intros x. specialize (H x). pose proof (total_nonneg _ (threads s) (t_holds_nonneg x)). views. rewrite Ea in *. simpl in *.
  good_at x h; [rewrite Eo in *; destruct (registered o); solve_good|]. rewrite ?Z.add_0_r in H. exact H.
Qed.

Lemma inv_fcheck s h k : inv s -> at_ s = Finishing (FDropped h) k ->
  exists s' b, check_ref s h = Ret (s', b) /\ inv (set_at s' (if b then Finishing FWaking k else k)).
Proof.
  intros Hi Ea. destruct (task_live s h k _ Hi Ea ltac:(by right)) as (o & Eo & Ho).
  pose proof Hi as (H & Hp & Hn & Hf). rewrite Ea in Hp, Hf. destruct (flat_base _ _ Hf) as (Hb & Hk1 & Hk2 & Hk3).
  pose proof (H h) as Hh. pose proof (total_nonneg _ (threads s) (t_drops_nonneg h)) as Hdn. views. rewrite Ea, Eo in Hh. simpl in Hh. rewrite same_refl in Hh.
  unfold check_ref, access. rewrite Eo, GetRef_small by (split_all; lia). rewrite same_obj by done.
  destruct (Z.eqb 0 (m_iRef o) && owned o) eqn:Eb.
  - apply andb_true_iff in Eb as [E0%Z.eqb_eq Eow]. eexists _, true. split; [reflexivity|]. split.
    + intros x. specialize (H x). views. rewrite Ea in *. simpl in *. good_at x h.
      * rewrite Eo in *. rewrite elem_of_set_insert. destruct (registered o); solve_good.
      * rewrite ?Z.add_0_r in H. destruct (objs s !! x); rewrite elem_of_set_insert; solve_good.
    + simpl in *. split_and!; [done| |by destruct k]. apply NoDup_set_insert; [done|]. intros Hin.
      destruct Hh as (_ & _ & _ & _ & _ & _ & _ & _ & _ & Hg & _). destruct (Hg (or_introl Hin)). lia.
  - eexists _, false. split; [reflexivity|]. split; [|simpl in *; by rewrite Hb in *].
    intros x. specialize (H x). views. rewrite Ea in *. simpl in *. rewrite Hk1, Hk2. good_at x h.
    + rewrite Eo in *. destruct (registered o); solve_good.
    + rewrite ?Z.add_0_r in H. exact H.
Qed.

Lemma inv_fwake s k : inv s -> at_ s = Finishing FWaking k -> inv (set_at s k).
Proof.
  intros Hi Ea. pose proof Hi as (_ & Hp & _ & Hf). rewrite Ea in Hp, Hf. destruct (flat_base _ _ Hf) as (Hb & Hk1 & Hk2 & Hk3).
  apply inv_move; [done|done|done|]. intros x. rewrite Ea. simpl. by rewrite Hk1, Hk2, Hb.
Qed.

(** What the worker is about to access is live. *)
Lemma worker_live s h : inv s -> h ∈ externals (base (at_ s)) \/ IConn h ∈ sources (base (at_ s)) \/ h ∈ pending (base (at_ s)) \/ h ∈ addings (base (at_ s)) ->
  objs s !! h <> None.
Proof. intros [H _] Hh E. specialize (H h). views. rewrite E in H. destruct Hh as [?|[?|[?|?]]]; split_all; tauto. Qed.

Lemma worker_ok s ok : inv s -> disciplined s (AWorker ok) ->
  (exists s', worker_step capacity s ok = Ret s' /\ inv s') \/
  (worker_step capacity s ok = Throw "Write notify pipe failed!" /\ capacity <= notify_pipe (ew s)).
Proof.
  intros Hi Hd. unfold worker_step. cbn [disciplined] in Hd. pose proof Hi as (H & Hp & Hn & Hf). pose proof (worker_live s) as Hl.
  destruct (at_ s) as [|evs|[|h t] d evs|[|[|h] t] d|[|e t] d|[|h t]|[|a t]| |[h|h|] k] eqn:Ea; simpl in Hp, Hf, Hl; try (left; by eauto).
  - left. eexists. split; [reflexivity|]. by apply inv_take_del.
  - left. eexists. split; [reflexivity|]. apply inv_move; [done..|]. intros x. rewrite Ea. simpl. set_solver.
  - left. unfold access. destruct (objs s !! h) eqn:Eo; [|exfalso; apply (Hl h Hi); [set_solver|done]].
    eexists. split; [reflexivity|]. by apply inv_del.
  - left. eexists. split; [reflexivity|]. by apply inv_take_rw.
  - left. eexists. split; [reflexivity|]. apply (inv_move (set_ew s (set_pipe (ew s) 0))); [exact Hi|done..|].
    intros x. simpl. rewrite Ea. simpl. set_solver.
  - left. eapply inv_serve; rewrite ?Ea; try done; [simpl; set_solver|].
    apply inv_move; [done..|]. intros x. rewrite Ea. simpl. set_solver.
  - left. eexists. split; [reflexivity|]. apply inv_move; [done..|]. intros x. rewrite Ea. simpl. set_solver.
  - left. eapply inv_serve; rewrite ?Ea; try done; [simpl; set_solver|].
    apply inv_move; [done..|]. intros x. rewrite Ea. simpl. set_solver.
  - left. eexists. split; [reflexivity|]. by apply inv_take_add.
  - left. unfold access. destruct (objs s !! h) eqn:Eo; [|exfalso; apply (Hl h Hi); [set_solver|done]].
    eexists. split; [reflexivity|]. by apply inv_free.
  - left. eexists. split; [reflexivity|]. apply inv_move; [done|by destruct (m_bStopped s)|destruct (m_bStopped s); constructor|].
    intros x. rewrite Ea. by destruct (m_bStopped s).
  - left. unfold access. destruct (objs s !! socketEventHandler a) eqn:Eo; [|exfalso; apply (Hl (socketEventHandler a) Hi); [do 3 right; left|done]].
    eexists. split; [reflexivity|]. apply inv_add; [done|done|congruence].
  - left. destruct (inv_fdrop s h k Hi Ea Hd) as (s' & -> & Hs'). eexists. split; [reflexivity|done].
  - left. destruct (inv_fcheck s h k Hi Ea) as (s' & b & -> & Hs'). eexists. split; [reflexivity|done].
  - destruct (wake_cases s Hi) as [(s' & -> & Hs' & _ & Et)|[-> Hc]]; [left|by right].
    eexists. split; [reflexivity|]. apply inv_fwake; [done|by rewrite Et].
Qed.

(** *** Reachable states *)

(** Some disciplined action leads from one state to the next. *)
Definition step (s s' : loop) : Prop := exists a, disciplined s a /\ act capacity s a = Some (Ret s').

Lemma act_ok s a r : inv s -> disciplined s a -> act capacity s a = Some r ->
  (exists s', r = Ret s' /\ inv s') \/ (r = Throw "Write notify pipe failed!" /\ capacity <= notify_pipe (ew s)).
Proof.
  intros Hi Hd. destruct a as [h|h|h|i|i| |evs|ok]; cbn [act].
  - destruct (objs s !! h) eqn:E; [done|]. intros [= <-]. left. eexists. split; [reflexivity|]. by apply inv_connect.
  - destruct (objs s !! h) as [[n [] o]|] eqn:E; [|done..]. intros [= <-]. left. eexists. split; [reflexivity|].
    pose proof Hd as (_ & Eo). rewrite E in Eo. simpl in Eo. destruct Eo as [-> ->]. by apply inv_acquire.
  - destruct (objs s !! h) as [[n [] o]|] eqn:E; [|done..]. intros [= <-]. left. eexists. split; [reflexivity|]. by apply inv_disconnect.
  - destruct (threads s !! i) as [t|] eqn:E; [|done]. intros [= <-]. by apply thread_ok.
  - destruct (threads s !! i) as [[]|] eqn:E; try done. intros Er. left. destruct (inv_send s i h Hi E) as (s' & Ea & Hs').
    cbn [act] in Ea. rewrite E in Ea. rewrite Er in Ea. injection Ea as ->. by eauto.
  - intros [= <-]. left. eexists. split; [reflexivity|]. by apply inv_stop.
  - intros Er. left. by eapply inv_wait.
  - intros Er. assert (r = worker_step capacity s ok) as -> by (destruct (at_ s); congruence). by apply worker_ok.
Qed.

Lemma loop_reachable_inv s : rtc step loop_new s -> inv s.
Proof.
  apply (rtc_invariant step inv); [|apply loop_inv_init]. intros x y Hx (a & Hd & Ea).
  destruct (act_ok x a _ Hx Hd Ea) as [(s' & [= ->] & Hs')|[? _]]; done.
Qed.

(** C11.  The event loop never touches a deleted handler: in every state the
    disciplined schedules reach, with any number of connections, senders and
    disconnections and any events, each further disciplined action returns,
    or is a [Wakeup] that throws because the notification pipe is full.  In
    particular no handler is deleted twice, none is deleted while a thread
    holds a reference or an event for it is queued, and the memory of a
    deleted handler may be reused for a new one at once. *)
Theorem loop_safe (s : loop) (a : action) (r : outcome loop) :
  rtc step loop_new s -> disciplined s a -> act capacity s a = Some r ->
  (exists s', r = Ret s') \/ (r = Throw "Write notify pipe failed!" /\ capacity <= notify_pipe (ew s)).
Proof.
  intros Hr Hd Ea. destruct (act_ok s a r (loop_reachable_inv s Hr) Hd Ea) as [(s' & -> & _)|?]; [left; by eauto|by right].
Qed.

(** ** Wake-ups, under every schedule *)

Definition free_step (s s' : loop) : Prop := exists a, act capacity s a = Some (Ret s').

(** The threads, and the worker, that are about to write to the pipe. *)
Definition t_wakes (t : thread) : Z := match t with Waking _ => 1 | _ => 0 end.
Definition wakers (s : loop) : Z := total t_wakes (threads s) + match at_ s with Finishing FWaking _ => 1 | _ => 0 end.

(** The worker will take the queue of write events, of additions, in this turn. *)
Definition takes_rw (p : phase) : Prop := match p with Woken _ | Deleting _ _ _ | Internal _ _ | Exited => True | _ => False end.
Definition takes_add (p : phase) : Prop := match p with External _ _ | Freeing _ => True | _ => takes_rw p end.

Definition wake_inv (s : loop) : Prop :=
  0 <= notify_pipe (ew s) /\
  (m_lRwOpExtEvents (ew s) <> [] -> 0 < wakers s \/ readable s = true \/ takes_rw (base (at_ s))) /\
  (m_lAddEpExtEvents (ew s) <> [] -> 0 < wakers s \/ readable s = true \/ takes_add (base (at_ s))).

Lemma t_wakes_nonneg t : 0 <= t_wakes t.
Proof. destruct t; simpl; lia. Qed.

Ltac wakes := unfold wake_inv, wakers, readable in *; simpl in *.

Lemma wake_decrement s h s' : decrement s h = Ret s' -> exists o, s' = set_objs s o.
Proof. unfold decrement, access. destruct (objs s !! h); [|done]. intros [= <-]. by eauto. Qed.

Lemma wake_check s h s' b : check_ref s h = Ret (s', b) ->
  exists o d, s' = set_objs (set_ew s (mkEW (m_lRwOpExtEvents (ew s)) (m_lAddEpExtEvents (ew s)) d (notify_pipe (ew s)))) o.
Proof.
  destruct s as [ob th [rw ad de np] ed it st ph]. unfold check_ref, access. simpl. destruct (ob !! h); [|done].
  destruct (_ && _); intros [= <- <-]; eexists _, _; reflexivity.
Qed.

Lemma wake_wake s s' : 0 <= notify_pipe (ew s) -> wake capacity s = Ret s' ->
  readable s' = true /\ 0 <= notify_pipe (ew s') /\ at_ s' = at_ s.
Proof.
  intros Hp. unfold wake, Wakeup. destruct (Z.ltb_spec (notify_pipe (ew s)) capacity); [|done]. cbn [obind]. intros [= <-].
  unfold readable. simpl. split_and!; [apply Z.ltb_lt; lia|lia|done].
Qed.

Lemma wake_thread s i t s' : wake_inv s -> threads s !! i = Some t -> thread_step capacity s i t = Ret s' -> wake_inv s'.
Proof.
  intros Hw E. pose proof (total_others t_wakes i t _ E) as Ho. pose proof (total_at _ _ _ _ t_wakes_nonneg E) as Ha.
  pose proof (total_nonneg t_wakes _ t_wakes_nonneg : 0 <= total t_wakes (others i (threads s))) as Hn.
  destruct t as [h|h|h|h|h|k]; cbn [thread_step].
  - unfold access. destruct (objs s !! h); [|done]. intros [= <-]. wakes. rewrite Ho. rewrite Z.sub_0_r. exact Hw.
  - intros [= <-]. wakes. rewrite Ho. split_and!; [tauto|intros; left|intros; left]; destruct (at_ s) as [| | | | | | | |[]]; lia.
  - destruct (decrement s h) eqn:Ed; [|done..]. apply wake_decrement in Ed as [o ->]. intros [= <-]. wakes. rewrite Ho, Z.sub_0_r. exact Hw.
  - destruct (decrement s h) eqn:Ed; [|done..]. apply wake_decrement in Ed as [o ->]. intros [= <-]. wakes. rewrite Ho, Z.sub_0_r. exact Hw.
  - destruct (check_ref s h) as [[s1 b]| | |] eqn:Ec; [|done..]. apply wake_check in Ec as (o & d & ->). intros [= <-].
    destruct b; wakes; rewrite Ho, ?Z.sub_0_r; [|exact Hw]. destruct (at_ s) as [| | | | | | | |[]]; intuition lia.
  - destruct (wake capacity s) as [s1| | |] eqn:Ew; [|done..]. apply wake_wake in Ew as (Er & Hp & Ea); [|by destruct Hw].
    intros [= <-]. unfold wake_inv, readable in *. simpl. tauto.
Qed.

Lemma wake_serve s ok h d k s' : serve s ok h d k = Ret s' -> exists o, s' = set_objs (set_at s k) o \/ s' = set_objs (set_at s (Finishing (FReleasing h) k)) o.
Proof.
  unfold serve, access. destruct (decide _); [intros [= <-]; exists (objs s); by left|]. destruct (objs s !! h) as [o|]; [|done].
  destruct (_ || _); intros [= <-]; [exists (objs s); by left|]. eexists. by right.
Qed.

Lemma wake_worker s ok s' : wake_inv s -> worker_step capacity s ok = Ret s' -> wake_inv s'.
Proof.
  intros Hw. unfold worker_step. pose proof (total_nonneg t_wakes (threads s) t_wakes_nonneg) as Hn.
  destruct (at_ s) as [|evs|[|h t] d evs|[|[|h] t] d|[|e t] d|[|h t]|[|a t]| |[h|h|] k] eqn:Ea; unfold access; 
    try (match goal with |- context [objs s !! ?x] => destruct (objs s !! x); [|done] end);
    try (intros [= <-]; wakes; rewrite ?Ea in *; simpl in *; by intuition (first [done|lia])).
  - intros E. apply wake_serve in E as (o & [-> | ->]); wakes; rewrite Ea in *; simpl in *; intuition (first [done|lia]).
  - intros E. apply wake_serve in E as (o & [-> | ->]); wakes; rewrite Ea in *; simpl in *; intuition (first [done|lia]).
  - intros [= <-]. destruct (m_bStopped s); wakes; rewrite Ea in *; simpl in *; intuition (first [done|lia]).
  - destruct (decrement s h) eqn:Ed; [|done..]. apply wake_decrement in Ed as [o ->]. intros [= <-]. wakes. rewrite Ea in *. simpl in *. exact Hw.
  - destruct (check_ref s h) as [[s1 b]| | |] eqn:Ec; [|done..]. apply wake_check in Ec as (o & x & ->). intros [= <-].
    destruct b; wakes; rewrite Ea in *; simpl in *; [intuition (first [done|lia])|].
    destruct k as [| | | | | | | |[]]; simpl in *; intuition (first [done|lia]).
  - destruct (wake capacity s) as [s1| | |] eqn:Ew; [|done..]. apply wake_wake in Ew as (Er & Hp & Et); [|by destruct Hw].
    intros [= <-]. unfold wake_inv, readable in *. simpl. tauto.
Qed.

Lemma wake_act s a s' : wake_inv s -> act capacity s a = Some (Ret s') -> wake_inv s'.
Proof.
  intros Hw. pose proof (total_nonneg t_wakes (threads s) t_wakes_nonneg) as Hn.
  destruct a as [h|h|h|i|i| |evs|ok]; cbn [act].
  - destruct (objs s !! h); [done|]. intros [= <-]. exact Hw.
  - destruct (objs s !! h) as [[n [] o]|]; [|done..]. intros [= <-]. exact Hw.
  - destruct (objs s !! h) as [[n [] o]|]; [|done..]. intros [= <-]. exact Hw.
  - destruct (threads s !! i) as [t|] eqn:E; [|done]. intros [= Et]. by eapply wake_thread.
  - destruct (threads s !! i) as [[]|] eqn:E; try done. pose proof (total_others t_wakes i _ _ E) as Ho. unfold access.
    destruct (objs s !! h) as [o|]; [|done]. destruct (owned o); [|done]. intros [= <-]. wakes. rewrite Ho.
    destruct (at_ s) as [| | | | | | | |[]]; intuition lia.
  - intros [= <-]. wakes. destruct (at_ s) as [| | | | | | | |[]]; intuition lia.
  - destruct (at_ s) eqn:Ea; try done. destruct (_ && _) eqn:Eb; [|done]. intros [= <-].
    destruct (m_bStopped s); wakes; rewrite Ea in *; intuition (first [done|lia]).
  - intros E. apply (wake_worker s ok s' Hw). destruct (at_ s); congruence.
Qed.

Lemma reachable_wake s : rtc free_step loop_new s -> wake_inv s.
Proof.
  apply (rtc_invariant free_step wake_inv); [|by split_and!].
  intros x y Hx [a Ea]. by eapply wake_act.
Qed.

(** C12.  No addition and no write event is lost: under every schedule, when the
    worker waits, nothing on the pipe would end its wait, and no thread is
    about to wake it, then the queues of new handlers and of write events
    are empty. *)
Theorem loop_wakes (s : loop) : rtc free_step loop_new s -> at_ s = Waiting -> readable s = false ->
  Forall (fun t => t_wakes t = 0) (threads s) -> m_lRwOpExtEvents (ew s) = [] /\ m_lAddEpExtEvents (ew s) = [].
Proof.
  intros Hr Ea Er Ht. destruct (reachable_wake s Hr) as (_ & Hrw & Hadd). rewrite Er, Ea in *.
  assert (wakers s = 0) as Hz.
  { unfold wakers. rewrite Ea, Z.add_0_r. induction Ht as [|t l E _ IH]; simpl; [done|]. by rewrite E. }
  rewrite Hz in *. split; apply dec_stable; intros Hne.
  - destruct (Hrw Hne) as [?|[?|[]]]; [lia|done].
  - destruct (Hadd Hne) as [?|[?|[]]]; [lia|done].
Qed.

(** ** Runs *)

Fixpoint run (s : loop) (l : list action) : option loop :=
  match l with
  | [] => Some s
  | a :: l => match act capacity s a with Some (Ret s) => run s l | _ => None end
  end.

Lemma run_free l : forall s s', run s l = Some s' -> rtc free_step s s'.
Proof.
  induction l as [|a l IH]; intros s s'; simpl; [by intros [= <-]|].
  destruct (act capacity s a) as [[s1| | |]|] eqn:E; try done. intros Hr. eapply rtc_l; [by exists a|by apply IH].
Qed.

(** A run that is disciplined at each step. *)
Fixpoint disciplined_run (s : loop) (l : list action) : Prop :=
  match l with
  | [] => True
  | a :: l => disciplined s a /\ match act capacity s a with Some (Ret s) => disciplined_run s l | _ => False end
  end.

Lemma run_step l : forall s s', disciplined_run s l -> run s l = Some s' -> rtc step s s'.
Proof.
  induction l as [|a l IH]; intros s s'; simpl; [by intros _ [= <-]|].
  destruct (act capacity s a) as [[s1| | |]|] eqn:E; try (by intros [_ []]). intros [Hd Hl] Hr. eapply rtc_l; [by exists a|by apply IH].
Qed.

#[export] Instance disciplined_run_dec s l : Decision (disciplined_run s l).
Proof.
  revert s. induction l as [|a l IH]; intros s; simpl; [apply _|].
  destruct (act capacity s a) as [[s1| | |]|]; apply _.
Defined.

End proofs.

Module LoopDemo.

(** A connection is made, its handler entered in epoll by a turn of the worker. *)
Definition turn (evs : list source) (n : nat) : list action := AWait evs :: replicate n (AWorker true).
Definition joined (h : Z) : list action := [AConnect h; AThread 0; AThread 0; AThread 0] ++ turn [ILocal] 8.

(** A deletion can be lost: there is a schedule, disciplined even, after
    which the worker waits with nothing to wake it and no thread left, and a
    handler whose last reference is gone is still in the queue of deletions,
    its object and descriptor kept.  The worker takes that queue before it
    drains the pipe, so that a wake-up between the two is swallowed. *)
Theorem loop_loses_deletion : exists (l : list action) (s : loop), disciplined_run 65536 loop_new l /\ run 65536 loop_new l = Some s /\
  at_ s = Waiting /\ threads s = [] /\ readable s = false /\ m_lDelEpExtEvents (ew s) = [4096] /\ objs s !! 4096 = Some (mkHandler 0 false true).
Proof.
  exists (joined 4096 ++ [AAcquire 4096; ASend 0; AThread 0; AWait [ILocal]; AWorker true; AWorker true;
    AThread 0; AThread 0; ADisconnect 4096; AThread 0; AThread 0; AThread 0] ++ replicate 6 (AWorker true)).
  eexists. split; [apply (bool_decide_unpack _); vm_compute; exact I|].
  split; [vm_compute; reflexivity|]. by split_and!.
Qed.

(** Three races of the code, each a schedule that ends in undefined behaviour:
    (1) a connection that is disconnected before the worker has entered it in
    epoll is deleted in the turn that then enters it; (2) a sender that finds a
    connection in the manager before [AddEvent] has set its worker writes
    through a null pointer; (3) with three references at a time, the counter
    that [GetRef] overwrites lets the handler be deleted while a sender holds
    a reference. *)
Theorem loop_races :
  (exists s, run 65536 loop_new ([AConnect 4096; AThread 0; AThread 0; ADisconnect 4096; AThread 0; AThread 0; AThread 0] ++ turn [ILocal] 8) = Some s /\
     act 65536 s (AWorker true) = Some (Undef "use of a deleted handler")) /\
  (exists s, run 65536 loop_new [AConnect 4096; AAcquire 4096] = Some s /\ act 65536 s (ASend 0) = Some (Undef "null event worker")) /\
  (exists s, run 65536 loop_new (joined 4096 ++ [AAcquire 4096; AAcquire 4096; AThread 0; AThread 0;
       AAcquire 4096; AThread 0; AThread 0; AThread 0] ++ turn [ILocal] 7) = Some s /\
     threads s = [Holding 4096] /\ act 65536 s (ASend 0) = Some (Undef "use of a deleted handler")).
Proof. split_and!; (eexists; split; [vm_compute; reflexivity|]); vm_compute; auto. Qed.

Lemma loop_safe_witness : exists s, rtc (step 65536) loop_new s /\ objs s !! 4096 = Some (mkHandler 1 true true) /\
  exists s', act 65536 s (ADisconnect 4096) = Some (Ret s').
Proof.
  assert (disciplined_run 65536 loop_new (joined 4096)) as Hd by (apply (bool_decide_unpack _); vm_compute; exact I).
  destruct (run 65536 loop_new (joined 4096)) as [s|] eqn:E; [|vm_compute in E; discriminate].
  pose proof (run_step 65536 _ _ _ Hd E) as Hr. exists s. split; [exact Hr|].
  assert (objs s !! 4096 = Some (mkHandler 1 true true) /\ disciplined s (ADisconnect 4096)) as [Eo Hs].
  { vm_compute in E. injection E as <-. split; [reflexivity|]. apply (bool_decide_unpack _). vm_compute. exact I. }
  split; [exact Eo|]. destruct (act 65536 s (ADisconnect 4096)) as [r|] eqn:Ea; [|cbn [act] in Ea; rewrite Eo in Ea; discriminate Ea].
  destruct (loop_safe 65536 s (ADisconnect 4096) r Hr Hs Ea) as [[s' ->]|[-> _]]; [by exists s'|].
  cbn [act] in Ea. rewrite Eo in Ea. discriminate Ea.
Defined.

Lemma loop_wakes_witness : exists s, rtc (free_step 65536) loop_new s /\ m_lRwOpExtEvents (ew s) = [] /\ m_lAddEpExtEvents (ew s) = [].
Proof.
  destruct (run 65536 loop_new (joined 4096)) as [s|] eqn:E; [|vm_compute in E; discriminate].
  pose proof (run_free 65536 _ _ _ E) as Hr. vm_compute in E. injection E as <-. eexists. split; [exact Hr|].
  apply (loop_wakes 65536 _ Hr); [reflexivity|reflexivity|constructor].
Defined.

End LoopDemo.
