(* ===== verification/Sockets.v ===== *)
(** * Sockets: descriptors, connecting and accepting

    Models src/src/ccsys/utils.cc, posix/tcp/stack/connection-socket.{h,cc}
    (creation, connecting with a timeout, options; [Read] and [Write] are in
    NetWorker.v), posix/tcp/stack/server-socket.{h,cc} and
    posix/tcp/server-event-handler.cc.  What each system call returns is an
    argument. *)

From S2P Require Import Prelude Message NetWorker.

(** ** Utils *)
Module Utils.

Definition O_NONBLOCK : Z := 2048.

(** The two fcntl(2) calls: whether reading and whether writing the flags succeeds. *)
Record fcntl_calls := mkFcntl { getfl : bool; setfl : bool }.

(** The flags of the descriptor and the result. *)
Definition SetNonBlocking (c : fcntl_calls) (opts : Z) : Z * Z :=
  if negb (getfl c) then (opts, -1) else if negb (setfl c) then (opts, -1) else (Z.lor opts O_NONBLOCK, 0).
Definition SetBlocking (c : fcntl_calls) (opts : Z) : Z * Z :=
  if negb (getfl c) then (opts, -1) else if negb (setfl c) then (opts, -1) else (Z.land opts (Z.lnot O_NONBLOCK), 0).

(** [GetAddrInfo]: the addresses getaddrinfo(3) found, with their family, a random
    number, and what the calls of getnameinfo(3) return. *)
Inductive name_result := NameIs (ip : string) | EAI_AGAIN | NameError.
Definition AF_INET : Z := 2.

(** The loop of at most ten attempts from the [i]-th on. *)
Fixpoint get_name (names : list name_result) (attempts : nat) (ip : string) : string * bool :=
  match attempts, names with
  | S attempts, NameIs x :: _ => (x, true)
  | S attempts, EAI_AGAIN :: names => get_name names attempts ip
  | _, _ => (ip, false)
  end.

Definition GetAddrInfo (found : option (list Z)) (rand : Z) (names : nat -> list name_result) : string * bool :=
  match found with
  | None => (EmptyString, false)
  | Some addrs =>
      let candidates := filter (fun i => addrs !! i = Some AF_INET) (seq 0 (length addrs)) in
      match candidates with
      | [] => (EmptyString, false)
      | _ =>
          match candidates !! Z.to_nat (rand mod Z.of_nat (length candidates)) with
          | Some i => get_name (names i) 10 EmptyString
          | None => (EmptyString, false)
          end
      end
  end.

End Utils.
Import Utils.

(** ** PosixTcpConnectionSocket *)
Module Connection.

Definition EINPROGRESS : Z := 115.

(** The descriptor, its file status flags and the members. *)
Record PosixTcpConnectionSocket := mkSock { m_fd : Z; fl : Z; m_connected : bool }.

Definition Sock_new (sfd : Z) : PosixTcpConnectionSocket := mkSock sfd 0 false.

Definition Socket (fd : Z) (s : PosixTcpConnectionSocket) : PosixTcpConnectionSocket * bool :=
  (mkSock fd (fl s) (m_connected s), negb (Z.eqb fd (-1))).

Definition SetNonBlocking (c : fcntl_calls) (val : bool) (s : PosixTcpConnectionSocket) : PosixTcpConnectionSocket * bool :=
  let '(f, r) := if val then Utils.SetNonBlocking c (fl s) else Utils.SetBlocking c (fl s) in
  (mkSock (m_fd s) f (m_connected s), Z.eqb 0 r).

(** connect(2): success or errno; select(2): ready, timed out, or errno;
    getsockopt(2): whether it succeeds, and the pending error. *)
Inductive select_result := Ready | TimedOut | SelectErr (e : Z).
Record connect_calls := mkConnect {
  nonblock : fcntl_calls;
  connected : option Z;
  selected : select_result;
  sockopt_ok : bool;
  valopt : Z;
  block : fcntl_calls
}.

Definition Connect (timeout : bool) (c : connect_calls) (s : PosixTcpConnectionSocket) : PosixTcpConnectionSocket * bool :=
  if negb timeout then
    match connected c with
    | None => (mkSock (m_fd s) (fl s) true, true)
    | Some _ => (s, false)
    end
  else
    let '(s, ok) := SetNonBlocking (nonblock c) true s in
    if negb ok then (s, false)
    else
      match connected c with
      | None => SetNonBlocking (block c) false s
      | Some e =>
          if Z.eqb e EINPROGRESS then
            match selected c with
            | SelectErr e => (s, false)
            | Ready =>
                if negb (sockopt_ok c) then (s, false)
                else if negb (Z.eqb (valopt c) 0) then (s, false)
                else SetNonBlocking (block c) false s
            | TimedOut => (s, false)
            end
          else (s, false)
      end.

(** The options: the result of setsockopt(2).  [SET_OPT_CHECK] throws a pointer out
    of a function that may only throw [std::runtime_error], which ends the process. *)
Definition SetOpt (rc : Z) : bool := Z.eqb 0 rc.
Definition SetBufferSize (rc : Z) (s : PosixTcpConnectionSocket) : outcome bool :=
  if m_connected s then Abort "std::unexpected" else Ret (Z.eqb 0 rc).

Definition Close (rc : Z) (s : PosixTcpConnectionSocket) : Z := if Z.eqb (-1) (m_fd s) then 0 else rc.

(** Connecting with a timeout succeeds exactly when the connection is there:
    [Connect] returns true if and only if the descriptor could be made
    non-blocking and blocking again and connect(2) succeeded at once, or was in
    progress, became writable in time and shows no pending error.  Then the
    descriptor is blocking, with its other flags as they were. *)
Theorem connect_timeout (c : connect_calls) (s : PosixTcpConnectionSocket) :
  ((Connect true c s).2 = true <->
     (getfl (nonblock c) = true /\ setfl (nonblock c) = true /\ getfl (block c) = true /\ setfl (block c) = true /\
      (connected c = None \/
       connected c = Some EINPROGRESS /\ selected c = Ready /\ sockopt_ok c = true /\ valopt c = 0))) /\
  ((Connect true c s).2 = true ->
     (Connect true c s).1 = mkSock (m_fd s) (Z.land (fl s) (Z.lnot O_NONBLOCK)) (m_connected s)).
Proof.
  destruct c as [[g1 s1] cn sl so vo [g2 s2]]. unfold Connect, SetNonBlocking, Utils.SetNonBlocking, Utils.SetBlocking. simpl.
  assert (Z.land (Z.lor (fl s) O_NONBLOCK) (Z.lnot O_NONBLOCK) = Z.land (fl s) (Z.lnot O_NONBLOCK)) as Ef.
  { apply Z.bits_inj'. intros n Hn. rewrite !Z.land_spec, Z.lor_spec, Z.lnot_spec by done. destruct (Z.testbit (fl s) n), (Z.testbit O_NONBLOCK n); done. }
  destruct g1, s1; simpl; try (split; [split; [done|intros (? & ? & _); done]|done]).
  destruct cn as [e|]; simpl.
  - destruct (Z.eqb_spec e EINPROGRESS) as [->|Hne]; simpl.
    2: { split; [|done]. split; [done|]. intros (_ & _ & _ & _ & [?|[[= ?] _]]); done. }
    destruct sl as [| |e']; simpl; try (split; [|done]; split; [done|]; intros (_ & _ & _ & _ & [?|(_ & ? & _)]); done).
    destruct so; simpl; [|split; [|done]; split; [done|]; intros (_ & _ & _ & _ & [?|(_ & _ & ? & _)]); done].
    destruct (Z.eqb_spec vo 0) as [->|Hv]; simpl; [|split; [|done]; split; [done|]; intros (_ & _ & _ & _ & [?|(_ & _ & _ & ?)]); done].
    destruct g2, s2; simpl; rewrite ?Ef; (split; [split; [intros; split_and!; try done; by right|by intros (_ & _ & ? & ? & _)]|done]).
  - destruct g2, s2; simpl; rewrite ?Ef; (split; [split; [intros; split_and!; try done; by left|by intros (_ & _ & ? & ? & _)]|done]).
Qed.

End Connection.

(** ** PosixTcpServerEventHandler *)
Module Listener.

Definition ECONNABORTED : Z := 103.

(** The system calls of the constructor. *)
Record listen_calls := mkListen { sock : Z; nonblocking : fcntl_calls; reuse : Z; bound : Z; listening : Z }.

Definition Bind (rc : Z) : bool := Z.eqb 0 rc.
Definition Listen (rc : Z) : bool := Z.eqb 0 rc.

(** The listening socket, or the exception of the step that failed. *)
Definition PosixTcpServerEventHandler_new (c : listen_calls) : outcome Connection.PosixTcpConnectionSocket :=
  let '(s, ok) := Connection.Socket (sock c) (Connection.Sock_new (-1)) in
  if negb ok then Throw "server socket err!"
  else
    let '(f, r) := Utils.SetNonBlocking (nonblocking c) (Connection.fl s) in
    if negb (Z.eqb 0 r) then Throw "set server socket fd non-blocking err!"
    else if negb (Connection.SetOpt (reuse c)) then Throw "server SetAddrReuse err!"
    else if negb (Bind (bound c)) then Throw "bind err!"
    else if negb (Listen (listening c)) then Throw "listen err!"
    else Ret (Connection.mkSock (Connection.m_fd s) f (Connection.m_connected s)).

(** [SetPortReuse]: the result of setsockopt(2).  [Connect] of a listening socket
    throws a pointer. *)
Definition SetPortReuse (rc : Z) : bool := Z.eqb 0 rc.
Definition Server_Connect : outcome bool := Throw "server socket doesn't support connect api.".

(** The destructor closes the socket; [open] is the set of open descriptors. *)
Definition PosixTcpServerEventHandler_delete (open : gset Z) (s : Connection.PosixTcpConnectionSocket) : gset Z :=
  if Z.eqb (-1) (Connection.m_fd s) then open else open ∖ {[Connection.m_fd s]}.
Definition Server_Initialize : bool := true.
Definition Server_HandleWriteEvent : outcome bool := Throw "Not support -- PosixTcpServerEventHandler::HandleWriteEvent!".

(** [handle_message]: the messages the callback was called with, if there is one. *)
Definition handle_message {M : Type} (m_msgCallbackHandler : bool) (told : list M) (nm : M) : list M :=
  if m_msgCallbackHandler then told ++ [nm] else told.

(** What accept(2) returns; beyond the script there is no connection to accept. *)
Inductive accept_result := Accepted (fd : Z) (peer : net_addr_t) | AcceptErr (e : Z).

(** [HandleReadEvent]: the connections whose handshake is handed to the thread
    pool, whether the user is told that the server broke, and the result. *)
Fixpoint HandleReadEvent (script : list accept_result) : list accept_result * list (Z * net_addr_t) * bool * bool :=
  match script with
  | [] => ([], [], false, true)
  | AcceptErr e :: rest =>
      if Z.eqb e EAGAIN then (rest, [], false, true)
      else if Z.eqb e EINTR || Z.eqb e ECONNABORTED then HandleReadEvent rest
      else (rest, [], true, false)
  | Accepted fd peer :: rest =>
      let '(rest, tasks, notified, rc) := HandleReadEvent rest in (rest, (fd, peer) :: tasks, notified, rc)
  end.

(** The connections of a script, and the errors after which accepting goes on. *)
Definition accepted (script : list accept_result) : list (Z * net_addr_t) :=
  omap (fun r => match r with Accepted fd peer => Some (fd, peer) | _ => None end) script.
Definition harmless (r : accept_result) : Prop :=
  match r with Accepted _ _ => True | AcceptErr e => e = EINTR \/ e = ECONNABORTED end.

(** The listener accepts every pending connection: however interrupted and
    aborted attempts are mixed in, [HandleReadEvent] hands exactly the accepted
    connections, in order, to its pool; it stops at the first EAGAIN with
    success, and at the first other error with failure and one notification. *)
Theorem listener_accepts (script rest : list accept_result) (e : Z) : Forall harmless script -> e <> EINTR -> e <> ECONNABORTED ->
  HandleReadEvent script = ([], accepted script, false, true) /\
  HandleReadEvent (script ++ AcceptErr e :: rest) = (rest, accepted script, negb (Z.eqb e EAGAIN), Z.eqb e EAGAIN).
Proof.
  intros Hs H1 H2. induction Hs as [|r script Hr Hs [IH1 IH2]]; simpl.
  - split; [done|]. destruct (Z.eqb_spec e EAGAIN); [done|]. by rewrite (proj2 (Z.eqb_neq _ _) H1), (proj2 (Z.eqb_neq _ _) H2).
  - destruct r as [fd peer|x]; [by rewrite IH1, IH2|]. destruct Hr as [-> | ->]; simpl; by rewrite IH1, IH2.
Qed.

Lemma listener_accepts_witness : HandleReadEvent ([Accepted 7 (mkAddr "a" 1); AcceptErr EINTR; Accepted 8 (mkAddr "b" 2)] ++ AcceptErr 24 :: []) =
  ([], [(7, mkAddr "a" 1); (8, mkAddr "b" 2)], true, false).
Proof.
  apply (listener_accepts [Accepted 7 (mkAddr "a" 1); AcceptErr EINTR; Accepted 8 (mkAddr "b" 2)] [] 24); [|discriminate|discriminate].
  repeat constructor.
Defined.

End Listener.
