(* ===== verification/SocketService.v ===== *)
(** * SocketService: connections and messages of a process

    Models src/src/net/net-protocol-stacks/nonblocking/nb-socket-service.{h,cc}
    and src/src/net/socket-service-factory.cc over the worker manager of
    WorkerManager.v and the event manager of EventLoop.v.  What the network
    does to a connection attempt is a parameter; the handshake itself is in
    NetWorker.v. *)

From S2P Require Import Prelude Codec PoolApi Buffer Message NetWorker WorkerManager Locks EventLoop.

Module Service.
Import Worker Manager.

Section service.
Context `{P : ProtoMsg}.

(** [refs] and [peers] are the reference count and the logic and real peer of
    the live handlers, [ep_del] the handlers handed to their event worker for
    deletion, [sent] the messages the workers' queues have taken, [cleared] the
    handlers whose queue [ClearMessage] has emptied. *)
Record NBSocketService := mkNBS {
  m_bStopped : bool;
  m_sspMgr : option UniqueWorkerManager;
  m_pEventManager : option PosixEventManager;
  refs : gmap Z Z;
  peers : gmap Z (net_peer_info_t * net_peer_info_t);
  ep_del : list Z;
  sent : list (Z * SndMessage P);
  cleared : list Z
}.

(** A connection attempt: no socket, no connection, or a new handler, whether
    its handshake got to [m_onLogicConnect], and whether the descriptor could
    be made non-blocking.  [accepts]: the queue of a worker takes a message. *)
Inductive dial_result := NoSocket | NoConnect | Dialed (h : Z) (handshaken nonblocking : bool).
Record network := mkNet { pipe_capacity : Z; dial : net_peer_info_t -> dial_result; accepts : Z -> bool }.

Definition NBSocketService_new : NBSocketService := mkNBS true (Some UniqueWorkerManager_new) None ∅ ∅ [] [] [].

Definition set_mgr (s : NBSocketService) (m : UniqueWorkerManager) : NBSocketService :=
  mkNBS (m_bStopped s) (Some m) (m_pEventManager s) (refs s) (peers s) (ep_del s) (sent s) (cleared s).
Definition set_em (s : NBSocketService) (e : PosixEventManager) : NBSocketService :=
  mkNBS (m_bStopped s) (m_sspMgr s) (Some e) (refs s) (peers s) (ep_del s) (sent s) (cleared s).
Definition set_refs (s : NBSocketService) (r : gmap Z Z) : NBSocketService :=
  mkNBS (m_bStopped s) (m_sspMgr s) (m_pEventManager s) r (peers s) (ep_del s) (sent s) (cleared s).

Definition no_peer : net_peer_info_t := mkPeer (mkAddr EmptyString 0) ProtoNone.
Definition lnpt_of (s : NBSocketService) (h : Z) : net_peer_info_t := (default (no_peer, no_peer) (peers s !! h)).1.
Definition rnpt_of (s : NBSocketService) (h : Z) : net_peer_info_t := (default (no_peer, no_peer) (peers s !! h)).2.

(** [m_sspMgr->...]; [Stop] resets the pointer. *)
Definition with_mgr {A : Type} (s : NBSocketService) (k : UniqueWorkerManager -> outcome A) : outcome A :=
  match m_sspMgr s with Some m => k m | None => Undef "null worker manager" end.
Definition with_em {A : Type} (s : NBSocketService) (k : PosixEventManager -> outcome A) : outcome A :=
  match m_pEventManager s with Some e => k e | None => Undef "null event manager" end.
Definition with_handler {A : Type} (s : NBSocketService) (h : Z) (k : Z -> outcome A) : outcome A :=
  match refs s !! h with Some n => k n | None => Undef "use of a deleted handler" end.

(** [new PosixTcpConnectionEventHandler] and [DELETE_PTR] of it. *)
Definition new_handler (s : NBSocketService) (h : Z) (logic real : net_peer_info_t) : NBSocketService :=
  mkNBS (m_bStopped s) (m_sspMgr s) (m_pEventManager s) (<[h := 1]> (refs s)) (<[h := (logic, real)]> (peers s)) (ep_del s) (sent s) (cleared s).
Definition delete_handler (s : NBSocketService) (h : Z) : NBSocketService :=
  mkNBS (m_bStopped s) (m_sspMgr s) (m_pEventManager s) (delete h (refs s)) (delete h (peers s)) (ep_del s) (sent s) (cleared s).

(** [handler->GetStackMsgWorker()->ClearMessage()]. *)
Definition clear_message (s : NBSocketService) (h : Z) : NBSocketService :=
  mkNBS (m_bStopped s) (m_sspMgr s) (m_pEventManager s) (refs s) (peers s) (ep_del s) (sent s) (cleared s ++ [h]).

(** [handler->Release()]. *)
Definition release (s : NBSocketService) (h : Z) : outcome NBSocketService :=
  with_handler s h (fun n =>
    let '(n, gone) := ReferenceCounter.handler_Release n in
    Ret (mkNBS (m_bStopped s) (m_sspMgr s) (m_pEventManager s) (<[h := n]> (refs s)) (peers s)
           (if gone then ep_del s ++ [h] else ep_del s) (sent s) (cleared s))).

Definition Start (os_listen : pipe_calls) (os : nat -> pipe_calls) (srv : outcome Z) (net : network) (tcp nat : bool) (maxEvents ioThreadsCnt : Z)
    (m : NonBlockingEventModel) (s : NBSocketService) : outcome (NBSocketService * bool) :=
  if negb (m_bStopped s) then Ret (s, true)
  else
    let* (e, ok) := Manager.Start (pipe_capacity net) os_listen os srv m (PosixEventManager_new tcp nat maxEvents ioThreadsCnt) in
    Ret (mkNBS false (m_sspMgr s) (Some e) (refs s) (peers s) (ep_del s) (sent s) (cleared s), ok).

(** [Stop]: resetting the manager deletes the registered handlers. *)
Definition Stop (net : network) (s : NBSocketService) : outcome (NBSocketService * bool) :=
  if m_bStopped s then Ret (s, true)
  else with_em s (fun e =>
    let* (e, ok) := Manager.Stop (pipe_capacity net) e in
    if negb ok then Ret (mkNBS true (m_sspMgr s) (Some e) (refs s) (peers s) (ep_del s) (sent s) (cleared s), false)
    else with_mgr s (fun m =>
      let s := foldl delete_handler s (UniqueWorkerManager_delete m).2 in
      Ret (mkNBS true None (Some e) (refs s) (peers s) (ep_del s) (sent s) (cleared s), true))).

Definition on_stack_connect (net : network) (s : NBSocketService) (h : Z) : outcome NBSocketService :=
  if m_bStopped s then Ret s
  else with_em s (fun e => let* e := AddEvent (pipe_capacity net) e h EVENT_NONE (Z.lor EVENT_READ EVENT_WRITE) in Ret (set_em s e)).

Definition on_logic_connect (s : NBSocketService) (h : Z) : outcome (NBSocketService * bool) :=
  if m_bStopped s then Ret (s, false)
  else with_mgr s (fun m => let '(m, ok) := PutWorkerEventHandler (lnpt_of s) (rnpt_of s) m h in Ret (set_mgr s m, ok)).

(** [connect]: [Initialize] runs the handshake, which calls [on_logic_connect]. *)
Definition connect (net : network) (s : NBSocketService) (npt : net_peer_info_t) : outcome (NBSocketService * bool) :=
  with_mgr s (fun m =>
  match GetWorkerEventHandler m npt with
  | Some _ => Ret (s, true)
  | None =>
      if decide (sp npt = Tcp) then
        match dial net npt with
        | NoSocket | NoConnect => Ret (s, false)
        | Dialed h handshaken nonblocking =>
            let s := new_handler s h npt (mkPeer (nat_ npt) Tcp) in
            let* (s, ok) := if handshaken then on_logic_connect s h else Ret (s, false) in
            if ok && nonblocking then
              with_em s (fun e =>
                let* e := AddEvent (pipe_capacity net) e h EVENT_NONE (Z.lor EVENT_READ EVENT_WRITE) in Ret (set_em s e, true))
            else Ret (delete_handler s h, false)
        end
      else Throw "Not support now!"
  end).

Definition with_ref (s : NBSocketService) (peer : net_peer_info_t) : outcome (NBSocketService * option Z) :=
  with_mgr s (fun m =>
    match GetWorkerEventHandlerWithRef m (refs s) peer with
    | (None, _) => Ret (s, None)
    | (Some h, rs) => with_handler s h (fun _ => Ret (set_refs s rs, Some h))
    end).

(** [GetPeerInfo()]: the default peer has the protocol [None]. *)
Definition peer_info (m : SndMessage P) : net_peer_info_t := default no_peer (m_peerInfo m).

Definition SendMessage (net : network) (s : NBSocketService) (m : SndMessage P) : outcome (NBSocketService * bool) :=
  if m_bStopped s then Ret (s, false)
  else if decide (sp (peer_info m) <> Tcp) then Throw "Not support now!"
  else
    let peer := peer_info m in
    let* (s, handler) := with_ref s peer in
    let* (s, handler) :=
      match handler with
      | Some h => Ret (s, Some h)
      | None => let* (s, ok) := connect net s peer in if ok then with_ref s peer else Ret (s, None)
      end in
    match handler with
    | None => Ret (s, false)
    | Some h =>
        let rc := accepts net h in
        let s := if rc then mkNBS (m_bStopped s) (m_sspMgr s) (m_pEventManager s) (refs s) (peers s) (ep_del s) (sent s ++ [(h, m)]) (cleared s) else s in
        let* s := release s h in Ret (s, rc)
    end.

Definition Disconnect (s : NBSocketService) (peer : net_peer_info_t) : outcome (NBSocketService * bool) :=
  if decide (sp peer <> Tcp) then Ret (s, false)
  else if m_bStopped s then Ret (s, false)
  else with_mgr s (fun m =>
    match RemoveWorkerEventHandler_local m peer with
    | (m, None) => Ret (set_mgr s m, true)
    | (m, Some h) => with_handler s h (fun _ => let* s := release (clear_message (set_mgr s m) h) h in Ret (s, true))
    end).

Definition on_finish (s : NBSocketService) (h : Z) : outcome NBSocketService :=
  if m_bStopped s then Ret s
  else with_handler s h (fun _ => with_mgr s (fun m =>
    match RemoveWorkerEventHandler_peer m (lnpt_of s h) (rnpt_of s h) with
    | (m, None) => Ret (set_mgr s m)
    | (m, Some _) => release (clear_message (set_mgr s m) h) h
    end)).

(** The task [PosixTcpServerEventHandler::HandleReadEvent] gives to its thread
    pool for an accepted connection [h].  [handshaken]: the handshake, which
    tells the logic peer, got to [m_onLogicConnect]; [verdict_sent]: the last
    message of the handshake, which follows that call, could be queued and
    sent; [nonblocking]: the descriptor could be made non-blocking. *)
Definition accept_task (net : network) (s : NBSocketService) (h : Z) (logic real : net_peer_info_t) (handshaken verdict_sent nonblocking : bool)
    : outcome NBSocketService :=
  let s := new_handler s h logic real in
  let* (s, ok) := if handshaken then on_logic_connect s h else Ret (s, false) in
  if ok && verdict_sent && nonblocking then on_stack_connect net s h else Ret (delete_handler s h).

(** ** Sending *)

(** A peer without the TCP protocol. *)
Lemma send_not_tcp net s m : m_bStopped s = false -> sp (peer_info m) <> Tcp -> SendMessage net s m = Throw "Not support now!".
Proof. unfold SendMessage. intros -> H. by rewrite decide_True. Qed.

(** Taking and releasing one reference leaves a count of one. *)
Lemma ref_release (rs : gmap Z Z) h : rs !! h = Some 1 ->
  alter (fun n => i32 (n + 1)) h rs !! h = Some 2 /\ <[h := 1]> (alter (fun n => i32 (n + 1)) h rs) = rs.
Proof.
  intros Hr. split; [by rewrite lookup_alter_eq, Hr|]. apply map_eq. intros i.
  destruct (decide (i = h)) as [->|]; [by rewrite lookup_insert_eq|]. by rewrite lookup_insert_ne, lookup_alter_ne.
Qed.

(** The message has joined the queue of [h], if the queue takes it. *)
Definition queued (net : network) (s : NBSocketService) (h : Z) (m : SndMessage P) : NBSocketService :=
  mkNBS (m_bStopped s) (m_sspMgr s) (m_pEventManager s) (refs s) (peers s) (ep_del s) (if accepts net h then sent s ++ [(h, m)] else sent s) (cleared s).

Lemma send_held net s m h mgr : m_sspMgr s = Some mgr -> GetWorkerEventHandler mgr (peer_info m) = Some h -> refs s !! h = Some 1 ->
  (let* (s, handler) := with_ref s (peer_info m) in
   match handler with
   | None => Ret (s, false)
   | Some h =>
       let rc := accepts net h in
       let s := if rc then mkNBS (m_bStopped s) (m_sspMgr s) (m_pEventManager s) (refs s) (peers s) (ep_del s) (sent s ++ [(h, m)]) (cleared s) else s in
       let* s := release s h in Ret (s, rc)
   end) = Ret (queued net s h m, accepts net h).
Proof.
  intros Hm Hg Hr. destruct (ref_release _ _ Hr) as [E1 E2]. unfold with_ref, with_mgr. rewrite Hm.
  unfold GetWorkerEventHandlerWithRef. unfold GetWorkerEventHandler in Hg. rewrite Hg.
  unfold with_handler at 1. rewrite Hr. cbn [obind]. unfold queued.
  destruct (accepts net h); unfold release, with_handler; cbn [refs set_refs]; rewrite E1;
    change (ReferenceCounter.handler_Release 2) with (1, false); cbn [obind]; cbn [m_bStopped m_sspMgr m_pEventManager peers ep_del sent cleared];
    cbn iota beta; by rewrite E2.
Qed.

Lemma send_registered net s m h mgr : m_bStopped s = false -> sp (peer_info m) = Tcp -> m_sspMgr s = Some mgr ->
  GetWorkerEventHandler mgr (peer_info m) = Some h -> refs s !! h = Some 1 ->
  SendMessage net s m = Ret (queued net s h m, accepts net h).
Proof.
  intros Hs Hp Hm Hg Hr. unfold SendMessage. rewrite Hs, decide_False by (rewrite Hp; tauto).
  rewrite <- (send_held net s m h mgr Hm Hg Hr). destruct (with_ref s (peer_info m)) as [[s1 [h1|]]| | |] eqn:E; cbn [obind]; try done.
  exfalso. unfold with_ref, with_mgr, GetWorkerEventHandlerWithRef in E. rewrite Hm in E. unfold GetWorkerEventHandler in Hg. rewrite Hg in E.
  unfold with_handler in E. by rewrite Hr in E.
Qed.

(** What [SendMessage] does with a message when no connection has to be made: a
    stopped service refuses it, a peer without the TCP protocol is an
    exception, and for a peer that has a worker the message joins exactly
    that worker's queue, with the connections and the handler's one reference
    as before. *)
Theorem service_send (net : network) (s : NBSocketService) (m : SndMessage P) (h : Z) (mgr : UniqueWorkerManager) :
  (m_bStopped s = true -> SendMessage net s m = Ret (s, false)) /\
  (m_bStopped s = false -> sp (peer_info m) <> Tcp -> SendMessage net s m = Throw "Not support now!") /\
  (m_bStopped s = false -> sp (peer_info m) = Tcp -> m_sspMgr s = Some mgr -> GetWorkerEventHandler mgr (peer_info m) = Some h ->
   refs s !! h = Some 1 -> SendMessage net s m = Ret (queued net s h m, accepts net h)).
Proof.
  split; [|split; [apply send_not_tcp|apply send_registered]]. unfold SendMessage. by intros ->.
Qed.

(** ** Connecting *)

Definition entered (mgr : UniqueWorkerManager) (h : Z) (npt : net_peer_info_t) : UniqueWorkerManager :=
  mkUWM (<[npt := h]> (m_hmap_workers mgr)) (<[mkPeer (nat_ npt) Tcp := npt]> (m_hmap_rp_lp mgr)) (<[h := mkPeer (nat_ npt) Tcp]> (m_hmap_handler_rp mgr)).

Lemma put_new s h npt mgr : m_bStopped s = false -> m_sspMgr s = Some mgr -> GetWorkerEventHandler mgr npt = None ->
  on_logic_connect (new_handler s h npt (mkPeer (nat_ npt) Tcp)) h = Ret (set_mgr (new_handler s h npt (mkPeer (nat_ npt) Tcp)) (entered mgr h npt), true).
Proof.
  intros Hs Hm Hg. unfold on_logic_connect, with_mgr. cbn [m_bStopped m_sspMgr new_handler]. rewrite Hs, Hm.
  unfold PutWorkerEventHandler, lnpt_of, rnpt_of. cbn [peers new_handler]. rewrite lookup_insert_eq. cbn [from_option id fst snd].
  unfold GetWorkerEventHandler in Hg. simpl. by rewrite Hg.
Qed.

Lemma connect_ok net s h npt mgr e e' : m_bStopped s = false -> m_sspMgr s = Some mgr -> GetWorkerEventHandler mgr npt = None -> sp npt = Tcp ->
  dial net npt = Dialed h true true -> m_pEventManager s = Some e ->
  AddEvent (pipe_capacity net) e h EVENT_NONE (Z.lor EVENT_READ EVENT_WRITE) = Ret e' ->
  connect net s npt = Ret (set_em (set_mgr (new_handler s h npt (mkPeer (nat_ npt) Tcp)) (entered mgr h npt)) e', true).
Proof.
  intros Hs Hm Hg Hp Hd He Ha. unfold connect, with_mgr at 1. rewrite Hm, Hg, decide_True, Hd by done.
  rewrite (put_new s h npt mgr) by done. cbn [obind andb]. unfold with_em. cbn [m_pEventManager set_mgr new_handler]. rewrite He, Ha. done.
Qed.

Lemma send_new net s m mgr s1 (ok : bool) : m_bStopped s = false -> sp (peer_info m) = Tcp -> m_sspMgr s = Some mgr ->
  GetWorkerEventHandler mgr (peer_info m) = None -> connect net s (peer_info m) = Ret (s1, ok) ->
  (forall h mgr1, ok = true -> m_sspMgr s1 = Some mgr1 -> GetWorkerEventHandler mgr1 (peer_info m) = Some h -> refs s1 !! h = Some 1 ->
     SendMessage net s m = Ret (queued net s1 h m, accepts net h)) /\
  (ok = false -> SendMessage net s m = Ret (s1, false)).
Proof.
  intros Hs Hp Hm Hg Hc. unfold SendMessage. rewrite Hs, decide_False by (rewrite Hp; tauto).
  assert (with_ref s (peer_info m) = Ret (s, None)) as ->.
  { unfold with_ref, with_mgr. rewrite Hm. unfold GetWorkerEventHandlerWithRef. unfold GetWorkerEventHandler in Hg. by rewrite Hg. }
  cbn [obind]. rewrite Hc. cbn [obind]. split; [|by intros ->]. intros h mgr1 -> Hm1 Hg1 Hr1.
  rewrite <- (send_held net s1 m h mgr1 Hm1 Hg1 Hr1). by destruct (with_ref s1 (peer_info m)) as [[s2 [h2|]]| | |].
Qed.

(** A handler that is deleted before anybody else has it. *)
Lemma delete_new s h logic real : refs s !! h = None -> peers s !! h = None -> delete_handler (new_handler s h logic real) h = s.
Proof. intros Hr Hp. unfold delete_handler, new_handler. simpl. rewrite !delete_insert_id by done. by destruct s. Qed.

(** An attempt that fails. *)
Lemma send_refused net s m mgr : m_bStopped s = false -> sp (peer_info m) = Tcp -> m_sspMgr s = Some mgr -> GetWorkerEventHandler mgr (peer_info m) = None ->
  match dial net (peer_info m) with
  | Dialed h handshaken _ => handshaken = false /\ refs s !! h = None /\ peers s !! h = None
  | _ => True
  end -> SendMessage net s m = Ret (s, false).
Proof.
  intros Hs Hp Hm Hg Hd. assert (connect net s (peer_info m) = Ret (s, false)) as Hc.
  { unfold connect, with_mgr. rewrite Hm, Hg, decide_True by done. destruct (dial net (peer_info m)) as [| |h hs nb]; [done..|].
    destruct Hd as (-> & Hr & Hps). cbn [obind andb]. by rewrite delete_new. }
  by destruct (send_new net s m mgr _ _ Hs Hp Hm Hg Hc) as [_ Hno]; apply Hno.
Qed.

(** A handler that is in the manager but deleted. *)
Lemma send_deleted net s m mgr h : m_bStopped s = false -> sp (peer_info m) = Tcp -> m_sspMgr s = Some mgr ->
  GetWorkerEventHandler mgr (peer_info m) = Some h -> refs s !! h = None -> SendMessage net s m = Undef "use of a deleted handler".
Proof.
  intros Hs Hp Hm Hg Hr. unfold SendMessage. rewrite Hs, decide_False by (rewrite Hp; tauto).
  unfold with_ref at 1, with_mgr, GetWorkerEventHandlerWithRef. unfold GetWorkerEventHandler in Hg. rewrite Hm, Hg.
  unfold with_handler. by rewrite Hr.
Qed.

(** A connection whose descriptor cannot be made non-blocking after its handshake
    leaves a deleted handler in the manager: the message is refused, and the
    next one to that peer uses the deleted object. *)
Lemma service_dangling net s m mgr h : m_bStopped s = false -> sp (peer_info m) = Tcp -> m_sspMgr s = Some mgr -> GetWorkerEventHandler mgr (peer_info m) = None ->
  dial net (peer_info m) = Dialed h true false ->
  exists s', SendMessage net s m = Ret (s', false) /\ forall net' m', peer_info m' = peer_info m -> SendMessage net' s' m' = Undef "use of a deleted handler".
Proof.
  intros Hs Hp Hm Hg Hd. set (s1 := delete_handler (set_mgr (new_handler s h (peer_info m) (mkPeer (nat_ (peer_info m)) Tcp)) (entered mgr h (peer_info m))) h).
  assert (connect net s (peer_info m) = Ret (s1, false)) as Hc.
  { unfold connect, with_mgr at 1. rewrite Hm, Hg, decide_True, Hd by done. by rewrite (put_new s h _ mgr). }
  exists s1. destruct (send_new net s m mgr _ _ Hs Hp Hm Hg Hc) as [_ Hno]. split; [by apply Hno|].
  intros net' m' Em. apply (send_deleted net' s1 m' (entered mgr h (peer_info m)) h); [done|by rewrite Em|done|rewrite Em; apply lookup_insert_eq|apply lookup_delete_eq].
Qed.


(** ** Accepting *)

(** The manager with an accepted connection. *)
Definition accepted (mgr : UniqueWorkerManager) (h : Z) (logic real : net_peer_info_t) : UniqueWorkerManager :=
  mkUWM (<[logic := h]> (m_hmap_workers mgr)) (<[real := logic]> (m_hmap_rp_lp mgr)) (<[h := real]> (m_hmap_handler_rp mgr)).

Lemma logic_connect_new s h logic real mgr : m_bStopped s = false -> m_sspMgr s = Some mgr ->
  on_logic_connect (new_handler s h logic real) h =
    match GetWorkerEventHandler mgr logic with
    | None => Ret (set_mgr (new_handler s h logic real) (accepted mgr h logic real), true)
    | Some _ => Ret (new_handler s h logic real, false)
    end.
Proof.
  intros Hs Hm. unfold on_logic_connect, with_mgr. cbn [m_bStopped m_sspMgr new_handler]. rewrite Hs, Hm.
  unfold PutWorkerEventHandler, lnpt_of, rnpt_of. cbn [peers new_handler]. rewrite lookup_insert_eq. cbn [from_option id fst snd].
  unfold GetWorkerEventHandler. simpl. destruct (lookup_worker mgr logic); [|done]. unfold set_mgr, new_handler. simpl. by rewrite Hm.
Qed.

Lemma accept_new net s h logic real mgr e e' : m_bStopped s = false -> m_sspMgr s = Some mgr -> m_pEventManager s = Some e ->
  AddEvent (pipe_capacity net) e h EVENT_NONE (Z.lor EVENT_READ EVENT_WRITE) = Ret e' -> GetWorkerEventHandler mgr logic = None ->
  accept_task net s h logic real true true true = Ret (set_em (set_mgr (new_handler s h logic real) (accepted mgr h logic real)) e').
Proof.
  intros Hs Hm He Ha Hg. unfold accept_task. rewrite (logic_connect_new s h logic real mgr Hs Hm), Hg. cbn [obind andb].
  unfold on_stack_connect, with_em. cbn [m_bStopped m_pEventManager set_mgr new_handler]. by rewrite Hs, He, Ha.
Qed.

(** A connection that its service did not take. *)
Lemma accept_refused net s h logic real mgr (handshaken verdict_sent nonblocking : bool) : m_bStopped s = false -> m_sspMgr s = Some mgr -> refs s !! h = None -> peers s !! h = None ->
  handshaken = false \/ GetWorkerEventHandler mgr logic <> None -> accept_task net s h logic real handshaken verdict_sent nonblocking = Ret s.
Proof.
  intros Hs Hm Hr Hp Hno. unfold accept_task. destruct handshaken; [destruct Hno as [|Hno]; [done|]|cbn [obind andb]; by rewrite delete_new].
  rewrite (logic_connect_new s h logic real mgr Hs Hm). destruct (GetWorkerEventHandler mgr logic); [|done]. cbn [obind andb]. by rewrite delete_new.
Qed.


End service.
Arguments NBSocketService : clear implicits.
End Service.
