(* ===== verification/NetTest.v ===== *)
(** * NetTest: the test of the network layer

    Models src/src/unit-test/net: the server (tcp/server/tcp-server-test-case.cc)
    and [NetTest.ServerTest] (main.cc) with its three services, over the
    service of SocketService.v.  What a service and the server tell each other
    when one connects to the other is the handshake of Handshake.v: the
    connection comes about iff the server's [on_logic_connect] takes it.  The
    messages that are printed are left out. *)

From stdpp Require Import pretty.
From S2P Require Import Prelude Codec PoolApi Buffer Message NetWorker WorkerManager Locks EventLoop SocketService.

Module NetTest.
Import Worker Manager Service.

(** [NssConfig] (nss-config.h); the pool and the callback are where they are
    used, the timeout is in seconds and microseconds. *)
Inductive NetStackWorkerMgrType := Unique.
Record NssConfig := mkNss { nc_sp : SocketProtocol; sspNat : option net_addr_t; logicPort : Z; netMgrType : NetStackWorkerMgrType; connectTimeout : Z * Z }.

Section test.
Context `{P : ProtoMsg}.

(** The pipes of the event workers, the listening handler, and whether a queue
    takes a message; all queues do. *)
Context (capacity listener : Z) (capacity_ok : 8 <= capacity).
Definition all_ok : pipe_calls := mkPipe true true true.
Definition net_with (d : dial_result) : network := mkNet capacity (fun _ => d) (fun _ => true).

(** [SocketServiceFactory::CreateService(nc)->Start(2, Posix)]. *)
Definition CreateAndStart (nc : NssConfig) : outcome (NBSocketService P * bool) :=
  Service.Start all_ok (fun _ => all_ok) (Ret listener) (net_with NoConnect) (bool_decide (nc_sp nc = Tcp)) (bool_decide (is_Some (sspNat nc))) 256 2 Posix NBSocketService_new.

(** *** TcpServerTest *)
Definition server_conf : NssConfig := mkNss Tcp (Some (mkAddr "0.0.0.0" 2210)) 2210 Unique (0, 100 * 1000).

Definition Run : outcome (NBSocketService P) :=
  let* (s_ss, ok) := CreateAndStart server_conf in
  if negb ok then Throw "cannot start SocketService" else Ret s_ss.

(** [TestSndMessage(mp, peer, id, msg)] and [TestSndMessage(mp, peer, msg)]. *)
Definition test_message (peer : net_peer_info_t) (i : Z) (msg : string) : SndMessage P :=
  SndMessage_id peer i (TestSndMessage (string_bytes msg)).

(** [recv_msg]: a message is answered with its own id; the result of
    [SendMessage] is ignored. *)
Definition server_recv_msg (s_ss : NBSocketService P) (nm : NotifyMessage) : outcome (NBSocketService P) :=
  match nm with
  | MessageNotifyMessage h peer _ =>
      let* (s_ss, _) := SendMessage (net_with NoConnect) s_ss (test_message peer (id h) "server response: hello client!") in Ret s_ss
  | WorkerNotifyMessage _ _ => Ret s_ss
  end.

(** *** ServerTest *)

(** A connection from this host: [g] is the handler the server makes for it,
    [eph] the port of the socket, [address] the host as the server sees it. *)
Context (address : string).
(** The ids the constructors of the messages draw. *)
Context (ids : nat -> Z).
Definition told (port : Z) : net_peer_info_t := mkPeer (mkAddr address port) Tcp.

Definition connect_to (srv : NBSocketService P) (g port eph : Z) : outcome (NBSocketService P * bool) :=
  let* srv := accept_task (net_with NoConnect) srv g (told port) (mkPeer (mkAddr address eph) Tcp) true true true in
  Ret (srv, bool_decide (is_Some (refs srv !! g))).

(** [netService->SendMessage(m)]: without a worker for the peer, the service
    connects, with [h] as the handler on its side. *)
Definition service_send (srv cli : NBSocketService P) (h g port eph : Z) (m : SndMessage P) : outcome (NBSocketService P * NBSocketService P * bool) :=
  with_mgr cli (fun mgr =>
    let* (srv, d) := match GetWorkerEventHandler mgr (peer_info m) with
                     | Some _ => Ret (srv, NoConnect)
                     | None => let* (srv, ok) := connect_to srv g port eph in Ret (srv, Dialed h ok true)
                     end in
    let* (cli, rc) := SendMessage (net_with d) cli m in Ret (srv, cli, rc)).

Definition peerInfo : net_peer_info_t := mkPeer (mkAddr "localhost" 2210) Tcp.
Definition client_conf (port : Z) : NssConfig := mkNss Tcp None port Unique (0, 100 * 1000).

(** The texts of the loop. *)
Definition loop_texts : list string := (fun i => "1-" +:+ pretty (i + 3)%nat +:+ " ---client request: hello server!")%string <$> seq 0 100.

(** [for (int i = 0; i < 100; ++i)]: the messages and what [SendMessage] returned. *)
Fixpoint send_loop (srv s1 : NBSocketService P) (h g eph : Z) (k : nat) (texts : list string) : outcome (NBSocketService P * NBSocketService P * list bool) :=
  match texts with
  | [] => Ret (srv, s1, [])
  | t :: texts =>
      let* (srv, s1, rc) := service_send srv s1 h g 2210 eph (test_message peerInfo (ids k) t) in
      let* (srv, s1, rcs) := send_loop srv s1 h g eph (S k) texts in Ret (srv, s1, rc :: rcs)
  end.

(** The results of the calls the test expects something of, in order: [Start] of
    each service and [SendMessage] of each message; [h1], [g1] and [h2], [g2]
    are the handlers of the two connection attempts. *)
Definition ServerTest (srv : NBSocketService P) (h1 g1 e1 h2 g2 e2 : Z) : outcome (NBSocketService P * NBSocketService P * list bool) :=
  let* (s1, ok1) := CreateAndStart (client_conf 2210) in
  let* (srv, s1, r11) := service_send srv s1 h1 g1 2210 e1 (test_message peerInfo (ids 0) "1-1 ---client request: hello server!") in
  let* (s2, ok2) := CreateAndStart (client_conf 2210) in
  let* (srv, s2, r2) := service_send srv s2 h2 g2 2210 e2 (test_message peerInfo (ids 1) "2 ---client request: hello server!") in
  let* (srv, s1, r12) := service_send srv s1 h1 g1 2210 e1 (test_message peerInfo (ids 2) "1-2 ---client request: hello server!") in
  let* (s3, ok3) := CreateAndStart (client_conf 2211) in
  let* (srv, s1, r3) := service_send srv s1 h1 g1 2210 e1 (test_message peerInfo (ids 3) "3 ---client request: hello server!") in
  let* (srv, s1, rs) := send_loop srv s1 h1 g1 e1 4 loop_texts in
  Ret (srv, s1, [ok1; r11; ok2; r2; r12; ok3; r3] ++ rs).

(** ** What the test meets *)

(** A service that was started with two connection workers. *)
Definition started (nat : bool) (lw : option EventWorker) (h : option Z) : NBSocketService P :=
  mkNBS false (Some UniqueWorkerManager_new) (Some (mkPEM true nat 256 2 (-1) false h lw [mkEW [] [] [] 0; mkEW [] [] [] 0] ∅)) ∅ ∅ [] [] [].

Lemma client_starts port : CreateAndStart (client_conf port) = Ret (started false None None, true).
Proof. reflexivity. Qed.

Lemma server_starts : exists lw, Run = Ret (started true lw (Some listener)).
Proof using capacity_ok.
  assert (Z.ltb 0 capacity = true) as H by (apply Z.ltb_lt; lia).
  eexists. unfold Run, CreateAndStart, Service.Start, Manager.Start, EventWorker_new, Wakeup. cbn -[Z.ltb].
  change (Z.leb (i32 256) 0) with false. rewrite (bool_decide_true (Tcp = Tcp)) by done. cbn -[Z.ltb]. rewrite H. reflexivity.
Qed.

(** A first connection: the handlers of both sides are entered. *)
Lemma first_event nat lw ls h : exists e', AddEvent capacity (mkPEM true nat 256 2 (-1) false ls lw [mkEW [] [] [] 0; mkEW [] [] [] 0] ∅) h EVENT_NONE (Z.lor EVENT_READ EVENT_WRITE) = Ret e'.
Proof using capacity_ok.
  assert (Z.ltb 0 capacity = true) as H by (apply Z.ltb_lt; lia).
  unfold AddEvent. cbn [m_iCurWorkerIdx m_iConnWorkersCnt]. change (next_idx (-1) 2) with (@Ret Z 0). cbn [obind m_vConnsWorkers].
  change ([mkEW [] [] [] 0; mkEW [] [] [] 0] !! Z.to_nat 0) with (Some (mkEW [] [] [] 0)). unfold Wakeup. cbn [notify_pipe AddExternalEpAddEvent].
  rewrite H. by eexists.
Qed.

(** A running service with a connection for the peer. *)
Record serves (s : NBSocketService P) (h : Z) (peer : net_peer_info_t) : Prop := mkServes {
  sv_up : Service.m_bStopped s = false;
  sv_mgr : exists mgr, m_sspMgr s = Some mgr /\ GetWorkerEventHandler mgr peer = Some h;
  sv_refs : refs s = {[h := 1]};
  sv_peers : dom (peers s) = {[h]}
}.

Lemma connect_first srv lw g port eph : srv = started true lw (Some listener) ->
  exists srv', connect_to srv g port eph = Ret (srv', true) /\ serves srv' g (told port).
Proof using capacity_ok.
  intros ->. destruct (first_event true lw (Some listener) g) as [e' Ea]. unfold connect_to.
  rewrite (accept_new (net_with NoConnect) (started true lw (Some listener)) g (told port) _ UniqueWorkerManager_new _ e' eq_refl eq_refl eq_refl Ea eq_refl). cbn [obind].
  set (srv' := set_em _ _). exists srv'. split; [|split; [done|..]].
  - cbn [srv' refs set_em set_mgr new_handler started]. rewrite insert_empty, lookup_singleton_eq. by rewrite bool_decide_true by eauto.
  - eexists. split; [reflexivity|]. apply lookup_insert_eq.
  - apply insert_empty.
  - cbn. by rewrite insert_empty, dom_singleton_L.
Qed.

(** The server keeps one connection per logic peer. *)
Lemma connect_again srv g g2 port eph : serves srv g (told port) -> g2 <> g -> connect_to srv g2 port eph = Ret (srv, false).
Proof.
  intros [Hu (mgr & Hm & Hg) Hr Hp] Hne. unfold connect_to.
  assert (refs srv !! g2 = None) as Er by (rewrite Hr; by apply lookup_singleton_ne).
  rewrite (accept_refused (net_with NoConnect) srv g2 (told port) _ mgr); try done.
  - cbn [obind]. by rewrite Er.
  - apply not_elem_of_dom. rewrite Hp. set_solver.
  - right. by rewrite Hg.
Qed.

Lemma send_first srv lw h g port eph m : srv = started true lw (Some listener) -> peer_info m = peerInfo ->
  exists srv' cli, service_send srv (started false None None) h g port eph m = Ret (srv', cli, true) /\ serves srv' g (told port) /\
    serves cli h peerInfo /\ sent cli = [(h, m)].
Proof using capacity_ok.
  intros -> Em. destruct (connect_first _ lw g port eph eq_refl) as (srv' & E & Hs). destruct (first_event false None None h) as [e' Ea].
  unfold service_send, with_mgr. cbn [m_sspMgr started]. rewrite Em. change (GetWorkerEventHandler UniqueWorkerManager_new peerInfo) with (@None Z).
  rewrite E. cbn [obind]. set (net := net_with _).
  pose proof (connect_ok net (started false None None) h peerInfo UniqueWorkerManager_new _ e' eq_refl eq_refl eq_refl eq_refl eq_refl eq_refl Ea) as Hc.
  rewrite <- Em in Hc. destruct (send_new net (started false None None) m _ _ true eq_refl ltac:(by rewrite Em) eq_refl ltac:(by rewrite Em) Hc) as [Hok _].
  assert (GetWorkerEventHandler (entered UniqueWorkerManager_new h (peer_info m)) (peer_info m) = Some h) as Hg1 by apply lookup_insert_eq.
  rewrite (Hok h _ eq_refl eq_refl Hg1) by apply lookup_insert_eq. cbn [obind]. eexists _, _. split; [reflexivity|]. split; [done|]. split; [|done].
  split; [done| |cbn; by rewrite insert_empty|cbn; by rewrite insert_empty, dom_singleton_L]. eexists. split; [reflexivity|]. by rewrite <- Em.
Qed.

Lemma send_second srv g h2 g2 port eph m : serves srv g (told port) -> g2 <> g -> peer_info m = peerInfo ->
  service_send srv (started false None None) h2 g2 port eph m = Ret (srv, started false None None, false).
Proof.
  intros Hs Hne Em. unfold service_send, with_mgr. cbn [m_sspMgr started]. rewrite Em. change (GetWorkerEventHandler UniqueWorkerManager_new peerInfo) with (@None Z).
  rewrite (connect_again srv g g2 port eph Hs Hne). cbn [obind].
  rewrite (send_refused (net_with (Dialed h2 false true)) (started false None None) m UniqueWorkerManager_new); try done; by rewrite Em.
Qed.

Lemma send_again srv cli h g port eph m : serves cli h peerInfo -> peer_info m = peerInfo ->
  exists cli', service_send srv cli h g port eph m = Ret (srv, cli', true) /\ serves cli' h peerInfo /\ sent cli' = sent cli ++ [(h, m)].
Proof.
  intros [Hu (mgr & Hm & Hg) Hr Hp] Em. unfold service_send, with_mgr. rewrite Hm, Em, Hg. cbn [obind].
  rewrite (send_registered (net_with NoConnect) cli m h mgr); try done; [|by rewrite Em..|by rewrite Hr, lookup_singleton_eq].
  cbn [obind]. eexists. split; [reflexivity|]. split; [|done]. split; try done. by exists mgr.
Qed.

(** The messages of the loop. *)
Fixpoint loop_messages (k : nat) (texts : list string) : list (SndMessage P) :=
  match texts with [] => [] | t :: texts => test_message peerInfo (ids k) t :: loop_messages (S k) texts end.

Lemma loop_sends srv h g eph texts : forall k cli, serves cli h peerInfo ->
  exists cli', send_loop srv cli h g eph k texts = Ret (srv, cli', replicate (length texts) true) /\ serves cli' h peerInfo /\
    sent cli' = sent cli ++ ((h,.) <$> loop_messages k texts).
Proof.
  induction texts as [|t texts IH]; intros k cli Hs; cbn [send_loop loop_messages fmap list_fmap].
  { exists cli. split; [done|]. by rewrite app_nil_r. }
  destruct (send_again srv cli h g 2210 eph (test_message peerInfo (ids k) t) Hs eq_refl) as (c1 & E & Hs1 & Hx1). rewrite E. cbn [obind].
  destruct (IH (S k) c1 Hs1) as (c2 & E2 & Hs2 & Hx2). rewrite E2. cbn [obind]. exists c2. split; [done|]. split; [done|]. by rewrite Hx2, Hx1, <- app_assoc.
Qed.

(** The expectations of the test hold: every service starts, the first message
    connects and is queued, the service with the same logic port is refused,
    and all later messages of the first service are queued on its connection,
    in order.  The server is left with one connection, the one of the first
    service under the name it told. *)
Theorem server_test_passes (h1 g1 e1 h2 g2 e2 : Z) : g2 <> g1 ->
  exists srv srv' s1, Run = Ret srv /\
    ServerTest srv h1 g1 e1 h2 g2 e2 = Ret (srv', s1, [true; true; true; false; true; true; true] ++ replicate 100 true) /\
    serves srv' g1 (told 2210) /\ serves s1 h1 peerInfo /\
    sent s1 = ((h1,.) <$> [test_message peerInfo (ids 0) "1-1 ---client request: hello server!"; test_message peerInfo (ids 2) "1-2 ---client request: hello server!";
      test_message peerInfo (ids 3) "3 ---client request: hello server!"] ++ loop_messages 4 loop_texts).
Proof using capacity_ok.
  intros Hne. destruct server_starts as [lw Er]. eexists.
  destruct (send_first _ lw h1 g1 2210 e1 (test_message peerInfo (ids 0) "1-1 ---client request: hello server!") eq_refl eq_refl) as (srv' & c1 & E1 & Hs & Hc1 & Hx1).
  destruct (send_again srv' c1 h1 g1 2210 e1 (test_message peerInfo (ids 2) "1-2 ---client request: hello server!") Hc1 eq_refl) as (c2 & E2 & Hc2 & Hx2).
  destruct (send_again srv' c2 h1 g1 2210 e1 (test_message peerInfo (ids 3) "3 ---client request: hello server!") Hc2 eq_refl) as (c3 & E3 & Hc3 & Hx3).
  destruct (loop_sends srv' h1 g1 e1 loop_texts 4 c3 Hc3) as (c4 & E4 & Hc4 & Hx4).
  exists srv', c4. split; [exact Er|]. unfold ServerTest. rewrite !client_starts. cbn [obind]. rewrite E1. cbn [obind].
  rewrite (send_second srv' g1 h2 g2 2210 e2 (test_message peerInfo (ids 1) "2 ---client request: hello server!") Hs Hne eq_refl). cbn [obind]. rewrite E2. cbn [obind]. rewrite E3. cbn [obind]. rewrite E4. cbn [obind].
  split; [done|]. split; [done|]. split; [done|]. rewrite Hx4, Hx3, Hx2, Hx1. done.
Qed.

(** The server answers a message of the first service on its connection, with the message's id. *)
Theorem server_answers (srv : NBSocketService P) (g : Z) (hd : Header) (data : list Z) (port : Z) : serves srv g (told port) ->
  exists srv', server_recv_msg srv (MessageNotifyMessage hd (told port) data) = Ret srv' /\ serves srv' g (told port) /\
    sent srv' = sent srv ++ [(g, test_message (told port) (id hd) "server response: hello client!")].
Proof.
  intros [Hu (mgr & Hm & Hg) Hr Hp]. unfold server_recv_msg.
  rewrite (send_registered (net_with NoConnect) srv _ g mgr); try done; [|by rewrite Hr, lookup_singleton_eq].
  cbn [obind]. eexists. split; [reflexivity|]. split; [|done]. split; try done. by exists mgr.
Qed.

End test.
End NetTest.

(** ** Example *)
Module NetTestDemo.
Import Service NetTest.

#[local] Instance Raw : ProtoMsg := {| pb_msg := list Z; ByteSize m := Z.of_nat (length m); pb_bytes m := m |}.

(** The texts as the test prints them, and the server's answer to the first message. *)
Lemma first_texts : take 2 loop_texts = ["1-3 ---client request: hello server!"; "1-4 ---client request: hello server!"]%string.
Proof. vm_compute. reflexivity. Qed.

Lemma server_answers_witness : exists srv srv' s1, Run (P := Raw) 65536 9 = Ret srv /\
  ServerTest 65536 9 "127.0.0.1" (fun k => Z.of_nat k + 1) srv 100 200 40000 101 201 40001 = Ret (srv', s1, [true; true; true; false; true; true; true] ++ replicate 100 true) /\
  exists srv2, server_recv_msg 65536 srv' (MessageNotifyMessage (mkHeader MESSAGE_MAGIC_NO 1 37) (told "127.0.0.1" 2210) []) = Ret srv2 /\
    sent srv2 = sent srv' ++ [(200, test_message (told "127.0.0.1" 2210) 1 "server response: hello client!")].
Proof.
  destruct (server_test_passes (P := Raw) 65536 9 ltac:(lia) "127.0.0.1" (fun k => Z.of_nat k + 1) 100 200 40000 101 201 40001 ltac:(lia)) as (srv & srv' & s1 & E1 & E2 & Hs & _).
  destruct (server_answers 65536 "127.0.0.1" srv' 200 (mkHeader MESSAGE_MAGIC_NO 1 37) [] 2210 Hs) as (srv2 & E3 & _ & Hx).
  exists srv, srv', s1. split; [exact E1|]. split; [exact E2|]. exists srv2. split; [exact E3|exact Hx].
Defined.

End NetTestDemo.
