(* ===== verification/Rpc.v ===== *)
(** * Rpc: the rpc server, the rpc clients and the messenger

    Models src/src/rpc/rpc-server.{h,cc} (Module [Server]),
    src/src/rpc/exceptions.h with server/node/rpc/exceptions.h (Module
    [Exceptions]), src/src/rpc/abstract-rpc-client.{h,cc} (Module [Client]),
    src/src/common/resource-pool.h (Module [Pool]),
    src/src/rpc/abstract-rpc-sync-client.{h,cc} (Module [Sync]) and
    src/src/server/node/server-internal-messenger.{h,cc} (Module [Messenger]).
    A received message is its header, peer and payload bytes, as the workers
    of NetWorker.v hand it up. *)

From S2P Require Import Prelude Hash Timer Codec PoolApi Buffer Message NetWorker WorkerManager Locks EventLoop SocketService.

(** What the network hands to the callbacks; the last kind comes from the listening socket. *)
Inductive notification := Notified (n : NotifyMessage) | ServerNotified.

(** [ByteOrderUtils::ReadUInt16(buffer->GetPos())], and [MoveHeadBack(2)]. *)
Definition read_u16 (data : list Z) : outcome (Z * list Z) :=
  match data with
  | a :: b :: rest => Ret (a * 256 + b, rest)
  | _ => Undef "read past the payload"
  end.

Lemma read_u16_split z rest : in_u 16 z -> read_u16 (be_split 2 z ++ rest) = Ret (z, rest).
Proof.
  intros Hz. assert (be_join (be_split 2 z) = z) as E by (rewrite be_join_split by (unfold in_u in Hz; lia); by apply Z.mod_small).
  unfold be_join in E. simpl in *. by rewrite <- E at 3.
Qed.

(** ** Exceptions *)
Module Exceptions.

(** The classes derived from [RpcException], with what their constructors are given. *)
Inductive RpcException :=
| BadRpcException (code : Z) (rpcName : string)
| BadRpcHandlerIdException (code handlerId : Z)
| RpcClientInternalException
| RpcClientSendTimeoutException
| RpcBrokenPipeException
| RpcMessageCorruptException (handlerId : Z)
| RpcServerInternalException
| RpcClientIsBusyException.

(** What [operator<<] prints for a number. *)
Definition print (z : Z) : string := foldr (fun c s => String (Ascii.ascii_of_N (Z.to_N c)) s) EmptyString (decimal z).

Definition what (e : RpcException) : string :=
  match e with
  | BadRpcException _ rpcName => ("Cannot found registered rpc " +:+ rpcName +:+ ".")%string
  | BadRpcHandlerIdException _ handlerId => ("Bad handler id " +:+ print handlerId +:+ ".")%string
  | RpcClientInternalException => "Rpc client internal error!"
  | RpcClientSendTimeoutException => "Rpc client send timeout!"
  | RpcBrokenPipeException => "Rpc pipe is broken!"
  | RpcMessageCorruptException handlerId => ("Cannot parse sent message error for handler id " +:+ print handlerId +:+ ".")%string
  | RpcServerInternalException => "Rpc peer server internal error! Maybe oom."
  | RpcClientIsBusyException => "Cannot push message into sent msg queue, the sent msg queue is full!"
  end.

(** The accessors of the two classes that keep a code. *)
Definition code (e : RpcException) : option Z :=
  match e with BadRpcException c _ | BadRpcHandlerIdException c _ => Some c | _ => None end.
Definition handler_id (e : RpcException) : option Z :=
  match e with BadRpcHandlerIdException _ h => Some h | _ => None end.

End Exceptions.
Import Exceptions.

(** ** RpcServer *)
Module Server.
Import Service.

Section server.
Context `{P : ProtoMsg}.

(** [TypicalRpcHandler]: the request creator, the parser of its message type and the handle. *)
Record IRpcHandler := mkHandler { CreateMessage : bool; ParseFrom : list Z -> option pb_msg; Handle : pb_msg -> outcome (option pb_msg) }.

(** [m_hmHandlers\[id\]] enters a null handler for an unknown id: the map's value is optional. *)
Record RpcServer := mkServer {
  m_bStopped : bool;
  m_iWorkThreadsCnt : Z;
  m_hmHandlers : gmap Z (option IRpcHandler);
  m_bRegistered : bool
}.

(** A thread count other than zero is not stored. *)
Definition RpcServer_new (workThreadsCnt cpus : Z) : RpcServer :=
  mkServer true (if Z.eqb 0 workThreadsCnt then u16 (cpus * 2) else 0) ∅ false.

Definition Start (s : RpcServer) : RpcServer * bool :=
  if negb (m_bStopped s) || negb (m_bRegistered s) then (s, false)
  else (mkServer false (m_iWorkThreadsCnt s) (m_hmHandlers s) (m_bRegistered s), true).
Definition Stop (s : RpcServer) : RpcServer * bool :=
  if m_bStopped s then (s, true) else (mkServer true (m_iWorkThreadsCnt s) (m_hmHandlers s) (m_bRegistered s), true).

Definition RegisterRpc (s : RpcServer) (id : Z) (h : IRpcHandler) : RpcServer * bool :=
  if m_bRegistered s then (s, false)
  else (mkServer (m_bStopped s) (m_iWorkThreadsCnt s) (<[id := Some h]> (m_hmHandlers s)) (m_bRegistered s), true).
Definition FinishRegisterRpc (s : RpcServer) : RpcServer := mkServer (m_bStopped s) (m_iWorkThreadsCnt s) (m_hmHandlers s) true.

(** [new RpcResponseBase(code, ht)]: a new id, no peer and no memory pool. *)
Definition error_response (lastId : Z) (code : RpcCode) (ht : Z) : Z * SndMessage P :=
  let i := GetNewId lastId in (i, mkSnd (mkHeader 0 i 0) false None (RpcResponseBase code ht)).

(** [new RpcResponse(res, ht)] and its setters. *)
Definition response (lastId : Z) (mid : Z) (peer : net_peer_info_t) (res : option pb_msg) (ht : Z) : Z * SndMessage P :=
  (GetNewId lastId, mkSnd (mkHeader 0 mid 0) true (Some peer) (RpcResponse ht res)).

(** [proc_msg]; [lastId] is [SndMessage::s_lastId]. *)
Definition proc_msg (net : network) (s : RpcServer) (ss : NBSocketService P) (lastId : Z) (n : notification)
    : outcome (RpcServer * NBSocketService P * Z) :=
  match n with
  | Notified (MessageNotifyMessage h peer data) =>
      let* (handlerId, data) := read_u16 data in
      let handler := m_hmHandlers s !! handlerId in
      let s := match handler with
               | None => mkServer (m_bStopped s) (m_iWorkThreadsCnt s) (<[handlerId := None]> (m_hmHandlers s)) (m_bRegistered s)
               | Some _ => s
               end in
      match mjoin handler with
      | None =>
          let '(lastId, r) := error_response lastId ErrorNoHandler handlerId in
          let* (ss, _) := SendMessage net ss r in Ret (s, ss, lastId)
      | Some hd =>
          if negb (CreateMessage hd) then
            let '(lastId, r) := error_response lastId ErrorInternal handlerId in
            let* (ss, _) := SendMessage net ss r in Ret (s, ss, lastId)
          else match ParseFrom hd data with
          | None =>
              let '(lastId, r) := error_response lastId ErrorMsg handlerId in
              let* (ss, _) := SendMessage net ss r in Ret (s, ss, lastId)
          | Some request =>
              let* res := Handle hd request in
              let '(lastId, r) := response lastId (id h) peer res handlerId in
              let* (ss, _) := SendMessage net ss r in Ret (s, ss, lastId)
          end
      end
  | Notified (WorkerNotifyMessage _ _) => Ret (s, ss, lastId)
  | ServerNotified => Abort "rpc server crushed!"
  end.

(** A request that parses is answered on the worker of its peer. *)
Lemma proc_msg_replies (net : network) (s : RpcServer) (ss : NBSocketService P) (mgr : UniqueWorkerManager) (lastId handlerId w : Z) (h : Header)
    (peer : net_peer_info_t) (data : list Z) (hd : IRpcHandler) (req : pb_msg) (res : option pb_msg) :
  in_u 16 handlerId -> m_hmHandlers s !! handlerId = Some (Some hd) -> CreateMessage hd = true -> ParseFrom hd data = Some req ->
  Handle hd req = Ret res ->
  Service.m_bStopped ss = false -> sp peer = Tcp -> m_sspMgr ss = Some mgr -> GetWorkerEventHandler mgr peer = Some w -> refs ss !! w = Some 1 ->
  accepts net w = true ->
  proc_msg net s ss lastId (Notified (MessageNotifyMessage h peer (be_split 2 handlerId ++ data))) =
    Ret (s, queued net ss w (mkSnd (mkHeader 0 (id h) 0) true (Some peer) (RpcResponse handlerId res)), GetNewId lastId).
Proof.
  intros Hi Hh Hc Hp He Hs Ht Hm Hg Hr Ha. unfold proc_msg. rewrite read_u16_split by done. cbn [obind]. rewrite Hh. cbn [mjoin option_join].
  rewrite Hc. cbn [negb]. rewrite Hp, He. cbn [obind]. unfold response.
  match goal with |- context [SendMessage net ss ?m] => set (msg := m) end.
  by rewrite (send_registered net ss msg w mgr Hs Ht Hm Hg Hr), Ha.
Qed.

(** A well-formed request gets exactly one response: with its handler
    registered and a worker for the peer, the response that joins that
    worker's queue has the request's id, the request's peer, the code OK and
    the handler's result; nothing else is sent. *)
Theorem server_replies (net : network) (s : RpcServer) (ss : NBSocketService P) (mgr : UniqueWorkerManager) (lastId handlerId w : Z) (h : Header)
    (peer : net_peer_info_t) (data : list Z) (hd : IRpcHandler) (req : pb_msg) (res : option pb_msg) :
  in_u 16 handlerId -> m_hmHandlers s !! handlerId = Some (Some hd) -> CreateMessage hd = true -> ParseFrom hd data = Some req ->
  Handle hd req = Ret res ->
  Service.m_bStopped ss = false -> sp peer = Tcp -> m_sspMgr ss = Some mgr -> GetWorkerEventHandler mgr peer = Some w -> refs ss !! w = Some 1 ->
  accepts net w = true ->
  exists ss', proc_msg net s ss lastId (Notified (MessageNotifyMessage h peer (be_split 2 handlerId ++ data))) = Ret (s, ss', GetNewId lastId) /\
    sent ss' = sent ss ++ [(w, mkSnd (mkHeader 0 (id h) 0) true (Some peer) (RpcResponse handlerId res))].
Proof.
  intros. eexists. split; [by eapply proc_msg_replies|]. unfold queued. cbn [sent]. by rewrite H9.
Qed.

(** A request the server cannot serve ends the thread: for an unknown handler
    id, a creator that fails or a message that does not parse, the error
    response has no peer, so that sending it throws out of [proc_msg]. *)
Theorem server_error_throws (net : network) (s : RpcServer) (ss : NBSocketService P) (lastId handlerId : Z) (h : Header)
    (peer : net_peer_info_t) (data : list Z) :
  in_u 16 handlerId -> Service.m_bStopped ss = false ->
  match mjoin (m_hmHandlers s !! handlerId) with
  | None => True
  | Some hd => CreateMessage hd = false \/ ParseFrom hd data = None
  end ->
  proc_msg net s ss lastId (Notified (MessageNotifyMessage h peer (be_split 2 handlerId ++ data))) = Throw "Not support now!".
Proof.
  intros Hi Hs Hbad. unfold proc_msg. rewrite read_u16_split by done. cbn [obind].
  assert (forall code, SendMessage net ss (error_response lastId code handlerId).2 = Throw "Not support now!") as E.
  { intros code. by apply send_not_tcp. }
  unfold error_response in *. cbn [snd] in E.
  destruct (mjoin (m_hmHandlers s !! handlerId)) as [hd|]; [|by rewrite (E ErrorNoHandler)].
  destruct (CreateMessage hd); [|by rewrite (E ErrorInternal)]. destruct Hbad as [?| ->]; [done|]. by rewrite (E ErrorMsg).
Qed.

End server.
Arguments IRpcHandler : clear implicits.
Arguments RpcServer : clear implicits.
End Server.

(** ** ARpcClient *)
Module Client.
Import Service.

Section client.
Context `{P : ProtoMsg}.

Record ARpcClient := mkClient { m_bStopped : bool; m_bRegistered : bool; m_hmapRpcs : gmap string Z }.

Definition ARpcClient_new : ARpcClient := mkClient true false ∅.

Record SentRet := mkSent { sr_peer : option net_peer_info_t; handlerId : Z; msgId : Z }.

(** [SentRet()]. *)
Definition not_sent : SentRet := mkSent None 0 INVALID_MSG_ID.

Definition registerRpc (c : ARpcClient) (rpcName : string) (id : Z) : ARpcClient * bool :=
  if m_bRegistered c then (c, false) else (mkClient (m_bStopped c) (m_bRegistered c) (<[rpcName := id]> (m_hmapRpcs c)), true).
Definition finishRegisterRpc (c : ARpcClient) : ARpcClient := mkClient (m_bStopped c) true (m_hmapRpcs c).

Definition APPEND_ENTRIES_RPC_ID : Z := 1.
Definition REQUEST_VOTE_RPC_ID : Z := 2.

(** [register_rpc_handlers] of both clients of a raft server, which is their [onStart]. *)
Definition register_rpc_handlers (c : ARpcClient) : ARpcClient * bool :=
  let '(c, ok) := registerRpc c "AppendEntries" APPEND_ENTRIES_RPC_ID in
  if negb ok then (c, false)
  else
    let '(c, ok) := registerRpc c "RequestVote" REQUEST_VOTE_RPC_ID in
    if negb ok then (c, false) else (finishRegisterRpc c, true).

Definition Start (c : ARpcClient) : ARpcClient * bool :=
  if negb (m_bStopped c) then (c, true)
  else
    let '(c, ok) := register_rpc_handlers c in
    if negb ok then (c, false)
    else if negb (m_bRegistered c) then (c, false)
    else (mkClient false (m_bRegistered c) (m_hmapRpcs c), true).

Definition Stop (c : ARpcClient) : ARpcClient * bool :=
  if m_bStopped c then (c, true) else (mkClient true (m_bRegistered c) (m_hmapRpcs c), true).

Definition request (i : Z) (peer : net_peer_info_t) (h : Z) (msg : option pb_msg) : SndMessage P :=
  mkSnd (mkHeader 0 i 0) true (Some peer) (RpcRequest h msg).

(** [SendMessageAsync] with an id. *)
Definition SendMessageAsync_id (net : network) (c : ARpcClient) (ss : NBSocketService P) (rpcName : string) (i : Z)
    (msg : option pb_msg) (peer : net_peer_info_t) : outcome (NBSocketService P * SentRet) :=
  match m_hmapRpcs c !! rpcName with
  | None => Throw (what (BadRpcException (rpc_code ErrorNoRegisteredRpc) rpcName))
  | Some h =>
      let* (ss, ok) := SendMessage net ss (request i peer h msg) in
      Ret (ss, if ok then mkSent (Some peer) h i else not_sent)
  end.

(** [SendMessageAsync] with a new id; [lastId] is [SndMessage::s_lastId]. *)
Definition SendMessageAsync (net : network) (c : ARpcClient) (ss : NBSocketService P) (lastId : Z) (rpcName : string)
    (msg : option pb_msg) (peer : net_peer_info_t) : outcome (NBSocketService P * Z * SentRet) :=
  match m_hmapRpcs c !! rpcName with
  | None => Throw (what (BadRpcException (rpc_code ErrorNoRegisteredRpc) rpcName))
  | Some h =>
      let i := GetNewId lastId in
      let* (ss, ok) := SendMessage net ss (request i peer h msg) in
      Ret (ss, i, if ok then mkSent (Some peer) h i else not_sent)
  end.

Definition started : ARpcClient :=
  mkClient false true (<["RequestVote"%string := REQUEST_VOTE_RPC_ID]> (<["AppendEntries"%string := APPEND_ENTRIES_RPC_ID]> ∅)).

(** A started client sends the two rpcs of a raft server and no other: after
    [Start], a request for either goes, under its handler id and the given
    message id, to the worker of the peer, and the caller gets that id, or the
    invalid id when the worker refuses; any other name throws.  A client that
    was stopped cannot be started again. *)
Theorem client_sends_registered (net : network) (ss : NBSocketService P) (mgr : UniqueWorkerManager) (i w : Z) (msg : option pb_msg) (peer : net_peer_info_t) :
  Service.m_bStopped ss = false -> sp peer = Tcp -> m_sspMgr ss = Some mgr -> GetWorkerEventHandler mgr peer = Some w -> refs ss !! w = Some 1 ->
  exists c, Start ARpcClient_new = (c, true) /\
    (forall name h, (name, h) ∈ [("AppendEntries"%string, 1); ("RequestVote"%string, 2)] ->
       exists ss', SendMessageAsync_id net c ss name i msg peer =
         Ret (ss', if accepts net w then mkSent (Some peer) h i else mkSent None 0 0) /\
         sent ss' = if accepts net w then sent ss ++ [(w, request i peer h msg)] else sent ss) /\
    (forall name, name <> "AppendEntries"%string -> name <> "RequestVote"%string ->
       exists why, SendMessageAsync_id net c ss name i msg peer = Throw why) /\
    (Start (Stop c).1).2 = false.
Proof.
  intros Hs Ht Hm Hg Hr. exists started. split; [reflexivity|]. split; [|split; [|done]].
  - intros name h Hin. unfold SendMessageAsync_id. cbn [m_hmapRpcs started].
    assert ((<["RequestVote"%string := REQUEST_VOTE_RPC_ID]> (<["AppendEntries"%string := APPEND_ENTRIES_RPC_ID]> ∅) : gmap string Z) !! name = Some h) as ->.
    { rewrite !elem_of_cons, elem_of_nil in Hin. destruct Hin as [[= -> ->]|[[= -> ->]|[]]]; reflexivity. }
    rewrite (send_registered net ss (request i peer h msg) w mgr Hs Ht Hm Hg Hr). cbn [obind].
    eexists. split; [by destruct (accepts net w)|]. unfold queued. done.
  - intros name H1 H2. unfold SendMessageAsync_id. cbn [m_hmapRpcs started]. rewrite !lookup_insert_ne by done. rewrite lookup_empty. by eexists.
Qed.

End client.
End Client.

(** ** ResourcePool *)
Module Pool.

(** Resources are numbered in the order [new T()] makes them; [deleted] are those given to [DELETE_PTR]. *)
Record ResourcePool := mkPool { m_iMaxResCnt : Z; m_iCurResCnt : Z; m_freeRes : list nat; made : nat; deleted : list nat }.

Definition ResourcePool_new (maxResCnt : Z) : ResourcePool := mkPool maxResCnt 0 [] 0 [].

Definition Get (p : ResourcePool) : outcome (ResourcePool * nat) :=
  if Z.eqb 0 (m_iCurResCnt p) then
    Ret (mkPool (m_iMaxResCnt p) (m_iCurResCnt p) (m_freeRes p) (S (made p)) (deleted p), made p)
  else match m_freeRes p with
       | r :: rest => Ret (mkPool (m_iMaxResCnt p) (m_iCurResCnt p) rest (made p) (deleted p), r)
       | [] => Undef "front of an empty list"
       end.

Definition Put (p : ResourcePool) (r : nat) : ResourcePool :=
  if Z.ltb (m_iCurResCnt p) (m_iMaxResCnt p) then mkPool (m_iMaxResCnt p) (m_iCurResCnt p) (m_freeRes p ++ [r]) (made p) (deleted p)
  else mkPool (m_iMaxResCnt p) (m_iCurResCnt p) (m_freeRes p) (made p) (deleted p ++ [r]).

Definition Count (p : ResourcePool) : Z := m_iCurResCnt p.
Definition Empty (p : ResourcePool) : bool := Z.eqb 0 (m_iCurResCnt p).

Definition ResourcePool_delete (p : ResourcePool) : ResourcePool :=
  if Z.eqb 0 (m_iCurResCnt p) then p
  else mkPool (m_iMaxResCnt p) (m_iCurResCnt p) [] (made p) (deleted p ++ m_freeRes p).

Inductive step : ResourcePool -> ResourcePool -> Prop :=
| step_get p p' r : Get p = Ret (p', r) -> step p p'
| step_put p r : step p (Put p r).

(** The pool never reuses a resource: in every state it can reach with a bound
    above zero, [Count] is zero and [Get] makes a new resource, whatever was
    put back; nothing is ever deleted, not even by the destructor. *)
Theorem pool_never_reuses (max : Z) (p : ResourcePool) : 0 < max -> rtc step (ResourcePool_new max) p ->
  Count p = 0 /\ (exists p', Get p = Ret (p', made p)) /\ deleted p = [] /\ ResourcePool_delete p = p.
Proof.
  intros Hm Hr.
  assert (m_iMaxResCnt p = max /\ m_iCurResCnt p = 0 /\ deleted p = []) as (H1 & H2 & H3).
  { eapply (rtc_invariant step (fun p => m_iMaxResCnt p = max /\ m_iCurResCnt p = 0 /\ deleted p = []) (ResourcePool_new max)); [|done|exact Hr].
    intros x y (E1 & E2 & E3) Hs. destruct Hs as [x y r E|x r].
    - unfold Get in E. rewrite E2 in E. cbn in E. by injection E as <- <-.
    - unfold Put. rewrite E1, E2, (proj2 (Z.ltb_lt _ _)) by done. done. }
  unfold Count, Get, ResourcePool_delete. rewrite H2. cbn. eauto.
Qed.

Lemma pool_never_reuses_witness : let p := Put (mkPool 200 0 [] 1 []) 0 in
  Count p = 0 /\ (exists p', Get p = Ret (p', made p)) /\ deleted p = [] /\ ResourcePool_delete p = p.
Proof.
  apply (pool_never_reuses 200 (Put (mkPool 200 0 [] 1 []) 0)); [lia|].
  eapply rtc_l; [by apply (step_get _ (mkPool 200 0 [] 1 []) 0%nat)|]. apply rtc_once. apply step_put.
Defined.

End Pool.

(** ** ARpcSyncClient *)
Module Sync.

Inductive State := Ok | Timeout | BrokenPipe.

(** [RpcCtx]; [ssp_nm] is the message it was completed with. *)
Record RpcCtx := mkCtx { peer : net_peer_info_t; msgId : Z; complete : bool; state : State; timer_ev : EventId; ssp_nm : option NotifyMessage }.

(** The id a context has before its timeout is subscribed. *)
Definition no_event : EventId := mkEventId (mkTime 0 0) 0.

(** [ctxs] are the contexts by their address; [s_cb] is the message id the
    static callback captured when it was first reached; [g_pTimer] is the
    timer of the process, which nobody else uses. *)
Record ARpcSyncClient := mkSync {
  ctxs : gmap Z RpcCtx;
  m_hmapRpcCtxs : gmap Z Z;
  m_hmapPeerRpcs : gmap net_peer_info_t (gset Z);
  s_cb : option Z;
  g_pTimer : Timer;
  m_timeout : cctime
}.

Definition set_timer (s : ARpcSyncClient) (t : Timer) : ARpcSyncClient :=
  mkSync (ctxs s) (m_hmapRpcCtxs s) (m_hmapPeerRpcs s) (s_cb s) t (m_timeout s).

Definition ARpcSyncClient_new (t : Timer) (timeout : cctime) : ARpcSyncClient := mkSync ∅ ∅ ∅ None t timeout.

(** [m_hmapPeerRpcs\[p\].erase(k)], and the entry itself when it becomes empty. *)
Definition erase_peer (m : gmap net_peer_info_t (gset Z)) (p : net_peer_info_t) (k : Z) : gmap net_peer_info_t (gset Z) :=
  let S := default ∅ (m !! p) ∖ {[k]} in if decide (S = ∅) then delete p m else <[p := S]> m.

(** The first part of [recvMessage], for a context [k] from the pool whose peer
    and id [sendMessage] has set: the registration, and the static callback. *)
Definition begin_recv (s : ARpcSyncClient) (k : Z) (p : net_peer_info_t) (i : Z) : ARpcSyncClient :=
  mkSync (<[k := mkCtx p i false Ok no_event None]> (ctxs s)) (<[i := k]> (m_hmapRpcCtxs s))
    (<[p := {[k]} ∪ default ∅ (m_hmapPeerRpcs s !! p)]> (m_hmapPeerRpcs s))
    (match s_cb s with None => Some i | c => c end) (g_pTimer s) (m_timeout s).

(** The address of the static callback, of which only matters that it is not null. *)
Definition s_cb_addr : Z := 4096.

(** The second part, at the time [now]: the timeout is subscribed, with the one
    callback all calls share; a refusal is an exception. *)
Definition subscribe_timeout (now : cctime) (s : ARpcSyncClient) (k : Z) : outcome ARpcSyncClient :=
  let* (t, eventId) := SubscribeEventAfter now (g_pTimer s) (m_timeout s) (mkEvent 0 s_cb_addr) in
  let* zero := cctime_eq_tick 0 (when eventId) in
  if zero then Throw (what RpcClientInternalException)
  else Ret (mkSync (alter (fun c => mkCtx (peer c) (msgId c) (complete c) (state c) eventId (ssp_nm c)) k (ctxs s)) (m_hmapRpcCtxs s)
              (m_hmapPeerRpcs s) (s_cb s) t (m_timeout s)).

(** [recvMessage] up to its wait. *)
Definition recv_wait (now : cctime) (s : ARpcSyncClient) (k : Z) (p : net_peer_info_t) (i : Z) : outcome ARpcSyncClient :=
  subscribe_timeout now (begin_recv s k p i) k.

Definition finish_ctx (c : RpcCtx) (st : State) (n : option NotifyMessage) : RpcCtx := mkCtx (peer c) (msgId c) true st (timer_ev c) n.

(** [g_pTimer->UnsubscribeEvent(rc->timer_ev)]. *)
Definition unsubscribe (s : ARpcSyncClient) (k : Z) : outcome ARpcSyncClient :=
  match ctxs s !! k with
  | None => Ret s
  | Some c => let* (t, _) := UnsubscribeEvent (g_pTimer s) (timer_ev c) in Ret (set_timer s t)
  end.

(** The completion shared by a response and a timeout: the context leaves both
    maps; a response sets the message, a timeout the state. *)
Definition take_out (s : ARpcSyncClient) (i : Z) (st : State) (n : option NotifyMessage) : ARpcSyncClient :=
  match m_hmapRpcCtxs s !! i with
  | None => s
  | Some k =>
      match ctxs s !! k with
      | None => s
      | Some c => mkSync (<[k := finish_ctx c (match n with Some _ => state c | None => st end) (match n with Some _ => n | None => ssp_nm c end)]> (ctxs s)) (delete i (m_hmapRpcCtxs s))
                    (erase_peer (m_hmapPeerRpcs s) (peer c) k) (s_cb s) (g_pTimer s) (m_timeout s)
      end
  end.

(** One context of a broken connection; the message is moved into the first. *)
Definition break_ctx (s : ARpcSyncClient) (k : Z) (n : option NotifyMessage) : ARpcSyncClient :=
  match ctxs s !! k with
  | None => s
  | Some c => mkSync (<[k := finish_ctx c BrokenPipe n]> (ctxs s)) (delete (msgId c) (m_hmapRpcCtxs s)) (m_hmapPeerRpcs s) (s_cb s) (g_pTimer s) (m_timeout s)
  end.

Fixpoint break_all (s : ARpcSyncClient) (ks : list Z) (n : option NotifyMessage) : outcome ARpcSyncClient :=
  match ks with
  | [] => Ret s
  | k :: ks => let* s := unsubscribe s k in break_all (break_ctx s k n) ks None
  end.

Definition onRecvMessage (s : ARpcSyncClient) (n : notification) : outcome ARpcSyncClient :=
  match n with
  | Notified (MessageNotifyMessage h p data) =>
      match m_hmapRpcCtxs s !! id h with
      | None => Ret s
      | Some k => let* s := unsubscribe s k in Ret (take_out s (id h) Ok (Some (MessageNotifyMessage h p data)))
      end
  | Notified (WorkerNotifyMessage code p) =>
      match m_hmapPeerRpcs s !! p with
      | None => Ret s
      | Some ks =>
          let* s := break_all s (elements ks) (Some (WorkerNotifyMessage code p)) in
          Ret (mkSync (ctxs s) (m_hmapRpcCtxs s) (delete p (m_hmapPeerRpcs s)) (s_cb s) (g_pTimer s) (m_timeout s))
      end
  | ServerNotified => Abort "Rpc client shouldn't get NotifyMessageType::Server msg."
  end.

(** The timer's callback, whichever subscription it fires for. *)
Definition on_timeout (s : ARpcSyncClient) : ARpcSyncClient :=
  match s_cb s with
  | None => s
  | Some i => take_out s i Timeout None
  end.

(** The last part of [recvMessage], for a completed context; [None] while it waits. *)
Definition end_recv (c : RpcCtx) : option (outcome (list Z)) :=
  if negb (complete c) then None
  else Some match state c with
  | Timeout => Throw (what RpcClientSendTimeoutException)
  | BrokenPipe => Throw (what RpcBrokenPipeException)
  | Ok =>
      match ssp_nm c with
      | Some (MessageNotifyMessage _ _ data) =>
          let* (serverCode, data) := read_u16 data in
          let* (hid, _) := read_u16 data in
          if Z.eqb serverCode (rpc_code ErrorNoHandler) then Throw (what (BadRpcHandlerIdException serverCode hid))
          else if Z.eqb serverCode (rpc_code ErrorMsg) then Throw (what (RpcMessageCorruptException hid))
          else if Z.eqb serverCode (rpc_code ErrorInternal) then Throw (what RpcServerInternalException)
          else Ret data
      | _ => Undef "content of a null message"
      end
  end.

(** The macro's last step: the handler id is skipped, the rest is parsed. *)
Definition reply_bytes (data : list Z) : list Z := drop 2 data.

(** Both tables name exactly the contexts that wait. *)
Record inv (s : ARpcSyncClient) : Prop := mkInv {
  inv_id : forall i k, m_hmapRpcCtxs s !! i = Some k ->
    exists c S, ctxs s !! k = Some c /\ msgId c = i /\ complete c = false /\ m_hmapPeerRpcs s !! peer c = Some S /\ k ∈ S;
  inv_peer : forall p S k, m_hmapPeerRpcs s !! p = Some S -> k ∈ S ->
    exists c, ctxs s !! k = Some c /\ peer c = p /\ m_hmapRpcCtxs s !! msgId c = Some k
}.

Lemma erase_peer_spec m p k p' S x : erase_peer m p k !! p' = Some S -> x ∈ S ->
  exists S', m !! p' = Some S' /\ x ∈ S' /\ (p' = p -> x <> k).
Proof.
  unfold erase_peer. case_decide as E.
  - rewrite lookup_delete_Some. intros [Hne H] Hx. exists S. split_and!; [done|done|congruence].
  - rewrite lookup_insert_Some. intros [[<- <-]|[Hne H]] Hx.
    + destruct (m !! p) as [S'|] eqn:E2; cbn in *; [|set_solver]. exists S'. set_solver.
    + exists S. split_and!; [done|done|congruence].
Qed.

Lemma erase_peer_keeps m p k p' S x : m !! p' = Some S -> x ∈ S -> (p' = p -> x <> k) ->
  exists S', erase_peer m p k !! p' = Some S' /\ x ∈ S'.
Proof.
  intros H Hx Hne. unfold erase_peer. destruct (decide (p' = p)) as [->|Hp].
  - rewrite H. cbn. specialize (Hne eq_refl). rewrite decide_False by set_solver. exists (S ∖ {[k]}). rewrite lookup_insert_eq. set_solver.
  - exists S. case_decide; [by rewrite lookup_delete_ne|by rewrite lookup_insert_ne].
Qed.

Lemma begin_recv_inv s k p i : inv s -> ctxs s !! k = None -> m_hmapRpcCtxs s !! i = None -> inv (begin_recv s k p i).
Proof.
  intros [H1 H2] Hk Hi. split; cbn.
  - intros i' k'. rewrite lookup_insert_Some. intros [[<- <-]|[Hne H]].
    + exists (mkCtx p i false Ok no_event None). eexists. rewrite !lookup_insert_eq. cbn. split_and!; try done. set_solver.
    + destruct (H1 _ _ H) as (c & S & Hc & Hm & Hcm & Hp & Hin). assert (k <> k') by congruence.
      exists c. rewrite (lookup_insert_ne (ctxs s)) by done. destruct (decide (peer c = p)) as [<-|Hpp].
      * eexists. rewrite lookup_insert_eq. rewrite Hp. cbn. split_and!; try done. set_solver.
      * exists S. rewrite lookup_insert_ne by done. done.
  - intros p' S k'. rewrite lookup_insert_Some. intros [[<- <-]|[Hne H]] Hin.
    + destruct (decide (k' = k)) as [->|Hkk].
      * exists (mkCtx p i false Ok no_event None). by rewrite !lookup_insert_eq.
      * destruct (m_hmapPeerRpcs s !! p) as [S|] eqn:E; cbn in Hin; [|set_solver].
        destruct (H2 p S k' E) as (c & Hc & Hp & Hm); [set_solver|]. exists c. rewrite lookup_insert_ne by done.
        split_and!; [done|done|]. rewrite lookup_insert_ne; [done|congruence].
    + destruct (H2 p' S k' H Hin) as (c & Hc & Hp & Hm). exists c. rewrite !lookup_insert_ne by congruence. done.
Qed.

Lemma take_out_inv s i st n : inv s -> inv (take_out s i st n).
Proof.
  intros Hi. unfold take_out. destruct (m_hmapRpcCtxs s !! i) as [k|] eqn:Ei; [|done].
  destruct Hi as [H1 H2]. destruct (H1 _ _ Ei) as (c & S & Hc & Hm & Hcm & Hp & Hin). rewrite Hc. split; cbn.
  - intros i' k'. rewrite lookup_delete_Some. intros [Hne H]. destruct (H1 _ _ H) as (c' & S' & Hc' & Hm' & Hcm' & Hp' & Hin').
    assert (k <> k') by congruence.
    destruct (erase_peer_keeps _ (peer c) k _ _ _ Hp' Hin') as (S2 & HS2 & Hin2); [done|].
    exists c', S2. rewrite lookup_insert_ne by done. done.
  - intros p S' k' H Hin'. destruct (erase_peer_spec _ _ _ _ _ _ H Hin') as (S2 & HS2 & Hin2 & Hne).
    destruct (H2 _ _ _ HS2 Hin2) as (c' & Hc' & Hp' & Hm'). assert (k <> k') by (intros <-; apply Hne; congruence).
    exists c'. rewrite lookup_insert_ne by done. split_and!; [done|done|]. rewrite lookup_delete_ne; [done|congruence].
Qed.

(** Only the timer changes when an event is taken out of it. *)
Lemma unsubscribe_shape s k s' : unsubscribe s k = Ret s' -> exists t, s' = set_timer s t.
Proof.
  unfold unsubscribe. destruct (ctxs s !! k) as [c|]; [|intros [= <-]; exists (g_pTimer s); by destruct s].
  destruct (UnsubscribeEvent _ _) as [[t b]| | |]; cbn [obind]; try done. intros [= <-]. by exists t.
Qed.

Lemma set_timer_inv s t : inv s -> inv (set_timer s t).
Proof. intros [H1 H2]. split; [exact H1|exact H2]. Qed.

Lemma subscribe_timeout_inv now s k s' : inv s -> subscribe_timeout now s k = Ret s' -> inv s'.
Proof.
  intros [H1 H2]. unfold subscribe_timeout. destruct (SubscribeEventAfter _ _ _ _) as [[t e]| | |]; cbn [obind]; try done.
  destruct (cctime_eq_tick _ _) as [[]| | |]; cbn [obind]; try done. intros [= <-]. split; cbn.
  - intros i k' Hi. destruct (H1 _ _ Hi) as (c & S & Hc & Hm & Hcm & Hp & Hin). destruct (decide (k = k')) as [<-|Hk].
    + eexists _, S. rewrite lookup_alter_eq, Hc. cbn. done.
    + exists c, S. by rewrite lookup_alter_ne.
  - intros p S k' Hp Hin. destruct (H2 _ _ _ Hp Hin) as (c & Hc & Hpc & Hm). destruct (decide (k = k')) as [<-|Hk].
    + eexists. rewrite lookup_alter_eq, Hc. cbn. done.
    + exists c. by rewrite lookup_alter_ne.
Qed.

(** What completing the contexts [ks] does. *)
Lemma break_all_spec s ks n s' : NoDup ks -> (forall k, k ∈ ks -> is_Some (ctxs s !! k)) -> break_all s ks n = Ret s' ->
  (forall k, k ∉ ks -> ctxs s' !! k = ctxs s !! k) /\
  (forall i k, m_hmapRpcCtxs s' !! i = Some k <->
     m_hmapRpcCtxs s !! i = Some k /\ forall k' c, k' ∈ ks -> ctxs s !! k' = Some c -> msgId c <> i) /\
  m_hmapPeerRpcs s' = m_hmapPeerRpcs s /\ s_cb s' = s_cb s.
Proof.
  revert s n. induction ks as [|k ks IH]; intros s n Hnd Hex; cbn [break_all]; [intros [= <-]; set_solver|].
  apply NoDup_cons in Hnd as [Hk Hnd]. destruct (Hex k) as [c Hc]; [set_solver|].
  destruct (unsubscribe s k) as [s1| | |] eqn:Eu; cbn [obind]; try done. apply unsubscribe_shape in Eu as [t ->].
  unfold break_ctx. change (ctxs (set_timer s t)) with (ctxs s). rewrite Hc. intros E.
  apply IH in E as (H1 & H2 & H3 & H4); [|done|].
  2: { intros k' Hk'. cbn. rewrite lookup_insert_ne by set_solver. apply Hex. set_solver. }
  cbn in *. split_and!; [|intros i k'; rewrite H2, lookup_delete_Some; split|done|done].
  - intros k' Hk'. rewrite H1 by set_solver. rewrite lookup_insert_ne by set_solver. done.
  - intros [[Hne Hi] Hall]. split; [done|]. intros k2 c2 Hk2 Hc2. destruct (decide (k2 = k)) as [->|]; [congruence|].
    apply (Hall k2 c2); [set_solver|]. by rewrite lookup_insert_ne.
  - intros [Hi Hall]. split; [split; [|done]|].
    + apply (Hall k c); [set_solver|done].
    + intros k2 c2 Hk2. destruct (decide (k = k2)) as [<-|]; [done|]. rewrite lookup_insert_ne by done. apply Hall. set_solver.
Qed.

Lemma onRecv_inv s n s' : inv s -> onRecvMessage s n = Ret s' -> inv s'.
Proof.
  intros Hi. destruct n as [[code p|h p data]|]; cbn [onRecvMessage]; [| |done].
  2: { destruct (m_hmapRpcCtxs s !! id h) as [k|]; [|by intros [= <-]].
       destruct (unsubscribe s k) as [s1| | |] eqn:Eu; cbn [obind]; try done. apply unsubscribe_shape in Eu as [t ->].
       intros [= <-]. by apply take_out_inv, set_timer_inv. }
  destruct (m_hmapPeerRpcs s !! p) as [S|] eqn:Ep; [|by intros [= <-]].
  destruct (break_all s (elements S) _) as [s1| | |] eqn:Eb; cbn [obind]; try done. intros [= <-]. destruct Hi as [H1 H2].
  destruct (break_all_spec s (elements S) (Some (WorkerNotifyMessage code p)) s1 (NoDup_elements S)) as (B1 & B2 & B3 & B4); [|done|].
  { intros k Hk%elem_of_elements. destruct (H2 _ _ _ Ep Hk) as (c & Hc & _). by exists c. }
  split; cbn; rewrite B3.
  - intros i k [Hik Hall]%B2. destruct (H1 _ _ Hik) as (c & S' & Hc & Hm & Hcm & Hp & Hin).
    assert (k ∉ elements S) as Hk. { intros Hk. by apply (Hall k c Hk Hc). }
    exists c, S'. rewrite B1 by done. split_and!; try done. rewrite lookup_delete_ne; [done|].
    intros E2. apply Hk, elem_of_elements. congruence.
  - intros p' S' k. rewrite lookup_delete_Some. intros [Hne HS'] Hin. destruct (H2 _ _ _ HS' Hin) as (c & Hc & Hp & Hm).
    assert (k ∉ elements S) as Hk. { intros Hk%elem_of_elements. destruct (H2 _ _ _ Ep Hk) as (c' & Hc' & Hp' & _). congruence. }
    exists c. rewrite B1 by done. split_and!; [done|done|]. apply B2. split; [done|].
    intros k' c' Hk'%elem_of_elements Hc' E. destruct (H2 _ _ _ Ep Hk') as (c2 & Hc2 & Hp2 & Hm2).
    assert (c2 = c') as -> by congruence. rewrite E in Hm2. assert (k = k') by congruence. subst. congruence.
Qed.

(** A call takes a new context and, by [GetNewId], an id that is not waiting. *)
Inductive step : ARpcSyncClient -> ARpcSyncClient -> Prop :=
| step_begin s k p i : ctxs s !! k = None -> m_hmapRpcCtxs s !! i = None -> step s (begin_recv s k p i)
| step_subscribe s now k s' : subscribe_timeout now s k = Ret s' -> step s s'
| step_turn s t : step s (set_timer s t) (* the timer's own thread *)
| step_recv s n s' : onRecvMessage s n = Ret s' -> step s s'
| step_timeout s : step s (on_timeout s).

Lemma sync_inv_reachable t d s : rtc step (ARpcSyncClient_new t d) s -> inv s.
Proof.
  intros Hr. eapply (rtc_invariant step inv (ARpcSyncClient_new t d)); [|split|exact Hr].
  - intros x y Hi Hs. destruct Hs as [x k p i Hk Hid|x now k y E|x t'|x n y E|x].
    + by apply begin_recv_inv.
    + by eapply subscribe_timeout_inv.
    + by apply set_timer_inv.
    + by eapply onRecv_inv.
    + unfold on_timeout. destruct (s_cb x); [by apply take_out_inv|done].
  - intros i k H. cbn in H. by rewrite lookup_empty in H.
  - intros p S k H. cbn in H. by rewrite lookup_empty in H.
Qed.

(** The timer of the process is consistent and free, it has events of the one
    callback only, and the ids of the contexts are ids of it, or unset. *)
Record timer_ready (s : ARpcSyncClient) : Prop := mkReady {
  tr_inv : timer_inv (g_pTimer s);
  tr_free : sl_held (g_pTimer s) = false;
  tr_one : one_callback (g_pTimer s) s_cb_addr;
  tr_ids : forall k c, ctxs s !! k = Some c -> timer_ev c = no_event \/ how (timer_ev c) = s_cb_addr /\ cctime_eq_tick 0 (when (timer_ev c)) = Ret false
}.

Lemma unsubscribe_ready s k : timer_ready s -> exists t, unsubscribe s k = Ret (set_timer s t) /\ timer_ready (set_timer s t) /\
  m_mapSubscribedEvents t `sublist_of` m_mapSubscribedEvents (g_pTimer s).
Proof.
  intros Hr. pose proof Hr as [H1 H2 H3 H4]. unfold unsubscribe. destruct (ctxs s !! k) as [c|] eqn:Ec.
  2: { exists (g_pTimer s). split; [by destruct s|]. by split; [destruct s|]. }
  destruct (H4 _ _ Ec) as [->|[Hh Hw]].
  - exists (g_pTimer s). split; [done|]. by split; [destruct s|].
  - destruct (unsubscribe_one (g_pTimer s) s_cb_addr (timer_ev c) H1 H2 H3 ltac:(discriminate) Hh Hw) as (t & b & -> & F1 & F2 & F3 & F4).
    exists t. split; [done|]. split; [by split|done].
Qed.

Lemma take_out_ready s i st n : timer_ready s -> timer_ready (take_out s i st n).
Proof.
  intros [H1 H2 H3 H4]. unfold take_out. destruct (m_hmapRpcCtxs s !! i) as [k|]; [|done]. destruct (ctxs s !! k) as [c|] eqn:Ec; [|done].
  split; try done. cbn. intros k' c'. rewrite lookup_insert_Some. intros [[<- <-]|[_ E]]; [exact (H4 _ _ Ec)|exact (H4 _ _ E)].
Qed.

(** A call whose timeout is later than every waiting event is not refused. *)
Lemma subscribe_ready now due s k : timer_ready s -> cctime_add now (m_timeout s) = Ret due -> cctime_eq_tick 0 due = Ret false ->
  Forall (fun x => cctime_ltb (at_ x) due = true) (m_mapSubscribedEvents (g_pTimer s)) ->
  exists s', subscribe_timeout now s k = Ret s' /\ timer_ready s' /\ m_hmapRpcCtxs s' = m_hmapRpcCtxs s /\ m_timeout s' = m_timeout s /\
    ctxs s' = alter (fun c => mkCtx (peer c) (msgId c) (complete c) (state c) (mkEventId due s_cb_addr) (ssp_nm c)) k (ctxs s) /\
    Forall (fun x => at_ x = due \/ x ∈ m_mapSubscribedEvents (g_pTimer s)) (m_mapSubscribedEvents (g_pTimer s')).
Proof.
  intros [H1 H2 H3 H4] Hadd Hz Hlt. unfold subscribe_timeout, SubscribeEventAfter. cbn [callback]. rewrite Hadd. cbn [obind Z.eqb s_cb_addr].
  destruct (subscribe_one (g_pTimer s) s_cb_addr due (mkEvent 0 s_cb_addr) H1 H2 H3 ltac:(discriminate) eq_refl Hlt) as (t & E & F1 & F2 & F3 & F4).
  unfold s_cb_addr in E |- * at 1. rewrite E. cbn [obind when]. rewrite Hz. cbn [obind]. eexists. split; [reflexivity|]. split; [|do 3 (split; [reflexivity|])].
  - split; try done. cbn. intros k' c'. destruct (decide (k = k')) as [<-|Hk].
    + rewrite lookup_alter_eq. destruct (ctxs s !! k); [|done]. intros [= <-]. right. by split.
    + rewrite lookup_alter_ne by done. apply H4.
  - cbn [g_pTimer]. rewrite F4. constructor; [by left|]. apply Forall_forall. intros x Hx. by right.
Qed.

Lemma begin_recv_ready s k p i : timer_ready s -> timer_ready (begin_recv s k p i).
Proof.
  intros [H1 H2 H3 H4]. split; try done. cbn. intros k' c'. rewrite lookup_insert_Some.
  intros [[<- <-]|[_ E]]; [by left|exact (H4 _ _ E)].
Qed.

(** [recvMessage] up to its wait, with a new context and id and the latest timeout. *)
Lemma recv_wait_ready now due s k p i : inv s -> timer_ready s -> ctxs s !! k = None -> m_hmapRpcCtxs s !! i = None ->
  cctime_add now (m_timeout s) = Ret due -> cctime_eq_tick 0 due = Ret false ->
  Forall (fun x => cctime_ltb (at_ x) due = true) (m_mapSubscribedEvents (g_pTimer s)) ->
  exists s', recv_wait now s k p i = Ret s' /\ inv s' /\ timer_ready s' /\
    m_hmapRpcCtxs s' = <[i := k]> (m_hmapRpcCtxs s) /\
    ctxs s' = <[k := mkCtx p i false Ok (mkEventId due s_cb_addr) None]> (ctxs s) /\ m_timeout s' = m_timeout s /\
    Forall (fun x => at_ x = due \/ x ∈ m_mapSubscribedEvents (g_pTimer s)) (m_mapSubscribedEvents (g_pTimer s')).
Proof.
  intros Hi Hr Hk Hid Ha Hz Hl.
  destruct (subscribe_ready now due (begin_recv s k p i) k (begin_recv_ready _ _ _ _ Hr) Ha Hz Hl) as (s' & E & Hr' & Em & Et & Ec & Hev).
  exists s'. split; [exact E|]. split; [by eapply subscribe_timeout_inv; [apply begin_recv_inv|exact E]|]. split; [done|].
  split; [exact Em|]. split; [|done]. rewrite Ec. cbn [begin_recv ctxs]. by rewrite alter_insert_eq.
Qed.

(** A response reaches its caller: in every reachable state with a timer that is
    free, a message whose id is waiting completes exactly the context of that
    id, with that message, and takes the id out; the caller then gets the
    payload behind the code, or the exception of the server's error code; a
    message with another id changes nothing. *)
Theorem sync_response (t0 : Timer) (d : cctime) (s : ARpcSyncClient) (h : Header) (p : net_peer_info_t) (code hid : Z) (payload : list Z) :
  rtc step (ARpcSyncClient_new t0 d) s -> timer_ready s -> in_u 16 code -> in_u 16 hid ->
  let n := MessageNotifyMessage h p (be_split 2 code ++ be_split 2 hid ++ payload) in
  match m_hmapRpcCtxs s !! id h with
  | None => onRecvMessage s (Notified n) = Ret s
  | Some k => exists s' c, onRecvMessage s (Notified n) = Ret s' /\
      ctxs s !! k = Some c /\ complete c = false /\
      ctxs s' = <[k := mkCtx (peer c) (id h) true (state c) (timer_ev c) (Some n)]> (ctxs s) /\
      m_hmapRpcCtxs s' = delete (id h) (m_hmapRpcCtxs s) /\
      (state c = Ok -> (code = 0 -> end_recv (mkCtx (peer c) (id h) true (state c) (timer_ev c) (Some n)) = Some (Ret (be_split 2 hid ++ payload))) /\
        (1 <= code <= 3 -> exists why, end_recv (mkCtx (peer c) (id h) true (state c) (timer_ev c) (Some n)) = Some (Throw why)))
  end.
Proof.
  intros Hi%sync_inv_reachable Hr Hc Hh n. subst n. cbn [onRecvMessage]. destruct (m_hmapRpcCtxs s !! id h) as [k|] eqn:E; [|done].
  destruct (inv_id _ Hi _ _ E) as (c & S & Hk & Hm & Hcm & _). destruct (unsubscribe_ready s k Hr) as (t & -> & _). cbn [obind].
  unfold take_out. cbn [set_timer m_hmapRpcCtxs ctxs]. rewrite E, Hk. eexists _, c. split; [reflexivity|]. cbn [ctxs m_hmapRpcCtxs].
  split_and!; try done; [by rewrite <- Hm|]. intros Hok. unfold end_recv. cbn [complete state ssp_nm negb]. rewrite Hok, !read_u16_split by done. cbn [obind].
  rewrite read_u16_split by done. cbn [obind rpc_code]. split; [by intros ->|]. intros Hcode.
  destruct (Z.eqb_spec code 1); [by eexists|]. destruct (Z.eqb_spec code 2); [by eexists|]. destruct (Z.eqb_spec code 3); [by eexists|lia].
Qed.

(** Only the first call can time out: the static callback keeps the id of the
    first call, so that in every reachable state the callback of any timer
    event leaves the context of every other call as it was. *)
Theorem sync_timeout_first_only (t0 : Timer) (d : cctime) (s : ARpcSyncClient) (i k : Z) (c : RpcCtx) :
  rtc step (ARpcSyncClient_new t0 d) s -> s_cb s = Some i -> ctxs s !! k = Some c -> msgId c <> i ->
  ctxs (on_timeout s) !! k = Some c /\ forall p j, s_cb (begin_recv s k p j) = Some i.
Proof.
  intros Hi%sync_inv_reachable Hcb Hk Hne. split; [|by intros; cbn; rewrite Hcb]. unfold on_timeout, take_out. rewrite Hcb.
  destruct (m_hmapRpcCtxs s !! i) as [k'|] eqn:E; [|done]. destruct (inv_id _ Hi _ _ E) as (c' & S & Hk' & Hm & _). rewrite Hk'.
  cbn. rewrite lookup_insert_ne; [done|]. intros ->. congruence.
Qed.

(** Two calls to one peer, one second apart. *)
Definition client0 : ARpcSyncClient := ARpcSyncClient_new (mkTimer false [] [] 0 true false) (mkTime 5 0).
Definition run_or (d : ARpcSyncClient) (o : outcome ARpcSyncClient) : ARpcSyncClient := match o with Ret s => s | _ => d end.
Definition one_call : ARpcSyncClient := run_or client0 (recv_wait (mkTime 100 0) client0 100 (peer_of 1) 5).
Definition two_calls : ARpcSyncClient := run_or one_call (recv_wait (mkTime 101 0) one_call 200 (peer_of 1) 6).

Lemma two_calls_reachable : rtc step client0 two_calls.
Proof.
  eapply rtc_l; [by apply (step_begin _ 100 (peer_of 1) 5)|]. eapply rtc_l; [by apply (step_subscribe _ (mkTime 100 0) 100 one_call)|].
  eapply rtc_l; [by apply (step_begin _ 200 (peer_of 1) 6)|]. apply rtc_once. by apply (step_subscribe _ (mkTime 101 0) 200).
Qed.

Definition ctx2 : RpcCtx := mkCtx (peer_of 1) 6 false Ok (mkEventId (mkTime 106 0) s_cb_addr) None.

Lemma two_calls_ready : timer_ready two_calls.
Proof.
  assert (timer_ready client0) as H0.
  { split; try done; [|constructor]. split; cbn; try done; constructor. }
  pose proof begin_recv_ready as Hb.
  destruct (subscribe_ready (mkTime 100 0) (mkTime 105 0) (begin_recv client0 100 (peer_of 1) 5) 100 (Hb _ _ _ _ H0) eq_refl eq_refl (Forall_nil_2 _)) as (s1 & E1 & H1 & _).
  assert (one_call = s1) as E1'. { unfold one_call, recv_wait. by rewrite E1. }
  destruct (subscribe_ready (mkTime 101 0) (mkTime 106 0) (begin_recv one_call 200 (peer_of 1) 6) 200) as (s2 & E2 & H2 & _); [apply Hb; by rewrite E1'|reflexivity..| |].
  { repeat constructor. }
  assert (two_calls = s2) as ->; [|done]. unfold two_calls, recv_wait. by rewrite E2.
Qed.

Lemma sync_timeout_first_only_witness : ctxs (on_timeout two_calls) !! 200 = Some ctx2 /\
  forall p j, s_cb (begin_recv two_calls 200 p j) = Some 5.
Proof.
  apply (sync_timeout_first_only (mkTimer false [] [] 0 true false) (mkTime 5 0) two_calls 5 200 ctx2).
  - exact two_calls_reachable.
  - reflexivity.
  - reflexivity.
  - discriminate.
Defined.

Lemma sync_response_witness : exists s' c, onRecvMessage two_calls (Notified (MessageNotifyMessage (mkHeader 0 6 7) (peer_of 1) (be_split 2 0 ++ be_split 2 2 ++ [9; 9; 9]))) = Ret s' /\
  ctxs two_calls !! 200 = Some c /\ complete c = false.
Proof.
  assert (in_u 16 0 /\ in_u 16 2) as [H0 H2] by (unfold in_u; lia).
  destruct (sync_response (mkTimer false [] [] 0 true false) (mkTime 5 0) two_calls (mkHeader 0 6 7) (peer_of 1) 0 2 [9; 9; 9] two_calls_reachable two_calls_ready H0 H2) as (s' & c & E1 & E2 & E3 & _).
  exists s', c. split; [exact E1|]. split; [exact E2|exact E3].
Defined.

(** Two calls whose timeouts fall on the same nanosecond: the second caller's
    subscription is refused, and it gets an exception although its request
    was sent. *)
Example simultaneous_calls_refused :
  recv_wait (mkTime 100 0) one_call 200 (peer_of 1) 6 = Throw (what RpcClientInternalException).
Proof. vm_compute. reflexivity. Qed.

End Sync.

(** ** ServerInternalMessenger *)
Module Messenger.
Import Service.

Inductive IMessageHandler := SyncClient | AsyncClient.

Record ServerInternalMessenger := mkMessenger {
  m_bStopped : bool;
  m_msgHandlerMapper : gmap Z IMessageHandler;
  m_addrMsgMapper : gmap net_peer_info_t (gset Z)
}.

(** Where a message went. *)
Inductive destination := ToClient (h : IMessageHandler) | ToServer | Nowhere.

(** The set for a new peer is copied into the map before the id is inserted into the local one. *)
Definition add_msg_to_mapper (s : ServerInternalMessenger) (i : Z) (h : IMessageHandler) (peer : net_peer_info_t) : outcome ServerInternalMessenger :=
  match m_msgHandlerMapper s !! i with
  | Some _ => Throw "Message id is conflict"
  | None =>
      Ret (mkMessenger (m_bStopped s) (<[i := h]> (m_msgHandlerMapper s))
             match m_addrMsgMapper s !! peer with
             | Some ids => <[peer := {[i]} ∪ ids]> (m_addrMsgMapper s)
             | None => <[peer := ∅]> (m_addrMsgMapper s)
             end)
  end.

(** The test is the wrong way round: a known id gives null, an unknown id
    dereferences the end iterator. *)
Definition remove_msg_from_msg_handler_map (s : ServerInternalMessenger) (i : Z) : outcome (option IMessageHandler) :=
  match m_msgHandlerMapper s !! i with
  | Some _ => Ret None
  | None => Undef "end()->second"
  end.

Definition remove_msg_from_map (s : ServerInternalMessenger) (i : Z) (peer : net_peer_info_t) : outcome (ServerInternalMessenger * option IMessageHandler) :=
  let* h := remove_msg_from_msg_handler_map s i in
  match h with
  | None => Ret (s, None)
  | Some h =>
      match m_addrMsgMapper s !! peer with
      | None => Ret (s, None)
      | Some ids => Ret (mkMessenger (m_bStopped s) (m_msgHandlerMapper s) (<[peer := ids ∖ {[i]}]> (m_addrMsgMapper s)), Some h)
      end
  end.

Fixpoint remove_all (s : ServerInternalMessenger) (ids : list Z) : outcome unit :=
  match ids with
  | [] => Ret tt
  | i :: ids => let* _ := remove_msg_from_msg_handler_map s i in remove_all s ids
  end.

Definition clear_peer_msg_map (s : ServerInternalMessenger) (peer : net_peer_info_t) : outcome ServerInternalMessenger :=
  match m_addrMsgMapper s !! peer with
  | None => Ret s
  | Some ids =>
      if decide (ids = ∅) then Ret s
      else
        let* _ := remove_all s (elements ids) in
        Ret (mkMessenger (m_bStopped s) (m_msgHandlerMapper s) (delete peer (m_addrMsgMapper s)))
  end.

Definition dispatch_msg (s : ServerInternalMessenger) (n : notification) : outcome (ServerInternalMessenger * destination) :=
  if m_bStopped s then Ret (s, Nowhere)
  else match n with
  | Notified (MessageNotifyMessage h peer data) =>
      let* (s, clientHandler) := remove_msg_from_map s (id h) peer in
      Ret (s, match clientHandler with Some c => ToClient c | None => ToServer end)
  | Notified (WorkerNotifyMessage _ peer) => let* s := clear_peer_msg_map s peer in Ret (s, Nowhere)
  | ServerNotified => Ret (s, Nowhere)
  end.

(** No response reaches a client: whatever the messenger has sent, a received
    message is never handed to a client.  One whose id is entered goes to the
    server, as if it were a request; any other, so every request, reads
    through the end iterator. *)
Theorem messenger_never_reaches_client (s : ServerInternalMessenger) (h : Header) (peer : net_peer_info_t) (data : list Z) :
  m_bStopped s = false ->
  dispatch_msg s (Notified (MessageNotifyMessage h peer data)) =
    match m_msgHandlerMapper s !! id h with
    | Some _ => Ret (s, ToServer)
    | None => Undef "end()->second"
    end.
Proof.
  intros Hs. unfold dispatch_msg, remove_msg_from_map, remove_msg_from_msg_handler_map. rewrite Hs.
  by destruct (m_msgHandlerMapper s !! id h).
Qed.

Lemma messenger_never_reaches_client_witness :
  dispatch_msg (mkMessenger false {[5 := AsyncClient]} ∅) (Notified (MessageNotifyMessage (mkHeader 0 5 2) (peer_of 1) [0; 0])) =
  Ret (mkMessenger false {[5 := AsyncClient]} ∅, ToServer).
Proof.
  exact (messenger_never_reaches_client (mkMessenger false {[5 := AsyncClient]} ∅) (mkHeader 0 5 2) (peer_of 1) [0; 0] eq_refl).
Defined.

End Messenger.

(** ** Concrete runs *)
Module RpcDemo.
Import Service.

#[local] Instance RawProto : ProtoMsg := {| pb_msg := list Z; ByteSize m := Z.of_nat (length m); pb_bytes m := m |}.

Definition net0 : network := mkNet 65536 (fun _ => NoConnect) (fun _ => true).
Definition ss0 : NBSocketService RawProto := mkNBS false (Some after_put) None {[7 := 1]} {[7 := (node_of 7, peer_of 7)]} [] [] [].
Definition echo : Server.IRpcHandler RawProto := Server.mkHandler true (fun bs => Some bs) (fun m => Ret (Some m)).
Definition server0 : Server.RpcServer RawProto :=
  Server.FinishRegisterRpc (Server.RegisterRpc (Server.RpcServer_new 0 4) 2 echo).1.

Lemma server_replies_witness : exists ss',
  Server.proc_msg net0 server0 ss0 10 (Notified (MessageNotifyMessage (mkHeader 0 77 5) (node_of 7) (be_split 2 2 ++ [1; 2; 3]))) = Ret (server0, ss', GetNewId 10) /\
  sent ss' = sent ss0 ++ [(7, mkSnd (mkHeader 0 77 0) true (Some (node_of 7)) (RpcResponse 2 (Some [1; 2; 3])))].
Proof.
  refine (Server.server_replies net0 server0 ss0 after_put 10 2 7 (mkHeader 0 77 5) (node_of 7) [1; 2; 3] echo [1; 2; 3] (Some [1; 2; 3]) _ _ _ _ _ _ _ _ _ _ _).
  - unfold in_u. lia.
  - reflexivity.
  - reflexivity.
  - reflexivity.
  - reflexivity.
  - reflexivity.
  - reflexivity.
  - reflexivity.
  - reflexivity.
  - reflexivity.
  - reflexivity.
Defined.

Lemma server_error_throws_witness :
  Server.proc_msg net0 server0 ss0 10 (Notified (MessageNotifyMessage (mkHeader 0 77 2) (node_of 7) (be_split 2 9 ++ []))) = Throw "Not support now!".
Proof.
  refine (Server.server_error_throws net0 server0 ss0 10 9 (mkHeader 0 77 2) (node_of 7) [] _ _ _).
  - unfold in_u. lia.
  - reflexivity.
  - exact I.
Defined.

(** A service that is started with one connection worker and no peers. *)
Definition em0 : Manager.PosixEventManager := Manager.mkPEM true false 512 1 (-1) false None None [Worker.mkEW [] [] [] 0] ∅.
Definition ss1 : NBSocketService RawProto := mkNBS false (Some UniqueWorkerManager_new) (Some em0) ∅ ∅ [] [] [].
Definition net1 (nonblocking : bool) : network := mkNet 65536 (fun _ => Dialed 4096 true nonblocking) (fun _ => true).
Definition msg0 : SndMessage RawProto := mkSnd (mkHeader 0 5 0) true (Some (node_of 7)) (RpcRequest 2 (Some [1])).



Lemma client_sends_registered_witness : exists c, Client.Start Client.ARpcClient_new = (c, true) /\ (Client.Start (Client.Stop c).1).2 = false.
Proof.
  destruct (Client.client_sends_registered net0 ss0 after_put 3 7 (Some [4]) (node_of 7) eq_refl eq_refl eq_refl eq_refl eq_refl) as (c & E & _ & _ & E2).
  exists c. split; [exact E|exact E2].
Defined.

End RpcDemo.
