(* ===== verification/NodeRpc.v ===== *)
(** * NodeRpc: the rpc half of a node

    Models src/src/server/node/server-rpc-service.{h,cc},
    server-internal-messenger.cc (life cycle, calls and message flow; its
    tables are in Rpc.v), rpc/rf-srv-rpc-sync-server.cc,
    rpc/rf-srv-rpc-sync-client.cc and rpc/rf-srv-rpc-async-client.cc.  A thread
    pool is the list of the tasks it has been given and not yet run. *)

From S2P Require Import Prelude Hash FsIo RaftLog Timer ServerConf Node.
From S2P Require Import Codec PoolApi Buffer Message NetWorker WorkerManager Locks EventLoop SocketService Rpc.

Module NodeRpc.
Import Service Worker.

Section node.
Context `{P : ProtoMsg}.
(** Protobuf's parsers of the two request types and of the two response types. *)
Context (parse_append parse_vote : list Z -> option pb_msg).
(** What the system does: the pipes of the listening and of the connection
    workers, the listening socket, and the network. *)
Context (os_listen : pipe_calls) (os : nat -> pipe_calls) (srv : outcome Z) (net : network).

(** ** RfSrvInternalRpcServerSync *)

(** The rpc server's handler is the messenger, the messenger's handler is the
    [ServerRpcService], and that one calls the messenger: a method of the service
    takes the messenger's method it calls.  [stack] is the number of times the
    thread's stack has room for the two calls. *)
Definition Service_OnAppendEntries (messenger : pb_msg -> outcome (option pb_msg)) (m : pb_msg) : outcome (option pb_msg) := messenger m.
Fixpoint Messenger_OnAppendEntries (stack : nat) (m : pb_msg) : outcome (option pb_msg) :=
  match stack with
  | O => Abort "stack overflow"
  | S stack => Service_OnAppendEntries (Messenger_OnAppendEntries stack) m
  end.

Definition Service_OnRequestVote (messenger : pb_msg -> outcome (option pb_msg)) (m : pb_msg) : outcome (option pb_msg) := messenger m.
Fixpoint Messenger_OnRequestVote (stack : nat) (m : pb_msg) : outcome (option pb_msg) :=
  match stack with
  | O => Abort "stack overflow"
  | S stack => Service_OnRequestVote (Messenger_OnRequestVote stack) m
  end.

Definition on_append_entries (stack : nat) (m : pb_msg) : outcome (option pb_msg) := Messenger_OnAppendEntries stack m.
Definition on_request_vote (stack : nat) (m : pb_msg) : outcome (option pb_msg) := Messenger_OnRequestVote stack m.

Definition append_handler (stack : nat) : Server.IRpcHandler P := Server.mkHandler true parse_append (on_append_entries stack).
Definition vote_handler (stack : nat) : Server.IRpcHandler P := Server.mkHandler true parse_vote (on_request_vote stack).

Definition server_register_rpc_handlers (stack : nat) (s : Server.RpcServer P) : Server.RpcServer P :=
  let s := (Server.RegisterRpc s Client.APPEND_ENTRIES_RPC_ID (append_handler stack)).1 in
  let s := (Server.RegisterRpc s Client.REQUEST_VOTE_RPC_ID (vote_handler stack)).1 in
  Server.FinishRegisterRpc s.

Definition Server_Start (stack : nat) (s : Server.RpcServer P) : Server.RpcServer P * bool :=
  Server.Start (server_register_rpc_handlers stack s).
Definition Server_Stop (s : Server.RpcServer P) : Server.RpcServer P * bool := Server.Stop s.

(** ** The messenger and its parts *)

(** [tables] is the messenger's own state, [calls] and [pool] are the call
    contexts of the synchronous client, [dispatchTp] and [workTp] the thread
    pools of the messenger and of the rpc server, [lastId] is
    [SndMessage::s_lastId]. *)
Record Node := mkNode {
  tables : Messenger.ServerInternalMessenger;
  m_iIOThreadsCnt : Z;
  m_pSyncClient : Client.ARpcClient;
  calls : Sync.ARpcSyncClient;
  pool : Pool.ResourcePool;
  m_pAsyncClient : Client.ARpcClient;
  m_pServer : Server.RpcServer P;
  m_pSocketService : NBSocketService P;
  dispatchTp : option (list notification);
  workTp : option (list notification);
  lastId : Z
}.

Definition stopped (n : Node) : bool := Messenger.m_bStopped (tables n).
Definition set_stopped (t : Messenger.ServerInternalMessenger) (b : bool) : Messenger.ServerInternalMessenger :=
  Messenger.mkMessenger b (Messenger.m_msgHandlerMapper t) (Messenger.m_addrMsgMapper t).

(** The constructor, and the timeval it makes of the connection timeout. *)
Definition connTimeout (ms : Z) : Z * Z := (Z.quot ms 1000, Z.rem ms 1000 * 1000).
(** [common::g_pTimer], as [common::initialize] leaves it. *)
Definition process_timer : Timer := mkTimer false [] [] 0 true false.
Definition Node_new (netIOThreadsCnt serverThreads cpus : Z) (id0 : Z) (timeout : cctime) : Node :=
  mkNode (Messenger.mkMessenger true ∅ ∅) netIOThreadsCnt Client.ARpcClient_new (Sync.ARpcSyncClient_new process_timer timeout) (Pool.ResourcePool_new 200)
    Client.ARpcClient_new (Server.RpcServer_new serverThreads cpus) NBSocketService_new None None id0.

Definition MAX_EVENTS : Z := 256.

(** [Start]: what the socket service returns is not looked at. *)
Definition Start (stack : nat) (n : Node) : outcome (Node * bool) :=
  if negb (stopped n) then Ret (n, true)
  else
    let t := set_stopped (tables n) false in
    let* (ss, _) := Service.Start os_listen os srv net true true MAX_EVENTS (m_iIOThreadsCnt n) Posix (m_pSocketService n) in
    let '(sc, ok1) := Client.Start (m_pSyncClient n) in
    if negb ok1 then Ret (mkNode t (m_iIOThreadsCnt n) sc (calls n) (pool n) (m_pAsyncClient n) (m_pServer n) ss (Some []) (workTp n) (lastId n), false)
    else
      let '(ac, ok2) := Client.Start (m_pAsyncClient n) in
      if negb ok2 then Ret (mkNode t (m_iIOThreadsCnt n) sc (calls n) (pool n) ac (m_pServer n) ss (Some []) (workTp n) (lastId n), false)
      else
        let '(sv, ok3) := Server_Start stack (m_pServer n) in
        Ret (mkNode t (m_iIOThreadsCnt n) sc (calls n) (pool n) ac sv ss (Some []) (if ok3 then Some [] else workTp n) (lastId n), ok3).

Definition Stop (n : Node) : outcome (Node * bool) :=
  if stopped n then Ret (n, true)
  else
    let t := set_stopped (tables n) true in
    let sc := (Client.Stop (m_pSyncClient n)).1 in
    let ac := (Client.Stop (m_pAsyncClient n)).1 in
    let sv := (Server_Stop (m_pServer n)).1 in
    let* (ss, _) := Service.Stop net (m_pSocketService n) in
    Ret (mkNode t (m_iIOThreadsCnt n) sc (calls n) (pool n) ac sv ss None (if Server.m_bStopped (m_pServer n) then workTp n else None) (lastId n), true).

(** ** Calls *)

(** A call with the id that the messenger made and entered. *)
Definition call_async (name : string) (n : Node) (req : option pb_msg) (peer : net_peer_info_t) : outcome (Node * Client.SentRet) :=
  let i := GetNewId (lastId n) in
  let* t := Messenger.add_msg_to_mapper (tables n) i Messenger.AsyncClient peer in
  let* (ss, sr) := Client.SendMessageAsync_id net (m_pAsyncClient n) (m_pSocketService n) name i req peer in
  Ret (mkNode t (m_iIOThreadsCnt n) (m_pSyncClient n) (calls n) (pool n) (m_pAsyncClient n) (m_pServer n) ss (dispatchTp n) (workTp n) i, sr).

Definition AppendEntriesAsync (n : Node) (req : option pb_msg) (peer : net_peer_info_t) : outcome (Node * Client.SentRet) :=
  call_async "AppendEntries" n req peer.

(** [RequestVoteAsync] calls the variant of the client that makes its own id. *)
Definition RequestVoteAsync (n : Node) (req : option pb_msg) (peer : net_peer_info_t) : outcome (Node * Client.SentRet) :=
  let i := GetNewId (lastId n) in
  let* t := Messenger.add_msg_to_mapper (tables n) i Messenger.AsyncClient peer in
  let* (ss, j, sr) := Client.SendMessageAsync net (m_pAsyncClient n) (m_pSocketService n) i "RequestVote" req peer in
  Ret (mkNode t (m_iIOThreadsCnt n) (m_pSyncClient n) (calls n) (pool n) (m_pAsyncClient n) (m_pServer n) ss (dispatchTp n) (workTp n) j, sr).

(** A synchronous call up to its wait: [sendMessage] sends, takes a context from
    the pool, registers it and at the time [now] subscribes its timeout; the
    caller then waits on the context, whose number is the result.  A request
    that was not sent and a timeout that is refused are exceptions. *)
Definition call_sync (now : cctime) (name : string) (n : Node) (req : option pb_msg) (peer : net_peer_info_t) : outcome (Node * Z) :=
  let i := GetNewId (lastId n) in
  let* t := Messenger.add_msg_to_mapper (tables n) i Messenger.SyncClient peer in
  let* (ss, sr) := Client.SendMessageAsync_id net (m_pSyncClient n) (m_pSocketService n) name i req peer in
  if Z.eqb (Client.msgId sr) 0 then Throw (Exceptions.what Exceptions.RpcClientIsBusyException)
  else
    let* (pl, k) := Pool.Get (pool n) in
    let* cs := Sync.recv_wait now (calls n) (Z.of_nat k) (default no_peer (Client.sr_peer sr)) (Client.msgId sr) in
    Ret (mkNode t (m_iIOThreadsCnt n) (m_pSyncClient n) cs pl (m_pAsyncClient n) (m_pServer n) ss (dispatchTp n) (workTp n) i, Z.of_nat k).

Definition AppendEntriesSync (now : cctime) (n : Node) (req : option pb_msg) (peer : net_peer_info_t) : outcome (Node * Z) := call_sync now "AppendEntries" n req peer.
Definition RequestVoteSync (now : cctime) (n : Node) (req : option pb_msg) (peer : net_peer_info_t) : outcome (Node * Z) := call_sync now "RequestVote" n req peer.

(** The end of a synchronous call: the bytes the response is parsed from; [None] while it waits. *)
Definition finish_sync (n : Node) (k : Z) : option (outcome (list Z)) :=
  match Sync.ctxs (calls n) !! k with
  | None => None
  | Some c => (fun o => let* bs := o in Ret (Sync.reply_bytes bs)) <$> Sync.end_recv c
  end.

(** ** Received messages *)

Definition OnRecvRpcReturnResult (n : Node) (m : notification) : outcome Node :=
  if stopped n then Ret n
  else match dispatchTp n with
  | None => Undef "null thread pool"
  | Some ts => Ret (mkNode (tables n) (m_iIOThreadsCnt n) (m_pSyncClient n) (calls n) (pool n) (m_pAsyncClient n) (m_pServer n) (m_pSocketService n) (Some (ts ++ [m])) (workTp n) (lastId n))
  end.

(** A thread of the messenger's pool runs the oldest task, which is
    [dispatch_msg]: the handler it finds takes the message.  The callback of
    the asynchronous client is [ServerRpcService::OnRecvRpcReturnResult], which
    looks at the message and drops it. *)
Definition run_dispatch (n : Node) : outcome Node :=
  match dispatchTp n with
  | None | Some [] => Ret n
  | Some (m :: ts) =>
      let* (t, d) := Messenger.dispatch_msg (tables n) m in
      let after cs wt := mkNode t (m_iIOThreadsCnt n) (m_pSyncClient n) cs (pool n) (m_pAsyncClient n) (m_pServer n) (m_pSocketService n) (Some ts) wt (lastId n) in
      match d with
      | Messenger.ToClient Messenger.SyncClient => let* cs := Sync.onRecvMessage (calls n) m in Ret (after cs (workTp n))
      | Messenger.ToClient Messenger.AsyncClient | Messenger.Nowhere => Ret (after (calls n) (workTp n))
      | Messenger.ToServer =>
          match workTp n with
          | None => Undef "null thread pool"
          | Some ws => Ret (after (calls n) (Some (ws ++ [m])))
          end
      end
  end.

(** A thread of the rpc server's pool runs the oldest task, which is [proc_msg]. *)
Definition run_server (n : Node) : outcome Node :=
  match workTp n with
  | None | Some [] => Ret n
  | Some (m :: ws) =>
      let* (sv, ss, l) := Server.proc_msg net (m_pServer n) (m_pSocketService n) (lastId n) m in
      Ret (mkNode (tables n) (m_iIOThreadsCnt n) (m_pSyncClient n) (calls n) (pool n) (m_pAsyncClient n) sv ss (dispatchTp n) (Some ws) l)
  end.

(** ** ServerRpcService *)

(** [m_pExecRpcTp] are the tasks of the service's own pool: a vote request and its peer. *)
Record ServerRpcService := mkSRS { node : Node; m_pRaftConsensus : Consensus.RaftConsensus; m_pExecRpcTp : list (option pb_msg * net_peer_info_t) }.

Definition Service_RequestVoteAsync (s : ServerRpcService) (req : option pb_msg) (peer : net_peer_info_t) : ServerRpcService :=
  mkSRS (node s) (m_pRaftConsensus s) (m_pExecRpcTp s ++ [(req, peer)]).

(** [send_req_vote] on the oldest task. *)
Definition run_vote (s : ServerRpcService) : outcome ServerRpcService :=
  match m_pExecRpcTp s with
  | [] => Ret s
  | (req, peer) :: ts =>
      let* (n, sr) := RequestVoteAsync (node s) req peer in
      Ret (mkSRS n (Consensus.OnMessageSent (m_pRaftConsensus s) (Client.msgId sr)) ts)
  end.

Definition Service_AppendEntriesAsync (s : ServerRpcService) (req : option pb_msg) (peer : net_peer_info_t) : outcome (ServerRpcService * Client.SentRet) :=
  let* (n, sr) := AppendEntriesAsync (node s) req peer in Ret (mkSRS n (m_pRaftConsensus s) (m_pExecRpcTp s), sr).

(** ** Life cycle *)

(** A node that has been started once. *)
Record started (stack : nat) (n : Node) : Prop := {
  st_running : stopped n = false;
  st_sync : m_pSyncClient n = Client.started;
  st_async : m_pAsyncClient n = Client.started;
  st_service : Service.m_bStopped (m_pSocketService n) = false;
  st_handlers : forall hid, mjoin (Server.m_hmHandlers (m_pServer n) !! hid) =
    if Z.eqb hid Client.APPEND_ENTRIES_RPC_ID then Some (append_handler stack)
    else if Z.eqb hid Client.REQUEST_VOTE_RPC_ID then Some (vote_handler stack) else None;
  st_server : Server.m_bStopped (m_pServer n) = false
}.

Lemma service_start_running s tcp nat ev io m s' ok :
  Service.Start os_listen os srv net tcp nat ev io m s = Ret (s', ok) -> Service.m_bStopped s' = false.
Proof.
  unfold Service.Start. destruct (Service.m_bStopped s) eqn:E; cbn [negb]; [|by intros [= <- _]].
  destruct (Manager.Start _ _ _ _ _ _) as [[e k]| | |]; cbn [obind]; [|done..]. by intros [= <- _].
Qed.

Lemma registered_handlers (stack : nat) (threads cpus hid : Z) :
  mjoin (Server.m_hmHandlers (Server_Start stack (Server.RpcServer_new threads cpus)).1 !! hid) =
    if Z.eqb hid Client.APPEND_ENTRIES_RPC_ID then Some (append_handler stack)
    else if Z.eqb hid Client.REQUEST_VOTE_RPC_ID then Some (vote_handler stack) else None.
Proof.
  change (Server.m_hmHandlers _) with (<[Client.REQUEST_VOTE_RPC_ID := Some (vote_handler stack)]> (<[Client.APPEND_ENTRIES_RPC_ID := Some (append_handler stack)]> (∅ : gmap Z (option (Server.IRpcHandler P))))).
  rewrite !lookup_insert, lookup_empty. unfold Client.REQUEST_VOTE_RPC_ID, Client.APPEND_ENTRIES_RPC_ID.
  destruct (Z.eqb_spec hid 1) as [->|]; [reflexivity|]. destruct (Z.eqb_spec hid 2) as [->|]; [reflexivity|].
  rewrite !decide_False by congruence. reflexivity.
Qed.

(** A node starts once: with a socket service that comes up, whatever it
    reports, [Start] returns true, the two clients know their rpcs, the server
    has a handler for each and both thread pools exist; a second [Start]
    changes nothing.  After [Stop] a node cannot be started again: the clients
    refuse to register, [Start] returns false and leaves a node that counts as
    running and whose server is not. *)
Theorem node_starts_once (stack : nat) (io threads cpus id0 : Z) (timeout : cctime) (ss ss2 ss3 : NBSocketService P) (ok ok2 ok3 : bool)
    (Hstart : Service.Start os_listen os srv net true true MAX_EVENTS io Posix NBSocketService_new = Ret (ss, ok))
    (Hstop : Service.Stop net ss = Ret (ss2, ok2))
    (Hagain : Service.Start os_listen os srv net true true MAX_EVENTS io Posix ss2 = Ret (ss3, ok3)) :
  exists n n2 n3, Start stack (Node_new io threads cpus id0 timeout) = Ret (n, true) /\ started stack n /\
    dispatchTp n = Some [] /\ workTp n = Some [] /\
    Start stack n = Ret (n, true) /\ Stop n = Ret (n2, true) /\
    Start stack n2 = Ret (n3, false) /\ stopped n3 = false /\ Server.m_bStopped (m_pServer n3) = true.
Proof.
  eexists _, _, _. unfold Start at 1. cbn [stopped tables Node_new Messenger.m_bStopped negb m_iIOThreadsCnt m_pSocketService].
  rewrite Hstart. cbn [obind]. split; [reflexivity|]. split.
  { split; try reflexivity; [exact (service_start_running _ _ _ _ _ _ _ _ Hstart)|].
    intros hid. apply registered_handlers. }
  split; [reflexivity|]. split; [reflexivity|]. split; [reflexivity|].
  unfold Stop. cbn [stopped tables set_stopped Messenger.m_bStopped m_pSocketService]. rewrite Hstop. cbn [obind]. split; [reflexivity|].
  unfold Start. cbn [stopped tables set_stopped Messenger.m_bStopped negb m_iIOThreadsCnt m_pSocketService]. rewrite Hagain. cbn [obind].
  split; [reflexivity|]. split; reflexivity.
Qed.

(** ** Requests *)

Lemma handlers_overflow stack m :
  on_append_entries stack m = Abort "stack overflow" /\ on_request_vote stack m = Abort "stack overflow".
Proof.
  unfold on_append_entries, on_request_vote. induction stack as [|k [H1 H2]]; cbn; auto.
Qed.

(** The way of a notification through both pools. *)
Definition deliver (n : Node) (m : notification) : outcome Node :=
  let* n := OnRecvRpcReturnResult n m in let* n := run_dispatch n in run_server n.

Definition returns {A : Type} (o : outcome A) : bool := match o with Ret _ => true | _ => false end.

Lemma server_never_returns stack n h peer data :
  started stack n -> returns (Server.proc_msg net (m_pServer n) (m_pSocketService n) (lastId n) (Notified (MessageNotifyMessage h peer data))) = false.
Proof.
  intros Hn. unfold Server.proc_msg. destruct (read_u16 data) as [[hid rest]| | |]; cbn [obind]; [|done..].
  assert (forall code, Service.SendMessage net (m_pSocketService n) (Server.error_response (lastId n) code hid).2 = Throw "Not support now!") as E.
  { intros code. apply send_not_tcp; [apply Hn|done]. }
  unfold Server.error_response in *. cbn [snd] in E. rewrite (st_handlers _ _ Hn hid).
  destruct (Z.eqb hid _); [|destruct (Z.eqb hid _); [|by rewrite (E ErrorNoHandler)]]; cbn [append_handler vote_handler Server.CreateMessage Server.ParseFrom Server.Handle negb].
  - destruct (parse_append rest) as [req|]; [|by rewrite (E ErrorMsg)]. by rewrite (proj1 (handlers_overflow stack req)).
  - destruct (parse_vote rest) as [req|]; [|by rewrite (E ErrorMsg)]. by rewrite (proj2 (handlers_overflow stack req)).
Qed.

(** C37.  No message is survived: in a started node, with whatever tables and
    stack, delivering a message never returns.  A message with an id the
    messenger has not entered, so every request, reads through the end
    iterator of its table; any other is taken for a request, and a request
    that parses makes the messenger and the service call each other until the
    stack is used up, while one that does not throws out of its thread. *)
Theorem message_never_survives (stack : nat) (n : Node) (h : Header) (peer : net_peer_info_t) (data : list Z)
    (Hn : started stack n) (Hd : dispatchTp n = Some []) (Hw : workTp n = Some []) :
  returns (deliver n (Notified (MessageNotifyMessage h peer data))) = false.
Proof.
  unfold deliver, OnRecvRpcReturnResult. rewrite (st_running _ _ Hn), Hd. cbn [obind app].
  unfold run_dispatch. cbn [dispatchTp]. unfold Messenger.dispatch_msg. cbn [tables].
  pose proof (st_running _ _ Hn) as Hr. unfold stopped in Hr. rewrite Hr.
  unfold Messenger.remove_msg_from_map, Messenger.remove_msg_from_msg_handler_map.
  destruct (Messenger.m_msgHandlerMapper (tables n) !! id h); cbn [obind]; [|done].
  cbn [workTp]. rewrite Hw. cbn [obind]. unfold run_server. cbn [workTp m_pServer m_pSocketService lastId app].
  pose proof (server_never_returns stack n h peer data Hn) as H.
  destruct (Server.proc_msg _ _ _ _ _) as [[[sv ss] l]| | |]; done.
Qed.

(** ** Sending *)

(** The peer has a worker that takes messages. *)
Definition reachable (n : Node) (peer : net_peer_info_t) (w : Z) : Prop :=
  sp peer = Tcp /\ accepts net w = true /\ refs (m_pSocketService n) !! w = Some 1 /\
  exists mgr, m_sspMgr (m_pSocketService n) = Some mgr /\ GetWorkerEventHandler mgr peer = Some w.

(** The ids in the messenger's table have been given out, and the next [k] are not used up. *)
Definition ids_ok (n : Node) (k : Z) : Prop :=
  0 <= lastId n /\ lastId n + k < 2 ^ 64 - 1 /\ forall i x, Messenger.m_msgHandlerMapper (tables n) !! i = Some x -> i <= lastId n.

Lemma add_fresh n i h peer : (forall j x, Messenger.m_msgHandlerMapper (tables n) !! j = Some x -> j < i) ->
  exists t, Messenger.add_msg_to_mapper (tables n) i h peer = Ret t /\ Messenger.m_bStopped t = stopped n /\
    Messenger.m_msgHandlerMapper t = <[i := h]> (Messenger.m_msgHandlerMapper (tables n)).
Proof.
  intros Hi. unfold Messenger.add_msg_to_mapper. destruct (Messenger.m_msgHandlerMapper (tables n) !! i) as [x|] eqn:E.
  - apply Hi in E. lia.
  - eexists. split; [reflexivity|]. split; reflexivity.
Qed.

Lemma send_reachable n peer w i h req : Service.m_bStopped (m_pSocketService n) = false -> reachable n peer w ->
  Service.SendMessage net (m_pSocketService n) (Client.request i peer h req) =
    Ret (queued net (m_pSocketService n) w (Client.request i peer h req), true).
Proof.
  intros Hs (Ht & Ha & Hr & mgr & Hm & Hg). rewrite <- Ha. by apply (send_registered net _ (Client.request i peer h req) w mgr).
Qed.

(** One vote request: sent with the second id it uses, which the messenger does not know. *)
Lemma vote_sent stack n peer w req : started stack n -> reachable n peer w -> ids_ok n 2 ->
  exists n', RequestVoteAsync n req peer = Ret (n', Client.mkSent (Some peer) Client.REQUEST_VOTE_RPC_ID (lastId n + 2)) /\
    started stack n' /\ lastId n' = lastId n + 2 /\
    Messenger.m_msgHandlerMapper (tables n') = <[lastId n + 1 := Messenger.AsyncClient]> (Messenger.m_msgHandlerMapper (tables n)) /\
    m_pSocketService n' = queued net (m_pSocketService n) w (Client.request (lastId n + 2) peer Client.REQUEST_VOTE_RPC_ID req) /\
    dispatchTp n' = dispatchTp n /\ workTp n' = workTp n.
Proof.
  intros Hn Hr (H0 & H1 & Ht). unfold RequestVoteAsync. rewrite (GetNewId_next (lastId n)) by lia.
  destruct (add_fresh n (lastId n + 1) Messenger.AsyncClient peer) as (t & E & Es & Em). { intros j x Hj. apply Ht in Hj. lia. }
  rewrite E. cbn [obind]. unfold Client.SendMessageAsync. rewrite (st_async _ _ Hn), (GetNewId_next (lastId n + 1)) by lia.
  replace (lastId n + 1 + 1) with (lastId n + 2) by lia.
  change (Client.m_hmapRpcs Client.started !! "RequestVote"%string) with (Some Client.REQUEST_VOTE_RPC_ID). cbn iota.
  rewrite (send_reachable n peer w) by (apply Hn || exact Hr). cbn [obind]. eexists. split; [reflexivity|].
  split; [|repeat split; exact Em]. destruct Hn as [A1 A2 A3 A4 A5 A6]. split; try assumption; try reflexivity.
  unfold stopped at 1. cbn [tables]. rewrite Es. exact A1.
Qed.

(** C27.  A vote request that the service is given while its pool is idle, for a
    peer whose worker takes messages: the task queues exactly one request on
    that worker, under the RequestVote handler; the consensus waits for the
    request's id.  The messenger draws two ids: it enters the first in its
    table, and the request has the second, so a response to it reads through
    the end iterator of that table. *)
Theorem vote_request_untracked (stack : nat) (s : ServerRpcService) (req : option pb_msg) (peer : net_peer_info_t) (w : Z)
    (Hn : started stack (node s)) (Hidle : m_pExecRpcTp s = []) (Hids : ids_ok (node s) 2) (Hpeer : reachable (node s) peer w) :
  let l := lastId (node s) in
  exists s', run_vote (Service_RequestVoteAsync s req peer) = Ret s' /\ m_pExecRpcTp s' = [] /\ started stack (node s') /\
    sent (m_pSocketService (node s')) = sent (m_pSocketService (node s)) ++ [(w, Client.request (l + 2) peer Client.REQUEST_VOTE_RPC_ID req)] /\
    Consensus.m_sentMsgsId (m_pRaftConsensus s') = {[l + 2]} ∪ Consensus.m_sentMsgsId (m_pRaftConsensus s) /\
    Messenger.m_msgHandlerMapper (tables (node s')) = <[l + 1 := Messenger.AsyncClient]> (Messenger.m_msgHandlerMapper (tables (node s))) /\
    forall h b, id h = l + 2 -> Messenger.dispatch_msg (tables (node s')) (Notified (MessageNotifyMessage h peer b)) = Undef "end()->second".
Proof.
  intros l. destruct (vote_sent stack (node s) peer w req Hn Hpeer Hids) as (n' & E & Hn' & _ & Em & Es & _).
  exists (mkSRS n' (Consensus.OnMessageSent (m_pRaftConsensus s) (l + 2)) []). unfold run_vote, Service_RequestVoteAsync. cbn [m_pExecRpcTp]. rewrite Hidle. cbn [app node].
  rewrite E. cbn [obind Client.msgId m_pRaftConsensus node]. do 3 (split; [done|]). destruct Hids as (_ & _ & Ht), Hpeer as (_ & Ha & _).
  split; [rewrite Es; unfold queued; cbn [sent]; by rewrite Ha|]. split; [done|]. split; [exact Em|]. intros h b Hi.
  pose proof (st_running _ _ Hn') as Hst. unfold stopped in Hst.
  unfold Messenger.dispatch_msg, Messenger.remove_msg_from_map, Messenger.remove_msg_from_msg_handler_map. rewrite Hst, Hi, Em, lookup_insert_ne by (unfold l; lia).
  destruct (_ !! (l + 2)) as [x|] eqn:Ex; [apply Ht in Ex; unfold l in Ex; lia|done].
Qed.

(** ** A synchronous call *)

(** A synchronous call of a started node: the request is queued under its
    rpc's handler and the id entered for it, and the caller waits on a new
    context.  When the client is given a message with that id the caller gets
    the bytes behind the code and the handler id, or an exception for a
    server error.  It needs a timer that is free and has no timeout waiting
    that is as late as this one. *)
Theorem sync_call_completes (stack : nat) (now due : cctime) (n : Node) (name : string) (hid : Z) (req : option pb_msg) (peer : net_peer_info_t) (w : Z)
    (code : Z) (payload : list Z) (magic0 len0 : Z)
    (Hn : started stack n) (Hr : reachable n peer w) (Hi : ids_ok n 1) (Hpool : Pool.m_iCurResCnt (pool n) = 0)
    (Hname : (name, hid) ∈ [("AppendEntries"%string, Client.APPEND_ENTRIES_RPC_ID); ("RequestVote"%string, Client.REQUEST_VOTE_RPC_ID)])
    (Hcode : in_u 16 code) (Hfree : Sync.m_hmapRpcCtxs (calls n) !! (lastId n + 1) = None)
    (Hready : Sync.timer_ready (calls n)) (Hadd : cctime_add now (Sync.m_timeout (calls n)) = Ret due) (Hdue : cctime_eq_tick 0 due = Ret false)
    (Hlast : Forall (fun x => cctime_ltb (at_ x) due = true) (m_mapSubscribedEvents (Sync.g_pTimer (calls n)))) :
  exists n' k cs, call_sync now name n req peer = Ret (n', k) /\ k = Z.of_nat (Pool.made (pool n)) /\ started stack n' /\
    sent (m_pSocketService n') = sent (m_pSocketService n) ++ [(w, Client.request (lastId n + 1) peer hid req)] /\
    Messenger.m_msgHandlerMapper (tables n') !! (lastId n + 1) = Some Messenger.SyncClient /\
    finish_sync n' k = None /\
    Sync.onRecvMessage (calls n') (Notified (MessageNotifyMessage (mkHeader magic0 (lastId n + 1) len0) peer (be_split 2 code ++ be_split 2 hid ++ payload))) = Ret cs /\
    (code = rpc_code OK ->
     finish_sync (mkNode (tables n') (m_iIOThreadsCnt n') (m_pSyncClient n') cs (pool n') (m_pAsyncClient n') (m_pServer n') (m_pSocketService n') (dispatchTp n') (workTp n') (lastId n')) k = Some (Ret payload)).
Proof.
  destruct Hi as (H0 & H1 & Ht). unfold call_sync. rewrite (GetNewId_next (lastId n)) by lia.
  destruct (add_fresh n (lastId n + 1) Messenger.SyncClient peer) as (t & E & Es & Em). { intros j x Hj. apply Ht in Hj. lia. }
  rewrite E. cbn [obind]. unfold Client.SendMessageAsync_id. rewrite (st_sync _ _ Hn).
  assert (Client.m_hmapRpcs Client.started !! name = Some hid) as ->.
  { rewrite !elem_of_cons, elem_of_nil in Hname. destruct Hname as [[= -> ->]|[[= -> ->]|[]]]; reflexivity. }
  rewrite (send_reachable n peer w) by (apply Hn || exact Hr). cbn [obind Client.msgId Client.sr_peer default].
  destruct (Z.eqb_spec (lastId n + 1) 0) as [|_]; [lia|].
  unfold Pool.Get. rewrite Hpool. cbn [Z.eqb obind]. set (k := Z.of_nat (Pool.made (pool n))).
  pose proof (Sync.begin_recv_ready _ k peer (lastId n + 1) Hready) as Hready'.
  destruct (Sync.subscribe_ready now due (Sync.begin_recv (calls n) k peer (lastId n + 1)) k Hready' Hadd Hdue Hlast) as (s1 & E1 & Hr1 & Em1 & _ & Ec1 & _).
  cbn [Sync.begin_recv Sync.m_hmapRpcCtxs Sync.ctxs] in Em1, Ec1. rewrite alter_insert_eq in Ec1.
  destruct (Sync.unsubscribe_ready s1 k Hr1) as (t2 & E2 & _). unfold Sync.recv_wait, Datatypes.id. rewrite E1. cbn [obind].
  eexists _, k, _. split; [reflexivity|]. split; [reflexivity|].
  split. { destruct Hn as [A1 A2 A3 A4 A5 A6]. split; try assumption; try reflexivity. unfold stopped at 1. cbn [tables]. rewrite Es. exact A1. }
  split. { unfold queued. cbn [m_pSocketService sent]. destruct Hr as (_ & -> & _). reflexivity. }
  split. { cbn [tables]. rewrite Em. apply lookup_insert_eq. }
  split. { unfold finish_sync. cbn [calls]. rewrite Ec1, lookup_insert_eq. reflexivity. }
  cbn [calls Sync.onRecvMessage id]. rewrite Em1, lookup_insert_eq, E2. cbn [obind]. unfold Sync.take_out. cbn [Sync.set_timer Sync.m_hmapRpcCtxs Sync.ctxs].
  rewrite Em1, Ec1, !lookup_insert_eq. split; [reflexivity|]. intros ->. unfold finish_sync. cbn [calls Sync.ctxs]. rewrite lookup_insert_eq.
  unfold Sync.end_recv, Sync.finish_ctx. cbn [Sync.complete Sync.state Sync.ssp_nm negb].
  rewrite read_u16_split by exact Hcode. cbn [obind].
  assert (in_u 16 hid) as Hh. { rewrite !elem_of_cons, elem_of_nil in Hname. destruct Hname as [[= -> ->]|[[= -> ->]|[]]]; split; (reflexivity || discriminate). }
  rewrite (read_u16_split hid) by exact Hh. cbn [obind rpc_code Z.eqb fmap option_fmap option_map]. unfold Sync.reply_bytes.
  rewrite drop_app_length' by (rewrite be_split_length; reflexivity). reflexivity.
Qed.

(** The window between sending and registering: a response that is handled
    before the caller has registered its context changes nothing, and the
    caller then waits on a context that no message completes. *)
Theorem early_response_lost (s : Sync.ARpcSyncClient) (h : Header) (peer : net_peer_info_t) (data : list Z) (k : Z)
    (Hnew : Sync.m_hmapRpcCtxs s !! id h = None) :
  Sync.onRecvMessage s (Notified (MessageNotifyMessage h peer data)) = Ret s /\
  exists c, Sync.ctxs (Sync.begin_recv s k peer (id h)) !! k = Some c /\ Sync.end_recv c = None.
Proof.
  cbn [Sync.onRecvMessage]. rewrite Hnew. split; [reflexivity|].
  eexists. cbn [Sync.begin_recv Sync.ctxs]. rewrite lookup_insert_eq. split; reflexivity.
Qed.

End node.
End NodeRpc.

(** ** Examples *)
Module NodeRpcDemo.
Import Service Worker NodeRpc RpcDemo.
#[local] Existing Instance RawProto.

Definition parse0 (bs : list Z) : option (@pb_msg RawProto) := Some bs.
Definition pipes : pipe_calls := mkPipe true true true.
Definition new0 : Node (P := RawProto) := Node_new 1 4 8 10 (mkTime 10 0).

Definition up (s : NBSocketService RawProto) : NBSocketService RawProto :=
  match Service.Start pipes (fun _ => pipes) (Ret 99) net0 true true MAX_EVENTS 1 Posix s with Ret (s, _) => s | _ => s end.
Definition down (s : NBSocketService RawProto) : NBSocketService RawProto := match Service.Stop net0 s with Ret (s, _) => s | _ => s end.

Lemma node_starts_once_witness : exists n n2 n3, Start parse0 parse0 pipes (fun _ => pipes) (Ret 99) net0 100 new0 = Ret (n, true) /\
  Stop net0 n = Ret (n2, true) /\ Start parse0 parse0 pipes (fun _ => pipes) (Ret 99) net0 100 n2 = Ret (n3, false).
Proof.
  destruct (node_starts_once parse0 parse0 pipes (fun _ => pipes) (Ret 99) net0 100 1 4 8 10 (mkTime 10 0) (up NBSocketService_new) (down (up NBSocketService_new))
    (up (down (up NBSocketService_new))) true true true eq_refl eq_refl eq_refl) as (n & n2 & n3 & E & _ & _ & _ & _ & E2 & E3 & _).
  exists n, n2, n3. split; [exact E|]. split; [exact E2|exact E3].
Defined.

(** A started node with a worker for one peer, and id 3 entered for a call. *)
Definition n0 : Node (P := RawProto) :=
  match Start parse0 parse0 pipes (fun _ => pipes) (Ret 99) net0 100 new0 with
  | Ret (n, _) => mkNode (Messenger.mkMessenger false {[3 := Messenger.AsyncClient]} ∅) 1 (m_pSyncClient n) (calls n) (pool n) (m_pAsyncClient n) (m_pServer n) ss0 (dispatchTp n) (workTp n) (lastId n)
  | _ => new0
  end.

Lemma n0_started : started parse0 parse0 100 n0.
Proof.
  split; try reflexivity. intros hid.
  change (Server.m_hmHandlers (m_pServer n0)) with (<[2 := Some (vote_handler parse0 100)]> (<[1 := Some (append_handler parse0 100)]> (∅ : gmap Z (option (Server.IRpcHandler RawProto))))).
  rewrite !lookup_insert, lookup_empty. unfold Client.REQUEST_VOTE_RPC_ID, Client.APPEND_ENTRIES_RPC_ID.
  destruct (Z.eqb_spec hid 1) as [->|]; [reflexivity|]. destruct (Z.eqb_spec hid 2) as [->|]; [reflexivity|].
  rewrite !decide_False by congruence. reflexivity.
Qed.

Lemma n0_reachable : reachable net0 n0 (node_of 7) 7.
Proof. split; [reflexivity|]. split; [reflexivity|]. split; [reflexivity|]. exists after_put. split; reflexivity. Qed.

Lemma n0_ids k : k < 1000 -> ids_ok n0 k.
Proof.
  intros Hk. split; [vm_compute; congruence|]. split; [change (lastId n0) with 10; lia|].
  intros i x Hx. change (lastId n0) with 10. change (({[3 := Messenger.AsyncClient]} : gmap Z Messenger.IMessageHandler) !! i = Some x) in Hx. apply lookup_singleton_Some in Hx as [<- _]. lia.
Qed.

(** A response to call 3, and a request of a peer. *)
Lemma message_never_survives_witness :
  returns (deliver net0 n0 (Notified (MessageNotifyMessage (mkHeader 0 3 5) (node_of 7) [0; 0; 0; 2; 1]))) = false /\
  returns (deliver net0 n0 (Notified (MessageNotifyMessage (mkHeader 0 77 3) (node_of 7) [0; 2; 1]))) = false.
Proof.
  split; exact (message_never_survives parse0 parse0 net0 100 n0 _ (node_of 7) _ n0_started eq_refl eq_refl).
Defined.

Lemma n0_ready : Sync.timer_ready (calls n0).
Proof.
  assert (Sync.timer_ready (Sync.ARpcSyncClient_new process_timer (mkTime 10 0))) as H; [|exact H].
  split; try done; [|constructor]. split; cbn; try done; constructor.
Qed.

Lemma sync_call_completes_witness : exists n' cs, call_sync net0 (mkTime 100 0) "AppendEntries" n0 (Some [5]) (node_of 7) = Ret (n', 0) /\
  Sync.onRecvMessage (calls n') (Notified (MessageNotifyMessage (mkHeader 0 11 5) (node_of 7) (be_split 2 0 ++ be_split 2 1 ++ [9]))) = Ret cs.
Proof.
  destruct (sync_call_completes parse0 parse0 net0 100 (mkTime 100 0) (mkTime 110 0) n0 "AppendEntries" 1 (Some [5]) (node_of 7) 7 0 [9] 0 5 n0_started n0_reachable (n0_ids 1 ltac:(lia)) eq_refl)
    as (n' & k & cs & E & Ek & _ & _ & _ & _ & E2 & _); [left|split; [lia|reflexivity]|reflexivity|exact n0_ready|reflexivity|reflexivity|constructor|].
  exists n', cs. split; [rewrite E, Ek; reflexivity|exact E2].
Defined.

Lemma early_response_lost_witness : Sync.onRecvMessage Sync.client0 (Notified (MessageNotifyMessage (mkHeader 0 3 5) (node_of 7) [0; 0; 0; 2; 1])) = Ret Sync.client0.
Proof. exact (proj1 (early_response_lost Sync.client0 (mkHeader 0 3 5) (node_of 7) [0; 0; 0; 2; 1] 4 eq_refl)). Defined.

Definition service0 : ServerRpcService (P := RawProto) := mkSRS n0 ConsensusDemo.c0 [].

Lemma vote_request_untracked_witness : exists s', run_vote net0 (Service_RequestVoteAsync service0 (Some [5]) (node_of 7)) = Ret s' /\
  sent (m_pSocketService (node s')) = [(7, Client.request 12 (node_of 7) 2 (Some [5]))] /\
  Messenger.dispatch_msg (tables (node s')) (Notified (MessageNotifyMessage (mkHeader 0 12 5) (node_of 7) [0; 0; 0; 2; 1])) = Undef "end()->second".
Proof.
  destruct (vote_request_untracked parse0 parse0 net0 100 service0 (Some [5]) (node_of 7) 7 n0_started eq_refl (n0_ids 2 ltac:(lia)) n0_reachable)
    as (s' & E & _ & _ & Es & _ & _ & Hu).
  exists s'. split; [exact E|]. split; [exact Es|]. exact (Hu (mkHeader 0 12 5) _ eq_refl).
Defined.

End NodeRpcDemo.
