(* ===== verification/NodeBoot.v ===== *)
(** * NodeBoot: a raft node from its flags to its first connection

    Models the rest of src/src/server/node/server-rpc-service.{h,cc} (the
    constructor, the life cycle, the forwarding calls), the parameters of
    server-internal-messenger.h with the flags of
    src/src/common/server-gflags-config.cc, and composes them with
    [RaftConsensus::Start] and [Stop] (raft-consensus.cc), for which Node.v
    takes the result of the service. *)

From S2P Require Import Prelude Hash FsIo FileUtils RaftLog Timer ServerConf Node.
From S2P Require Import Codec PoolApi Buffer Message NetWorker WorkerManager Locks EventLoop SocketService Rpc NodeRpc.

Module NodeBoot.
Import Service Worker NodeRpc.

(** ** The flags of the rpc half *)

Record rpc_flags := mkRpcFlags {
  net_server_connect_timeout : Z;
  internal_rpc_client_threads_cnt : Z;
  internal_rpc_client_wait_timeout_secs : Z;
  internal_rpc_client_wait_timeout_nsecs : Z;
  internal_rpc_server_threads_cnt : Z;
  internal_rpc_messenger_threads_cnt : Z;
  internal_rpc_io_threads_cnt : Z
}.

(** As they are defined. *)
Definition default_rpc_flags : rpc_flags := mkRpcFlags 100 0 10 0 0 0 0.

(** What the messenger is created with, less the handler and the pool. *)
Record CreateServerInternalMessengerParam := mkParam {
  clientRpcWorkThreadsCnt : Z;
  clientWaitResponseTimeout : cctime;
  serverRpcWorkThreadsCnt : Z;
  mngerDispatchWorkThreadsCnt : Z;
  netIOThreadsCnt : Z;
  port : Z;
  connectTimeout : Z
}.

Definition messenger_param (rf : rpc_flags) (port : Z) : CreateServerInternalMessengerParam :=
  mkParam (u16 (internal_rpc_client_threads_cnt rf))
    (mkTime (internal_rpc_client_wait_timeout_secs rf) (internal_rpc_client_wait_timeout_nsecs rf))
    (u16 (internal_rpc_server_threads_cnt rf)) (u16 (internal_rpc_messenger_threads_cnt rf)) (u16 (internal_rpc_io_threads_cnt rf))
    port (net_server_connect_timeout rf).

Section boot.
Context `{P : ProtoMsg}.
Context (parse_append parse_vote : list Z -> option pb_msg).
Context (os_listen : pipe_calls) (os : nat -> pipe_calls) (srv : outcome Z) (net : network).
(** The processors of the machine, and the last message id given out. *)
Context (cpus id0 : Z).

(** ** ServerRpcService *)

(** The constructor: the messenger and the pool that sends the vote requests. *)
Definition Service_new (rf : rpc_flags) (port rpcThreadsCnt : Z) (c : Consensus.RaftConsensus) : ServerRpcService (P := P) :=
  let cp := messenger_param rf port in
  mkSRS (Node_new (netIOThreadsCnt cp) (serverRpcWorkThreadsCnt cp) cpus id0 (clientWaitResponseTimeout cp)) c [].

Definition Service_Start (stack : nat) (s : ServerRpcService (P := P)) : outcome (ServerRpcService * bool) :=
  let* (n, ok) := NodeRpc.Start parse_append parse_vote os_listen os srv net stack (node s) in
  Ret (mkSRS n (m_pRaftConsensus s) (m_pExecRpcTp s), ok).
Definition Service_Stop (s : ServerRpcService (P := P)) : outcome (ServerRpcService * bool) :=
  let* (n, ok) := NodeRpc.Stop net (node s) in Ret (mkSRS n (m_pRaftConsensus s) (m_pExecRpcTp s), ok).

(** A synchronous call up to its wait, as in NodeRpc.v. *)
Definition Service_AppendEntriesSync (now : cctime) (s : ServerRpcService (P := P)) (req : option pb_msg) (peer : net_peer_info_t) : outcome (ServerRpcService * Z) :=
  let* (n, k) := AppendEntriesSync net now (node s) req peer in Ret (mkSRS n (m_pRaftConsensus s) (m_pExecRpcTp s), k).
Definition Service_RequestVoteSync (now : cctime) (s : ServerRpcService (P := P)) (req : option pb_msg) (peer : net_peer_info_t) : outcome (ServerRpcService * Z) :=
  let* (n, k) := RequestVoteSync net now (node s) req peer in Ret (mkSRS n (m_pRaftConsensus s) (m_pExecRpcTp s), k).

(** What comes back for the asynchronous client is looked at and dropped. *)
Definition Service_OnRecvRpcReturnResult (s : ServerRpcService (P := P)) (m : option notification) : ServerRpcService :=
  match m with
  | None => s
  | Some (Notified (MessageNotifyMessage _ _ _)) => s
  | Some _ => s
  end.

(** ** The consensus with its rpc service *)

(** [RaftConsensus::Start]; the service points back to the consensus it belongs to. *)
Definition Node_Start (f : Consensus.flags) (rf : rpc_flags) (conf : option RfServerConfiguration) (cbs : Consensus.callbacks) (now : cctime)
    (rand : Z) (stack : nat) (c : Consensus.RaftConsensus) (old : option (ServerRpcService (P := P)))
    : outcome (Consensus.RaftConsensus * option ServerRpcService * bool) :=
  if negb (Consensus.m_bStopped c) then Ret (c, old, true)
  else match conf with
  | None => Abort "assert(m_pElectorManager)"
  | Some cf =>
      let s := Service_new rf (portForServer (m_selfServer cf)) (u16 (Z.of_nat (size (m_mapOtherServers cf)))) c in
      let* (s, ok) := Service_Start stack s in
      let* (c, ok) := Consensus.Consensus_Start conf ok f cbs now rand c in
      Ret (c, Some (mkSRS (node s) c (m_pExecRpcTp s)), ok)
  end.

(** [RaftConsensus::Stop]. *)
Definition Node_Stop (c : Consensus.RaftConsensus) (s : option (ServerRpcService (P := P)))
    : outcome (Consensus.RaftConsensus * option ServerRpcService * bool) :=
  if Consensus.m_bStopped c then Ret (c, s, true)
  else match s with
  | None => Undef "null rpc service"
  | Some s =>
      let* (c1, _) := Consensus.Consensus_Stop true c in
      let* (s, ok) := Service_Stop s in
      Ret (c1, Some (mkSRS (node s) c1 (m_pExecRpcTp s)), ok)
  end.

(** ** Boot *)

(** [due] is the time of the clock, the election interval and the drawn latency
    in milliseconds together, none of which overflows, and is not zero. *)
Definition hb_due (f : Consensus.flags) (now : cctime) (rand : Z) (c : Consensus.RaftConsensus) (due : cctime) : Prop :=
  exists iv, Consensus.hb_interval f rand c = Ret iv /\ cctime_add now iv = Ret due /\ cctime_eq_tick 0 due = Ret false.

(** A node that has come up: a follower with the id of its configuration, its
    rpc service started, and exactly the heartbeat timer running, which is due
    after the election interval and the random latency. *)
Record booted (f : Consensus.flags) (cf : RfServerConfiguration) (cbs : Consensus.callbacks) (now : cctime) (rand : Z) (stack : nat)
    (c c' : Consensus.RaftConsensus) (s : ServerRpcService (P := P)) : Prop := {
  bt_running : Consensus.m_bStopped c' = false;
  bt_role : Consensus.m_roleType c' = Consensus.m_roleType c;
  bt_id : Consensus.m_iMyId c' = ServerConf.id (m_selfServer cf);
  bt_term : Consensus.m_iCurrentTerm c' = Consensus.m_iCurrentTerm c;
  bt_back : m_pRaftConsensus s = c';
  bt_node : started parse_append parse_vote stack (node s);
  bt_idle : m_pExecRpcTp s = [];
  bt_due : exists k due, hb_due f now rand c due /\
    m_mapSubscribedEvents (Consensus.m_pTimer c') = [Timer.mkNode k due (mkEvent 0 (Consensus.leader_hb_cb cbs))]
}.

Lemma new_node_starts (stack : nat) (io threads : Z) (timeout : cctime) (ss : NBSocketService P) (ok : bool) :
  Service.Start os_listen os srv net true true MAX_EVENTS io Posix NBSocketService_new = Ret (ss, ok) ->
  exists n, NodeRpc.Start parse_append parse_vote os_listen os srv net stack (Node_new io threads cpus id0 timeout) = Ret (n, true) /\
    started parse_append parse_vote stack n /\ m_pSocketService n = ss /\ lastId n = id0 /\ Messenger.m_msgHandlerMapper (tables n) = ∅.
Proof.
  intros Hs. unfold NodeRpc.Start. cbn [stopped tables Node_new Messenger.m_bStopped negb m_iIOThreadsCnt m_pSocketService].
  rewrite Hs. cbn [obind]. eexists. split; [reflexivity|]. split; [|repeat split].
  split; try reflexivity; [exact (service_start_running _ _ _ _ _ _ _ _ _ _ _ _ Hs)|]. intros hid. apply registered_handlers.
Qed.

Lemma subscribe_first c (now iv due : cctime) cb : sl_held (Consensus.m_pTimer c) = false -> m_mapSubscribedEvents (Consensus.m_pTimer c) = [] ->
  m_mapEventsEntry (Consensus.m_pTimer c) = [] -> cb <> 0 -> cctime_add now iv = Ret due -> cctime_eq_tick 0 due = Ret false ->
  exists t, Consensus.subscribe c now iv cb = Ret (Consensus.set_timer c t) /\ m_stop t = m_stop (Consensus.m_pTimer c) /\
    m_mapSubscribedEvents t = [Timer.mkNode (next_node (Consensus.m_pTimer c)) due (mkEvent 0 cb)].
Proof.
  intros Hl He Ht Hc Hd Hw. unfold Consensus.subscribe, SubscribeEventAfter, SubscribeEventAt, with_lock, with_table.
  cbn [callback]. rewrite Hd. cbn [obind]. rewrite (proj2 (Z.eqb_neq _ _) Hc), Hl, He, Ht. cbn [find_from existsb keys fmap list_fmap].
  assert (forall i, strict_weak_order [i] = true) as Hswo.
  { intros i. unfold strict_weak_order, incomparable, EventId_ltb. cbn [forallb]. by rewrite cctime_ltb_irrefl, Z.ltb_irrefl. }
  rewrite Hswo. cbn [obind when]. rewrite Hw. cbn [obind].
  eexists. split; [reflexivity|]. split; reflexivity.
Qed.

Lemma boot_started (f : Consensus.flags) (rf : rpc_flags) (cf : RfServerConfiguration) (cbs : Consensus.callbacks) (now : cctime) (rand : Z)
    (stack : nat) (c : Consensus.RaftConsensus) (ss : NBSocketService P) (ok : bool)
    (Hnew : Consensus.m_bStopped c = true) (Htimer : Consensus.m_pTimer c = Timer_new) (Hcb : Consensus.leader_hb_cb cbs <> 0)
    (due : cctime) (Hdue : hb_due f now rand c due)
    (Hss : Service.Start os_listen os srv net true true MAX_EVENTS (u16 (internal_rpc_io_threads_cnt rf)) Posix NBSocketService_new = Ret (ss, ok)) :
  exists c' s, Node_Start f rf (Some cf) cbs now rand stack c None = Ret (c', Some s, true) /\
    booted f cf cbs now rand stack c c' s /\ m_pSocketService (node s) = ss /\
    lastId (node s) = id0 /\ Messenger.m_msgHandlerMapper (tables (node s)) = ∅.
Proof.
  destruct (new_node_starts stack _ (u16 (internal_rpc_server_threads_cnt rf)) 
    (mkTime (internal_rpc_client_wait_timeout_secs rf) (internal_rpc_client_wait_timeout_nsecs rf)) ss ok Hss) as (n & En & Hn & Es & El & Et).
  unfold Node_Start at 1, Service_Start, Service_new, messenger_param, Consensus.Consensus_Start.
  rewrite Hnew. cbn [negb node netIOThreadsCnt serverRpcWorkThreadsCnt clientWaitResponseTimeout]. rewrite En. cbn [obind negb]. rewrite Htimer. cbn [Consensus.m_pTimer].
  change (Timer.Start Timer_new) with (Ret (mkTimer false [] [] 0 true false)). cbn [obind].
  destruct Hdue as (iv & Hiv & Hadd & Hz). unfold Consensus.subscribe_leader_hb_timer_tick, Consensus.hb_interval in *.
  cbn [Consensus.m_random Consensus.set_timer]. rewrite Hiv. cbn [obind].
  match goal with |- context [Consensus.subscribe ?c1 _ _ _] => destruct (subscribe_first c1 now iv due _ eq_refl eq_refl eq_refl Hcb Hadd Hz) as (t & -> & Ht & Hev) end.
  cbn [obind Consensus.set_timer]. eexists _, _. split; [reflexivity|]. split; [|split_and!; [exact Es|exact El|exact Et]].
  split; try reflexivity; [exact Hn|]. eexists _, due. split; [by exists iv|exact Hev].
Qed.

(** C28.  A raft node comes up: when the configuration is there, the socket service
    starts, and the time of the heartbeat timer (the clock, the election
    interval and the random latency, multiplied as an [int32_t]) overflows nothing, [RaftConsensus::Start] of a node with a new
    timer returns true; the node keeps its role and term, has the id of its
    configuration, its rpc service is started with both rpcs registered and
    nothing to send, and one timer event is pending, the missing heartbeat,
    due after the election interval and the random latency.  A second start
    changes nothing. *)
Theorem node_boots (f : Consensus.flags) (rf : rpc_flags) (cf : RfServerConfiguration) (cbs : Consensus.callbacks) (now : cctime) (rand : Z)
    (stack : nat) (c : Consensus.RaftConsensus) (ss : NBSocketService P) (ok : bool)
    (Hnew : Consensus.m_bStopped c = true) (Htimer : Consensus.m_pTimer c = Timer_new) (Hcb : Consensus.leader_hb_cb cbs <> 0)
    (due : cctime) (Hdue : hb_due f now rand c due)
    (Hss : Service.Start os_listen os srv net true true MAX_EVENTS (u16 (internal_rpc_io_threads_cnt rf)) Posix NBSocketService_new = Ret (ss, ok)) :
  exists c' s, Node_Start f rf (Some cf) cbs now rand stack c None = Ret (c', Some s, true) /\
    booted f cf cbs now rand stack c c' s /\ m_pSocketService (node s) = ss /\
    Node_Start f rf (Some cf) cbs now rand stack c' (Some s) = Ret (c', Some s, true).
Proof.
  destruct (boot_started f rf cf cbs now rand stack c ss ok Hnew Htimer Hcb due Hdue Hss) as (c' & s & E & B & Es & _).
  exists c', s. split; [exact E|]. split; [exact B|]. split; [exact Es|]. unfold Node_Start. by rewrite (bt_running _ _ _ _ _ _ _ _ _ B).
Qed.

(** ** The first connection *)

(** No connection worker: the next index is a remainder by zero. *)
Lemma no_worker_add cap e h cur m : Manager.m_iConnWorkersCnt e = 0 -> Manager.AddEvent cap e h cur m = Undef "division by zero".
Proof. intros E. unfold Manager.AddEvent, Manager.next_idx. by rewrite E. Qed.

Lemma service_start_workers io (ss : NBSocketService P) ok :
  Service.Start os_listen os srv net true true MAX_EVENTS io Posix NBSocketService_new = Ret (ss, ok) ->
  exists e, m_pEventManager ss = Some e /\ Manager.m_iConnWorkersCnt e = io /\ m_sspMgr ss = Some UniqueWorkerManager_new /\ peers ss = ∅.
Proof.
  unfold Service.Start. cbn [NBSocketService_new Service.m_bStopped negb].
  destruct (Manager.Start _ _ _ _ _ _) as [[e k]| | |] eqn:E; cbn [obind]; [|done..]. intros [= <- _]. exists e.
  split; [reflexivity|]. split; [|split; reflexivity]. revert E. unfold Manager.Start. cbn [Manager.PosixEventManager_new Manager.m_bStopped Manager.m_sp_tcp Manager.m_nat negb].
  destruct (EventWorker_new _ _ _); cbn [obind]; [|done..]. destruct srv; cbn [obind]; [|done..].
  destruct (Wakeup _ _); cbn [obind]; [|done..]. destruct (Manager.new_workers _ _ _ _ _); cbn [obind]; [|done..]. by intros [= <- _].
Qed.

(** A connection that completes at such a service, accepted or made. *)
Lemma no_worker_connects (ss : NBSocketService P) e h peer :
  Service.m_bStopped ss = false -> m_pEventManager ss = Some e -> Manager.m_iConnWorkersCnt e = 0 -> m_sspMgr ss = Some UniqueWorkerManager_new ->
  sp peer = Tcp -> dial net peer = Dialed h true true ->
  on_stack_connect net ss h = Undef "division by zero" /\ Service.connect net ss peer = Undef "division by zero".
Proof.
  intros Hr He Hz Hm Htcp Hd. split.
  - unfold on_stack_connect, with_em. by rewrite Hr, He, no_worker_add.
  - unfold Service.connect, with_mgr. rewrite Hm. change (GetWorkerEventHandler UniqueWorkerManager_new peer) with (@None Z). cbn iota.
    rewrite decide_True, Hd by done. unfold on_logic_connect. cbn [new_handler Service.m_bStopped]. rewrite Hr. unfold with_mgr. cbn [new_handler m_sspMgr]. rewrite Hm.
    unfold PutWorkerEventHandler. change (lookup_worker UniqueWorkerManager_new _) with (@None Z). cbn [obind andb].
    unfold with_em. cbn [set_mgr new_handler m_pEventManager]. by rewrite He, no_worker_add.
Qed.

(** The first request to a peer connects. *)
Lemma first_send_connects (ss : NBSocketService P) i h req peer :
  Service.m_bStopped ss = false -> m_sspMgr ss = Some UniqueWorkerManager_new -> sp peer = Tcp ->
  Service.SendMessage net ss (Client.request i peer h req) =
    (let* (s, hd) := (let* (s, ok) := Service.connect net ss peer in if ok then with_ref s peer else Ret (s, None)) in
     match hd with
     | None => Ret (s, false)
     | Some w =>
         let rc := accepts net w in
         let s := if rc then mkNBS (Service.m_bStopped s) (m_sspMgr s) (m_pEventManager s) (refs s) (peers s) (ep_del s) (sent s ++ [(w, Client.request i peer h req)]) (cleared s) else s in
         let* s := release s w in Ret (s, rc)
     end).
Proof.
  intros Hr Hm Htcp. unfold Service.SendMessage. rewrite Hr. change (peer_info (Client.request i peer h req)) with peer.
  rewrite decide_False by (intros []; exact Htcp). unfold with_ref at 1, with_mgr. rewrite Hm. reflexivity.
Qed.

(** C38.  With the flags as they are defined a node cannot talk to a peer: it comes
    up and [Start] returns true, but 0 connection threads stays 0, so the first
    connection that a peer completes, and the first vote request to a peer
    that can be reached, divides by zero. *)
Theorem default_node_cannot_connect (cf : RfServerConfiguration) (cbs : Consensus.callbacks) (now : cctime) (rand : Z) (stack : nat)
    (c : Consensus.RaftConsensus) (ss : NBSocketService P) (ok : bool) (h : Z) (req : option pb_msg) (peer : net_peer_info_t)
    (Hnew : Consensus.m_bStopped c = true) (Htimer : Consensus.m_pTimer c = Timer_new) (Hcb : Consensus.leader_hb_cb cbs <> 0)
    (due : cctime) (Hdue : hb_due Consensus.default_flags now rand c due)
    (Hss : Service.Start os_listen os srv net true true MAX_EVENTS 0 Posix NBSocketService_new = Ret (ss, ok))
    (Hid : 0 <= id0 < 2 ^ 32) (Hpeer : sp peer = Tcp) (Hdial : dial net peer = Dialed h true true) :
  exists c' s, Node_Start Consensus.default_flags default_rpc_flags (Some cf) cbs now rand stack c None = Ret (c', Some s, true) /\
    on_stack_connect net (m_pSocketService (node s)) h = Undef "division by zero" /\
    run_vote net (Service_RequestVoteAsync s req peer) = Undef "division by zero".
Proof.
  destruct (boot_started Consensus.default_flags default_rpc_flags cf cbs now rand stack c ss ok Hnew Htimer Hcb due Hdue Hss) as (c' & s & E & B & Es & El & Et).
  exists c', s. split; [exact E|]. destruct (service_start_workers 0 ss ok Hss) as (e & He & Hz & Hm & _).
  destruct (no_worker_connects ss e h peer (service_start_running _ _ _ _ _ _ _ _ _ _ _ _ Hss) He Hz Hm Hpeer Hdial) as [H1 H2].
  rewrite Es. split; [exact H1|]. unfold run_vote, Service_RequestVoteAsync. cbn [m_pExecRpcTp]. rewrite (bt_idle _ _ _ _ _ _ _ _ _ B). cbn [app node].
  destruct (add_fresh (node s) (id0 + 1) Messenger.AsyncClient peer) as (t & Ea & _). { intros i x. by rewrite Et, lookup_empty. }
  unfold RequestVoteAsync. rewrite El, GetNewId_next, Ea by lia. cbn [obind].
  unfold Client.SendMessageAsync. rewrite (st_async _ _ _ _ (bt_node _ _ _ _ _ _ _ _ _ B)), Es.
  change (Client.m_hmapRpcs Client.started !! "RequestVote"%string) with (Some Client.REQUEST_VOTE_RPC_ID). cbn iota.
  by rewrite (first_send_connects _ _ _ _ _ (service_start_running _ _ _ _ _ _ _ _ _ _ _ _ Hss) Hm Hpeer), H2.
Qed.

End boot.
End NodeBoot.

(** ** Examples *)
Module NodeBootDemo.
Import Service Worker NodeRpc NodeBoot RpcDemo NodeRpcDemo.
#[local] Existing Instance RawProto.

Definition fresh : Consensus.RaftConsensus :=
  Consensus.mkRC true Consensus.Follower 0 0 0 LogDemo.l0 (mkFile [] 0) Timer_new (mkRange 200 500) 24 ∅ Configuration_new [].
Definition cf : RfServerConfiguration := mkConf (mkServer 3 [] 2345 2346) ∅.
Definition cbs : Consensus.callbacks := Consensus.mkCallbacks 64 128.
(** A network in which every peer answers. *)
Definition answering : network := mkNet 65536 (fun _ => Dialed 4096 true true) (fun _ => true).
Definition up_with (io : Z) : NBSocketService RawProto :=
  match Service.Start pipes (fun _ => pipes) (Ret 99) answering true true MAX_EVENTS io Posix NBSocketService_new with Ret (s, _) => s | _ => NBSocketService_new end.

Lemma due0 : hb_due Consensus.default_flags (mkTime 1000 0) 41 fresh (mkTime 1030 241000000).
Proof. exists (mkTime 30 241000000). repeat split. Qed.

Lemma node_boots_witness : exists c' s,
  Node_Start parse0 parse0 pipes (fun _ => pipes) (Ret 99) answering 8 10 Consensus.default_flags (mkRpcFlags 100 0 10 0 0 0 2) (Some cf) cbs (mkTime 1000 0) 41 100 fresh None = Ret (c', Some s, true) /\
  Consensus.m_iMyId c' = 3.
Proof.
  destruct (node_boots parse0 parse0 pipes (fun _ => pipes) (Ret 99) answering 8 10 Consensus.default_flags (mkRpcFlags 100 0 10 0 0 0 2) cf cbs (mkTime 1000 0) 41 100 fresh
    (up_with 2) true eq_refl eq_refl ltac:(discriminate) (mkTime 1030 241000000) due0 eq_refl) as (c' & s & E & B & _).
  exists c', s. split; [exact E|exact (bt_id _ _ _ _ _ _ _ _ _ _ _ B)].
Defined.

Lemma default_node_cannot_connect_witness : exists c' s,
  Node_Start parse0 parse0 pipes (fun _ => pipes) (Ret 99) answering 8 10 Consensus.default_flags default_rpc_flags (Some cf) cbs (mkTime 1000 0) 41 100 fresh None = Ret (c', Some s, true) /\
  on_stack_connect answering (m_pSocketService (node s)) 4096 = Undef "division by zero" /\
  run_vote answering (Service_RequestVoteAsync s (Some [5]) (node_of 7)) = Undef "division by zero".
Proof.
  refine (default_node_cannot_connect parse0 parse0 pipes (fun _ => pipes) (Ret 99) answering 8 10 cf cbs (mkTime 1000 0) 41 100 fresh
    (up_with 0) true 4096 (Some [5]) (node_of 7) eq_refl eq_refl _ (mkTime 1030 241000000) due0 eq_refl _ eq_refl eq_refl).
  - discriminate.
  - lia.
Defined.

(** Stopping a node that has come up stops its timer and its service. *)
Example boot_and_stop :
  match Node_Start parse0 parse0 pipes (fun _ => pipes) (Ret 99) answering 8 10 Consensus.default_flags (mkRpcFlags 100 0 10 0 0 0 2) (Some cf) cbs (mkTime 1000 0) 41 100 fresh None with
  | Ret (c, s, _) => match Node_Stop answering c s with
                     | Ret (c, Some s, ok) => (ok, Consensus.m_bStopped c, m_stop (Consensus.m_pTimer c), stopped (node s), m_mapSubscribedEvents (Consensus.m_pTimer c))
                     | _ => (false, false, false, false, [])
                     end
  | _ => (false, false, false, false, [])
  end = (true, true, true, true, []).
Proof. vm_compute. reflexivity. Qed.

End NodeBootDemo.
