(* ===== verification/RpcTrip.v ===== *)
(** * RpcTrip: a remote call from end to end

    The calls of the synchronous client (src/src/rpc/abstract-rpc-sync-client.{h,cc},
    server/node/rpc/rf-srv-rpc-sync-client.cc) against a server with two
    handlers (unit-test/rpc/server/test-rpc-server.cc), over two directions of
    a connection: the composition of Rpc.v, SocketService.v, SendProofs.v and
    RecvProofs.v. *)

From S2P Require Import Prelude Timer Codec PoolApi Buffer Message NetWorker RecvProofs SendProofs.
From S2P Require Import WorkerManager Locks EventLoop SocketService Rpc Delivery.

Module RpcTrip.
Import Service Exceptions.

(** ** One direction of a connection *)
Section link.
Context `{A1 : MemPoolApi} `{AL1 : !MemPoolLaws A1} `{A2 : MemPoolApi} `{AL2 : !MemPoolLaws A2}.
Context (U1 U2 : ByteOrderUtils) (UL1 : ByteOrderLaws U1) (UL2 : ByteOrderLaws U2) `{P : ProtoMsg} `{PL : !ProtoMsgLaws P}.
Context (sizeof_RcvMessage : Z) (onConn : net_peer_info_t -> bool) (sizeof_ok : 0 < sizeof_RcvMessage <= @max_request A2 AL2).

(** The queue of [c1] holds [msgs], its writes find room, and the bytes of
    [msgs] arrive at [c2] in some fragmentation. *)
Record link (c1 : conn (A := A1) (P := P)) (c2 : conn (A := A2) (P := P)) (ha : Z) (msgs : list (SndMessage P)) : Prop := mkLink {
  l_queue : m_bqMessages (c_snd c1) = msgs;
  l_sender : sbase c1 [] (S (turns_left c1));
  l_block : WrErr EAGAIN ∉ e_wr (c_env c1);
  l_room : (length (to_send c1 []) <= rooms (e_wr (c_env c1)))%nat;
  l_size : Forall (fun m => msg_ok (A := A2) m.1 m.2) (snd_msg <$> msgs);
  l_receiver : base c2 ha (2 * rd_size (e_rd (c_env c2)));
  l_idle : m_rcvState (c_rcv c2) = StartToRcvHeader;
  l_stream : rd_bytes (e_rd (c_env c2)) = stream (snd_msg <$> msgs)
}.

(** [Send] of [c1] writes the bytes that [c2] reads, and [c2] hands up [ns]. *)
Definition carried (c1 : conn (A := A1) (P := P)) (c2 : conn (A := A2) (P := P)) (ns : list NotifyMessage) : Prop :=
  exists c1' c2', Send (U := U1) (S (turns_left c1)) c1 = Ret (c1', true) /\
    e_out (c_env c1') = e_out (c_env c1) ++ rd_bytes (e_rd (c_env c2)) /\
    pump (U := U2) sizeof_RcvMessage onConn (rd_size (e_rd (c_env c2))) (S (rd_size (e_rd (c_env c2)))) c2 = Ret (c2', true) /\
    e_notified (c_env c2') = e_notified (c_env c2) ++ ns.

Lemma link_carries c1 c2 ha msgs : link c1 c2 ha msgs ->
  carried c1 c2 (RecvProofs.notification (m_logicPeer (c_hs c2)) <$> (snd_msg <$> msgs)).
Proof using UL1 UL2 PL sizeof_ok AL1.
  intros [Hq Hs Hb Hr Hm Hbase Hi Hrd].
  destruct (send_all (U := U1) c1 [] Hs Hb Hr) as (c1' & cur' & E & _ & _ & Ho & _).
  destruct (pump_all (U := U2) sizeof_RcvMessage onConn sizeof_ok c2 ha (snd_msg <$> msgs) Hbase Hi Hm Hrd) as (c2' & E2 & _ & _ & Hn).
  exists c1', c2'. split; [exact E|]. split; [|by split]. rewrite Ho, Hrd. unfold to_send. by rewrite Hq.
Qed.

End link.

(** ** The synchronous client *)
Section client.
Context `{P : ProtoMsg}.
Context (net : network).

Record SyncClient := mkSC {
  client : Client.ARpcClient;
  service : NBSocketService P;
  lastId : Z;
  m_rpcCtxPool : Pool.ResourcePool;
  calls : Sync.ARpcSyncClient
}.

Definition set_calls (c : SyncClient) (cs : Sync.ARpcSyncClient) : SyncClient := mkSC (client c) (service c) (lastId c) (m_rpcCtxPool c) cs.

(** [sendMessage] up to the wait in [recvMessage], which subscribes the timeout
    at the time [now]: the context the caller waits on, or null when the
    message was not sent. *)
Definition sendMessage (now : cctime) (c : SyncClient) (rpcName : string) (msg : option pb_msg) (peer : net_peer_info_t) : outcome (SyncClient * option Z) :=
  let* (ss, i, sr) := Client.SendMessageAsync net (client c) (service c) (lastId c) rpcName msg peer in
  if Z.eqb 0 (Client.msgId sr) then Ret (mkSC (client c) ss i (m_rpcCtxPool c) (calls c), None)
  else
    let* (pl, k) := Pool.Get (m_rpcCtxPool c) in
    let* cs := Sync.recv_wait now (calls c) (Z.of_nat k) (default no_peer (Client.sr_peer sr)) (Client.msgId sr) in
    Ret (mkSC (client c) ss i pl cs, Some (Z.of_nat k)).

(** [RpcName(req, peer)] up to the wait. *)
Definition call_rpc (now : cctime) (c : SyncClient) (rpcName : string) (req : option pb_msg) (peer : net_peer_info_t) : outcome (SyncClient * Z) :=
  let* (c, k) := sendMessage now c rpcName req peer in
  match k with
  | None => Throw (what RpcClientIsBusyException)
  | Some k => Ret (c, k)
  end.

Definition AppendEntries (now : cctime) (c : SyncClient) (req : option pb_msg) (peer : net_peer_info_t) : outcome (SyncClient * Z) := call_rpc now c "AppendEntries" req peer.
Definition RequestVote (now : cctime) (c : SyncClient) (req : option pb_msg) (peer : net_peer_info_t) : outcome (SyncClient * Z) := call_rpc now c "RequestVote" req peer.

(** The end of a call: the bytes the response is parsed from; [None] while it waits. *)
Definition finish_rpc (s : Sync.ARpcSyncClient) (k : Z) : option (outcome (list Z)) :=
  match Sync.ctxs s !! k with
  | None => None
  | Some c => (fun o => let* bs := o in Ret (Sync.reply_bytes bs)) <$> Sync.end_recv c
  end.

(** ** The server *)

(** [register_rpc_handlers] and [Start] of the test server, whose handlers give
    fixed responses; [parse_append] and [parse_vote] are protobuf's. *)
Definition on_append_entries (append_response : pb_msg) (m : pb_msg) : outcome (option pb_msg) := Ret (Some append_response).
Definition on_request_vote (vote_response : pb_msg) (m : pb_msg) : outcome (option pb_msg) := Ret (Some vote_response).

Definition test_register_rpc_handlers (parse_append parse_vote : list Z -> option pb_msg) (append_response vote_response : pb_msg)
    (s : Server.RpcServer P) : Server.RpcServer P :=
  let s := (Server.RegisterRpc s 1 (Server.mkHandler true parse_append (on_append_entries append_response))).1 in
  let s := (Server.RegisterRpc s 2 (Server.mkHandler true parse_vote (on_request_vote vote_response))).1 in
  Server.FinishRegisterRpc s.

Definition TestRpcServer_Start (parse_append parse_vote : list Z -> option pb_msg) (append_response vote_response : pb_msg)
    (s : Server.RpcServer P) : Server.RpcServer P * bool :=
  Server.Start (test_register_rpc_handlers parse_append parse_vote append_response vote_response s).

(** [proc_msg] for each notification, in order. *)
Fixpoint serve_all (s : Server.RpcServer P) (ss : NBSocketService P) (l : Z) (ns : list NotifyMessage)
    : outcome (Server.RpcServer P * NBSocketService P * Z) :=
  match ns with
  | [] => Ret (s, ss, l)
  | n :: ns => let* (s, ss, l) := Server.proc_msg net s ss l (Notified n) in serve_all s ss l ns
  end.

(** ** Calls *)

(** A call, the clock when its timeout is subscribed, and the result its handler gives. *)
Record call := mkCall { name : string; handler : Z; request : pb_msg; time : cctime; result : option pb_msg }.

(** What happens at the client, in order: a caller gets as far as its wait, or
    a notification is handled. *)
Inductive client_event := Calls | Receives.

Fixpoint run_client (sched : list client_event) (c : SyncClient) (peer : net_peer_info_t) (xs : list call) (ns : list NotifyMessage)
    : outcome (SyncClient * list Z) :=
  match sched with
  | [] => Ret (c, [])
  | Calls :: sched =>
      match xs with
      | [] => run_client sched c peer xs ns
      | x :: xs =>
          let* (c, k) := call_rpc (time x) c (name x) (Some (request x)) peer in
          let* (c, ks) := run_client sched c peer xs ns in Ret (c, k :: ks)
      end
  | Receives :: sched =>
      match ns with
      | [] => run_client sched c peer xs ns
      | n :: ns => let* cs := Sync.onRecvMessage (calls c) (Notified n) in run_client sched (set_calls c cs) peer xs ns
      end
  end.

(** No response comes before its caller waits; [ahead] callers wait already. *)
Fixpoint causal (ahead : nat) (sched : list client_event) : Prop :=
  match sched with
  | [] => True
  | Calls :: sched => causal (S ahead) sched
  | Receives :: sched => match ahead with O => False | S a => causal a sched end
  end.

Fixpoint count (e : client_event) (sched : list client_event) : nat :=
  match sched, e with
  | [], _ => O
  | Calls :: sched, Calls | Receives :: sched, Receives => S (count e sched)
  | _ :: sched, _ => count e sched
  end.

(** [n] calls and their [n] responses, each behind its call. *)
Definition schedule (n : nat) (sched : list client_event) : Prop := causal 0 sched /\ count Calls sched = n /\ count Receives sched = n.

(** Every call has a timeout that can be computed and is later than the
    timeouts [before] it; so none is refused. *)
Fixpoint timely (d : cctime) (before : list cctime) (xs : list call) : Prop :=
  match xs with
  | [] => True
  | x :: xs => exists due, cctime_add (time x) d = Ret due /\ cctime_eq_tick 0 due = Ret false /\
      Forall (fun t => cctime_ltb t due = true) before /\ timely d (due :: before) xs
  end.

(** The messages of calls, the first of which has the id after [l]. *)
Fixpoint requests (l : Z) (peer : net_peer_info_t) (xs : list call) : list (SndMessage P) :=
  match xs with
  | [] => []
  | x :: xs => Client.request (l + 1) peer (handler x) (Some (request x)) :: requests (l + 1) peer xs
  end.
Fixpoint responses (l : Z) (peer : net_peer_info_t) (xs : list call) : list (SndMessage P) :=
  match xs with
  | [] => []
  | x :: xs => mkSnd (mkHeader 0 (l + 1) 0) true (Some peer) (RpcResponse (handler x) (result x)) :: responses (l + 1) peer xs
  end.

(** The service has a worker for the peer that takes messages. *)
Definition has_worker (ss : NBSocketService P) (peer : net_peer_info_t) (w : Z) : Prop :=
  Service.m_bStopped ss = false /\ sp peer = Tcp /\ accepts net w = true /\ refs ss !! w = Some 1 /\
  exists mgr, m_sspMgr ss = Some mgr /\ GetWorkerEventHandler mgr peer = Some w.

(** The timeouts that wait at a client. *)
Definition pending (s : Sync.ARpcSyncClient) : list cctime := at_ <$> m_mapSubscribedEvents (Sync.g_pTimer s).

(** A started client that is going to make the calls [xs]: it has ids left for
    them, the ids and contexts of earlier calls are lower, its timer is free,
    and no timeout will be refused. *)
Record client_ok (c : SyncClient) (peer : net_peer_info_t) (w : Z) (xs : list call) : Prop := mkClientOk {
  co_started : client c = Client.started;
  co_worker : has_worker (service c) peer w;
  co_ids : 0 <= lastId c /\ lastId c + Z.of_nat (length xs) < 2 ^ 64 - 1;
  co_pool : Pool.m_iCurResCnt (m_rpcCtxPool c) = 0;
  co_inv : Sync.inv (calls c);
  co_old : forall i k, Sync.m_hmapRpcCtxs (calls c) !! i = Some k -> i <= lastId c;
  co_fresh : forall k, Z.of_nat (Pool.made (m_rpcCtxPool c)) <= k -> Sync.ctxs (calls c) !! k = None;
  co_ready : Sync.timer_ready (calls c);
  co_timely : timely (Sync.m_timeout (calls c)) (pending (calls c)) xs
}.

(** The server has the handler of a call, which parses what protobuf serialised. *)
Definition served (s : Server.RpcServer P) (x : call) : Prop :=
  (name x, handler x) ∈ [("AppendEntries"%string, 1); ("RequestVote"%string, 2)] /\
  exists hd, Server.m_hmHandlers s !! handler x = Some (Some hd) /\ Server.CreateMessage hd = true /\
    Server.ParseFrom hd (pb_bytes (request x)) = Some (request x) /\ Server.Handle hd (request x) = Ret (result x).

(** ** What the parts do *)

Lemma queued_worker ss peer w m : has_worker ss peer w -> has_worker (queued net ss w m) peer w.
Proof. done. Qed.

Lemma queued_sent ss peer w m : has_worker ss peer w -> sent (queued net ss w m) = sent ss ++ [(w, m)].
Proof. intros (_ & _ & Ha & _). unfold queued. cbn [sent]. by rewrite Ha. Qed.

Lemma registered n h : (n, h) ∈ [("AppendEntries"%string, 1); ("RequestVote"%string, 2)] ->
  Client.m_hmapRpcs Client.started !! n = Some h /\ in_u 16 h.
Proof. rewrite !elem_of_cons, elem_of_nil. unfold in_u. intros [[= -> ->]|[[= -> ->]|[]]]; (split; [reflexivity|lia]). Qed.

(** A context that waits for the response with id [i]. *)
Definition waiting (s : Sync.ARpcSyncClient) (k i : Z) : Prop :=
  Sync.m_hmapRpcCtxs s !! i = Some k /\
  exists c, Sync.ctxs s !! k = Some c /\ Sync.msgId c = i /\ Sync.complete c = false /\ Sync.state c = Sync.Ok.

Lemma waiting_other s k i k' i' : waiting s k i -> waiting s k' i' -> i <> i' -> k <> k'.
Proof. intros (_ & c & Hc & Hi & _) (_ & c' & Hc' & Hi' & _) Hne ->. congruence. Qed.

Lemma timely_weaken d xs : forall b b', (forall t, t ∈ b' -> t ∈ b) -> timely d b xs -> timely d b' xs.
Proof.
  induction xs as [|x xs IH]; intros b b' Hb; cbn [timely]; [done|]. intros (due & E & Hz & Hf & Ht). exists due. split_and!; try done.
  - rewrite Forall_forall in *. auto.
  - apply (IH (due :: b)); [|done]. intros t. rewrite !elem_of_cons. intros [->|H]; auto.
Qed.

(** A call takes the next id and a new context, and queues its request. *)
Lemma call_sent c peer w xs x : client_ok c peer w (x :: xs) -> (name x, handler x) ∈ [("AppendEntries"%string, 1); ("RequestVote"%string, 2)] ->
  exists c' k, call_rpc (time x) c (name x) (Some (request x)) peer = Ret (c', k) /\ client_ok c' peer w xs /\ lastId c' = lastId c + 1 /\
    sent (service c') = sent (service c) ++ [(w, Client.request (lastId c + 1) peer (handler x) (Some (request x)))] /\
    waiting (calls c') k (lastId c + 1) /\ (forall k' i', waiting (calls c) k' i' -> waiting (calls c') k' i') /\
    forall k' c0, Sync.ctxs (calls c) !! k' = Some c0 -> Sync.ctxs (calls c') !! k' = Some c0.
Proof.
  intros [H1 H2 H3 H4 H5 H6 H7 H8 H9] Hx. destruct (registered _ _ Hx) as [Hr Hu]. pose proof H2 as (Hs & Ht & Ha & Hrf & mgr & Hm & Hg).
  cbn [length] in H3. set (k := Z.of_nat (Pool.made (m_rpcCtxPool c))). assert (Hk : Sync.ctxs (calls c) !! k = None) by (apply H7; unfold k; lia).
  assert (Hi : Sync.m_hmapRpcCtxs (calls c) !! (lastId c + 1) = None).
  { destruct (Sync.m_hmapRpcCtxs (calls c) !! (lastId c + 1)) eqn:E; [|done]. apply H6 in E. lia. }
  destruct H9 as (due & Ed & Hz & Hlt & Hrest). unfold pending in Hlt. rewrite Forall_fmap in Hlt.
  destruct (Sync.recv_wait_ready (time x) due (calls c) k peer (lastId c + 1) H5 H8 Hk Hi Ed Hz Hlt) as (s1 & E1 & F1 & F2 & F3 & F4 & F5 & F6).
  exists (mkSC (client c) (queued net (service c) w (Client.request (lastId c + 1) peer (handler x) (Some (request x)))) (lastId c + 1)
    (Pool.mkPool (Pool.m_iMaxResCnt (m_rpcCtxPool c)) 0 (Pool.m_freeRes (m_rpcCtxPool c)) (S (Pool.made (m_rpcCtxPool c))) (Pool.deleted (m_rpcCtxPool c))) s1), k.
  unfold call_rpc, sendMessage, Client.SendMessageAsync. rewrite H1, Hr, GetNewId_next by lia.
  rewrite (send_registered net (service c) (Client.request (lastId c + 1) peer (handler x) (Some (request x))) w mgr Hs Ht Hm Hg Hrf), Ha. cbn [obind Client.msgId Client.sr_peer].
  rewrite (proj2 (Z.eqb_neq 0 _)) by lia. unfold Pool.Get. rewrite H4. cbn [obind Z.eqb from_option]. unfold Datatypes.id. fold k. rewrite E1. cbn [obind].
  split; [reflexivity|]. cbn [calls service lastId]. split; [|split; [done|]].
  - split; cbn [client service lastId m_rpcCtxPool calls Pool.m_iCurResCnt Pool.made]; [done|by apply queued_worker|lia|done|done| | |done|].
    + intros i k'. rewrite F3, lookup_insert_Some. intros [[<- _]|[_ E]]; [lia|]. apply H6 in E. lia.
    + intros k' Hk'. rewrite F4, lookup_insert_ne by lia. apply H7. lia.
    + rewrite F5. eapply timely_weaken; [|exact Hrest]. intros t Ht'. unfold pending in Ht'. apply list_elem_of_fmap in Ht' as (e & -> & He).
      rewrite Forall_forall in F6. destruct (F6 e He) as [->|He']; [by left|right]. apply list_elem_of_fmap. by exists e.
  - split; [by apply (queued_sent _ peer)|]. split; [|split].
    + split; [by rewrite F3, lookup_insert_eq|]. rewrite F4, lookup_insert_eq. by eexists.
    + intros k' i' (G1 & c' & G2 & G3). split; [rewrite F3, lookup_insert_ne; [done|]; intros <-; congruence|].
      exists c'. rewrite F4, lookup_insert_ne; [done|]. intros <-. congruence.
    + intros k' c0 E. rewrite F4, lookup_insert_ne; [done|]. intros <-. congruence.
Qed.

(** The server answers requests in order. *)
Lemma requests_served s peer0 peer w xs : forall ss l l0, has_worker ss peer w -> Forall (served s) xs ->
  exists ss' l', serve_all s ss l (RecvProofs.notification peer <$> (snd_msg <$> requests l0 peer0 xs)) = Ret (s, ss', l') /\
    sent ss' = sent ss ++ ((w,.) <$> responses l0 peer xs).
Proof.
  induction xs as [|x xs IH]; intros ss l l0 Hw Hx; cbn [serve_all requests responses fmap list_fmap].
  { exists ss, l. by rewrite app_nil_r. }
  apply Forall_cons in Hx as [[Hx (hd & Hh & Hc & Hp & He)] Hxs]. destruct (registered _ _ Hx) as [_ Hu].
  pose proof Hw as (Hs & Ht & Ha & Hrf & mgr & Hm & Hg). unfold RecvProofs.notification at 1, snd_msg at 1 2 3. cbn [fst snd body Client.request m_header id payload_bytes from_option].
  rewrite (wrap_id 16 (handler x) Hu : u16 (handler x) = handler x).
  rewrite (Server.proc_msg_replies net s ss mgr l (handler x) w _ peer (pb_bytes (request x)) hd (request x) (result x)) by done. cbn [obind id].
  set (r := mkSnd _ _ _ _). destruct (IH (queued net ss w r) (GetNewId l) (l0 + 1) (queued_worker _ _ _ _ Hw) Hxs) as (ss' & l' & E & Hsent).
  exists ss', l'. split; [exact E|]. rewrite Hsent, (queued_sent ss peer w r Hw). by rewrite <- app_assoc.
Qed.

Lemma responses_app peer xs ys : forall l, responses l peer (xs ++ ys) = responses l peer xs ++ responses (l + Z.of_nat (length xs)) peer ys.
Proof.
  induction xs as [|x xs IH]; intros l; cbn [responses app length]; [by rewrite Z.add_0_r|]. rewrite IH. do 3 f_equal. lia.
Qed.

Lemma responses_ids peer xs : forall l m, m ∈ responses l peer xs -> l < id (m_header m).
Proof.
  induction xs as [|x xs IH]; intros l m; cbn [responses]; [by rewrite elem_of_nil|].
  rewrite elem_of_cons. intros [->|H]; [cbn; lia|]. apply IH in H. lia.
Qed.

(** A response completes its context, and the timeout of the call goes. *)
Lemma recv_one s k i h p data : Sync.inv s -> Sync.timer_ready s -> waiting s k i -> id h = i ->
  exists s' c, Sync.onRecvMessage s (Notified (MessageNotifyMessage h p data)) = Ret s' /\ Sync.inv s' /\ Sync.timer_ready s' /\
    Sync.ctxs s' = <[k := Sync.mkCtx (Sync.peer c) i true Sync.Ok (Sync.timer_ev c) (Some (MessageNotifyMessage h p data))]> (Sync.ctxs s) /\
    Sync.ctxs s !! k = Some c /\ Sync.complete c = false /\
    Sync.m_hmapRpcCtxs s' = delete i (Sync.m_hmapRpcCtxs s) /\ Sync.m_timeout s' = Sync.m_timeout s /\ (forall t, t ∈ pending s' -> t ∈ pending s).
Proof.
  intros Hi Hr Hw <-. pose proof Hw as (E1 & c & E2 & E3 & E4 & E5). destruct (Sync.unsubscribe_ready s k Hr) as (t & Eu & Hr' & Hsub).
  assert (exists s', Sync.onRecvMessage s (Notified (MessageNotifyMessage h p data)) = Ret s' /\
    s' = Sync.take_out (Sync.set_timer s t) (id h) Sync.Ok (Some (MessageNotifyMessage h p data))) as (s' & E & Es).
  { cbn [Sync.onRecvMessage]. rewrite E1, Eu. cbn [obind]. by eexists. }
  exists s', c. split; [exact E|]. split; [by eapply Sync.onRecv_inv|]. rewrite Es.
  split; [by apply Sync.take_out_ready|]. unfold Sync.take_out. cbn [Sync.set_timer Sync.m_hmapRpcCtxs Sync.ctxs]. rewrite E1, E2. cbn.
  unfold Sync.finish_ctx. rewrite E3, E5. do 5 (split; [done|]). intros u. unfold pending. cbn. intros (e & -> & He)%list_elem_of_fmap.
  apply list_elem_of_fmap. exists e. split; [done|]. by eapply sublist_subseteq.
Qed.

Lemma recv_ok c peer w xs k i h p data : client_ok c peer w xs -> waiting (calls c) k i -> id h = i ->
  exists s' cx, Sync.onRecvMessage (calls c) (Notified (MessageNotifyMessage h p data)) = Ret s' /\ client_ok (set_calls c s') peer w xs /\
    Sync.ctxs s' !! k = Some (Sync.mkCtx (Sync.peer cx) i true Sync.Ok (Sync.timer_ev cx) (Some (MessageNotifyMessage h p data))) /\
    (forall k' c0, Sync.ctxs (calls c) !! k' = Some c0 -> Sync.complete c0 = true -> Sync.ctxs s' !! k' = Some c0) /\
    forall k' i', waiting (calls c) k' i' -> i' <> i -> waiting s' k' i'.
Proof.
  intros Hc Hw Hi. pose proof Hc as [H1 H2 H3 H4 H5 H6 H7 H8 H9].
  destruct (recv_one (calls c) k i h p data H5 H8 Hw Hi) as (s' & cx & E & F1 & F2 & F3 & F4 & F5 & F6 & F7 & F8).
  exists s', cx. split; [exact E|]. split; [|split; [|split]].
  - split; cbn [client service lastId m_rpcCtxPool calls set_calls]; try done.
    + intros i' k'. rewrite F6, lookup_delete_Some. intros [_ Hk]. by eapply H6.
    + intros k' Hk'. rewrite F3, lookup_insert_ne; [by apply H7|]. intros <-. rewrite H7 in F4; [done|lia].
    + rewrite F7. by eapply timely_weaken.
  - by rewrite F3, lookup_insert_eq.
  - intros k' c0 Ek Ed. rewrite F3, lookup_insert_ne; [done|]. intros <-. congruence.
  - intros k' i' Hw' Hne. pose proof (waiting_other _ _ _ _ _ Hw Hw' ltac:(done)) as Hk. destruct Hw' as (G1 & c' & G2 & G3).
    split; [by rewrite F6, lookup_delete_ne|]. exists c'. by rewrite F3, lookup_insert_ne.
Qed.

(** A completed context gives its caller the bytes behind the code and the id. *)
Lemma finish_done s k cp i ev h p hid bs : in_u 16 hid ->
  Sync.ctxs s !! k = Some (Sync.mkCtx cp i true Sync.Ok ev (Some (MessageNotifyMessage h p (be_split 2 0 ++ be_split 2 hid ++ bs)))) ->
  finish_rpc s k = Some (Ret bs).
Proof.
  intros Hu E. unfold finish_rpc. rewrite E. unfold Sync.end_recv. cbn [Sync.complete Sync.state Sync.ssp_nm negb].
  rewrite read_u16_split by (unfold in_u; lia). cbn [obind]. rewrite read_u16_split by done. cbn [obind rpc_code Z.eqb fmap option_fmap option_map].
  unfold Sync.reply_bytes. by rewrite drop_app_length' by (by rewrite be_split_length).
Qed.

(** The client under any schedule: [ys] are the calls that wait for their
    response, on the contexts [ks0], and [xs] those still to be made. *)
Lemma client_runs peer q p w sched : forall xs ys ks0 c l,
  client_ok c peer w xs -> lastId c = l + Z.of_nat (length ys) ->
  causal (length ys) sched -> count Calls sched = length xs -> count Receives sched = (length ys + length xs)%nat ->
  Forall (fun x => (name x, handler x) ∈ [("AppendEntries"%string, 1); ("RequestVote"%string, 2)]) (ys ++ xs) ->
  Forall2 (fun k m => waiting (calls c) k (id (m_header m))) ks0 (responses l q ys) ->
  exists c' ks, run_client sched c peer xs (RecvProofs.notification p <$> (snd_msg <$> responses l q (ys ++ xs))) = Ret (c', ks) /\
    sent (service c') = sent (service c) ++ ((w,.) <$> requests (lastId c) peer xs) /\
    Forall2 (fun k x => finish_rpc (calls c') k = Some (Ret (from_option pb_bytes [] (result x)))) (ks0 ++ ks) (ys ++ xs) /\
    forall k c0, Sync.ctxs (calls c) !! k = Some c0 -> Sync.complete c0 = true -> Sync.ctxs (calls c') !! k = Some c0.
Proof.
  induction sched as [|[] sched IH]; intros xs ys ks0 c l Hc Hl Hca Hn1 Hn2 Hx Hw; cbn [causal count run_client] in *.
  - destruct xs; [|done]. destruct ys; [|done]. apply Forall2_nil_inv_r in Hw as ->. exists c, []. split; [done|]. split; [by rewrite app_nil_r|]. by split.
  - destruct xs as [|x xs]; [done|]. pose proof Hx as (_ & [Hxx _]%Forall_cons)%Forall_app.
    destruct (call_sent c peer w xs x Hc Hxx) as (c1 & k & E1 & Hc1 & Hl1 & Hs1 & Hw1 & Hk1 & Hd1). rewrite E1. cbn [obind].
    replace (ys ++ x :: xs) with ((ys ++ [x]) ++ xs) in * by (by rewrite <- app_assoc).
    destruct (IH xs (ys ++ [x]) (ks0 ++ [k]) c1 l) as (c2 & ks & E2 & Hs2 & Hf & Hd); try done.
    + rewrite length_app. cbn. lia.
    + by rewrite length_app, Nat.add_1_r.
    + simpl in Hn1. lia.
    + rewrite length_app. cbn in *. lia.
    + rewrite responses_app. apply Forall2_app; [by eapply Forall2_impl; [exact Hw|]; intros; apply Hk1|].
      cbn [responses]. constructor; [|constructor]. cbn [m_header id]. by rewrite <- Hl.
    + rewrite E2. cbn [obind]. exists c2, (k :: ks). split; [done|]. cbn [requests fmap list_fmap]. rewrite Hl1 in Hs2.
      split; [by rewrite Hs2, Hs1, <- app_assoc|]. rewrite <- app_assoc in Hf. split; [exact Hf|]. intros k' c0 Ek Ed. apply Hd; [by apply Hd1|done].
  - destruct ys as [|y ys]; [done|]. cbn [app responses] in *. apply Forall2_cons_inv_r in Hw as (k & ks' & Hwk & Hw & ->). cbn [m_header id length] in *.
    apply Forall_cons in Hx as [Hy Hx]. destruct (registered _ _ Hy) as [_ Hu]. cbn [fmap list_fmap].
    unfold RecvProofs.notification at 1, snd_msg at 1 2 3. cbn [fst snd body m_header id payload_bytes].
    rewrite (wrap_id 16 (handler y) Hu : u16 (handler y) = handler y).
    match goal with |- context [MessageNotifyMessage ?h ?p ?d] => destruct (recv_ok c peer w xs k (l + 1) h p d Hc Hwk eq_refl) as (s1 & cx & E1 & Hc1 & Hk1 & Hd1 & Hw1) end.
    rewrite E1. cbn [obind]. destruct (IH xs ys ks' (set_calls c s1) (l + 1)) as (c2 & ks & E2 & Hs2 & Hf & Hd); try done; cbn [set_calls lastId calls] in *.
    + lia.
    + lia.
    + eapply Forall2_weaken_r; [exact Hw|]. intros k' m Hin Hw'. apply Hw1; [done|]. apply responses_ids in Hin. lia.
    + exists c2, ks. split; [exact E2|]. split; [exact Hs2|]. split; [|by auto].
      cbn [app]. constructor; [|done]. eapply finish_done; [exact Hu|]. apply Hd; [exact Hk1|done].
Qed.

End client.
Arguments SyncClient : clear implicits.
Arguments call : clear implicits.

(** The test server has a handler for both rpcs. *)
Lemma test_server_serves `{P : ProtoMsg} pa pv ar vr threads cpus x :
  ((name x, handler x) = ("AppendEntries"%string, 1) /\ pa (pb_bytes (request x)) = Some (request x) /\ result x = Some ar) \/
  ((name x, handler x) = ("RequestVote"%string, 2) /\ pv (pb_bytes (request x)) = Some (request x) /\ result x = Some vr) ->
  let r := TestRpcServer_Start pa pv ar vr (Server.RpcServer_new threads cpus) in r.2 = true /\ served r.1 x.
Proof.
  intros Hx. split; [reflexivity|]. destruct x as [n h q o]. cbn [name handler request result] in *.
  destruct Hx as [([= -> ->] & Hp & ->)|([= -> ->] & Hp & ->)].
  - split; [left|]. by eexists.
  - split; [right; left|]. by eexists.
Qed.


(** ** A concrete trip *)
Module TripDemo.
Import Process.

Definition net0 : network := mkNet 65536 (fun _ => NoConnect) (fun _ => true).
Definition mgr0 : UniqueWorkerManager := mkUWM {[peer0 := 7]} ∅ ∅.
Definition ss0 : NBSocketService TestProto := mkNBS false (Some mgr0) None {[7 := 1]} {[7 := (peer0, peer0)]} [] [] [].
Definition client0 : SyncClient TestProto := mkSC Client.started ss0 10 (Pool.ResourcePool_new 200)
  (Sync.ARpcSyncClient_new (mkTimer false [] [] 0 true false) (mkTime 5 0)).
Definition server0 : Server.RpcServer TestProto :=
  (TestRpcServer_Start (P := TestProto) (fun bs => Some (length bs)) (fun bs => Some (length bs)) 6%nat 5%nat (Server.RpcServer_new 0 4)).1.

Definition xs0 : list (call TestProto) := [mkCall (P := TestProto) "RequestVote" 2 3%nat (mkTime 100 0) (Some 5%nat); mkCall (P := TestProto) "AppendEntries" 1 4%nat (mkTime 100 7) (Some 6%nat)].

(** The queue of a worker, with writes of one byte, and its receiver. *)
Definition sender (q : list (SndMessage TestProto)) : conn := worker Client Connected true q [] (replicate 100 (WrRoom 1)).
Definition receiver (q : list (SndMessage TestProto)) : conn :=
  worker Server Connected true [] [RdData (take 21 (stream (snd_msg <$> q))); RdErr EINTR; RdData (drop 21 (stream (snd_msg <$> q)))] [].

Lemma demo_link q : Forall snd_ok q -> Forall (fun m => msg_ok (A := BumpPool) m.1 m.2) (snd_msg <$> q) -> (length q <= 100)%nat ->
  (length (stream (snd_msg <$> q)) <= 100)%nat -> is_bytes (stream (snd_msg <$> q)) ->
  link (A1 := BumpPool) (A2 := BumpPool) (sender q) (receiver q) 4096 q.
Proof.
  intros Hq Hm Hl Hs Hb. split; [done| | | |done| |done|].
  - split; [apply world0_ok|apply bump_room|constructor|done|exact Hq|by apply Forall_replicate].
    unfold turns_left. cbn [sender worker c_env e_wr c_snd m_bqMessages]. rewrite length_replicate. cbn [w_pool e_world world0 next]. unfold bump_max. lia.
  - apply (bool_decide_unpack _). vm_compute. reflexivity.
  - etransitivity; [|apply Nat.eq_le_incl; vm_compute; reflexivity]. exact Hs.
  - apply worker_base.
    + unfold clean. rewrite !Forall_cons, Forall_nil. cbn [clean_event]. split_and!; [by apply Forall_take|by left|by apply Forall_drop|done].
    + cbn [receiver worker c_env e_rd rd_size]. pose proof (length_take (stream (snd_msg <$> q)) 21). pose proof (length_drop (stream (snd_msg <$> q)) 21). lia.
  - cbn [receiver worker c_env e_rd rd_bytes]. by rewrite app_nil_r, take_drop.
Qed.

Ltac check_messages := rewrite ?fmap_cons, ?fmap_nil, !Forall_cons, Forall_nil; split_and!; [split..|done]; try done;
  try (split; [apply bytes_dec_ok; vm_compute; reflexivity|vm_compute; split; congruence]); vm_compute; intuition (congruence || lia).

Lemma requests_link : let q := requests 10 peer0 xs0 in link (A1 := BumpPool) (A2 := BumpPool) (sender q) (receiver q) 4096 q.
Proof.
  apply demo_link; [unfold xs0; cbn [requests]; check_messages|unfold xs0; cbn [requests]; check_messages|simpl; lia|vm_compute; lia|].
  apply bytes_dec_ok. vm_compute. reflexivity.
Qed.

Lemma responses_link : let q := responses 10 peer0 xs0 in link (A1 := BumpPool) (A2 := BumpPool) (sender q) (receiver q) 4096 q.
Proof.
  apply demo_link; [unfold xs0; cbn [responses]; check_messages|unfold xs0; cbn [responses]; check_messages|simpl; lia|vm_compute; lia|].
  apply bytes_dec_ok. vm_compute. reflexivity.
Qed.

Lemma ss0_worker : has_worker net0 ss0 peer0 7.
Proof. do 4 (split; [reflexivity|]). exists mgr0. split; reflexivity. Qed.

Lemma client0_ok : client_ok net0 client0 peer0 7 xs0.
Proof.
  split; try reflexivity; [exact ss0_worker|cbn; lia| | | |].
  - apply (Sync.sync_inv_reachable (mkTimer false [] [] 0 true false) (mkTime 5 0)), rtc_refl.
  - intros i k H. cbn in H. by rewrite lookup_empty in H.
  - split; try done; [|constructor]. split; cbn; try done; constructor.
  - exists (mkTime 105 0). split_and!; [done|done|constructor|]. exists (mkTime 105 7). split_and!; [done|done| |done]. repeat constructor.
Qed.

Lemma xs0_served : Forall (served server0) xs0.
Proof.
  unfold xs0. rewrite !Forall_cons, Forall_nil. split_and!; [| |done].
  - apply (test_server_serves (P := TestProto) (fun bs => Some (length bs)) (fun bs => Some (length bs)) 6%nat 5%nat 0 4). by right.
  - apply (test_server_serves (P := TestProto) (fun bs => Some (length bs)) (fun bs => Some (length bs)) 6%nat 5%nat 0 4). by left.
Qed.

(** The first caller gets the vote response before the second one has called. *)
Definition sched0 : list client_event := [Calls; Receives; Calls; Receives].


End TripDemo.

End RpcTrip.
