(* ===== verification/SkipList.v ===== *)
(** * SkipList: the ordered container

    Models src/src/common/skip-list.h over a heap of nodes: a node has its
    datum and its array of next pointers, one per level.  The element type and
    the comparison are parameters, as in the template.  What calloc(3) returns
    is the next unused address.  The nodes are given to [delete] although they
    come from calloc(3), which the language leaves undefined; so the operator
    is a parameter, and what needs it to free a node says so. *)

From Stdlib Require Import Sorted.
From S2P Require Import Prelude.

Module SkipList.

Definition SKIPLIST_MAX_LEVEL : Z := 32 - 1.
Definition SKIPLIST_DEFAULT_LEVEL : Z := 16 - 1.
Definition SKIPLIST_MIN_LEVEL : Z := 4 - 1.

Section skip_list.
Context {T : Type} (m_cmp : T -> T -> bool).

Record Node := mkNode { Data : T; Next : list (option Z) }.
Record skip_list := mkSL { heap : gmap Z Node; brk : Z; m_pHead : Z; m_iCurLevel : nat; m_iMaxLevel : nat }.

(** What [operator delete] of the implementation does to a node that came from calloc(3). *)
Definition deleter : Type := gmap Z Node -> Z -> outcome (gmap Z Node).

Definition load (h : gmap Z Node) (p : Z) : outcome Node :=
  match h !! p with Some n => Ret n | None => Undef "access to a node that is not there" end.
Definition next_of (h : gmap Z Node) (p : Z) (i : nat) : outcome (option Z) :=
  let* n := load h p in match Next n !! i with Some q => Ret q | None => Undef "Next out of range" end.
Definition set_next (h : gmap Z Node) (p : Z) (i : nat) (q : option Z) : outcome (gmap Z Node) :=
  let* n := load h p in
  if Nat.ltb i (length (Next n)) then Ret (<[p := mkNode (Data n) (<[i := q]> (Next n))]> h) else Undef "Next out of range".

(** [create_node]: calloc(3) clears the pointers. *)
Definition create_node (level : nat) (data : T) : Node := mkNode data (replicate (S level) None).

(** [init]: the comparison is made in [uint32_t]; a level of -1 asks calloc(3)
    for 32 GiB.  [maxLevel] is the member after the constructor's initialiser. *)
Definition init (maxLevel : Z) (defaultData : T) : outcome skip_list :=
  let m := if Z.ltb (u32 maxLevel) SKIPLIST_MAX_LEVEL then SKIPLIST_MIN_LEVEL else maxLevel in
  if Z.ltb m 0 then Undef "null head" else Ret (mkSL {[0 := create_node (Z.to_nat m) defaultData]} 1 0 0 (Z.to_nat m)).
Definition skip_list_default (d : T) : outcome skip_list := init SKIPLIST_DEFAULT_LEVEL d.
Definition skip_list_new (maxLevel : Z) (d : T) : outcome skip_list := init (i32 (maxLevel - 1)) d.

(** [rand_level] on what [rand()] gives. *)
Fixpoint rand_level (maxLevel : nat) (l : nat) (rands : list Z) : nat :=
  match rands with
  | [] => l
  | r :: rands => if Z.ltb (Z.rem r 12) 4 && Nat.ltb l maxLevel then rand_level maxLevel (S l) rands else l
  end.

(** The inner loop of both searches: where it stops and the node behind. *)
Fixpoint advance (fuel : nat) (h : gmap Z Node) (t : T) (i : nat) (p : Z) : outcome (Z * option Z) :=
  match fuel with
  | O => Abort "turns used up"
  | S fuel =>
      let* q := next_of h p i in
      match q with
      | None => Ret (p, None)
      | Some q => let* n := load h q in if m_cmp (Data n) t then advance fuel h t i q else Ret (p, Some q)
      end
  end.

(** The array [targetPrev\[m_iMaxLevel\]], uninitialised. *)
Definition store (tp : list (option Z)) (i : nat) (p : Z) : outcome (list (option Z)) :=
  if Nat.ltb i (length tp) then Ret (<[i := Some p]> tp) else Undef "targetPrev out of range".
Definition fetch (tp : list (option Z)) (i : nat) : outcome Z :=
  match tp !! i with Some (Some p) => Ret p | Some None => Undef "targetPrev not set" | None => Undef "targetPrev out of range" end.

Fixpoint previous (fuel : nat) (h : gmap Z Node) (t : T) (i : nat) (p : Z) (tp : list (option Z)) : outcome (list (option Z)) :=
  let* (p, _) := advance fuel h t i p in
  let* tp := store tp i p in
  match i with O => Ret tp | S i => previous fuel h t i p tp end.
Definition turns (s : skip_list) : nat := S (size (heap s)).
Definition find_previous_levels_nodes (s : skip_list) (t : T) : outcome (list (option Z)) :=
  previous (turns s) (heap s) t (m_iCurLevel s) (m_pHead s) (replicate (m_iMaxLevel s) None).

Fixpoint find_from (fuel : nat) (h : gmap Z Node) (t : T) (i : nat) (p : Z) : outcome (option Z) :=
  let* (p, q) := advance fuel h t i p in
  let* hit := match q with Some q => let* n := load h q in Ret (if m_cmp t (Data n) then None else Some q) | None => Ret None end in
  match hit with
  | Some q => Ret (Some q)
  | None => match i with O => Ret None | S i => find_from fuel h t i p end
  end.
Definition find_node (s : skip_list) (t : T) : outcome (option Z) := find_from (turns s) (heap s) t (m_iCurLevel s) (m_pHead s).

Definition contains (s : skip_list) (t : T) : outcome bool :=
  let* q := find_node s t in Ret (match q with Some _ => true | None => false end).
Definition get (s : skip_list) (defaultRs t : T) : outcome (bool * T) :=
  let* q := find_node s t in
  match q with None => Ret (false, defaultRs) | Some q => let* n := load (heap s) q in Ret (true, Data n) end.

(** The loop that raises the level: from the current level, not the one above. *)
Fixpoint raise (tp : list (option Z)) (head : Z) (i k : nat) : outcome (list (option Z)) :=
  match k with O => Ret tp | S k => let* tp := store tp i head in raise tp head (S i) k end.

Fixpoint link (h : gmap Z Node) (tp : list (option Z)) (c : Z) (i k : nat) : outcome (gmap Z Node) :=
  match k with
  | O => Ret h
  | S k =>
      let* p := fetch tp i in
      let* q := next_of h p i in
      let* h := set_next h c i q in
      let* h := set_next h p i (Some c) in
      link h tp c (S i) k
  end.

(** [insert]; [nodeLevel] is what [rand_level] gives. *)
Definition insert (s : skip_list) (t : T) (nodeLevel : nat) : outcome skip_list :=
  let* tp := find_previous_levels_nodes s t in
  let* p0 := fetch tp 0 in
  let* q := next_of (heap s) p0 0 in
  let* same := match q with
               | None => Ret None
               | Some q => let* n := load (heap s) q in Ret (if negb (m_cmp (Data n) t) && negb (m_cmp t (Data n)) then Some (q, n) else None)
               end in
  match same with
  | Some (q, n) => Ret (mkSL (<[q := mkNode t (Next n)]> (heap s)) (brk s) (m_pHead s) (m_iCurLevel s) (m_iMaxLevel s))
  | None =>
      let* (tp, cur) :=
        if Nat.ltb (m_iCurLevel s) nodeLevel then
          let* tp := raise tp (m_pHead s) (m_iCurLevel s) (S (nodeLevel - m_iCurLevel s)) in Ret (tp, nodeLevel)
        else Ret (tp, m_iCurLevel s) in
      let c := brk s in
      let* h := link (<[c := create_node nodeLevel t]> (heap s)) tp c 0 (S nodeLevel) in
      Ret (mkSL h (brk s + 1) (m_pHead s) cur (m_iMaxLevel s))
  end.

Fixpoint unlink (h : gmap Z Node) (tp : list (option Z)) (q : Z) (i k : nat) : outcome (gmap Z Node) :=
  match k with
  | O => Ret h
  | S k =>
      let* p := fetch tp i in
      let* r := next_of h p i in
      if decide (r = Some q) then
        let* x := next_of h q i in
        let* h := set_next h p i x in
        unlink h tp q (S i) k
      else Ret h
  end.

(** The loop that lowers [m_iCurLevel]. *)
Fixpoint lower (h : gmap Z Node) (head : Z) (cur i : nat) : outcome nat :=
  match i with
  | O => Ret cur
  | S j => let* q := next_of h head i in lower h head (match q with None => pred cur | Some _ => cur end) j
  end.

Definition erase (operator_delete : deleter) (s : skip_list) (t : T) : outcome (skip_list * bool) :=
  let* tp := find_previous_levels_nodes s t in
  let* p0 := fetch tp 0 in
  let* q := next_of (heap s) p0 0 in
  match q with
  | None => Ret (s, false)
  | Some q =>
      let* n := load (heap s) q in
      if m_cmp (Data n) t || m_cmp t (Data n) then Ret (s, false)
      else
        let* h := unlink (heap s) tp q 0 (S (m_iCurLevel s)) in
        let* h := operator_delete h q in
        let* cur := lower h (m_pHead s) (m_iCurLevel s) (m_iCurLevel s) in
        Ret (mkSL h (brk s) (m_pHead s) cur (m_iMaxLevel s), true)
  end.

(** The loop of [clear]. *)
Fixpoint drop_nodes (operator_delete : deleter) (fuel : nat) (h : gmap Z Node) (q : option Z) : outcome (gmap Z Node) :=
  match q with
  | None => Ret h
  | Some q =>
      match fuel with
      | O => Abort "turns used up"
      | S fuel =>
          let* p := next_of h q 0 in
          let* h := operator_delete h q in
          match p with
          | None => Ret h
          | Some p => let* q := next_of h p 0 in drop_nodes operator_delete fuel h q
          end
      end
  end.
Fixpoint clear_head (h : gmap Z Node) (head : Z) (i k : nat) : outcome (gmap Z Node) :=
  match k with O => Ret h | S k => let* h := set_next h head i None in clear_head h head (S i) k end.
Definition clear (operator_delete : deleter) (s : skip_list) : outcome skip_list :=
  let* q := next_of (heap s) (m_pHead s) 0 in
  let* h := drop_nodes operator_delete (turns s) (heap s) q in
  let* h := clear_head h (m_pHead s) 0 (S (m_iMaxLevel s)) in
  Ret (mkSL h (brk s) (m_pHead s) (m_iCurLevel s) (m_iMaxLevel s)).

(** What a loop from [begin()] to [end()] sees: [operator*] and [operator++]. *)
Fixpoint iterate (fuel : nat) (h : gmap Z Node) (m_pCur : option Z) : outcome (list T) :=
  match m_pCur with
  | None => Ret []
  | Some p =>
      match fuel with
      | O => Abort "turns used up"
      | S fuel => let* n := load h p in let* q := next_of h p 0 in let* l := iterate fuel h q in Ret (Data n :: l)
      end
  end.
Definition elements_of (s : skip_list) : outcome (list T) :=
  let* b := next_of (heap s) (m_pHead s) 0 in iterate (turns s) (heap s) b.

(** ** The abstract list *)

(** std::less and the like: a strict weak order. *)
Class WeakOrder : Prop := {
  cmp_irrefl : forall x, m_cmp x x = false;
  cmp_trans : forall x y z, m_cmp x y = true -> m_cmp y z = true -> m_cmp x z = true;
  cmp_split : forall x y z, m_cmp x z = true -> m_cmp x y = true \/ m_cmp y z = true
}.

Definition sorted (l : list T) : Prop := StronglySorted (fun x y => m_cmp x y = true) l.

(** The behind part of a sorted list, from the first element that is not below [t]. *)
Fixpoint below (t : T) (l : list T) : list T := match l with [] => [] | x :: l => if m_cmp x t then x :: below t l else [] end.
Fixpoint above (t : T) (l : list T) : list T := match l with [] => [] | x :: l' => if m_cmp x t then above t l' else l end.
Definition present (t : T) (l : list T) : bool := match above t l with x :: _ => negb (m_cmp t x) | [] => false end.
Definition list_insert (t : T) (l : list T) : list T := below t l ++ t :: (if present t l then tail (above t l) else above t l).
Definition list_erase (t : T) (l : list T) : list T := below t l ++ (if present t l then tail (above t l) else above t l).

Lemma below_above t l : l = below t l ++ above t l.
Proof. induction l as [|x l IH]; cbn; [done|]. destruct (m_cmp x t); cbn; congruence. Qed.

Lemma below_lt t l x : x ∈ below t l -> m_cmp x t = true.
Proof.
  induction l as [|y l IH]; cbn; [set_solver|]. destruct (m_cmp y t) eqn:E; [|set_solver].
  rewrite elem_of_cons. intros [->|H]; auto.
Qed.

Lemma above_head t l x r : above t l = x :: r -> m_cmp x t = false.
Proof. induction l as [|y l IH]; cbn; [done|]. destruct (m_cmp y t) eqn:E; [auto|]. by intros [= -> ->]. Qed.

(** ** The heap, level by level *)

Definition next_at (h : gmap Z Node) (i : nat) (p : Z) : option (option Z) := h !! p ≫= fun n => Next n !! i.
Definition dat (h : gmap Z Node) (p : Z) : option T := Data <$> h !! p.
Definition level (h : gmap Z Node) (p : Z) : nat := match h !! p with Some n => pred (length (Next n)) | None => 0 end.

(** The nodes [l] hang behind [p] on level [i]. *)
Fixpoint lseg (h : gmap Z Node) (i : nat) (p : Z) (l : list Z) : Prop :=
  match l with
  | [] => next_at h i p = Some None
  | q :: l => next_at h i p = Some (Some q) /\ lseg h i q l
  end.

Definition end_of (p : Z) (l : list Z) : Z := default p (last l).

Lemma end_of_cons p q l : end_of p (q :: l) = end_of q l.
Proof. unfold end_of. rewrite last_cons. by destruct (last l). Qed.
Lemma end_of_app p l q r : end_of p (l ++ q :: r) = end_of q r.
Proof. unfold end_of. rewrite last_app_cons, last_cons. by destruct (last r). Qed.
Lemma end_of_elem p l : end_of p l ∈ p :: l.
Proof.
  unfold end_of. destruct (last l) eqn:E; cbn; [|left]. right. apply last_Some in E as [l' ->]. set_solver.
Qed.

Lemma next_of_at h p i q : next_at h i p = Some q -> next_of h p i = Ret q.
Proof. unfold next_at, next_of, load. destruct (h !! p) as [n|]; cbn; [|done]. by intros ->. Qed.
Lemma load_dat h p x : dat h p = Some x -> exists n, h !! p = Some n /\ load h p = Ret n /\ Data n = x.
Proof. unfold dat, load. destruct (h !! p) as [n|]; cbn; [|done]. intros [= <-]. eauto. Qed.

Lemma lseg_frame h h' i p l : (forall r, r ∈ p :: l -> next_at h' i r = next_at h i r) -> lseg h i p l -> lseg h' i p l.
Proof.
  revert p. induction l as [|q l IH]; intros p Hf; cbn; [rewrite Hf by left; auto|].
  intros [H1 H2]. split; [rewrite Hf by left; auto|]. apply IH; [|auto]. intros r Hr. apply Hf. by right.
Qed.

Lemma lseg_behind h i p l1 q l2 : lseg h i p (l1 ++ q :: l2) -> lseg h i q l2.
Proof. revert p. induction l1 as [|x l1 IH]; intros p; cbn; [tauto|]. intros [_ H]. eauto. Qed.

Lemma lseg_at_end h i p l1 l2 : lseg h i p (l1 ++ l2) -> next_at h i (end_of p l1) = Some (head l2).
Proof.
  revert p. induction l1 as [|x l1 IH]; intros p; cbn [app].
  - unfold end_of. cbn. destruct l2; cbn; tauto.
  - intros [_ H]. rewrite end_of_cons. eauto.
Qed.

(** A node [c] goes in behind [l1]. *)
Lemma lseg_insert h h' i p l1 l2 c :
  NoDup (p :: l1 ++ l2) -> c ∉ p :: l1 ++ l2 -> lseg h i p (l1 ++ l2) ->
  next_at h' i (end_of p l1) = Some (Some c) -> next_at h' i c = next_at h i (end_of p l1) ->
  (forall r, r <> end_of p l1 -> r <> c -> next_at h' i r = next_at h i r) ->
  lseg h' i p (l1 ++ c :: l2).
Proof.
  revert p. induction l1 as [|x l1 IH]; intros p Hnd Hc Hl Hp Hcn Hf.
  - cbn in *. split; [exact Hp|]. apply NoDup_cons in Hnd as [Hnin Hnd]. destruct l2 as [|y l2]; cbn in *; [by rewrite Hcn|].
    destruct Hl as [H1 H2]. rewrite Hcn. split; [exact H1|]. eapply lseg_frame; [|exact H2].
    intros r Hr. apply Hf; intros ->; set_solver.
  - cbn [app lseg] in *. rewrite end_of_cons in *. apply NoDup_cons in Hnd as [Hnin Hnd]. destruct Hl as [H1 H2].
    split; [|apply IH; auto; set_solver]. rewrite Hf; [exact H1| |set_solver].
    intros ->. apply Hnin. pose proof (end_of_elem x l1). set_solver.
Qed.

(** The node [q] behind [l1] goes out. *)
Lemma lseg_remove h h' i p l1 q l2 :
  NoDup (p :: l1 ++ q :: l2) -> lseg h i p (l1 ++ q :: l2) ->
  next_at h' i (end_of p l1) = next_at h i q -> (forall r, r <> end_of p l1 -> r <> q -> next_at h' i r = next_at h i r) ->
  lseg h' i p (l1 ++ l2).
Proof.
  revert p. induction l1 as [|x l1 IH]; intros p Hnd Hl Hp Hf.
  - cbn in *. destruct Hl as [H1 H2]. destruct l2 as [|y l2]; cbn in *; [by rewrite Hp|].
    destruct H2 as [H2 H3]. rewrite Hp. split; [exact H2|]. eapply lseg_frame; [|exact H3].
    intros r Hr. rewrite !NoDup_cons in Hnd. apply Hf; intros ->; set_solver.
  - cbn [app lseg] in *. rewrite end_of_cons in *. apply NoDup_cons in Hnd as [Hnin Hnd]. destruct Hl as [H1 H2].
    split; [|apply IH; auto]. rewrite Hf; [exact H1| |set_solver].
    intros ->. apply Hnin. pose proof (end_of_elem x l1). set_solver.
Qed.

(** Writing one pointer. *)
Definition same_shape (h h' : gmap Z Node) : Prop :=
  forall p, dat h' p = dat h p /\ (length ∘ Next <$> h' !! p) = (length ∘ Next <$> h !! p).

Lemma same_shape_refl h : same_shape h h.
Proof. by intros p. Qed.
Lemma same_shape_trans h1 h2 h3 : same_shape h1 h2 -> same_shape h2 h3 -> same_shape h1 h3.
Proof. intros H1 H2 p. destruct (H1 p), (H2 p). split; congruence. Qed.
Lemma same_shape_level h h' p : same_shape h h' -> level h' p = level h p.
Proof.
  intros H. destruct (H p) as [_ E]. unfold level. destruct (h !! p), (h' !! p); cbn in E; try done. injection E as E. cbn in E. congruence.
Qed.

Lemma set_next_ok h p i q x : next_at h i p = Some x ->
  exists h', set_next h p i q = Ret h' /\ same_shape h h' /\ next_at h' i p = Some q /\
    (forall j r, j <> i \/ r <> p -> next_at h' j r = next_at h j r) /\ forall r, is_Some (h' !! r) <-> is_Some (h !! r).
Proof.
  unfold next_at at 1, set_next, load. destruct (h !! p) as [n|] eqn:E; cbn [obind mbind option_bind]; [|done]. intros Hx.
  assert (i < length (Next n))%nat as Hi by (apply lookup_lt_Some in Hx; exact Hx).
  rewrite (proj2 (Nat.ltb_lt _ _) Hi). eexists. split; [reflexivity|]. split; [|split; [|split]].
  - intros r. unfold dat. destruct (decide (p = r)) as [<-|]; [|by rewrite lookup_insert_ne].
    rewrite lookup_insert_eq, E. cbn. rewrite length_insert. done.
  - unfold next_at. rewrite lookup_insert_eq. cbn. by rewrite list_lookup_insert_eq.
  - intros j r Hjr. unfold next_at. destruct (decide (p = r)) as [<-|]; [|by rewrite lookup_insert_ne].
    rewrite lookup_insert_eq, E. cbn. rewrite list_lookup_insert_ne; [done|]. destruct Hjr; congruence.
  - intros r. destruct (decide (p = r)) as [<-|]; [|by rewrite lookup_insert_ne]. rewrite lookup_insert_eq, E. split; eauto.
Qed.

(** ** The representation *)

(** The nodes of [ps] that have level [i]. *)
Definition at_level (h : gmap Z Node) (i : nat) (ps : list Z) : list Z := filter (fun p => (i <= level h p)%nat) ps.

(** The skip list over the nodes [ps], in order. *)
Record rep (s : skip_list) (ps : list Z) : Prop := {
  rep_nodup : NoDup (m_pHead s :: ps);
  rep_node : forall p, p ∈ ps -> is_Some (heap s !! p);
  rep_head : level (heap s) (m_pHead s) = m_iMaxLevel s;
  rep_level : forall p, p ∈ ps -> (level (heap s) p <= m_iCurLevel s)%nat;
  rep_cur : (m_iCurLevel s <= m_iMaxLevel s)%nat;
  rep_links : forall i, (i <= m_iMaxLevel s)%nat -> lseg (heap s) i (m_pHead s) (at_level (heap s) i ps);
  rep_brk : forall p, is_Some (heap s !! p) -> p < brk s
}.

(** The skip list holds the sorted list [l]. *)
Definition holds (s : skip_list) (l : list T) : Prop :=
  sorted l /\ exists ps, rep s ps /\ Forall2 (fun p x => dat (heap s) p = Some x) ps l.

Lemma at_level_app h i xs ys : at_level h i (xs ++ ys) = at_level h i xs ++ at_level h i ys.
Proof. apply filter_app. Qed.

Lemma at_level_elem h i ps p : p ∈ at_level h i ps <-> (i <= level h p)%nat /\ p ∈ ps.
Proof. unfold at_level. by rewrite list_elem_of_filter. Qed.

Lemma at_level_0 h ps : at_level h 0 ps = ps.
Proof. induction ps as [|p ps IH]; [done|]. unfold at_level in *. rewrite filter_cons_True by lia. congruence. Qed.

Lemma at_level_ext h h' i ps : (forall p, p ∈ ps -> level h' p = level h p) -> at_level h' i ps = at_level h i ps.
Proof.
  intros H. unfold at_level. induction ps as [|p ps IH]; [done|]. rewrite !filter_cons, (H p) by left.
  rewrite IH; [done|]. intros q Hq. apply H. by right.
Qed.

Lemma at_level_above h i ps : (forall p, p ∈ ps -> (level h p < i)%nat) -> at_level h i ps = [].
Proof.
  intros H. destruct (at_level h i ps) as [|p l] eqn:E; [done|].
  assert (p ∈ at_level h i ps) as Hp by (rewrite E; left). apply at_level_elem in Hp as [H1 H2]. apply H in H2. lia.
Qed.

Lemma rep_size s ps : rep s ps -> (length ps < turns s)%nat.
Proof.
  intros Hr. unfold turns. enough (length ps <= size (heap s))%nat by lia.
  rewrite <- size_dom, <- (size_list_to_set (C := gset Z) ps).
  - apply subseteq_size. intros p Hp. apply elem_of_list_to_set in Hp. apply elem_of_dom, (rep_node _ _ Hr), Hp.
  - pose proof (rep_nodup _ _ Hr) as H. by apply NoDup_cons in H as [_ H].
Qed.

(** The search on one level. *)
Lemma advance_ok fuel h t i p l1 l2 : lseg h i p (l1 ++ l2) ->
  (forall q, q ∈ l1 -> exists x, dat h q = Some x /\ m_cmp x t = true) ->
  (forall q r, l2 = q :: r -> exists x, dat h q = Some x /\ m_cmp x t = false) ->
  (length l1 < fuel)%nat -> advance fuel h t i p = Ret (end_of p l1, head l2).
Proof.
  revert p fuel. induction l1 as [|q l1 IH]; intros p fuel Hl H1 H2 Hf; (destruct fuel as [|fuel]; [cbn in Hf; lia|]); cbn [advance].
  - rewrite (next_of_at h p i (head l2)) by (destruct l2; cbn in *; tauto). cbn [obind]. destruct l2 as [|q r]; cbn; [done|].
    destruct (H2 q r eq_refl) as (x & Hx & Hc). destruct (load_dat _ _ _ Hx) as (n & _ & -> & <-). cbn [obind]. by rewrite Hc.
  - destruct Hl as [Hn Hl]. rewrite (next_of_at _ _ _ _ Hn). cbn [obind]. destruct (H1 q ltac:(left)) as (x & Hx & Hc).
    destruct (load_dat _ _ _ Hx) as (n & _ & -> & <-). cbn [obind]. rewrite Hc, end_of_cons.
    apply IH; auto; [intros r Hr; apply H1; by right|cbn in Hf; lia].
Qed.

(** Going down one level: the last node of the level above is on this one. *)
Lemma level_down h i head xs : exists b, (end_of head (at_level h (S i) xs) = head /\ b = at_level h i xs \/
    exists a, at_level h i xs = a ++ end_of head (at_level h (S i) xs) :: b) /\
  end_of (end_of head (at_level h (S i) xs)) b = end_of head (at_level h i xs).
Proof.
  destruct (last (at_level h (S i) xs)) as [p|] eqn:E.
  - assert (end_of head (at_level h (S i) xs) = p) as -> by (unfold end_of; by rewrite E).
    assert (p ∈ at_level h i xs) as Hp.
    { apply last_Some in E as [l' E]. assert (p ∈ at_level h (S i) xs) as H by (rewrite E; set_solver).
      apply at_level_elem in H as [H1 H2]. apply at_level_elem. split; [lia|done]. }
    apply list_elem_of_split in Hp as (a & b & Hab). exists b. split; [right; eauto|]. by rewrite Hab, end_of_app.
  - assert (end_of head (at_level h (S i) xs) = head) as -> by (unfold end_of; by rewrite E). exists (at_level h i xs). auto.
Qed.

Section search.
Context (s : skip_list) (xs ys : list Z) (t : T).
Context (Hrep : rep s (xs ++ ys)).
Context (Hlow : forall q, q ∈ xs -> exists x, dat (heap s) q = Some x /\ m_cmp x t = true).
Context (Hhigh : forall q, q ∈ ys -> exists x, dat (heap s) q = Some x /\ m_cmp x t = false).

(** The node before the place of [t] on level [i]. *)
Definition prev_at (i : nat) : Z := end_of (m_pHead s) (at_level (heap s) i xs).

Lemma search_level i p : (i <= m_iMaxLevel s)%nat -> p = m_pHead s \/ p = prev_at (S i) ->
  advance (turns s) (heap s) t i p = Ret (prev_at i, head (at_level (heap s) i ys)).
Proof.
  intros Hi Hp. pose proof (rep_links _ _ Hrep i Hi) as Hl. rewrite at_level_app in Hl.
  pose proof (rep_size _ _ Hrep) as Hsz. rewrite length_app in Hsz.
  assert (Hfl : forall l, (length (at_level (heap s) i l) <= length l)%nat) by (intros; apply length_filter).
  assert (forall b, (forall q, q ∈ b -> q ∈ at_level (heap s) i xs) -> (length b <= length (at_level (heap s) i xs))%nat ->
    lseg (heap s) i p (b ++ at_level (heap s) i ys) -> end_of p b = prev_at i ->
    advance (turns s) (heap s) t i p = Ret (prev_at i, head (at_level (heap s) i ys))) as Hgo.
  { intros b Hb Hlen Hs He. rewrite <- He. apply advance_ok; [exact Hs| | |specialize (Hfl xs); lia].
    - intros q Hq. apply Hlow. apply Hb, at_level_elem in Hq. tauto.
    - intros q r E. apply Hhigh. assert (q ∈ at_level (heap s) i ys) as H by (rewrite E; left). apply at_level_elem in H. tauto. }
  destruct Hp as [->| ->]; [by apply (Hgo (at_level (heap s) i xs))|].
  destruct (level_down (heap s) i (m_pHead s) xs) as (b & [[E1 ->]|(a & E1)] & E2); fold (prev_at (S i)) in *; fold (prev_at i) in *.
  - apply (Hgo (at_level (heap s) i xs)); [auto|auto|by rewrite E1|exact E2].
  - apply (Hgo b); [rewrite E1; set_solver|rewrite E1, length_app; cbn; lia| |exact E2].
    rewrite E1, <- app_assoc in Hl. exact (lseg_behind _ _ _ _ _ _ Hl).
Qed.

Lemma previous_ok i p tp : (i <= m_iMaxLevel s)%nat -> (i < length tp)%nat -> p = m_pHead s \/ p = prev_at (S i) ->
  exists tp', previous (turns s) (heap s) t i p tp = Ret tp' /\ length tp' = length tp /\
    (forall j, (j <= i)%nat -> tp' !! j = Some (Some (prev_at j))) /\ (forall j, (i < j)%nat -> tp' !! j = tp !! j).
Proof.
  revert p tp. induction i as [|i IH]; intros p tp Hm Hlen Hp; cbn [previous]; rewrite (search_level _ p) by auto; cbn [obind];
    unfold store; rewrite (proj2 (Nat.ltb_lt _ _) Hlen); cbn [obind].
  - eexists. split; [reflexivity|]. rewrite length_insert. split; [done|]. split.
    + intros j Hj. replace j with O by lia. by apply list_lookup_insert_eq.
    + intros j Hj. apply list_lookup_insert_ne. lia.
  - destruct (IH (prev_at (S i)) (<[S i := Some (prev_at (S i))]> tp)) as (tp' & E & El & H1 & H2); [lia|rewrite length_insert; lia|auto|].
    exists tp'. split; [exact E|]. rewrite length_insert in El. split; [exact El|]. split.
    + intros j Hj. destruct (decide (j = S i)) as [->|]; [|apply H1; lia]. rewrite H2 by lia. by apply list_lookup_insert_eq.
    + intros j Hj. rewrite H2 by lia. apply list_lookup_insert_ne. lia.
Qed.

Lemma find_previous_ok : (m_iCurLevel s < m_iMaxLevel s)%nat ->
  exists tp, find_previous_levels_nodes s t = Ret tp /\ length tp = m_iMaxLevel s /\
    forall j, (j <= m_iCurLevel s)%nat -> tp !! j = Some (Some (prev_at j)).
Proof.
  intros Hc. unfold find_previous_levels_nodes.
  destruct (previous_ok (m_iCurLevel s) (m_pHead s) (replicate (m_iMaxLevel s) None)) as (tp & E & El & H & _);
    [lia|rewrite length_replicate; lia|auto|]. rewrite length_replicate in El. eauto.
Qed.

(** The search for an element: the first of [ys] when it is not above [t]. *)
Lemma find_from_ok i p : (i <= m_iMaxLevel s)%nat -> p = m_pHead s \/ p = prev_at (S i) ->
  (forall q q' r x x', ys = q :: r -> q' ∈ r -> dat (heap s) q = Some x -> dat (heap s) q' = Some x' -> m_cmp t x' = true) ->
  find_from (turns s) (heap s) t i p =
    Ret (match ys with q :: _ => match dat (heap s) q with Some x => if m_cmp t x then None else Some q | None => None end | [] => None end).
Proof.
  intros Hi Hp Hsorted. revert p Hi Hp.
  assert (Hhit : forall i q, head (at_level (heap s) i ys) = Some q ->
    (exists n r, load (heap s) q = Ret n /\ dat (heap s) q = Some (Data n) /\ ys = q :: r) \/
    (exists n, load (heap s) q = Ret n /\ m_cmp t (Data n) = true)).
  { intros j q E. destruct (at_level (heap s) j ys) as [|q0 l] eqn:El; [done|]. injection E as ->.
    assert (q ∈ ys) as Hq. { assert (q ∈ at_level (heap s) j ys) as H by (rewrite El; left). apply at_level_elem in H. tauto. }
    destruct (Hhigh q Hq) as (x & Hx & _). destruct (load_dat _ _ _ Hx) as (n & _ & Hn & En). subst x.
    destruct ys as [|y r] eqn:Ey; [set_solver|]. destruct (decide (q = y)) as [->|Hne]; [left; eauto|right; exists n].
    split; [exact Hn|]. assert (q ∈ r) as Hr by set_solver. destruct (Hhigh y ltac:(left)) as (z & Hz & _). eauto. }
  induction i as [|i IH]; intros p Hi Hp; cbn [find_from]; rewrite (search_level _ p) by auto; cbn [obind].
  - rewrite at_level_0. destruct ys as [|q r]; cbn [head obind]; [done|]. destruct (Hhigh q ltac:(left)) as (x & Hx & _).
    destruct (load_dat _ _ _ Hx) as (n & _ & -> & <-). cbn [obind]. rewrite Hx. by destruct (m_cmp t (Data n)).
  - destruct (head (at_level (heap s) (S i) ys)) as [q|] eqn:E; cbn [obind]; [|apply IH; auto; lia].
    destruct (Hhit _ _ E) as [(n & r & -> & Hd & Ey)|(n & -> & Hc)]; cbn [obind].
    + destruct (m_cmp t (Data n)) eqn:Ec; [apply IH; auto; lia|]. by rewrite Ey, Hd, Ec.
    + rewrite Hc. apply IH; auto; lia.
Qed.

End search.

Lemma next_prev s xs ys : rep s (xs ++ ys) -> next_of (heap s) (prev_at s xs 0) 0 = Ret (head ys).
Proof.
  intros Hrep. pose proof (rep_links _ _ Hrep 0 ltac:(lia)) as H. rewrite at_level_app, (at_level_0 _ ys) in H.
  apply next_of_at. exact (lseg_at_end _ _ _ _ _ H).
Qed.

(** ** Inserting *)

Lemma raise_ok tp head i k : (i + k <= length tp)%nat ->
  exists tp', raise tp head i k = Ret tp' /\ (forall j, (i <= j < i + k)%nat -> tp' !! j = Some (Some head)) /\
    (forall j, (j < i \/ i + k <= j)%nat -> tp' !! j = tp !! j).
Proof.
  revert tp i. induction k as [|k IH]; intros tp i Hl; cbn [raise].
  - exists tp. split; [done|]. split; [lia|done].
  - unfold store. rewrite (proj2 (Nat.ltb_lt i (length tp))) by lia. cbn [obind].
    destruct (IH (<[i := Some head]> tp) (S i)) as (tp' & E & H1 & H2); [rewrite length_insert; lia|].
    exists tp'. split; [exact E|]. split.
    + intros j Hj. destruct (decide (j = i)) as [->|]; [|apply H1; lia]. rewrite H2 by lia. apply list_lookup_insert_eq. lia.
    + intros j Hj. rewrite H2 by lia. apply list_lookup_insert_ne. lia.
Qed.

Lemma fetch_ok (tp : list (option Z)) i p : tp !! i = Some (Some p) -> fetch tp i = Ret p.
Proof. unfold fetch. by intros ->. Qed.

Lemma same_shape_at_level h h' i ps : same_shape h h' -> at_level h' i ps = at_level h i ps.
Proof. intros H. apply at_level_ext. intros p _. by apply same_shape_level. Qed.

Lemma at_level_nodup h i head xs ys : NoDup (head :: xs ++ ys) -> NoDup (head :: at_level h i xs ++ at_level h i ys).
Proof.
  rewrite !NoDup_cons, <- at_level_app. intros [H1 H2]. split; [|by apply NoDup_filter]. rewrite at_level_elem. tauto.
Qed.

Lemma end_at_level h i head xs ys : end_of head (at_level h i xs) ∈ head :: xs ++ ys.
Proof.
  pose proof (end_of_elem head (at_level h i xs)) as H. apply elem_of_cons in H as [->|H]; [left|].
  apply at_level_elem in H. set_solver.
Qed.

(** The loop that links the new node [c], from level [i] on. *)
Lemma link_ok k i h tp head c xs ys :
  NoDup (head :: xs ++ ys) -> c ∉ head :: xs ++ ys ->
  (forall j, (i <= j < i + k)%nat -> tp !! j = Some (Some (end_of head (at_level h j xs))) /\
     lseg h j head (at_level h j xs ++ at_level h j ys) /\ is_Some (next_at h j c)) ->
  exists h', link h tp c i k = Ret h' /\ same_shape h h' /\ (forall r, is_Some (h' !! r) <-> is_Some (h !! r)) /\
    (forall j, (i <= j < i + k)%nat -> lseg h' j head (at_level h j xs ++ c :: at_level h j ys)) /\
    (forall j r, (j < i \/ i + k <= j)%nat -> next_at h' j r = next_at h j r).
Proof.
  intros Hnd Hc. revert i h. induction k as [|k IH]; intros i h Hj; cbn [link].
  { exists h. split; [done|]. split; [apply same_shape_refl|]. split; [done|]. split; [lia|done]. }
  destruct (Hj i) as (Htp & Hl & [x Hx]); [lia|]. rewrite (fetch_ok _ _ _ Htp). cbn [obind].
  set (p := end_of head (at_level h i xs)) in *.
  pose proof (lseg_at_end _ _ _ _ _ Hl) as Hn. fold p in Hn. rewrite (next_of_at _ _ _ _ Hn). cbn [obind].
  assert (p ≠ c) as Hpc. { intros E. apply Hc. rewrite <- E. apply end_at_level. }
  destruct (set_next_ok h c i (list.head (at_level h i ys)) x Hx) as (h1 & -> & S1 & N1 & F1 & D1). cbn [obind].
  destruct (set_next_ok h1 p i (Some c) (list.head (at_level h i ys))) as (h2 & -> & S2 & N2 & F2 & D2); [rewrite F1 by auto; exact Hn|]. cbn [obind].
  assert (same_shape h h2) as S12 by (eapply same_shape_trans; eauto).
  assert (Hother : forall j r, j <> i -> next_at h2 j r = next_at h j r) by (intros j r Hji; rewrite F2, F1 by auto; done).
  destruct (IH (S i) h2) as (h' & E & S' & D' & L' & F').
  { intros j Hji. rewrite !(same_shape_at_level h h2) by exact S12. rewrite Hother by lia. destruct (Hj j ltac:(lia)) as (A & B & C).
    split; [exact A|]. split; [|exact C]. eapply lseg_frame; [|exact B]. intros r _. apply Hother. lia. }
  exists h'. split; [exact E|]. split; [eapply same_shape_trans; eauto|]. split; [intros r; rewrite D', D2; apply D1|]. split.
  - intros j Hji. destruct (decide (j = i)) as [->|Hne].
    + eapply lseg_frame; [intros r _; apply F'; lia|].
      apply (lseg_insert h h2); [by apply at_level_nodup| |exact Hl|exact N2| |].
      * intros H. apply Hc. rewrite !elem_of_cons, !elem_of_app, !at_level_elem in *. tauto.
      * fold p. rewrite F2 by auto. by rewrite N1, Hn.
      * intros r H1 H2. fold p in H1. rewrite F2, F1 by auto. done.
    + rewrite <- !(same_shape_at_level h h2) by exact S12. apply L'. lia.
  - intros j r Hjr. rewrite F' by lia. apply Hother. lia.
Qed.

(** A node that is allocated but not linked. *)
Lemma alloc_next h c n i r : h !! c = None -> r <> c -> next_at (<[c := n]> h) i r = next_at h i r.
Proof. intros _ H. unfold next_at. by rewrite lookup_insert_ne. Qed.
Lemma alloc_level h c n p : p <> c -> level (<[c := n]> h) p = level h p.
Proof. intros H. unfold level. by rewrite lookup_insert_ne. Qed.

Section insert_proof.
Context (s : skip_list) (xs ys : list Z) (t : T).
Context (Hrep : rep s (xs ++ ys)).
Context (Hlow : forall q, q ∈ xs -> exists x, dat (heap s) q = Some x /\ m_cmp x t = true).
Context (Hhigh : forall q, q ∈ ys -> exists x, dat (heap s) q = Some x /\ m_cmp x t = false).
Context (Hcur : (m_iCurLevel s < m_iMaxLevel s)%nat).

Lemma brk_fresh : (brk s ∉ m_pHead s :: xs ++ ys) /\ heap s !! brk s = None.
Proof.
  assert (heap s !! brk s = None) as Hn.
  { destruct (heap s !! brk s) eqn:E; [|done]. assert (brk s < brk s) by (apply (rep_brk _ _ Hrep); eauto). lia. }
  split; [|exact Hn]. intros H. apply elem_of_cons in H as [H|H].
  - assert (is_Some (next_at (heap s) 0 (m_pHead s))) as [x Hx].
    { pose proof (rep_links _ _ Hrep 0 ltac:(lia)) as Hl. destruct (at_level _ _ _); cbn in Hl; [eauto|]. destruct Hl as [-> _]. eauto. }
    unfold next_at in Hx. rewrite <- H, Hn in Hx. done.
  - apply (rep_node _ _ Hrep) in H as [n H]. congruence.
Qed.

(** The heap with the new node of level [l], before it is linked. *)
Definition grown (l : nat) : gmap Z Node := <[brk s := create_node l t]> (heap s).

Lemma grown_level l p : p ∈ m_pHead s :: xs ++ ys -> level (grown l) p = level (heap s) p.
Proof. intros H. apply alloc_level. intros ->. by apply brk_fresh in H. Qed.

Lemma grown_at_level l i zs : (forall p, p ∈ zs -> p ∈ m_pHead s :: xs ++ ys) -> at_level (grown l) i zs = at_level (heap s) i zs.
Proof. intros H. apply at_level_ext. intros p Hp. by apply grown_level, H. Qed.

Lemma grown_lseg l i : (i <= m_iMaxLevel s)%nat ->
  lseg (grown l) i (m_pHead s) (at_level (heap s) i xs ++ at_level (heap s) i ys).
Proof.
  intros Hi. pose proof (rep_links _ _ Hrep i Hi) as Hl. rewrite at_level_app in Hl. eapply lseg_frame; [|exact Hl].
  intros r Hr. apply alloc_next; [apply brk_fresh|]. intros ->. apply brk_fresh.
  rewrite !elem_of_cons, !elem_of_app, !at_level_elem in *. tauto.
Qed.

Lemma link_grown tp l : (l < m_iMaxLevel s)%nat ->
  (forall j, (j <= l)%nat -> tp !! j = Some (Some (prev_at s xs j))) ->
  exists h', link (grown l) tp (brk s) 0 (S l) = Ret h' /\ same_shape (grown l) h' /\
    rep (mkSL h' (brk s + 1) (m_pHead s) (Nat.max l (m_iCurLevel s)) (m_iMaxLevel s)) (xs ++ brk s :: ys).
Proof.
  intros Hl Htp. destruct brk_fresh as [Hb Hbn]. pose proof (rep_nodup _ _ Hrep) as Hnd.
  assert (Hx : forall p, p ∈ xs -> p ∈ m_pHead s :: xs ++ ys) by set_solver.
  assert (Hy : forall p, p ∈ ys -> p ∈ m_pHead s :: xs ++ ys) by set_solver.
  destruct (link_ok (S l) 0 (grown l) tp (m_pHead s) (brk s) xs ys Hnd Hb) as (h' & E & S' & D' & L' & F').
  { intros j Hj. rewrite !grown_at_level by assumption. split; [apply Htp; lia|]. split; [apply grown_lseg; lia|].
    unfold next_at, grown. rewrite lookup_insert_eq. cbn [mbind option_bind create_node Next]. apply lookup_lt_is_Some. rewrite length_replicate. lia. }
  exists h'. split; [exact E|]. split; [exact S'|].
  assert (Hlv : forall p, level h' p = level (grown l) p) by (intros p; by apply same_shape_level).
  assert (Hlc : level (grown l) (brk s) = l) by (unfold level, grown; rewrite lookup_insert_eq; cbn; by rewrite length_replicate).
  split; cbn [heap brk m_pHead m_iCurLevel m_iMaxLevel].
  - rewrite NoDup_cons in *. rewrite NoDup_app in *. rewrite NoDup_cons. set_solver.
  - intros p Hp. apply D'. unfold grown. destruct (decide (brk s = p)) as [->|Hne]; [rewrite lookup_insert_eq; eauto|].
    rewrite lookup_insert_ne by done. apply (rep_node _ _ Hrep). set_solver.
  - rewrite Hlv, grown_level by left. apply Hrep.
  - intros p Hp. rewrite Hlv. destruct (decide (p = brk s)) as [->|Hne]; [rewrite Hlc; lia|].
    assert (p ∈ xs ++ ys) as Hp' by set_solver. rewrite grown_level by (right; exact Hp'). pose proof (rep_level _ _ Hrep p Hp'). lia.
  - lia.
  - intros i Hi. rewrite (same_shape_at_level (grown l) h') by exact S'. rewrite at_level_app.
    unfold at_level at 2. rewrite filter_cons, Hlc. fold (at_level (grown l) i ys). destruct (decide (i <= l)%nat) as [Hil|Hil]; [apply L'; lia|].
    eapply lseg_frame; [intros r _; apply F'; lia|]. rewrite !grown_at_level by assumption. apply grown_lseg. exact Hi.
  - intros p Hp. apply D' in Hp. unfold grown in Hp. destruct (decide (brk s = p)) as [->|Hne]; [lia|].
    rewrite lookup_insert_ne in Hp by done. apply (rep_brk _ _ Hrep) in Hp. lia.
Qed.

Lemma insert_new l : (l < m_iMaxLevel s)%nat -> (l <= m_iCurLevel s)%nat \/ at_level (heap s) (m_iCurLevel s) xs = [] ->
  (forall q r x, ys = q :: r -> dat (heap s) q = Some x -> m_cmp t x = true) ->
  exists s', insert s t l = Ret s' /\ rep s' (xs ++ brk s :: ys) /\ dat (heap s') (brk s) = Some t /\
    (forall p, p <> brk s -> dat (heap s') p = dat (heap s) p) /\ m_iMaxLevel s' = m_iMaxLevel s.
Proof.
  intros Hl Hlow' Hnew. destruct (find_previous_ok s xs ys t Hrep Hlow Hhigh Hcur) as (tp & E & Elen & Htp).
  unfold insert. rewrite E. cbn [obind]. rewrite (fetch_ok _ _ _ (Htp O ltac:(lia))). cbn [obind].
  rewrite (next_prev s xs ys Hrep).
  cbn [obind].
  assert ((match head ys with
          | Some q => let* n := load (heap s) q in Ret (if negb (m_cmp (Data n) t) && negb (m_cmp t (Data n)) then Some (q, n) else None)
          | None => Ret None
          end) = Ret None) as ->.
  { destruct ys as [|q r]; cbn; [done|]. destruct (Hhigh q ltac:(left)) as (x & Hx & Hc). destruct (load_dat _ _ _ Hx) as (n & _ & -> & En). cbn.
    rewrite En, (Hnew q r x eq_refl Hx). by rewrite andb_false_r. }
  cbn [obind].
  assert (Hfinish : forall tp cur, (forall j, (j <= l)%nat -> tp !! j = Some (Some (prev_at s xs j))) -> cur = Nat.max l (m_iCurLevel s) ->
    exists s', (let* h := link (<[brk s := create_node l t]> (heap s)) tp (brk s) 0 (S l) in Ret (mkSL h (brk s + 1) (m_pHead s) cur (m_iMaxLevel s))) = Ret s' /\
      rep s' (xs ++ brk s :: ys) /\ dat (heap s') (brk s) = Some t /\ (forall p, p <> brk s -> dat (heap s') p = dat (heap s) p) /\ m_iMaxLevel s' = m_iMaxLevel s).
  { intros tp' cur Htp' ->. destruct (link_grown tp' l Hl Htp') as (h' & El & S' & Hr). unfold grown in El. rewrite El. cbn [obind].
    eexists. split; [reflexivity|]. split; [exact Hr|]. cbn [heap]. split; [|split; [|done]].
    - rewrite (proj1 (S' (brk s))). unfold dat, grown. by rewrite lookup_insert_eq.
    - intros p Hp. rewrite (proj1 (S' p)). unfold dat, grown. by rewrite lookup_insert_ne. }
  destruct (Nat.ltb_spec (m_iCurLevel s) l) as [Hgt|Hle].
  - destruct Hlow' as [?|He]; [lia|]. destruct (raise_ok tp (m_pHead s) (m_iCurLevel s) (S (l - m_iCurLevel s))) as (tp' & -> & R1 & R2); [rewrite Elen; lia|].
    cbn [obind]. apply Hfinish; [|lia]. intros j Hj. destruct (decide (j < m_iCurLevel s)%nat) as [Hlt|Hge].
    + rewrite R2 by lia. apply Htp. lia.
    + rewrite R1 by lia. unfold prev_at. enough (at_level (heap s) j xs = []) as -> by done.
      destruct (decide (j = m_iCurLevel s)) as [->|]; [exact He|]. apply at_level_above. intros p Hp.
      pose proof (rep_level _ _ Hrep p ltac:(set_solver)). lia.
  - cbn [obind]. apply Hfinish; [|lia]. intros j Hj. apply Htp. lia.
Qed.

(** The same element is there: only its datum changes. *)
Lemma insert_same l q r x : ys = q :: r -> dat (heap s) q = Some x -> m_cmp t x = false ->
  exists s', insert s t l = Ret s' /\ rep s' (xs ++ ys) /\ dat (heap s') q = Some t /\
    (forall p, p <> q -> dat (heap s') p = dat (heap s) p) /\ m_iMaxLevel s' = m_iMaxLevel s.
Proof.
  intros Ey Hx Hc. destruct (find_previous_ok s xs ys t Hrep Hlow Hhigh Hcur) as (tp & E & Elen & Htp).
  unfold insert. rewrite E. cbn [obind]. rewrite (fetch_ok _ _ _ (Htp O ltac:(lia))). cbn [obind].
  rewrite (next_prev s xs ys Hrep).
  rewrite Ey. cbn [obind head]. destruct (load_dat _ _ _ Hx) as (n & Hn & -> & En). cbn [obind].
  destruct (Hhigh q ltac:(rewrite Ey; left)) as (x' & Hx' & Hc'). rewrite Hx in Hx'. injection Hx' as <-.
  rewrite En, Hc, Hc'. cbn [negb andb]. eexists. split; [reflexivity|]. cbn [heap m_iMaxLevel].
  set (h' := <[q := mkNode t (Next n)]> (heap s)).
  assert (Hlv : forall p, level h' p = level (heap s) p).
  { intros p. unfold level, h'. destruct (decide (q = p)) as [<-|]; [rewrite lookup_insert_eq, Hn|rewrite lookup_insert_ne]; done. }
  assert (Hna : forall i p, next_at h' i p = next_at (heap s) i p).
  { intros i p. unfold next_at, h'. destruct (decide (q = p)) as [<-|]; [rewrite lookup_insert_eq, Hn|rewrite lookup_insert_ne]; done. }
  assert (Hdom : forall p, is_Some (h' !! p) <-> is_Some (heap s !! p)).
  { intros p. unfold h'. destruct (decide (q = p)) as [<-|]; [rewrite lookup_insert_eq, Hn; split; eauto|by rewrite lookup_insert_ne]. }
  rewrite <- Ey. destruct Hrep as [R1 R2 R3 R4 R5 R6 R7]. split; [split; cbn [heap brk m_pHead m_iCurLevel m_iMaxLevel]|].
  - exact R1.
  - intros p Hp. apply Hdom, R2, Hp.
  - rewrite Hlv. exact R3.
  - intros p Hp. rewrite Hlv. by apply R4.
  - exact R5.
  - intros i Hi. rewrite (at_level_ext (heap s) h') by (intros; apply Hlv). eapply lseg_frame; [intros; apply Hna|by apply R6].
  - intros p Hp. apply R7, Hdom, Hp.
  - split; [unfold dat, h'; by rewrite lookup_insert_eq|]. split; [|done]. intros p Hp. unfold dat, h'. by rewrite lookup_insert_ne.
Qed.

End insert_proof.

(** ** Erasing *)

Lemma at_level_cons h i q r : at_level h i (q :: r) = if decide (i <= level h q)%nat then q :: at_level h i r else at_level h i r.
Proof. unfold at_level. by rewrite filter_cons. Qed.

(** The loop that takes [q] out, from level [i] on. *)
Lemma unlink_ok k i h tp head q xs r :
  NoDup (head :: xs ++ q :: r) -> (level h q < i + k)%nat ->
  (forall j, (i <= j < i + k)%nat -> tp !! j = Some (Some (end_of head (at_level h j xs))) /\ lseg h j head (at_level h j xs ++ at_level h j (q :: r))) ->
  exists h', unlink h tp q i k = Ret h' /\ same_shape h h' /\ (forall x, is_Some (h' !! x) <-> is_Some (h !! x)) /\
    (forall j, (i <= j <= level h q)%nat -> lseg h' j head (at_level h j xs ++ at_level h j r)) /\
    (forall j x, (j < i \/ level h q < j)%nat -> next_at h' j x = next_at h j x).
Proof.
  intros Hnd. revert i h. induction k as [|k IH]; intros i h Hk Hj; cbn [unlink].
  { exists h. split; [done|]. split; [apply same_shape_refl|]. split; [done|]. split; [lia|done]. }
  destruct (Hj i) as (Htp & Hl); [lia|]. rewrite (fetch_ok _ _ _ Htp). cbn [obind]. set (p := end_of head (at_level h i xs)) in *.
  pose proof (lseg_at_end _ _ _ _ _ Hl) as Hn. fold p in Hn. rewrite (next_of_at _ _ _ _ Hn). cbn [obind].
  assert (Hqr : q ∉ head :: xs ++ r). { rewrite NoDup_cons, NoDup_app, NoDup_cons in Hnd. set_solver. }
  rewrite at_level_cons in Hl, Hn |- *. destruct (decide (i <= level h q)%nat) as [Hi|Hi].
  - cbn [list.head] in *. rewrite decide_True by done.
    pose proof (lseg_behind _ _ _ _ _ _ Hl) as Hq. assert (next_at h i q = Some (list.head (at_level h i r))) as Hqn by (destruct (at_level h i r); cbn in *; tauto).
    rewrite (next_of_at _ _ _ _ Hqn). cbn [obind].
    destruct (set_next_ok h p i (list.head (at_level h i r)) _ Hn) as (h1 & -> & S1 & N1 & F1 & D1). cbn [obind].
    assert (Hlv : forall x, level h1 x = level h x) by (intros; by apply same_shape_level).
    destruct (IH (S i) h1) as (h' & E & S' & D' & L' & F').
    { rewrite Hlv. lia. }
    { intros j Hji. rewrite !(same_shape_at_level h h1) by exact S1. destruct (Hj j ltac:(lia)) as (A & B). split; [exact A|].
      eapply lseg_frame; [|exact B]. intros x _. apply F1. lia. }
    rewrite Hlv in *. exists h'. split; [exact E|]. split; [eapply same_shape_trans; eauto|]. split; [intros x; rewrite D'; apply D1|]. split.
    + intros j Hji. destruct (decide (j = i)) as [->|Hne].
      * eapply lseg_frame; [intros x _; apply F'; lia|]. apply (lseg_remove h h1 i head (at_level h i xs) q (at_level h i r)).
        -- pose proof (at_level_nodup h i head xs (q :: r) Hnd) as H. rewrite at_level_cons, decide_True in H by done. exact H.
        -- exact Hl.
        -- fold p. by rewrite N1, Hqn.
        -- intros x H1 _. apply F1. auto.
      * rewrite <- !(same_shape_at_level h h1) by exact S1. apply L'. lia.
    + intros j x Hjx. rewrite F' by lia. apply F1. lia.
  - rewrite decide_False.
    + exists h. split; [done|]. split; [apply same_shape_refl|]. split; [done|]. split; [lia|done].
    + intros E. destruct (at_level h i r) as [|y l] eqn:El; [done|]. injection E as ->.
      assert (q ∈ at_level h i r) as H by (rewrite El; left). apply at_level_elem in H. set_solver.
Qed.

(** The loop that lowers the current level. *)
Lemma lower_stays h head cur ps i : (forall j, (1 <= j <= i)%nat -> lseg h j head (at_level h j ps)) -> (exists p, p ∈ ps /\ (i <= level h p)%nat) ->
  lower h head cur i = Ret cur.
Proof.
  intros Hl (p & Hp & Hi). induction i as [|i IH]; cbn [lower]; [done|].
  pose proof (Hl (S i) ltac:(lia)) as H. assert (p ∈ at_level h (S i) ps) as Hin by (apply at_level_elem; auto).
  destruct (at_level h (S i) ps) as [|q l]; [set_solver|]. destruct H as [H _]. rewrite (next_of_at _ _ _ _ H). cbn [obind].
  apply IH; [|lia]. intros j Hj. apply Hl. lia.
Qed.

Lemma lower_ok h head ps i : (forall j, (1 <= j <= i)%nat -> lseg h j head (at_level h j ps)) -> (forall p, p ∈ ps -> (level h p <= i)%nat) ->
  exists c, lower h head i i = Ret c /\ (c <= i)%nat /\ forall p, p ∈ ps -> (level h p <= c)%nat.
Proof.
  induction i as [|i IH]; intros Hl Hle; cbn [lower]; [eauto|].
  pose proof (Hl (S i) ltac:(lia)) as H. destruct (at_level h (S i) ps) as [|q l] eqn:E.
  - rewrite (next_of_at _ _ _ _ H). cbn [obind pred]. destruct IH as (c & Ec & H1 & H2).
    + intros j Hj. apply Hl. lia.
    + intros p Hp. pose proof (Hle p Hp). destruct (decide (level h p = S i)) as [Heq|]; [|lia].
      assert (p ∈ at_level h (S i) ps) as Hin by (apply at_level_elem; split; [lia|done]). rewrite E in Hin. set_solver.
    + exists c. split; [exact Ec|]. split; [lia|exact H2].
  - destruct H as [H _]. rewrite (next_of_at _ _ _ _ H). cbn [obind].
    assert (q ∈ at_level h (S i) ps) as Hq by (rewrite E; left). apply at_level_elem in Hq as [Hq1 Hq2].
    exists (S i). split; [|eauto]. apply (lower_stays h head (S i) ps i); [intros j Hj; apply Hl; lia|]. exists q. split; [done|lia].
Qed.

(** The operator frees such a node, as one that is free(3) does. *)
Definition delete_frees (operator_delete : deleter) : Prop := forall h p, is_Some (h !! p) -> operator_delete h p = Ret (delete p h).

Lemma delete_linked d h i p q : delete_frees d -> next_at h i p = Some q -> d h p = Ret (delete p h).
Proof. unfold next_at. intros Hfrees H. apply Hfrees. destruct (h !! p); [by eexists|done]. Qed.

Lemma erase_found d s xs q r t x : delete_frees d -> rep s (xs ++ q :: r) ->
  (forall p, p ∈ xs -> exists x, dat (heap s) p = Some x /\ m_cmp x t = true) ->
  (forall p, p ∈ q :: r -> exists x, dat (heap s) p = Some x /\ m_cmp x t = false) ->
  (m_iCurLevel s < m_iMaxLevel s)%nat -> dat (heap s) q = Some x -> m_cmp t x = false ->
  exists s', erase d s t = Ret (s', true) /\ rep s' (xs ++ r) /\ (forall p, p <> q -> dat (heap s') p = dat (heap s) p) /\
    (m_iCurLevel s' < m_iMaxLevel s')%nat.
Proof.
  intros Hfrees Hrep Hlow Hhigh Hcur Hx Hc. destruct (find_previous_ok s xs (q :: r) t Hrep Hlow Hhigh Hcur) as (tp & E & Elen & Htp).
  unfold erase. rewrite E. cbn [obind]. rewrite (fetch_ok _ _ _ (Htp O ltac:(lia))). cbn [obind].
  rewrite (next_prev s xs (q :: r) Hrep). cbn [obind list.head].
  destruct (load_dat _ _ _ Hx) as (n & Hn & -> & En). cbn [obind]. destruct (Hhigh q ltac:(left)) as (x' & Hx' & Hc').
  rewrite Hx in Hx'. injection Hx' as <-. rewrite En, Hc, Hc'. cbn [orb].
  pose proof (rep_nodup _ _ Hrep) as Hnd. pose proof (rep_level _ _ Hrep q ltac:(set_solver)) as Hql.
  assert (Hqr : q ∉ m_pHead s :: xs ++ r). { rewrite NoDup_cons, NoDup_app, NoDup_cons in Hnd. set_solver. }
  destruct (unlink_ok (S (m_iCurLevel s)) 0 (heap s) tp (m_pHead s) q xs r Hnd) as (h1 & -> & S1 & D1 & L1 & F1); [lia| |].
  { intros j Hj. split; [apply Htp; lia|]. rewrite <- at_level_app. apply (rep_links _ _ Hrep). lia. }
  cbn [obind]. rewrite Hfrees by (apply D1; eauto). cbn [obind]. set (h := delete q h1).
  assert (Hlv : forall p, p <> q -> level h p = level (heap s) p).
  { intros p Hp. rewrite <- (same_shape_level (heap s) h1 p S1). unfold level, h. by rewrite lookup_delete_ne. }
  assert (Hat : forall i, at_level h i (xs ++ r) = at_level (heap s) i (xs ++ r)).
  { intros i. apply at_level_ext. intros p Hp. apply Hlv. intros ->. set_solver. }
  assert (Hls : forall i, (i <= m_iMaxLevel s)%nat -> lseg h i (m_pHead s) (at_level h i (xs ++ r))).
  { intros i Hi. rewrite Hat, at_level_app. apply (lseg_frame h1).
    - intros p Hp. unfold next_at, h. rewrite lookup_delete_ne; [done|]. intros ->. apply Hqr.
      rewrite !elem_of_cons, !elem_of_app, !at_level_elem in *. tauto.
    - destruct (decide (i <= level (heap s) q)%nat) as [Hil|Hil]; [apply L1; lia|].
      apply (lseg_frame (heap s)); [intros p _; apply F1; lia|].
      pose proof (rep_links _ _ Hrep i Hi) as Hl. rewrite at_level_app, at_level_cons, decide_False in Hl by done. exact Hl. }
  destruct (lower_ok h (m_pHead s) (xs ++ r) (m_iCurLevel s)) as (c & -> & Hc1 & Hc2).
  { intros j Hj. apply Hls. lia. }
  { intros p Hp. rewrite Hlv by (intros ->; set_solver). apply (rep_level _ _ Hrep). set_solver. }
  cbn [obind]. eexists. split; [reflexivity|]. cbn [heap m_iCurLevel m_iMaxLevel]. split; [|split; [|lia]].
  - split; cbn [heap brk m_pHead m_iCurLevel m_iMaxLevel].
    + rewrite NoDup_cons in *. rewrite NoDup_app, ?NoDup_cons in *. set_solver.
    + intros p Hp. unfold h. rewrite lookup_delete_ne by (intros ->; set_solver). apply D1, (rep_node _ _ Hrep). set_solver.
    + rewrite Hlv by (intros E'; apply Hqr; rewrite E'; left). apply Hrep.
    + exact Hc2.
    + lia.
    + exact Hls.
    + intros p [y Hp]. unfold h in Hp. apply lookup_delete_Some in Hp as [_ Hp]. apply (rep_brk _ _ Hrep), D1. eauto.
  - intros p Hp. rewrite <- (proj1 (S1 p)). unfold dat, h. by rewrite lookup_delete_ne.
Qed.

Lemma erase_missing d s xs ys t : rep s (xs ++ ys) ->
  (forall p, p ∈ xs -> exists x, dat (heap s) p = Some x /\ m_cmp x t = true) ->
  (forall p, p ∈ ys -> exists x, dat (heap s) p = Some x /\ m_cmp x t = false) ->
  (m_iCurLevel s < m_iMaxLevel s)%nat -> (forall q r x, ys = q :: r -> dat (heap s) q = Some x -> m_cmp t x = true) ->
  erase d s t = Ret (s, false).
Proof.
  intros Hrep Hlow Hhigh Hcur Hnew. destruct (find_previous_ok s xs ys t Hrep Hlow Hhigh Hcur) as (tp & E & Elen & Htp).
  unfold erase. rewrite E. cbn [obind]. rewrite (fetch_ok _ _ _ (Htp O ltac:(lia))). cbn [obind].
  rewrite (next_prev s xs ys Hrep). cbn [obind]. destruct ys as [|q r]; cbn [list.head]; [done|].
  destruct (Hhigh q ltac:(left)) as (x & Hx & _). destruct (load_dat _ _ _ Hx) as (n & _ & -> & En). cbn [obind].
  rewrite En, (Hnew q r x eq_refl Hx), orb_true_r. done.
Qed.

(** ** Clearing *)

(** Every other element, from the first. *)
Fixpoint evens (l : list Z) : list Z := match l with x :: _ :: l => x :: evens l | l => l end.

(** Induction two elements at a time. *)
Lemma pairs_ind (Q : list Z -> Prop) : Q [] -> (forall a, Q [a]) -> (forall a b l, Q l -> Q (a :: b :: l)) -> forall l, Q l.
Proof.
  intros H0 H1 H2 l. enough (Q l /\ forall a, Q (a :: l)) by tauto. induction l as [|b l [IH1 IH2]]; [auto|]. split; [auto|]. intros a. auto.
Qed.

Lemma evens_elem l x : x ∈ evens l -> x ∈ l.
Proof.
  revert x. induction l as [|a|a b l IH] using pairs_ind; intros x; cbn; [done|done|].
  rewrite !elem_of_cons. intros [->|H]; auto.
Qed.

Lemma drop_nodes_ok d fuel h l p : delete_frees d -> (length l < fuel)%nat -> NoDup l -> lseg h 0 p l ->
  exists h', drop_nodes d fuel h (head l) = Ret h' /\ (forall r, r ∈ evens l -> h' !! r = None) /\ (forall r, r ∉ evens l -> h' !! r = h !! r).
Proof.
  intros Hfrees. revert fuel h p. induction l as [|a|a b l IH] using pairs_ind; intros fuel h p Hf Hnd Hl; (destruct fuel as [|fuel]; [cbn in Hf; lia|]).
  - exists h. split; [done|]. split; [set_solver|done].
  - cbn in Hl. destruct Hl as [_ Hl]. cbn [head drop_nodes]. rewrite (next_of_at _ _ _ _ Hl). cbn [obind]. rewrite (delete_linked _ _ _ _ _ Hfrees Hl). cbn [obind]. eexists. split; [reflexivity|]. split.
    + intros r Hr. cbn in Hr. apply list_elem_of_singleton in Hr as ->. apply lookup_delete_eq.
    + intros r Hr. cbn in Hr. apply lookup_delete_ne. set_solver.
  - destruct Hl as (_ & Ha & Hb). cbn [head drop_nodes]. rewrite (next_of_at _ _ _ _ Ha). cbn [obind]. rewrite (delete_linked _ _ _ _ _ Hfrees Ha). cbn [obind].
    rewrite !NoDup_cons in Hnd. destruct Hnd as (N1 & N2 & N3).
    assert (Hf' : forall r, r <> a -> next_at (delete a h) 0 r = next_at h 0 r) by (intros r Hr; unfold next_at; by rewrite lookup_delete_ne).
    assert (lseg (delete a h) 0 b l) as Hl'. { eapply lseg_frame; [|exact Hb]. intros r Hr. apply Hf'. set_solver. }
    rewrite (next_of_at (delete a h) b 0 (head l)) by (destruct l; cbn in *; tauto). cbn [obind].
    destruct (IH fuel (delete a h) b) as (h' & E & H1 & H2); [cbn in Hf; lia|done|done|]. exists h'. split; [exact E|]. cbn [evens]. split.
    + intros r Hr. destruct (decide (r ∈ evens l)) as [|Hn]; [auto|]. rewrite H2 by done.
      apply elem_of_cons in Hr as [->|Hr]; [apply lookup_delete_eq|contradiction].
    + intros r Hr. rewrite H2 by set_solver. apply lookup_delete_ne. set_solver.
Qed.

Lemma clear_head_ok h hd i k n : h !! hd = Some n -> (i + k <= length (Next n))%nat -> (forall j, (j < i)%nat -> Next n !! j = Some None) ->
  exists h' n', clear_head h hd i k = Ret h' /\ h' !! hd = Some n' /\ length (Next n') = length (Next n) /\
    (forall j, (j < i + k)%nat -> Next n' !! j = Some None) /\ forall r, r <> hd -> h' !! r = h !! r.
Proof.
  revert h i n. induction k as [|k IH]; intros h i n Hn Hl Hj; cbn [clear_head].
  - exists h, n. split; [done|]. split; [done|]. split; [done|]. split; [|done]. intros j Hlt. apply Hj. lia.
  - unfold set_next, load. rewrite Hn. cbn [obind]. rewrite (proj2 (Nat.ltb_lt _ _)) by lia. cbn [obind].
    destruct (IH (<[hd := mkNode (Data n) (<[i := None]> (Next n))]> h) (S i) (mkNode (Data n) (<[i := None]> (Next n)))) as (h' & n' & E & E1 & E2 & E3 & E4).
    + apply lookup_insert_eq.
    + cbn [Next]. rewrite length_insert. lia.
    + intros j Hlt. cbn [Next]. destruct (decide (j = i)) as [->|]; [apply list_lookup_insert_eq; lia|]. rewrite list_lookup_insert_ne by done. apply Hj. lia.
    + cbn [Next] in E2. rewrite length_insert in E2. exists h', n'. split; [exact E|]. split; [exact E1|]. split; [exact E2|]. split.
      * intros j Hlt. apply E3. lia.
      * intros r Hr. rewrite E4 by done. by apply lookup_insert_ne.
Qed.

Lemma rep_head_node s ps : rep s ps -> exists n, heap s !! m_pHead s = Some n /\ length (Next n) = S (m_iMaxLevel s).
Proof.
  intros Hr. pose proof (rep_links _ _ Hr 0 ltac:(lia)) as Hl. pose proof (rep_head _ _ Hr) as Hh. unfold level in Hh.
  assert (is_Some (next_at (heap s) 0 (m_pHead s))) as [x Hx] by (destruct (at_level (heap s) 0 ps); cbn in Hl; [|destruct Hl as [-> _]]; eauto).
  unfold next_at in Hx. destruct (heap s !! m_pHead s) as [n|]; [|done]. exists n. split; [done|]. cbn in Hx. apply lookup_lt_Some in Hx. lia.
Qed.

Lemma clear_ok d s ps : delete_frees d -> rep s ps -> exists s', clear d s = Ret s' /\ rep s' [] /\ m_iCurLevel s' = m_iCurLevel s /\ m_iMaxLevel s' = m_iMaxLevel s /\
  forall p, p ∈ ps -> is_Some (heap s' !! p) <-> p ∉ evens ps.
Proof.
  intros Hfrees Hr. pose proof (rep_links _ _ Hr 0 ltac:(lia)) as Hl. rewrite at_level_0 in Hl. pose proof (rep_nodup _ _ Hr) as Hnd. apply NoDup_cons in Hnd as [Hnh Hnd].
  unfold clear. rewrite (next_of_at (heap s) (m_pHead s) 0 (head ps)) by (destruct ps; cbn in *; tauto). cbn [obind].
  destruct (drop_nodes_ok d (turns s) (heap s) ps (m_pHead s)) as (h1 & -> & D1 & D2); [done|by apply rep_size|done|done|]. cbn [obind].
  destruct (rep_head_node _ _ Hr) as (n & Hn & Hlen).
  destruct (clear_head_ok h1 (m_pHead s) 0 (S (m_iMaxLevel s)) n) as (h2 & n' & -> & E1 & E2 & E3 & E4).
  { rewrite D2; [exact Hn|]. intros H. apply evens_elem in H. contradiction. }
  { lia. }
  { lia. }
  cbn [obind]. eexists. split; [reflexivity|]. cbn [heap m_iCurLevel m_iMaxLevel]. split; [|split; [done|split; [done|]]].
  - split; cbn [heap brk m_pHead m_iCurLevel m_iMaxLevel].
    + apply NoDup_singleton.
    + set_solver.
    + unfold level. rewrite E1, E2, Hlen. done.
    + set_solver.
    + apply Hr.
    + intros i Hi. cbn. unfold next_at. rewrite E1. cbn. apply E3. lia.
    + intros p Hp. apply (rep_brk _ _ Hr). destruct (decide (p = m_pHead s)) as [->|Hne]; [rewrite Hn; eauto|].
      rewrite E4 in Hp by done. destruct (decide (p ∈ evens ps)) as [Hin|Hin]; [rewrite D1 in Hp by done; by destruct Hp|by rewrite D2 in Hp].
  - intros p Hp. rewrite E4 by (intros ->; contradiction). destruct (decide (p ∈ evens ps)) as [Hin|Hin].
    + rewrite D1 by done. split; [by intros [? ?]|contradiction].
    + rewrite D2 by done. split; [done|]. intros _. by apply (rep_node _ _ Hr).
Qed.

Lemma iterate_ok fuel h p ps l : (length ps < fuel)%nat -> lseg h 0 p ps -> Forall2 (fun p x => dat h p = Some x) ps l ->
  iterate fuel h (head ps) = Ret l.
Proof.
  revert fuel p l. induction ps as [|q ps IH]; intros fuel p l Hf Hl Hd; (destruct fuel as [|fuel]; [cbn in Hf; lia|]).
  - apply Forall2_nil_inv_l in Hd as ->. done.
  - apply Forall2_cons_inv_l in Hd as (x & l' & Hx & Hd & ->). destruct Hl as [_ Hl]. cbn [head iterate].
    destruct (load_dat _ _ _ Hx) as (n & _ & -> & <-). cbn [obind]. rewrite (next_of_at h q 0 (head ps)) by (destruct ps; cbn in *; tauto). cbn [obind].
    rewrite (IH fuel q l'); [done|cbn in Hf; lia|done|done].
Qed.

(** ** The list it holds *)

Context {HW : WeakOrder}.

Lemma above_ge t l x : sorted l -> x ∈ above t l -> m_cmp x t = false.
Proof.
  induction 1 as [|y l Hs IH Hy]; cbn; [set_solver|]. destruct (m_cmp y t) eqn:E; [auto|]. rewrite elem_of_cons. intros [->|H]; [done|].
  rewrite Forall_forall in Hy. destruct (m_cmp x t) eqn:Ex; [|done]. rewrite (cmp_trans y x t) in E; [done|by apply Hy|done].
Qed.

Lemma above_gt t l x y r : sorted l -> above t l = x :: r -> y ∈ r -> m_cmp t y = true.
Proof.
  induction 1 as [|z l Hs IH Hz]; cbn; [done|]. destruct (m_cmp z t) eqn:E; [auto|]. intros [= -> ->] Hy.
  rewrite Forall_forall in Hz. destruct (cmp_split x t y) as [H|H]; [by apply Hz|congruence|done].
Qed.

Lemma sorted_app_cons l1 t l2 : sorted (l1 ++ l2) -> (forall x, x ∈ l1 -> m_cmp x t = true) -> (forall y, y ∈ l2 -> m_cmp t y = true) -> sorted (l1 ++ t :: l2).
Proof.
  intros Hs H1 H2. induction l1 as [|x l1 IH]; cbn in *.
  - constructor; [done|]. apply Forall_forall. auto.
  - apply StronglySorted_inv in Hs as [Hs Hx]. constructor; [apply IH; [done|]; intros; apply H1; by right|].
    rewrite Forall_app, Forall_cons in *. destruct Hx. split; [done|]. split; [apply H1; left|done].
Qed.

Lemma sorted_remove l1 x l2 : sorted (l1 ++ x :: l2) -> sorted (l1 ++ l2).
Proof.
  induction l1 as [|y l1 IH]; cbn; intros Hs; apply StronglySorted_inv in Hs as [Hs Hx]; [done|].
  constructor; [by apply IH|]. rewrite Forall_app, Forall_cons in Hx. rewrite Forall_app. tauto.
Qed.

Lemma list_erase_sorted t l : sorted l -> sorted (list_erase t l).
Proof.
  intros Hs. unfold list_erase, present. rewrite (below_above t l) in Hs. destruct (above t l) as [|x r] eqn:E; [done|].
  destruct (m_cmp t x); cbn [negb tail]; [done|]. by apply sorted_remove in Hs.
Qed.

Lemma list_insert_sorted t l : sorted l -> sorted (list_insert t l).
Proof.
  intros Hs. pose proof (list_erase_sorted t l Hs) as He. unfold list_insert, list_erase in *. apply sorted_app_cons; [exact He| |].
  - intros x. apply below_lt.
  - intros y Hy. unfold present in Hy. destruct (above t l) as [|x r] eqn:E; [set_solver|].
    destruct (m_cmp t x) eqn:Ec; cbn [negb tail] in Hy; [|by apply (above_gt t l x y r)].
    apply elem_of_cons in Hy as [->|Hy]; [done|by apply (above_gt t l x y r)].
Qed.

(** Where [t] goes among the nodes. *)
Lemma holds_split s l t : holds s l -> exists xs ys, rep s (xs ++ ys) /\
  Forall2 (fun p x => dat (heap s) p = Some x) xs (below t l) /\ Forall2 (fun p x => dat (heap s) p = Some x) ys (above t l) /\
  (forall q, q ∈ xs -> exists x, dat (heap s) q = Some x /\ m_cmp x t = true) /\
  (forall q, q ∈ ys -> exists x, dat (heap s) q = Some x /\ m_cmp x t = false) /\
  (forall q q' r x x', ys = q :: r -> q' ∈ r -> dat (heap s) q = Some x -> dat (heap s) q' = Some x' -> m_cmp t x' = true).
Proof.
  intros (Hs & ps & Hr & Hd). rewrite (below_above t l) in Hd. apply Forall2_app_inv_r in Hd as (xs & ys & Hx & Hy & ->).
  exists xs, ys. split; [done|]. split; [done|]. split; [done|]. split; [|split].
  - intros q Hq. apply list_elem_of_lookup in Hq as [i Hi]. destruct (Forall2_lookup_l _ _ _ _ _ Hx Hi) as (x & Hxi & Hdx).
    exists x. split; [done|]. apply (below_lt t l). by apply list_elem_of_lookup_2 in Hxi.
  - intros q Hq. apply list_elem_of_lookup in Hq as [i Hi]. destruct (Forall2_lookup_l _ _ _ _ _ Hy Hi) as (x & Hxi & Hdx).
    exists x. split; [done|]. apply (above_ge t l); [done|]. by apply list_elem_of_lookup_2 in Hxi.
  - intros q q' r x x' -> Hq' _ Hx'. apply Forall2_cons_inv_l in Hy as (y & m & _ & Hm & E).
    apply list_elem_of_lookup in Hq' as [i Hi]. destruct (Forall2_lookup_l _ _ _ _ _ Hm Hi) as (z & Hz & Hdz).
    rewrite Hdz in Hx'. injection Hx' as <-. apply (above_gt t l y z m Hs E). by apply list_elem_of_lookup_2 in Hz.
Qed.

Lemma Forall2_dat_frame (h h' : gmap Z Node) ps l : (forall p, p ∈ ps -> dat h' p = dat h p) ->
  Forall2 (fun p x => dat h p = Some x) ps l -> Forall2 (fun p x => dat h' p = Some x) ps l.
Proof.
  intros Hf H. induction H as [|p x ps l Hp H IH]; constructor; [rewrite Hf by left; done|]. apply IH. intros q Hq. apply Hf. by right.
Qed.

Lemma holds_insert s l t lv : holds s l -> (m_iCurLevel s < m_iMaxLevel s)%nat -> (lv < m_iMaxLevel s)%nat ->
  (lv <= m_iCurLevel s)%nat \/ below t l = [] ->
  exists s', insert s t lv = Ret s' /\ holds s' (list_insert t l) /\ m_iMaxLevel s' = m_iMaxLevel s.
Proof.
  intros Hs Hc Hlv Hraise. destruct (holds_split s l t Hs) as (xs & ys & Hr & Hx & Hy & Hlow & Hhigh & _).
  pose proof (list_insert_sorted t l (proj1 Hs)) as Hsort. unfold list_insert in *. destruct (present t l) eqn:Ep.
  - unfold present in Ep. destruct (above t l) as [|x m] eqn:Ea; [done|]. apply negb_true_iff in Ep.
    apply Forall2_cons_inv_r in Hy as (q & r & Hq & Hm & Ey). subst ys. pose proof (rep_nodup _ _ Hr) as Hnd. rewrite NoDup_cons, NoDup_app, NoDup_cons in Hnd.
    destruct (insert_same s xs (q :: r) t Hr Hlow Hhigh Hc lv q r x eq_refl Hq Ep) as (s' & E & Hr' & Ht & Hd & Em).
    exists s'. split; [exact E|]. split; [|exact Em]. split; [exact Hsort|]. exists (xs ++ q :: r). split; [exact Hr'|]. cbn [tail].
    apply Forall2_app; [|constructor; [exact Ht|]]; (eapply Forall2_dat_frame; [|eassumption]); intros p Hp; apply Hd; intros ->; set_solver.
  - assert (Hnew : forall q r x, ys = q :: r -> dat (heap s) q = Some x -> m_cmp t x = true).
    { intros q r x -> Hq. apply Forall2_cons_inv_l in Hy as (y & m & Hy' & _ & Ea). unfold present in Ep. rewrite Ea in Ep.
      apply negb_false_iff in Ep. congruence. }
    destruct (insert_new s xs ys t Hr Hlow Hhigh Hc lv Hlv) as (s' & E & Hr' & Ht & Hd & Em); [|exact Hnew|].
    { destruct Hraise as [?|Hb]; [by left|right]. rewrite Hb in Hx. apply Forall2_nil_inv_r in Hx as ->. done. }
    exists s'. split; [exact E|]. split; [|exact Em]. split; [exact Hsort|]. exists (xs ++ brk s :: ys). split; [exact Hr'|].
    pose proof (proj1 (brk_fresh s xs ys Hr Hc)) as Hb.
    apply Forall2_app; [|constructor; [exact Ht|]]; (eapply Forall2_dat_frame; [|eassumption]); intros p Hp; apply Hd; intros ->; set_solver.
Qed.

Lemma holds_erase d s l t : delete_frees d -> holds s l -> (m_iCurLevel s < m_iMaxLevel s)%nat ->
  exists s', erase d s t = Ret (s', present t l) /\ holds s' (list_erase t l) /\ (m_iCurLevel s' < m_iMaxLevel s')%nat.
Proof.
  intros Hfrees Hs Hc. destruct (holds_split s l t Hs) as (xs & ys & Hr & Hx & Hy & Hlow & Hhigh & _).
  pose proof (list_erase_sorted t l (proj1 Hs)) as Hsort. unfold list_erase in *. destruct (present t l) eqn:Ep.
  - unfold present in Ep. destruct (above t l) as [|x m] eqn:Ea; [done|]. apply negb_true_iff in Ep.
    apply Forall2_cons_inv_r in Hy as (q & r & Hq & Hm & Ey). subst ys. pose proof (rep_nodup _ _ Hr) as Hnd. rewrite NoDup_cons, NoDup_app, NoDup_cons in Hnd.
    destruct (erase_found d s xs q r t x Hfrees Hr Hlow Hhigh Hc Hq Ep) as (s' & E & Hr' & Hd & Hc').
    exists s'. split; [exact E|]. split; [|exact Hc']. split; [exact Hsort|]. exists (xs ++ r). split; [exact Hr'|]. cbn [tail].
    apply Forall2_app; (eapply Forall2_dat_frame; [|eassumption]); intros p Hp; apply Hd; intros ->; set_solver.
  - exists s. split; [|split; [|exact Hc]].
    + apply (erase_missing d s xs ys t Hr Hlow Hhigh Hc). intros q r x -> Hq. apply Forall2_cons_inv_l in Hy as (y & m & Hy' & _ & Ea).
      unfold present in Ep. rewrite Ea in Ep. apply negb_false_iff in Ep. congruence.
    + split; [exact Hsort|]. exists (xs ++ ys). split; [exact Hr|]. by apply Forall2_app.
Qed.

(** What [get] returns. *)
Definition list_get (d t : T) (l : list T) : bool * T := match above t l with x :: _ => if m_cmp t x then (false, d) else (true, x) | [] => (false, d) end.

Lemma holds_find s l t : holds s l -> contains s t = Ret (present t l) /\ forall d, get s d t = Ret (list_get d t l).
Proof.
  intros Hs. destruct (holds_split s l t Hs) as (xs & ys & Hr & _ & Hy & Hlow & Hhigh & Hgt).
  unfold contains, get, find_node, present, list_get. rewrite (find_from_ok s xs ys t Hr Hlow Hhigh) by (exact (rep_cur _ _ Hr) || auto).
  destruct ys as [|q r]; [apply Forall2_nil_inv_l in Hy as ->; done|]. apply Forall2_cons_inv_l in Hy as (x & m & Hq & _ & ->).
  rewrite Hq. destruct (m_cmp t x); cbn [obind]; [done|]. split; [done|]. intros d. destruct (load_dat _ _ _ Hq) as (n & _ & -> & <-). done.
Qed.

Lemma holds_elements s l : holds s l -> elements_of s = Ret l.
Proof.
  intros (_ & ps & Hr & Hd). pose proof (rep_links _ _ Hr 0 ltac:(lia)) as Hl. rewrite at_level_0 in Hl. unfold elements_of.
  rewrite (next_of_at (heap s) (m_pHead s) 0 (head ps)) by (destruct ps; cbn in *; tauto). cbn [obind].
  apply (iterate_ok _ _ (m_pHead s) ps); [by apply rep_size|done|done].
Qed.

Lemma holds_nil s : rep s [] -> holds s [].
Proof. intros H. split; [constructor|]. exists []. split; [exact H|constructor]. Qed.


(** [clear] deletes every other node only: the second, the fourth and so on stay allocated. *)
Theorem clear_leaks (d : deleter) (s : skip_list) (ps : list Z) (Hfrees : delete_frees d) (Hr : rep s ps) :
  exists s', clear d s = Ret s' /\ rep s' [] /\ forall k p, ps !! k = Some p -> Nat.odd k = true -> is_Some (heap s' !! p).
Proof.
  destruct (clear_ok d s ps Hfrees Hr) as (s' & E & Hr' & _ & _ & Hk). exists s'. split; [exact E|]. split; [exact Hr'|].
  pose proof (rep_nodup _ _ Hr) as Hnd. apply NoDup_cons in Hnd as [_ Hnd].
  intros k p Hp Hodd. apply Hk; [by apply list_elem_of_lookup_2 in Hp|].
  clear -Hnd Hp Hodd. revert k Hp Hodd. induction ps as [|a|a b l IH] using pairs_ind; intros k Hp Hodd.
  - done.
  - destruct k as [|k]; [done|]. destruct k; done.
  - rewrite !NoDup_cons in Hnd. destruct Hnd as (N1 & N2 & N3). destruct k as [|[|k]]; [done| |].
    + injection Hp as ->. cbn [evens]. intros H. apply elem_of_cons in H as [->|H]; [set_solver|]. apply evens_elem in H. contradiction.
    + cbn [evens]. intros H. apply elem_of_cons in H as [->|H].
      * change (l !! k = Some a) in Hp. apply list_elem_of_lookup_2 in Hp. apply N1. by right.
      * revert H. apply (IH N3 k); [exact Hp|]. by rewrite Nat.odd_succ_succ in Hodd.
Qed.

(** The array of previous nodes is one short: inserting a new element with
    the maximum level, which [rand_level] gives, writes behind its end. *)
Theorem insert_overruns (s : skip_list) (l : list T) (t : T) (Hs : holds s l) (Hc : (m_iCurLevel s < m_iMaxLevel s)%nat) (Hp : present t l = false) :
  insert s t (m_iMaxLevel s) = Undef "targetPrev out of range".
Proof.
  destruct (holds_split s l t Hs) as (xs & ys & Hr & _ & Hy & Hlow & Hhigh & _).
  destruct (find_previous_ok s xs ys t Hr Hlow Hhigh Hc) as (tp & E & Elen & Htp).
  unfold insert. rewrite E. cbn [obind]. rewrite (fetch_ok _ _ _ (Htp O ltac:(lia))). cbn [obind]. rewrite (next_prev s xs ys Hr). cbn [obind].
  assert (Hraise : forall k i tp, (i <= length tp)%nat -> (length tp < i + k)%nat -> raise tp (m_pHead s) i k = Undef "targetPrev out of range").
  { induction k as [|k IH]; intros i tp' H1 H2; [lia|]. cbn [raise]. unfold store. destruct (Nat.ltb_spec i (length tp')) as [Hlt|Hge]; cbn [obind]; [|done].
    apply IH; rewrite length_insert; lia. }
  rewrite (proj2 (Nat.ltb_lt _ _) Hc).
  destruct ys as [|q r].
  - cbn [list.head obind]. rewrite Hraise by lia. done.
  - apply Forall2_cons_inv_l in Hy as (x & m & Hq & _ & Ea). unfold present in Hp. rewrite Ea in Hp. apply negb_false_iff in Hp.
    cbn [list.head]. destruct (load_dat _ _ _ Hq) as (n & _ & -> & En). cbn [obind]. rewrite En, Hp, andb_false_r. cbn [obind]. rewrite Hraise by lia. done.
Qed.

Lemma rand_level_bound maxLevel l rands : (l <= maxLevel)%nat -> (l <= rand_level maxLevel l rands <= maxLevel)%nat.
Proof.
  revert l. induction rands as [|r rands IH]; intros l Hl; cbn [rand_level]; [lia|].
  destruct (Z.ltb (Z.rem r 12) 4 && Nat.ltb l maxLevel) eqn:E; [|lia]. apply andb_true_iff in E as [_ E]. apply Nat.ltb_lt in E.
  specialize (IH (S l)). lia.
Qed.

(** A new list: every level below [SKIPLIST_MAX_LEVEL] becomes [SKIPLIST_MIN_LEVEL]. *)
Lemma init_holds maxLevel d : (0 <= maxLevel < SKIPLIST_MAX_LEVEL) ->
  exists s, init maxLevel d = Ret s /\ holds s [] /\ m_iCurLevel s = 0%nat /\ m_iMaxLevel s = 3%nat.
Proof.
  intros Hm. unfold init. rewrite u32_id by (unfold in_u; unfold SKIPLIST_MAX_LEVEL in *; lia).
  rewrite (proj2 (Z.ltb_lt maxLevel SKIPLIST_MAX_LEVEL)) by lia. cbn. eexists. split; [reflexivity|]. split; [|done]. apply holds_nil.
  split; cbn [heap brk m_pHead m_iCurLevel m_iMaxLevel].
  - apply NoDup_singleton.
  - intros p Hp. by apply elem_of_nil in Hp.
  - reflexivity.
  - intros p Hp. by apply elem_of_nil in Hp.
  - lia.
  - intros i Hi. change (i <= 3)%nat in Hi. destruct i as [|[|[|[|i]]]]; [reflexivity..|lia].
  - intros p [n Hp]. apply lookup_singleton_Some in Hp as [<- _]. lia.
Qed.

End skip_list.

Module SkipDemo.

#[local] Instance ltb_order : WeakOrder Z.ltb.
Proof. split; intros; rewrite ?Z.ltb_lt in *; [apply Z.ltb_irrefl|lia|lia]. Qed.

Definition empty0 : skip_list := match skip_list_default 0 with Ret s => s | _ => mkSL ∅ 0 0 0 0 end.
(** free(3) *)
Definition free : deleter (T := Z) := fun h p =>
  match h !! p with Some _ => Ret (delete p h) | None => Undef "free of memory that is not allocated" end.
Lemma free_frees : delete_frees free.
Proof. intros h p [n H]. unfold free. by rewrite H. Qed.

Definition after (s : skip_list) (t : Z) (lv : nat) : skip_list := match insert Z.ltb s t lv with Ret s => s | _ => s end.

Lemma empty0_holds : holds Z.ltb empty0 [].
Proof. destruct (init_holds Z.ltb SKIPLIST_DEFAULT_LEVEL 0) as (s & E & Hs & _); [unfold SKIPLIST_DEFAULT_LEVEL, SKIPLIST_MAX_LEVEL; lia|]. injection E as <-. exact Hs. Qed.


Lemma insert_overruns_witness : insert Z.ltb empty0 7 3 = Undef "targetPrev out of range".
Proof. refine (insert_overruns Z.ltb empty0 [] 7 empty0_holds _ eq_refl). vm_compute. lia. Defined.

Lemma clear_leaks_witness : (exists s', clear free (after (after empty0 5 0) 6 0) = Ret s' /\ rep s' [] /\
  forall k p, [1; 2] !! k = Some p -> Nat.odd k = true -> is_Some (heap s' !! p)).
Proof.
  apply (clear_leaks free (after (after empty0 5 0) 6 0) [1; 2] free_frees). split; cbn [heap brk m_pHead m_iCurLevel m_iMaxLevel].
  - apply (bool_decide_unpack _). vm_compute. exact I.
  - intros p Hp. rewrite !elem_of_cons, elem_of_nil in Hp. destruct Hp as [->|[->|[]]]; vm_compute; eauto.
  - reflexivity.
  - intros p Hp. rewrite !elem_of_cons, elem_of_nil in Hp. destruct Hp as [->|[->|[]]]; vm_compute; lia.
  - vm_compute. lia.
  - intros i Hi. change (m_iMaxLevel (after (after empty0 5 0) 6 0)) with 3%nat in Hi.
    destruct i as [|[|[|[|i]]]]; [| | | |lia]; vm_compute; auto.
  - intros p Hp. assert (p ∈ dom (heap (after (after empty0 5 0) 6 0))) as Hd by (by apply elem_of_dom).
    assert (forall x, x ∈ elements (dom (heap (after (after empty0 5 0) 6 0))) -> x < 3) as H.
    { apply (bool_decide_unpack _) || (intros x; vm_compute elements; rewrite !elem_of_cons, elem_of_nil; lia). }
    apply H, elem_of_elements, Hd.
Defined.

(** Raising the level loses an element: after 1 at level 0 and 2 at level 1,
    the list is out of order and [contains] no longer finds 1. *)
Theorem insert_misplaces :
  (let* s := insert Z.ltb empty0 1 0 in let* s := insert Z.ltb s 2 1 in
   let* found := contains Z.ltb s 1 in let* l := elements_of s in Ret (found, l)) = Ret (false, [2; 1]).
Proof. vm_compute. reflexivity. Qed.

End SkipDemo.
End SkipList.
