(* ===== verification/SegVector.v ===== *)
(** * SegVector: the segmented vector

    Models src/src/common/segmented-vector.h with its default size type
    [uint32_t].  [erase_tail] and [vacuum] call [std::vector::erase] with two
    numbers, which no overload takes: a program that uses them does not
    compile, so they have no model. *)

From S2P Require Import Prelude ServerConf.

Module SegVector.

Definition DEFAULT_SEGMENT_SIZE : Z := 127.
Definition DEFAULT_EXPEND_SEG_NUM : Z := 1.

Section vec.
Context {T : Type}.

(** [first] and [second] are [m_nextElementShouldUsedIdx]. *)
Record SegmentedVector := mkSV {
  m_iSegmentSize : Z;
  m_iExpandSegmentNum : Z;
  m_vSegments : list (list T);
  m_iSegmentsMaxIdx : Z;
  first : Z;
  second : Z;
  m_iSize : Z
}.

Definition alloc_new_segments (v : SegmentedVector) : SegmentedVector :=
  mkSV (m_iSegmentSize v) (m_iExpandSegmentNum v) (m_vSegments v ++ replicate (Z.to_nat (m_iExpandSegmentNum v)) [])
    (i64 (m_iSegmentsMaxIdx v + m_iExpandSegmentNum v)) (first v) (second v) (m_iSize v).

Definition init (v : SegmentedVector) : SegmentedVector :=
  mkSV (m_iSegmentSize v) (m_iExpandSegmentNum v) (m_vSegments v) (m_iSegmentsMaxIdx v) (u32 (m_iSegmentsMaxIdx v)) 0 0.

(** The constructors; the number of segments to reserve has no effect. *)
Definition SegmentedVector_default : SegmentedVector :=
  init (alloc_new_segments (mkSV DEFAULT_SEGMENT_SIZE DEFAULT_EXPEND_SEG_NUM [] (-1) 0 0 0)).
Definition SegmentedVector_new (segmentSize expendSegNumber : Z) : outcome SegmentedVector :=
  if negb (IsPowerOfTwo segmentSize) then Abort "assert"
  else Ret (init (alloc_new_segments (mkSV (u32 (segmentSize - 1)) expendSegNumber [] (-1) 0 0 0))).

(** Without a number of segments to expand by it is the default one. *)
Definition SegmentedVector_size (segmentSize : Z) : outcome SegmentedVector := SegmentedVector_new segmentSize DEFAULT_EXPEND_SEG_NUM.
Definition SegmentedVector_reserve (segmentSize reserveSegmentsCnt : Z) : outcome SegmentedVector := SegmentedVector_new segmentSize DEFAULT_EXPEND_SEG_NUM.

Definition at_ (v : SegmentedVector) (index : Z) : outcome T :=
  if Z.eqb (m_iSegmentSize v) 0 then Undef "division by zero"
  else
    let segIdx := index / m_iSegmentSize v in
    let inSegIdx := Z.land index (m_iSegmentSize v) in
    match m_vSegments v !! Z.to_nat segIdx with
    | None => Undef "segment out of range"
    | Some seg => match seg !! Z.to_nat inSegIdx with Some x => Ret x | None => Undef "element out of range" end
    end.

Definition push_back (v : SegmentedVector) (element : T) : outcome SegmentedVector :=
  let size := u32 (m_iSize v + 1) in
  let v := mkSV (m_iSegmentSize v) (m_iExpandSegmentNum v) (m_vSegments v) (m_iSegmentsMaxIdx v) (first v) (second v) size in
  let v :=
    if Z.ltb (m_iSegmentSize v) (second v) then
      let v := if Z.eqb (m_iSegmentsMaxIdx v) (first v) then alloc_new_segments v else v in
      mkSV (m_iSegmentSize v) (m_iExpandSegmentNum v) (m_vSegments v) (m_iSegmentsMaxIdx v) (u32 (first v + 1)) 1 (m_iSize v)
    else mkSV (m_iSegmentSize v) (m_iExpandSegmentNum v) (m_vSegments v) (m_iSegmentsMaxIdx v) (first v) (u32 (second v + 1)) (m_iSize v) in
  match m_vSegments v !! Z.to_nat (first v) with
  | None => Undef "segment out of range"
  | Some seg => Ret (mkSV (m_iSegmentSize v) (m_iExpandSegmentNum v) (<[Z.to_nat (first v) := seg ++ [element]]> (m_vSegments v))
                       (m_iSegmentsMaxIdx v) (first v) (second v) (m_iSize v))
  end.

(** The overload for a value that can be moved from does the same. *)
Definition push_back_move : SegmentedVector -> T -> outcome SegmentedVector := push_back.

Definition clear (v : SegmentedVector) : SegmentedVector :=
  let v := init v in
  mkSV (m_iSegmentSize v) (m_iExpandSegmentNum v) ((fun _ => []) <$> m_vSegments v) (m_iSegmentsMaxIdx v) (first v) (second v) (m_iSize v).

Definition size (v : SegmentedVector) : Z := m_iSize v.
Definition empty (v : SegmentedVector) : bool := Z.eqb (m_iSize v) 0.

(** Pushing the elements of a list. *)
Fixpoint push_all (v : SegmentedVector) (l : list T) : outcome SegmentedVector :=
  match l with [] => Ret v | x :: l => let* v := push_back v x in push_all v l end.

(** ** The layout *)

(** [N] elements in each segment but the last. *)
Record layout (N : nat) (v : SegmentedVector) (l : list T) : Prop := {
  la_size : m_iSegmentSize v = Z.of_nat N - 1;
  la_expand : m_iExpandSegmentNum v = 1;
  la_segments : Z.of_nat (length (m_vSegments v)) = first v + 1;
  la_max : m_iSegmentsMaxIdx v = first v;
  la_first : 0 <= first v;
  la_second : 0 <= second v <= Z.of_nat N;
  la_count : Z.of_nat (length l) = first v * Z.of_nat N + second v;
  la_total : m_iSize v = Z.of_nat (length l);
  la_content : forall i, (i < length (m_vSegments v))%nat -> m_vSegments v !! i = Some (take N (drop (i * N) l))
}.

Lemma layout_push N v l x : (0 < N)%nat -> Z.of_nat N <= 2 ^ 31 -> Z.of_nat (length l) < 2 ^ 31 -> layout N v l ->
  exists v', push_back v x = Ret v' /\ layout N v' (l ++ [x]).
Proof.
  intros HN HN2 Hl [H1 H2 H3 H4 H5 H6 H7 H8 H9]. unfold push_back. cbn [m_iSegmentSize m_iExpandSegmentNum m_vSegments m_iSegmentsMaxIdx first second m_iSize].
  assert (0 <= first v < 2 ^ 31) as Hf by nia.
  assert (u32 (m_iSize v + 1) = Z.of_nat (length (l ++ [x]))) as Hsz by (rewrite length_app, H8; cbn [length]; rewrite u32_id; [lia|unfold in_u; lia]).
  assert (Hkeep : forall i, (i * N + N <= length l)%nat -> take N (drop (i * N) (l ++ [x])) = take N (drop (i * N) l)).
  { intros i Hi. rewrite drop_app_le by lia. rewrite take_app_le; [done|]. rewrite length_drop. lia. }
  rewrite H1. destruct (Z.ltb_spec (Z.of_nat N - 1) (second v)) as [Hfull|Hroom].
  - rewrite H4, Z.eqb_refl. cbn [alloc_new_segments m_iSegmentSize m_iExpandSegmentNum m_vSegments m_iSegmentsMaxIdx first second m_iSize].
    rewrite H2. change (replicate (Z.to_nat 1) ([] : list T)) with [[] : list T]. rewrite u32_id by (unfold in_u; lia).
    assert (Z.to_nat (first v + 1) = length (m_vSegments v)) as Ei by lia. rewrite Ei.
    rewrite lookup_app_r, Nat.sub_diag by lia. cbn [lookup list_lookup]. eexists. split; [reflexivity|]. cbn [app].
    split; cbn [m_iSegmentSize m_iExpandSegmentNum m_vSegments m_iSegmentsMaxIdx first second m_iSize]; try done; try lia.
    + rewrite length_insert, length_app. cbn [length]. lia.
    + unfold i64. rewrite swrap_id; [lia|lia|unfold in_s; cbn; lia].
    + rewrite length_app. cbn [length]. nia.
    + intros i Hi. rewrite length_insert, length_app in Hi. cbn [length] in Hi. destruct (decide (i = length (m_vSegments v))) as [->|Hne].
      * rewrite list_lookup_insert_eq by (rewrite length_app; cbn; lia). f_equal.
        rewrite drop_app_le by nia. rewrite (drop_ge l) by nia. cbn [app]. rewrite take_ge by (cbn; lia). done.
      * rewrite list_lookup_insert_ne by lia. rewrite lookup_app_l by lia. rewrite H9 by lia. rewrite Hkeep by nia. done.
  - cbn [first m_vSegments]. assert (Z.to_nat (first v) < length (m_vSegments v))%nat as Hi by lia. rewrite (H9 _ Hi).
    eexists. split; [reflexivity|]. split; cbn [m_iSegmentSize m_iExpandSegmentNum m_vSegments m_iSegmentsMaxIdx first second m_iSize]; try done; try lia.
    + rewrite length_insert. lia.
    + rewrite u32_id by (unfold in_u; lia). lia.
    + rewrite u32_id by (unfold in_u; lia). rewrite length_app. cbn [length]. lia.
    + intros i Hlt. rewrite length_insert in Hlt. destruct (decide (i = Z.to_nat (first v))) as [->|Hne].
      * rewrite list_lookup_insert_eq by done. f_equal. rewrite (take_ge (drop _ l)) by (rewrite length_drop; nia).
        rewrite drop_app_le by nia. rewrite take_ge; [done|]. rewrite length_app, length_drop. cbn [length]. nia.
      * rewrite list_lookup_insert_ne by lia. rewrite H9 by lia. rewrite Hkeep by nia. done.
Qed.

Lemma layout_push_all N v l l' : (0 < N)%nat -> Z.of_nat N <= 2 ^ 31 -> Z.of_nat (length (l ++ l')) <= 2 ^ 31 -> layout N v l ->
  exists v', push_all v l' = Ret v' /\ layout N v' (l ++ l').
Proof.
  intros HN HN2. revert v l. induction l' as [|x l' IH]; intros v l Hl Hv; cbn [push_all]; [rewrite app_nil_r; eauto|].
  destruct (layout_push N v l x) as (v1 & -> & H1); [done|done|rewrite length_app in Hl; cbn in Hl; lia|done|]. cbn [obind].
  destruct (IH v1 (l ++ [x])) as (v2 & E & H2); [rewrite <- app_assoc; done|done|]. exists v2. rewrite <- app_assoc in H2. eauto.
Qed.

(** The position of the element that [operator\[\]] gives for an index. *)
Definition position (N k : nat) : nat := k / (N - 1) * N + k mod N.

Definition result {A : Type} (o : outcome A) : option A := match o with Ret a => Some a | _ => None end.

Lemma layout_at n v l k : (0 < n)%nat -> layout (2 ^ n) v l -> result (at_ v (Z.of_nat k)) = l !! position (2 ^ n) k.
Proof.
  intros Hn Hv. set (N := (2 ^ n)%nat) in *.
  assert (2 <= N)%nat as HN. { unfold N. pose proof (Nat.pow_le_mono_r 2 1 n ltac:(lia) ltac:(lia)). cbn in *. lia. }
  assert (Z.of_nat N = 2 ^ Z.of_nat n) as EN by (unfold N; rewrite Nat2Z.inj_pow; done).
  unfold at_. rewrite (la_size _ _ _ Hv). destruct (Z.eqb_spec (Z.of_nat N - 1) 0); [lia|].
  replace (Z.land (Z.of_nat k) (Z.of_nat N - 1)) with (Z.of_nat (k mod N)).
  2: { rewrite EN. replace (2 ^ Z.of_nat n - 1) with (Z.ones (Z.of_nat n)) by (rewrite Z.ones_equiv; lia). rewrite Z.land_ones by lia. rewrite <- EN. by rewrite Nat2Z.inj_mod. }
  replace (Z.of_nat k / (Z.of_nat N - 1)) with (Z.of_nat (k / (N - 1))) by (rewrite Nat2Z.inj_div, Nat2Z.inj_sub by lia; done).
  rewrite !Nat2Z.id. pose proof (Nat.mod_upper_bound k N ltac:(lia)) as Hm. unfold position. set (i := (k / (N - 1))%nat).
  destruct (decide (i < length (m_vSegments v))%nat) as [Hi|Hi].
  - rewrite (la_content _ _ _ Hv i Hi). rewrite lookup_take_lt, lookup_drop by done. by destruct (l !! _).
  - rewrite lookup_ge_None_2 by lia. cbn [result]. symmetry. apply lookup_ge_None_2.
    pose proof (la_count _ _ _ Hv). pose proof (la_second _ _ _ Hv). pose proof (la_segments _ _ _ Hv). nia.
Qed.

(** What a segmented vector of segments of [2^n] elements stores and returns:
    pushing a list gives a vector of its length, and [operator\[\]] on [k]
    gives the element at [k / (2^n - 1) * 2^n + k mod 2^n], or is undefined if
    there is none: the element [k] itself exactly when [k / (2^n - 1)] and
    [k / 2^n] agree, so not for the last element of the first segment. *)
Theorem seg_vector_index (n : nat) (l : list T) (Hn : (0 < n < 31)%nat) (Hl : Z.of_nat (length l) <= 2 ^ 31) :
  exists v0 v, SegmentedVector_new (2 ^ Z.of_nat n) 1 = Ret v0 /\ push_all v0 l = Ret v /\ size v = Z.of_nat (length l) /\
    (forall k, result (at_ v (Z.of_nat k)) = l !! position (2 ^ n) k) /\
    (forall k, position (2 ^ n) k = k <-> (k / (2 ^ n - 1) = k / 2 ^ n)%nat) /\ position (2 ^ n) (2 ^ n - 1) <> (2 ^ n - 1)%nat.
Proof.
  assert (Z.of_nat (2 ^ n) = 2 ^ Z.of_nat n) as EN by (rewrite Nat2Z.inj_pow; done).
  assert (2 <= 2 ^ n)%nat as HN. { pose proof (Nat.pow_le_mono_r 2 1 n ltac:(lia) ltac:(lia)). cbn in *. lia. }
  assert (2 ^ Z.of_nat n <= 2 ^ 30) as HN2 by (apply Z.pow_le_mono_r; lia).
  unfold SegmentedVector_new. assert (IsPowerOfTwo (2 ^ Z.of_nat n) = true) as ->.
  { unfold IsPowerOfTwo. rewrite (proj2 (Z.ltb_lt 0 (2 ^ Z.of_nat n))) by lia. replace (2 ^ Z.of_nat n - 1) with (Z.ones (Z.of_nat n)) by (rewrite Z.ones_equiv; lia).
    rewrite Z.land_ones by lia. rewrite Z.mod_same by lia. done. }
  cbn [negb]. eexists _. destruct (layout_push_all (2 ^ n) (init (alloc_new_segments (mkSV (u32 (2 ^ Z.of_nat n - 1)) 1 [] (-1) 0 0 0))) [] l) as (v & E & Hv).
  - lia.
  - lia.
  - exact Hl.
  - split; cbn; try done; try lia; [rewrite u32_id by (unfold in_u; lia); lia|]. intros i Hi. change (i < 1)%nat in Hi. replace i with O by lia. cbn. by rewrite take_nil.
  - exists v. split; [reflexivity|]. split; [exact E|]. split; [apply (la_total _ _ _ Hv)|]. split; [intros k; apply layout_at; [lia|done]|]. split.
    + intros k. unfold position. set (N := (2 ^ n)%nat) in *. pose proof (Nat.div_mod_eq k N). nia.
    + unfold position. set (N := (2 ^ n)%nat) in *. rewrite Nat.div_same, Nat.mod_small by lia. lia.
Qed.

End vec.

Lemma seg_vector_index_witness : (exists v0 v, SegmentedVector_new (2 ^ Z.of_nat 2) 1 = Ret v0 /\ push_all v0 [10; 11; 12; 13; 14] = Ret v /\
  result (at_ v (Z.of_nat 2)) = Some 12 /\ result (at_ v (Z.of_nat 3)) = None).
Proof.
  destruct (seg_vector_index 2 [10; 11; 12; 13; 14]) as (v0 & v & E0 & E & _ & H & _); [lia|cbn; lia|].
  exists v0, v. split; [exact E0|]. split; [exact E|]. rewrite !H. split; reflexivity.
Defined.

End SegVector.
