(* ===== verification/Daemon.v ===== *)
(** * Daemon: start and end of the process

    Models src/src/common/global-vars.cc (Module [Globals]), main and the signal
    handler of src/src/server/ccraftd-main.cc (Module [Main]), and the signal
    handler against [ServiceDestroyer] of src/src/server/node/service-manager.cc
    as a step system of threads (Module [Shutdown]). *)

From S2P Require Import Prelude MemPool PoolDelete FileUtils Timer Hash ServerConf Node.

(** ** The global objects *)
Module Globals.

(** What the system answers: [sysconf], [get_nprocs], [popen], the output of
    lscpu with whether reading it fails, [pclose]; and the initial count of the
    free tiny objects and the heap of the pool. *)
Record answers := mkAnswers {
  cacheline : Z;
  page : Z;
  nprocs : Z;
  popen_ok : bool;
  lscpu : list Z;
  read_fails : bool;
  pclose_ok : bool;
  uninit : Z;
  sys_heap : gmap Z Z
}.

Record globals := mkGlobals {
  LOGIC_CPUS_CNT : Z;
  PHYSICAL_CPUS_CNT : Z;
  CACHELINE_SIZE : Z;
  PAGE_SIZE : Z;
  g_pTimer : option Timer;
  g_pMemPool : option MemPool
}.

(** [while (fread(buffer, 1, 80, fp), !feof(fp) && !ferror(fp))]: each turn
    overwrites the buffer from its start; a short one is the last. *)
Fixpoint fread_all (fuel : nat) (out buffer : list Z) : list Z :=
  match fuel with
  | O => buffer
  | S fuel =>
      if Nat.ltb (length out) 80 then out ++ drop (length out) buffer
      else fread_all fuel (drop 80 out) (take 80 out)
  end.

(** [atoi] on a buffer: 0 without a digit; undefined when nothing ends the
    number in the buffer or an [int] does not hold it. *)
Definition atoi (buffer : list Z) : outcome Z :=
  let s := ltrim buffer in
  let '(neg, s) := match s with 45 :: s' => (true, s') | 43 :: s' => (false, s') | _ => (false, s) end in
  let '(ds, rest) := span isdigit s in
  match rest with
  | [] => Undef "read past the buffer"
  | _ =>
      let v := if neg then - digits_value ds else digits_value ds in
      if Z.leb (- 2 ^ 31) v && Z.ltb v (2 ^ 31) then Ret v else Undef "atoi out of range"
  end.

Definition initialize (a : answers) : outcome globals :=
  if negb (popen_ok a) then Throw "popen"
  else
    let buffer := fread_all (S (length (lscpu a))) (lscpu a) (replicate 80 0) in
    if read_fails a then Throw "fread err occur!"
    else if negb (pclose_ok a) then Throw "pclose"
    else
      let* threads := atoi buffer in
      if Z.eqb threads 0 then Undef "division by zero"
      else
        let physical := Z.quot (nprocs a) threads in
        if Z.eqb 0 physical then Throw "atoi physical cpus cnt failed!"
        else
          let* timer := Timer.Start Timer_new in
          Ret (mkGlobals (nprocs a) physical (cacheline a) (page a) (Some timer)
                 (Some (MemPool_new (MemPool_default_conf (page a) (nprocs a)) (uninit a) (sys_heap a)))).

(** The globals and the heap that is left. *)
Definition uninitialize (g : globals) : outcome (globals * option (gmap Z Z)) :=
  match g_pTimer g with
  | None => Undef "null timer"
  | Some t =>
      let* t := Timer.Stop t in
      let* _ := Timer_delete t in
      let* h := match g_pMemPool g with Some p => let* (h, _) := MemPool_delete p in Ret (Some h) | None => Ret None end in
      Ret (mkGlobals (LOGIC_CPUS_CNT g) (PHYSICAL_CPUS_CNT g) (CACHELINE_SIZE g) (PAGE_SIZE g) None None, h)
  end.

(** The last turn of the loop leaves the rest of the output in front of what
    the turn before left. *)
Lemma fread_all_short fuel out buffer : (length out < 80)%nat -> fread_all (S fuel) out buffer = out ++ drop (length out) buffer.
Proof. intros H. simpl. by rewrite (proj2 (Nat.ltb_lt _ _) H). Qed.

(** A turn takes 80 bytes, so that the fuel [initialize] uses is enough. *)
Lemma fread_all_fuel fuel out buffer : (length out < fuel)%nat -> fread_all fuel out buffer = fread_all (S (length out)) out buffer.
Proof.
  revert out buffer. induction fuel as [fuel IH] using lt_wf_ind. intros out buffer H. destruct fuel as [|fuel]; [lia|]. simpl.
  destruct (Nat.ltb_spec (length out) 80) as [|Hl]; [done|]. pose proof (length_drop out 80) as Hd.
  rewrite (IH fuel) by lia. symmetry. by apply IH; lia.
Qed.

Lemma digits_length fuel z : (length (digits fuel z) <= fuel)%nat.
Proof.
  revert z. induction fuel as [|fuel IH]; intros z; [done|]. cbn [digits]. rewrite length_app. simpl.
  destruct (Z.ltb z 10); simpl; [lia|]. specialize (IH (z / 10)). lia.
Qed.

Lemma decimal_atoi z n : 0 < z < 2 ^ 31 -> atoi (decimal z ++ 10 :: replicate n 0) = Ret z.
Proof.
  intros Hz. destruct (decimal_spec z ltac:(lia)) as (H1 & H2 & H3). unfold atoi.
  pose proof (span_app isdigit (decimal z) (10 :: replicate n 0) H2 eq_refl) as Es.
  destruct (decimal z) as [|c ds] eqn:Ed; [done|]. apply Forall_cons in H2 as [Hc H2].
  destruct (digit_not_space c Hc) as (Hsp & Hm & Hp & _). cbn [app ltrim] in *. rewrite Hsp.
  set (r := ds ++ 10 :: replicate n 0) in *.
  assert ((match c :: r with 45 :: s' => (true, s') | 43 :: s' => (false, s') | _ => (false, c :: r) end) = (false, c :: r)) as ->.
  { repeat (case_match; try done); congruence. }
  rewrite Es, H3, (proj2 (Z.leb_le _ _)), (proj2 (Z.ltb_lt _ _)) by lia. done.
Qed.

(** The output of lscpu when a core has [t] threads, and only that. *)
Definition lscpu_answer (a : answers) (t : Z) : Prop :=
  popen_ok a = true /\ read_fails a = false /\ pclose_ok a = true /\ lscpu a = decimal t ++ [10].

Lemma lscpu_buffer t : 0 < t < 2 ^ 31 ->
  fread_all (S (length (decimal t ++ [10]))) (decimal t ++ [10]) (replicate 80 0) = decimal t ++ 10 :: replicate (79 - length (decimal t)) 0.
Proof.
  intros Ht. assert (Hl : (length (decimal t) <= 20)%nat) by apply digits_length.
  rewrite fread_all_short by (rewrite length_app; simpl; lia). rewrite drop_replicate, length_app, <- app_assoc. simpl.
  do 3 f_equal. lia.
Qed.

(** A round trip of the process' globals: when lscpu answers with [t]
    threads per core, at most the processors there are, [initialize] returns
    with [nprocs / t] cores, the timer running and an empty pool, and
    [uninitialize] of that returns, ends the timer's thread and leaves the heap
    as it was found. *)
Theorem globals_roundtrip (a : answers) (t : Z) : lscpu_answer a t -> 0 < t <= nprocs a -> nprocs a < 2 ^ 31 ->
  exists g, initialize a = Ret g /\
    LOGIC_CPUS_CNT g = nprocs a /\ PHYSICAL_CPUS_CNT g = nprocs a / t /\ 0 < PHYSICAL_CPUS_CNT g /\
    (exists tm, g_pTimer g = Some tm /\ m_stop tm = false /\ m_pWorkThread tm = true) /\
    exists g', uninitialize g = Ret (g', Some (sys_heap a)) /\ g_pTimer g' = None /\ g_pMemPool g' = None.
Proof.
  intros (H1 & H2 & H3 & H4) Ht Hn. unfold initialize. rewrite H1, H2, H3, H4. simpl negb. cbv iota.
  rewrite lscpu_buffer, decimal_atoi by lia. cbn [obind]. rewrite (proj2 (Z.eqb_neq t 0)) by lia.
  rewrite Z.quot_div_nonneg by lia. assert (0 < nprocs a / t) by (apply Z.div_str_pos; lia).
  rewrite (proj2 (Z.eqb_neq 0 _)) by lia. eexists. split; [reflexivity|]. do 3 (split; [done|]).
  split; [eexists; split; [reflexivity|done]|]. unfold uninitialize, MemPool_delete. cbn -[init_slots table_pages MemPool_default_conf elements].
  rewrite elements_empty. cbn -[init_slots table_pages MemPool_default_conf]. rewrite !table_pages_empty.
  eexists. by split; [reflexivity|].
Qed.

(** The check for a missing answer comes after the division by it: when lscpu
    prints no number, the division is by zero. *)
Theorem lscpu_missing (a : answers) : popen_ok a = true -> read_fails a = false -> pclose_ok a = true -> lscpu a = [] ->
  initialize a = Undef "division by zero".
Proof. intros H1 H2 H3 H4. unfold initialize. rewrite H1, H2, H3, H4. reflexivity. Qed.

Definition answers0 : answers := mkAnswers 64 4096 8 true [50; 10] false true 0 ∅.

Lemma globals_roundtrip_witness : exists g, initialize answers0 = Ret g /\
  LOGIC_CPUS_CNT g = 8 /\ PHYSICAL_CPUS_CNT g = 8 / 2 /\ 0 < PHYSICAL_CPUS_CNT g /\
  (exists tm, g_pTimer g = Some tm /\ m_stop tm = false /\ m_pWorkThread tm = true) /\
  exists g', uninitialize g = Ret (g', Some ∅) /\ g_pTimer g' = None /\ g_pMemPool g' = None.
Proof. apply (globals_roundtrip answers0 2); [repeat split|simpl; lia|simpl; lia]. Defined.

End Globals.

(** ** The main function *)
Module Main.
Import Globals Services.

Definition SIGHUP : Z := 1.
Definition SIGINT : Z := 2.
Definition SIGPIPE : Z := 13.
Definition SIGALRM : Z := 14.
Definition SIGTERM : Z := 15.

Definition what_sig (sig : Z) : option string :=
  if Z.eqb sig SIGHUP then Some "SIGHUP"%string
  else if Z.eqb sig SIGINT then Some "SIGINT"%string
  else if Z.eqb sig SIGTERM then Some "SIGTERM"%string
  else if Z.eqb sig SIGPIPE then Some "SIGPIPE"%string
  else if Z.eqb sig SIGALRM then Some "SIGALRM"%string
  else None.

(** Which signals end the services. *)
Definition ends_services (sig : Z) : bool := Z.eqb sig SIGINT || Z.eqb sig SIGTERM.

(** [register_signal]: the handler is set for exactly the signals [what_sig] names. *)
Definition registered (sig : Z) : bool := match what_sig sig with Some _ => true | None => false end.

Section main.
Context (refuse : list (list Z) -> option Z).
Context (construct : Service -> outcome unit) (start stop : Service -> outcome bool).

Definition signal_handler (m : list (ServiceType * Service)) (stopped : bool) (sig : Z) : outcome bool :=
  if ends_services sig then Destroyer_Run stop m else Ret stopped.

(** [WaitAllServicesStopped] while [signals] arrive, one after the other is
    handled; those without a handler end the process. *)
Fixpoint WaitAllServicesStopped (m : list (ServiceType * Service)) (stopped : bool) (signals : list Z) : outcome unit :=
  if stopped then Ret tt
  else
    match signals with
    | [] => Abort "waits for a signal"
    | sig :: signals =>
        if registered sig then let* stopped := signal_handler m stopped sig in WaitAllServicesStopped m stopped signals
        else Abort "ended by a signal"
    end.

(** [parse] is [ParseCommandLineFlags] and [InitGoogleLogging]; [log_dir] is
    what [FLAGS_log_dir] is set to. *)
Definition init_gflags_glog (parse : outcome unit) (readable : Z) (f : gmap (list (list Z)) kind) (log_dir : list Z) : outcome (gmap (list (list Z)) kind) :=
  let* _ := parse in
  let* (f, r) := CreateDirPath refuse readable f log_dir in
  if Z.eqb (-1) r then Throw "Cannot create dir!" else Ret f.

(** [ClientRpcService] starts as its source says; the other classes are [start]. *)
Definition start_service (s : Service) : outcome bool := match s with AClientRpc => ClientRpc_Start | _ => start s end.

Definition main_body (parse : outcome unit) (readable : Z) (f : gmap (list (list Z)) kind) (log_dir : list Z) (a : answers) (signals : list Z) : outcome Z :=
  let* _ := init_gflags_glog parse readable f log_dir in
  let* g := initialize a in
  let* (m, _) := Services.Run construct start_service [] false in
  let* _ := WaitAllServicesStopped m false signals in
  let* _ := uninitialize g in
  Ret 0.

(** The stream [FLAGS_log_dir] is read from is empty.  What is thrown ends in [LOG(FATAL)]. *)
Definition main (argc : Z) (parse : outcome unit) (readable : Z) (f : gmap (list (list Z)) kind) (a : answers) (signals : list Z) : outcome Z :=
  if negb (Z.eqb argc 2) then Ret (-1)
  else match main_body parse readable f [] a signals with Throw what => Abort what | r => r end.

Lemma services_never_return : ~ returns (Services.Run construct start_service [] false).
Proof.
  intros [r H]. unfold Services.Run in H. simpl in H. unfold create_service in H.
  destruct (construct AnElectorManager), (construct AClientRpc), (construct ARaftConsensus), (construct AStateMachine); simpl in H; discriminate.
Qed.

Lemma log_dir_never_made parse readable f : ~ returns (init_gflags_glog parse readable f []).
Proof.
  intros [r H]. unfold init_gflags_glog, CreateDirPath in H. destruct parse; simpl in H; try discriminate.
  destruct (Z.ltb readable PATH_MAX); discriminate.
Qed.

(** C40.  The daemon never serves: [main] returns -1 without its argument and
    does not return with it.  The log directory it makes has an empty name, so
    that [CreateDirPath] fails and the exception ends the process; and
    whatever the directory, the services would not come up either, because the
    first one started is the client rpc service, whose [Start] is false. *)
Theorem daemon_never_serves (argc : Z) (parse : outcome unit) (readable : Z) (f : gmap (list (list Z)) kind) (a : answers) (signals log_dir : list Z) :
  (argc <> 2 -> main argc parse readable f a signals = Ret (-1)) /\
  ~ returns (main 2 parse readable f a signals) /\
  (parse = Ret tt -> PATH_MAX <= readable -> main 2 parse readable f a signals = Abort "Cannot create dir!") /\
  ~ returns (main_body parse readable f log_dir a signals).
Proof.
  assert (Hn : forall dir, ~ returns (main_body parse readable f dir a signals)).
  { intros dir [r H]. unfold main_body in H. destruct (init_gflags_glog _ _ _ _); try discriminate. destruct (initialize a); try discriminate.
    cbn [obind] in H. destruct (Services.Run construct start_service [] false) eqn:E; try discriminate. by apply services_never_return; eexists. }
  split; [|split; [|split; [|apply Hn]]].
  - intros Ha. unfold main. by rewrite (proj2 (Z.eqb_neq _ _) Ha).
  - intros [r H]. unfold main in H. simpl in H. destruct (main_body parse readable f [] a signals) eqn:E; try discriminate. apply (Hn []). by eexists.
  - intros -> Hr. unfold main, main_body, init_gflags_glog, CreateDirPath. simpl. by rewrite (proj2 (Z.ltb_ge _ _) Hr).
Qed.

(** Among signals that only are logged, the first SIGINT or SIGTERM stops every
    service, twice, and ends the wait. *)
Lemma signal_ends_wait m before sig after :
  Forall (fun s => registered s = true /\ ends_services s = false) before -> ends_services sig = true -> (forall s, returns (stop s)) ->
  WaitAllServicesStopped m false (before ++ sig :: after) = Ret tt.
Proof.
  intros Hb Hs Hstop. assert (Hd : Destroyer_Run stop m = Ret true).
  { assert (H : stop_all stop m = Ret tt); [|unfold Destroyer_Run; by rewrite H].
    induction m as [|[st s] m IH]; [done|]. simpl. destruct (Hstop s) as [b ->]. exact IH. }
  induction Hb as [|x before [Hr He] _ IH]; simpl.
  - assert (registered sig = true) as ->.
    { unfold ends_services in Hs. apply orb_true_iff in Hs as [H|H]; apply Z.eqb_eq in H as ->; reflexivity. }
    unfold signal_handler. rewrite Hs, Hd. simpl. by destruct after.
  - rewrite Hr. unfold signal_handler. rewrite He. exact IH.
Qed.

End main.

Lemma daemon_never_serves_witness :
  main (fun _ => None) (fun _ => Ret tt) (fun _ => Ret true) (fun _ => Ret true) 2 (Ret tt) 4096 ∅ answers0 [15] = Abort "Cannot create dir!".
Proof.
  apply (proj1 (proj2 (proj2 (daemon_never_serves (fun _ => None) (fun _ => Ret tt) (fun _ => Ret true) (fun _ => Ret true) 2 (Ret tt) 4096 ∅ answers0 [15] [])))); [reflexivity|].
  vm_compute. discriminate.
Defined.

End Main.

(** ** Signals against the waiting main thread *)
Module Shutdown.
Import Services Main.

(** The main thread in [WaitAllServicesStopped]: before the lock, with the lock
    at the test of the loop, in the wait, out of it before the lock is taken
    again, behind the function. *)
Inductive mphase := Entering | Checking | Sleeping | Woken | Passed.
#[export] Instance mphase_eq_dec : EqDecision mphase.
Proof. solve_decision. Defined.

(** A handler in [ServiceDestroyer::Run] for [sig] on thread [on] (the main
    thread is 0): before its lock, or with it and before the calls [todo] of
    [Stop].  [holds] are the services whose [Stop] waits for the thread as it
    was when the signal came: for a lock it held, such as the timer's, or for
    its end, if it is an event worker or a thread of a pool.  A thread under a
    handler does not go on, so these calls of [Stop] do not return before the
    handler has, whichever thread makes them; all others return.  The locks of
    the log are not modelled. *)
Inductive hphase := Locking | Stopping (todo : list ServiceType).
#[export] Instance hphase_eq_dec : EqDecision hphase.
Proof. solve_decision. Defined.
Record handler := mkHandler { sig : Z; on : nat; phase : hphase; holds : list ServiceType }.
Definition set_phase (h : handler) (ph : hphase) : handler := mkHandler (sig h) (on h) ph (holds h).

(** [handlers] are the running ones, the latest first; [stops] are the calls of
    [Stop] on the services that have returned. *)
Record process := mkProcess {
  s_mapServices : list (ServiceType * Service);
  main_at : mphase;
  s_bAllServsStopped : bool;
  handlers : list handler;
  stops : list ServiceType
}.

Definition process_new (m : list (ServiceType * Service)) : process := mkProcess m Entering false [] [].

Inductive action := Deliver (sg : Z) (t : nat) (hs : list ServiceType) | Handler (i : nat) | MainStep | Spurious.

Definition is_stopping (h : handler) : bool := match phase h with Stopping _ => true | Locking => false end.

(** How many hold [s_mtxServsLiving]. *)
Fixpoint stopping (l : list handler) : nat := match l with [] => 0 | h :: l => (if is_stopping h then 1 else 0) + stopping l end.
Definition holders (p : process) : nat := (if decide (main_at p = Checking) then 1 else 0) + stopping (handlers p).
Definition free (p : process) : bool := Nat.eqb (holders p) 0.

Definition set_main (p : process) (w : mphase) : process := mkProcess (s_mapServices p) w (s_bAllServsStopped p) (handlers p) (stops p).
Definition set_handlers (p : process) (l : list handler) : process := mkProcess (s_mapServices p) (main_at p) (s_bAllServsStopped p) l (stops p).

(** Nothing interrupted the thread: no handler of it is in [l]. *)
Definition uninterrupted (t : nat) (l : list handler) : bool := forallb (fun h => negb (Nat.eqb (on h) t)) l.

(** [Stop] of a service returns. *)
Definition returns_stop (x : ServiceType) (l : list handler) : bool := forallb (fun h => bool_decide (x ∉ holds h)) l.

(** The calls of [Stop] in the two loops of [ServiceDestroyer::Run]. *)
Definition stop_calls (p : process) : list ServiceType := (s_mapServices p).*1 ++ (s_mapServices p).*1.

(** A call of [Stop] has returned. *)
Definition stopped_one (p : process) (x : ServiceType) (l : list handler) : process :=
  mkProcess (s_mapServices p) (main_at p) (s_bAllServsStopped p) l (stops p ++ [x]).

(** The end of [ServiceDestroyer::Run]: the flag, [notify_one], the unlock. *)
Definition finish (p : process) (rest : list handler) : process :=
  mkProcess (s_mapServices p) (if decide (main_at p = Sleeping) then Woken else main_at p) true rest (stops p).

Definition handler_step (p : process) (i : nat) (h : handler) : option process :=
  let with_handler (h : handler) := take i (handlers p) ++ h :: drop (S i) (handlers p) in
  if uninterrupted (on h) (take i (handlers p)) then
    match phase h with
    | Locking => if free p then Some (set_handlers p (with_handler (set_phase h (Stopping (stop_calls p))))) else None
    | Stopping (x :: todo) => if returns_stop x (handlers p) then Some (stopped_one p x (with_handler (set_phase h (Stopping todo)))) else None
    | Stopping [] => Some (finish p (take i (handlers p) ++ drop (S i) (handlers p)))
    end
  else None.

Definition main_step (p : process) : option process :=
  if uninterrupted 0 (handlers p) then
    match main_at p with
    | Entering | Woken => if free p then Some (set_main p Checking) else None
    | Checking => Some (set_main p (if s_bAllServsStopped p then Passed else Sleeping))
    | Sleeping | Passed => None
    end
  else None.

(** A signal is not delivered to a thread that handles it. *)
Definition blocks (sg : Z) (t : nat) (h : handler) : bool := Z.eqb (sig h) sg && Nat.eqb (on h) t.

Definition act (p : process) (a : action) : option process :=
  match a with
  | Deliver sg t hs =>
      if existsb (blocks sg t) (handlers p) then None
      else if ends_services sg then Some (set_handlers p (mkHandler sg t Locking hs :: handlers p)) else Some p
  | Handler i => handlers p !! i ≫= handler_step p i
  | MainStep => main_step p
  | Spurious => match main_at p with Sleeping => Some (set_main p Woken) | _ => None end
  end.

(** A signal that ends the services does not interrupt a thread that holds the
    mutex or for which the [Stop] of a service waits. *)
Definition orderly (p : process) (a : action) : Prop :=
  match a with
  | Deliver sg t hs => ends_services sg = true ->
      (t = 0%nat -> main_at p <> Checking) /\ (forall h, h ∈ handlers p -> on h = t -> phase h = Locking) /\ hs = []
  | _ => True
  end.

Definition step (p p' : process) : Prop := exists a, orderly p a /\ act p a = Some p'.
Definition any_step (p p' : process) : Prop := exists a, act p a = Some p'.

(** A step of the program itself. *)
Definition internal (p p' : process) : Prop := (exists i, act p (Handler i) = Some p') \/ act p MainStep = Some p'.

(** ** The invariant *)

(** Only the latest handler of a thread can hold the mutex. *)
Fixpoint nested (l : list handler) : Prop :=
  match l with [] => True | h :: l => (forall x, x ∈ l -> on x = on h -> phase x = Locking) /\ nested l end.

Record inv (p : process) : Prop := mkInv {
  i_one : (holders p <= 1)%nat;
  i_nested : nested (handlers p);
  i_main : main_at p = Checking -> uninterrupted 0 (handlers p) = true;
  i_sleep : main_at p = Sleeping -> s_bAllServsStopped p = false;
  i_passed : main_at p = Passed -> s_bAllServsStopped p = true;
  i_stops : s_bAllServsStopped p = true -> stop_calls p `sublist_of` stops p;
  i_todo : forall h todo, h ∈ handlers p -> phase h = Stopping todo -> exists d, d ++ todo = stop_calls p /\ d `sublist_of` stops p;
  i_holds : forall h, h ∈ handlers p -> holds h = []
}.

Lemma stopping_app a b : stopping (a ++ b) = (stopping a + stopping b)%nat.
Proof. induction a as [|h a IH]; simpl; [done|]. rewrite IH. lia. Qed.

Lemma uninterrupted_spec t l : uninterrupted t l = true <-> forall h, h ∈ l -> on h <> t.
Proof.
  unfold uninterrupted. rewrite forallb_forall. split; intros H h Hh.
  - apply list_elem_of_In, H in Hh. by apply negb_true_iff, Nat.eqb_neq in Hh.
  - apply list_elem_of_In, H in Hh. by apply negb_true_iff, Nat.eqb_neq.
Qed.

Lemma nested_app a b : nested (a ++ b) <-> nested a /\ nested b /\ forall x y, x ∈ a -> y ∈ b -> on y = on x -> phase y = Locking.
Proof.
  induction a as [|h a IH]; simpl.
  - split; [intros H; split; [done|split; [done|]]|by intros (_ & H & _)]. intros x y Hx. by apply not_elem_of_nil in Hx.
  - rewrite IH. setoid_rewrite elem_of_app. setoid_rewrite elem_of_cons. split.
    + intros (H1 & H2 & H3 & H4). repeat split; auto. intros x y [->|Hx] Hy; eauto.
    + intros ((H1 & H2) & H3 & H4). repeat split; eauto. intros x [Hx|Hx] E; eauto.
Qed.

Lemma stopping_zero l : stopping l = 0%nat <-> forall h, h ∈ l -> phase h = Locking.
Proof.
  induction l as [|h l IH]; simpl; [split; [intros _ h Hh; by apply not_elem_of_nil in Hh|done]|].
  setoid_rewrite elem_of_cons. unfold is_stopping. split.
  - intros H x [->|Hx]; [by destruct (phase h)|]. apply IH; [lia|done].
  - intros H. rewrite (H h) by auto. apply IH. auto.
Qed.

Lemma free_spec p : free p = true <-> main_at p <> Checking /\ forall h, h ∈ handlers p -> phase h = Locking.
Proof. unfold free, holders. rewrite Nat.eqb_eq, <- stopping_zero. destruct (decide _); split; intros; [lia|tauto|split; [done|lia]|tauto]. Qed.

Lemma inv_new m : inv (process_new m).
Proof. split; simpl; try done; [unfold holders; simpl; lia|..]; intros; exfalso; by eapply not_elem_of_nil. Qed.

Lemma inv_deliver p sg t hs p' : inv p -> orderly p (Deliver sg t hs) -> act p (Deliver sg t hs) = Some p' -> inv p'.
Proof.
  intros I Ho Ha. simpl in Ha. destruct (existsb _ _); [done|]. destruct (ends_services sg) eqn:E; injection Ha as <-; [|done].
  destruct (Ho E) as (H1 & H2 & ->). destruct I as [J1 J2 J3 J4 J5 J6 J7 J8]. split; simpl; try done.
  - intros Hc. rewrite (J3 Hc), andb_true_r. apply negb_true_iff, Nat.eqb_neq. intros ->. by apply H1.
  - intros h todo [->|Hh]%elem_of_cons Hp; [done|by apply (J7 h)].
  - intros h [->|Hh]%elem_of_cons; [done|by apply J8].
Qed.

(** A handler moves on with the mutex: it is the latest one of its thread, and the only one that has the mutex. *)
Lemma inv_held p q a b h h' : inv p -> handlers p = a ++ h :: b -> handlers q = a ++ h' :: b -> (forall x, x ∈ a -> on x <> on h) ->
  on h' = on h -> holds h' = holds h -> is_stopping h' = true -> main_at p <> Checking -> (forall x, x ∈ a ++ b -> phase x = Locking) ->
  main_at q = main_at p -> s_mapServices q = s_mapServices p -> s_bAllServsStopped q = s_bAllServsStopped p -> stops p `sublist_of` stops q ->
  (forall todo, phase h' = Stopping todo -> exists d, d ++ todo = stop_calls p /\ d `sublist_of` stops q) -> inv q.
Proof.
  intros [J1 J2 J3 J4 J5 J6 J7 J8] Eh Eq Hu Eo Eho Es Hc Hl Em Emap Ef Hst Htd. assert (Esc : stop_calls q = stop_calls p) by (unfold stop_calls; by rewrite Emap).
  rewrite Eh in *. rewrite nested_app in J2. destruct J2 as (K1 & [K2 K3] & K4). split; rewrite ?Em, ?Ef, ?Esc, ?Eq; try done.
  - unfold holders. rewrite Em, Eq, (decide_False _ _ Hc), stopping_app. cbn [stopping]. rewrite Es.
    assert (stopping a = 0%nat /\ stopping b = 0%nat) as [-> ->]; [|done]. split; apply stopping_zero; intros x Hx; apply Hl, elem_of_app; auto.
  - rewrite nested_app. split; [done|]. split.
    + split; [|done]. rewrite Eo. exact K2.
    + intros x y Hx [->|Hy]%elem_of_cons Ey; [destruct (Hu x Hx); congruence|]. apply (K4 x); [done|by right|done].
  - intros H. etransitivity; [by apply J6|done].
  - intros x todo Hx Ep. rewrite elem_of_app, elem_of_cons in Hx. destruct Hx as [Hx|[->|Hx]]; [|by apply Htd|];
      (rewrite Hl in Ep; [done|apply elem_of_app; auto]).
  - intros x Hx. rewrite elem_of_app, elem_of_cons in Hx. destruct Hx as [Hx|[->|Hx]]; [|rewrite Eho|]; apply J8; rewrite elem_of_app, elem_of_cons; auto.
Qed.

(** The mutex is with the handler. *)
Lemma held_alone p a h b : (holders p <= 1)%nat -> handlers p = a ++ h :: b -> is_stopping h = true -> main_at p <> Checking /\ forall x, x ∈ a ++ b -> phase x = Locking.
Proof.
  intros J E Hs. unfold holders in J. rewrite E, stopping_app in J. cbn [stopping] in J. rewrite Hs in J. split; [intros Hc; rewrite (decide_True _ _ Hc) in J; lia|].
  apply stopping_zero. rewrite stopping_app. lia.
Qed.

Lemma inv_handler p i p' : inv p -> act p (Handler i) = Some p' -> inv p'.
Proof.
  intros I Ha. pose proof I as [J1 J2 J3 J4 J5 J6 J7 J8]. simpl in Ha. destruct (handlers p !! i) as [h|] eqn:Ei; [|done]. simpl in Ha. unfold handler_step in Ha.
  destruct (uninterrupted (on h) (take i (handlers p))) eqn:Eu; [|done]. rewrite uninterrupted_spec in Eu.
  pose proof (eq_sym (take_drop_middle _ _ _ Ei)) as Es. set (a := take i (handlers p)) in *. set (b := drop (S i) (handlers p)) in *.
  assert (Hh : h ∈ handlers p) by (rewrite Es, elem_of_app, elem_of_cons; auto). destruct (phase h) as [|[|x todo]] eqn:Ep.
  - destruct (free p) eqn:Ef; [|done]. injection Ha as <-. apply free_spec in Ef as [Hc Hl].
    eapply (inv_held p _ a b h); try done; [intros x Hx; apply Hl; rewrite Es, elem_of_app, elem_of_cons; apply elem_of_app in Hx; tauto|].
    intros todo [= <-]. exists []. split; [done|apply sublist_nil_l].
  - injection Ha as <-. destruct (held_alone p a h b J1 Es) as [Hnc Hl]; [unfold is_stopping; by rewrite Ep|].
    destruct (J7 h [] Hh Ep) as (d & Ed & Hd). rewrite app_nil_r in Ed. subst d. rewrite Es, nested_app in J2. destruct J2 as (K1 & [K2 K3] & K4). split; simpl; try done.
    + unfold holders. cbn [main_at handlers finish]. rewrite (proj2 (stopping_zero (a ++ b)) Hl). destruct (decide (main_at p = Sleeping)); [rewrite decide_False by done; lia|]. rewrite (decide_False _ _ Hnc). lia.
    + rewrite nested_app. split; [done|]. split; [done|]. intros x y Hx Hy. apply K4; [done|by right].
    + by destruct (decide (main_at p = Sleeping)).
    + by destruct (decide (main_at p = Sleeping)).
    + intros x todo Hx Epx. rewrite Hl in Epx by done. done.
    + intros x Hx. apply J8. rewrite Es, elem_of_app, elem_of_cons. apply elem_of_app in Hx. tauto.
  - destruct (returns_stop x (handlers p)); [|done]. injection Ha as <-. destruct (held_alone p a h b J1 Es) as [Hnc Hl]; [unfold is_stopping; by rewrite Ep|].
    destruct (J7 h _ Hh Ep) as (d & Ed & Hd). eapply (inv_held p _ a b h); try done; [by apply sublist_inserts_r|].
    intros td [= <-]. exists (d ++ [x]). split; [by rewrite <- app_assoc|]. by apply sublist_app.
Qed.

Lemma inv_main p p' : inv p -> act p MainStep = Some p' -> inv p'.
Proof.
  intros [J1 J2 J3 J4 J5 J6 J7 J8] Ha. simpl in Ha. unfold main_step in Ha. destruct (uninterrupted 0 (handlers p)) eqn:Eu; [|done].
  unfold holders in J1. destruct (main_at p) eqn:Em; try done; [destruct (free p) eqn:Ef; [|done]| |destruct (free p) eqn:Ef; [|done]]; injection Ha as <-.
  1, 3: apply free_spec in Ef as [_ Ef]; apply stopping_zero in Ef; split; try done; unfold holders; simpl; rewrite Ef; done.
  split; simpl; try done; unfold holders; simpl; destruct (s_bAllServsStopped p) eqn:E; simpl in *; try done; lia.
Qed.

Lemma process_inv_step p p' : inv p -> step p p' -> inv p'.
Proof.
  intros I (a & Ho & Ha). destruct a as [sg t hs|i| |]; [by eapply inv_deliver|by eapply inv_handler|by eapply inv_main|].
  simpl in Ha. destruct (main_at p) eqn:Em; try done. injection Ha as <-. destruct I as [J1 J2 J3 J4 J5 J6 J7 J8].
  split; simpl; try done. unfold holders in *. rewrite Em in J1. simpl in *. exact J1.
Qed.

Lemma inv_internal p p' : inv p -> internal p p' -> inv p'.
Proof. intros I [[i H]|H]; (eapply process_inv_step; [exact I|]); [exists (Handler i)|exists MainStep]; done. Qed.

(** ** Progress and termination *)

Lemma handler_moves p i h : inv p -> handlers p !! i = Some h -> uninterrupted (on h) (take i (handlers p)) = true ->
  (phase h = Locking -> free p = true) -> exists p', internal p p'.
Proof.
  intros I Ei Eu Hf. assert (exists p', act p (Handler i) = Some p') as [p' H]; [|exists p'; left; by exists i].
  simpl. rewrite Ei. simpl. unfold handler_step. rewrite Eu. destruct (phase h) as [|[|x todo]]; [rewrite Hf by done; by eexists|by eexists|].
  assert (returns_stop x (handlers p) = true) as ->; [|by eexists]. apply forallb_forall. intros y Hy%list_elem_of_In.
  rewrite (i_holds p I y Hy). by apply bool_decide_eq_true, not_elem_of_nil.
Qed.

(** Once a signal has come, there is a step until the main thread is through. *)
Lemma shutdown_moves p : inv p -> main_at p <> Passed -> handlers p <> [] \/ s_bAllServsStopped p = true -> exists p', internal p p'.
Proof.
  intros I Hp Hs. pose proof I as [J1 J2 J3 J4 _ _ _ _]. destruct (free p) eqn:Ef.
  - destruct (handlers p) as [|h l] eqn:Eh.
    + destruct Hs as [?|Hs]; [done|]. assert (exists p', act p MainStep = Some p') as [p' H]; [|exists p'; by right].
      simpl. unfold main_step. rewrite Eh, Ef. simpl. destruct (main_at p) eqn:Em; [by eexists|by eexists| |by eexists|done]. rewrite J4 in Hs by done. done.
    + apply (handler_moves p 0 h); [done|by rewrite Eh|done|done].
  - destruct (decide (main_at p = Checking)) as [Hc|Hc].
    + exists (set_main p (if s_bAllServsStopped p then Passed else Sleeping)). right. simpl. unfold main_step. by rewrite (J3 Hc), Hc.
    + assert (exists h, h ∈ handlers p /\ phase h <> Locking) as (h & Hh & Eh).
      { destruct (decide (Exists (fun h => phase h <> Locking) (handlers p))) as [He|He]; [by apply Exists_exists in He|].
        assert (free p = true); [|congruence]. apply free_spec. split; [done|]. intros h Hh. destruct (decide (phase h = Locking)) as [|E]; [done|].
        destruct He. apply Exists_exists. eauto. }
      apply list_elem_of_lookup in Hh as [i Ei]. apply (handler_moves p i h); [done|done| |congruence].
      apply uninterrupted_spec. intros x Hx E. rewrite <- (take_drop_middle _ _ _ Ei), nested_app in J2. destruct J2 as (_ & _ & J2).
      rewrite (J2 x h) in Eh; [done|done|left|done].
Qed.

Definition main_weight (w : mphase) : nat := match w with Entering | Woken => 2 | Checking => 1 | Sleeping | Passed => 0 end.
(** The steps a handler has to take when the services get [n] calls of [Stop]. *)
Definition handler_weight (n : nat) (h : handler) : nat := match phase h with Locking => 4 + n | Stopping todo => 3 + length todo end.
Fixpoint weight (n : nat) (l : list handler) : nat := match l with [] => 0 | h :: l => handler_weight n h + weight n l end.
Definition measure (p : process) : nat := (main_weight (main_at p) + weight (length (stop_calls p)) (handlers p))%nat.

Lemma weight_app n a b : weight n (a ++ b) = (weight n a + weight n b)%nat.
Proof. induction a as [|h a IH]; simpl; [done|]. rewrite IH. lia. Qed.

Lemma internal_decreases p p' : internal p p' -> (measure p' < measure p)%nat.
Proof.
  unfold measure. intros [[i Ha]|Ha]; simpl in Ha.
  - destruct (handlers p !! i) as [h|] eqn:Ei; [|done]. simpl in Ha. unfold handler_step in Ha. destruct (uninterrupted _ _); [|done].
    assert (Hw : forall n, weight n (handlers p) = (weight n (take i (handlers p)) + (handler_weight n h + weight n (drop (S i) (handlers p))))%nat).
    { intros n. by rewrite <- (take_drop_middle _ _ _ Ei) at 1; rewrite weight_app. }
    rewrite Hw. unfold handler_weight at 1. destruct (phase h) as [|[|x todo]].
    + destruct (free p); [|done]. injection Ha as <-. unfold stop_calls. simpl. rewrite weight_app. simpl. lia.
    + injection Ha as <-. unfold stop_calls. simpl. rewrite weight_app. destruct (decide _) as [E|]; [rewrite E|]; simpl; lia.
    + destruct (returns_stop _ _); [|done]. injection Ha as <-. unfold stop_calls. simpl. rewrite weight_app. simpl. lia.
  - unfold main_step in Ha. destruct (uninterrupted _ _); [|done].
    destruct (main_at p); try done; try (destruct (free p); [|done]); injection Ha as <-; unfold stop_calls; simpl; try lia. destruct (s_bAllServsStopped p); simpl; lia.
Qed.

Lemma internal_bounded n p p' : nsteps internal n p p' -> (n + measure p' <= measure p)%nat.
Proof. induction 1 as [|n p q r H _ IH]; [done|]. apply internal_decreases in H. lia. Qed.

(** A signal that came is not forgotten. *)
Lemma signalled_internal p p' : internal p p' -> handlers p <> [] \/ s_bAllServsStopped p = true -> handlers p' <> [] \/ s_bAllServsStopped p' = true.
Proof.
  intros [[i Ha]|Ha] Hs; simpl in Ha.
  - destruct (handlers p !! i) as [h|]; [|done]. simpl in Ha. unfold handler_step in Ha. destruct (uninterrupted _ _); [|done].
    destruct (phase h) as [|[|x todo]]; [destruct (free p); [|done]| |destruct (returns_stop _ _); [|done]]; injection Ha as <-; simpl; [|by right|];
      left; intros E; by apply app_eq_nil in E as [_ E].
  - unfold main_step in Ha. destruct (uninterrupted _ _); [|done]. destruct (main_at p); try done; try (destruct (free p); [|done]); by injection Ha as <-.
Qed.

Lemma services_kept p p' : step p p' -> s_mapServices p' = s_mapServices p.
Proof.
  intros (a & _ & Ha). destruct a as [sg t hs|i| |]; simpl in Ha.
  - destruct (existsb _ _); [done|]. destruct (ends_services sg); by injection Ha as <-.
  - destruct (handlers p !! i) as [h|]; [|done]. simpl in Ha. unfold handler_step in Ha. destruct (uninterrupted _ _); [|done].
    destruct (phase h) as [|[|x todo]]; [destruct (free p); [|done]| |destruct (returns_stop _ _); [|done]]; by injection Ha as <-.
  - unfold main_step in Ha. destruct (uninterrupted _ _); [|done]. destruct (main_at p); try done; try (destruct (free p); [|done]); by injection Ha as <-.
  - destruct (main_at p); try done. by injection Ha as <-.
Qed.


(** ** The window *)

Definition stuck (p : process) : Prop :=
  main_at p = Checking /\ s_bAllServsStopped p = false /\ uninterrupted 0 (handlers p) = false /\ forall h, h ∈ handlers p -> phase h = Locking.

Lemma stuck_step p p' : stuck p -> any_step p p' -> stuck p'.
Proof.
  intros (H1 & H0 & H2 & H3) [a Ha]. assert (Hf : free p = false).
  { destruct (free p) eqn:E; [|done]. apply free_spec in E as [E _]. done. }
  destruct a as [sg t hs|i| |]; simpl in Ha.
  - destruct (existsb _ _); [done|]. destruct (ends_services sg); injection Ha as <-; [|done]. split; [done|]. split; [done|]. simpl. split; [by rewrite H2, andb_false_r|].
    intros h Hh. apply elem_of_cons in Hh as [->|Hh]; auto.
  - destruct (handlers p !! i) as [h|] eqn:Ei; [|done]. simpl in Ha. unfold handler_step in Ha. destruct (uninterrupted (on h) _); [|done].
    rewrite (H3 h) in Ha by (by eapply list_elem_of_lookup_2). by rewrite Hf in Ha.
  - unfold main_step in Ha. by rewrite H2 in Ha.
  - by rewrite H1 in Ha.
Qed.

(** A signal that interrupts the main thread between its lock and its wait locks
    the daemon up for ever, whatever happens then: the handler waits for the
    mutex of the thread it interrupted. *)
Theorem signal_in_window (m : list (ServiceType * Service)) : exists p,
  rtc any_step (process_new m) p /\ handlers p = [mkHandler SIGTERM 0 Locking []] /\
  forall p', rtc any_step p p' -> main_at p' <> Passed /\ s_bAllServsStopped p' = false.
Proof.
  exists (mkProcess m Checking false [mkHandler SIGTERM 0 Locking []] []). split.
  - eapply rtc_l; [by exists MainStep|]. eapply rtc_l; [by exists (Deliver SIGTERM 0 [])|]. apply rtc_refl.
  - split; [done|]. intros p' Hr.
    assert (stuck p') as (H & Hs & _); [|split; [congruence|done]].
    apply (rtc_invariant any_step stuck (mkProcess m Checking false [mkHandler SIGTERM 0 Locking []] [])); [apply stuck_step| |exact Hr].
    do 3 (split; [done|]). intros h Hh. by apply list_elem_of_singleton in Hh as ->.
Qed.

(** A thread that the [Stop] of [x] waits for is under a handler, and no handler is past [Stop] of [x]. *)
Definition awaited (x : ServiceType) (p : process) : Prop :=
  x ∈ (s_mapServices p).*1 /\ main_at p <> Passed /\ s_bAllServsStopped p = false /\ (exists h, h ∈ handlers p /\ x ∈ holds h) /\
  forall h todo, h ∈ handlers p -> phase h = Stopping todo -> x ∈ todo.

(** Replacing the phase of a handler keeps who is awaited. *)
Lemma awaited_phase x p q a b h ph : awaited x p -> handlers p = a ++ h :: b -> handlers q = a ++ set_phase h ph :: b ->
  main_at q = main_at p -> s_mapServices q = s_mapServices p -> s_bAllServsStopped q = s_bAllServsStopped p ->
  (forall todo, ph = Stopping todo -> x ∈ todo) -> awaited x q.
Proof.
  intros (H1 & H2 & H3 & (y & Hy & Hx) & H4) Eh Eq Em Emap Ef Hph. unfold awaited. rewrite Em, Emap, Ef, Eq. rewrite Eh in Hy, H4.
  do 3 (split; [done|]). split.
  - rewrite elem_of_app, elem_of_cons in Hy. destruct Hy as [Hy|[->|Hy]]; [exists y|exists (set_phase h ph)|exists y];
      (split; [rewrite elem_of_app, elem_of_cons; auto|done]).
  - intros z todo Hz Ez. rewrite elem_of_app, elem_of_cons in Hz. destruct Hz as [Hz|[->|Hz]]; [|by apply Hph|];
      apply (H4 z); rewrite ?elem_of_app, ?elem_of_cons; auto.
Qed.

Lemma awaited_step x p p' : awaited x p -> any_step p p' -> awaited x p'.
Proof.
  intros Hw [a Ha]. pose proof Hw as (H1 & H2 & H3 & (y & Hy & Hx) & H4). destruct a as [sg t hs|i| |]; simpl in Ha.
  - destruct (existsb _ _); [done|]. destruct (ends_services sg); injection Ha as <-; [|done]. do 3 (split; [done|]). split.
    + exists y. split; [by right|done].
    + intros h todo [->|Hh]%elem_of_cons; [done|by apply H4].
  - destruct (handlers p !! i) as [h|] eqn:Ei; [|done]. simpl in Ha. unfold handler_step in Ha. destruct (uninterrupted (on h) _); [|done].
    pose proof (eq_sym (take_drop_middle _ _ _ Ei)) as Es. assert (Hh : h ∈ handlers p) by (by eapply list_elem_of_lookup_2).
    destruct (phase h) as [|[|z todo]] eqn:Ep.
    + destruct (free p); [|done]. injection Ha as <-. eapply awaited_phase; try done. intros todo [= <-]. apply elem_of_app. by left.
    + apply (H4 h [] Hh) in Ep. by apply elem_of_nil in Ep.
    + destruct (returns_stop z (handlers p)) eqn:Er; [|done]. injection Ha as <-. eapply awaited_phase; try done. intros td [= <-].
      apply (H4 h _ Hh) in Ep. apply elem_of_cons in Ep as [->|]; [|done]. exfalso. unfold returns_stop in Er. rewrite forallb_forall in Er.
      apply list_elem_of_In, Er in Hy. by apply bool_decide_eq_true in Hy.
  - unfold main_step in Ha. destruct (uninterrupted _ _); [|done].
    destruct (main_at p) eqn:Em; try done; try (destruct (free p); [|done]); injection Ha as <-; (split; [done|split; [simpl; rewrite ?H3; done|by eauto]]).
  - destruct (main_at p) eqn:Em; try done. injection Ha as <-. split; [done|]. split; [done|by eauto].
Qed.

(** A signal on a thread that the [Stop] of a service waits for, an event worker
    or a thread that holds the timer's lock, locks the daemon up as well: that
    call of [Stop] waits for the thread, and the thread for its handler. *)
Theorem signal_on_waited_thread (m : list (ServiceType * Service)) (x : ServiceType) (t : nat) : x ∈ m.*1 ->
  exists p, rtc any_step (process_new m) p /\ handlers p = [mkHandler SIGTERM t Locking [x]] /\
  forall p', rtc any_step p p' -> main_at p' <> Passed /\ s_bAllServsStopped p' = false.
Proof.
  intros Hx. exists (mkProcess m Entering false [mkHandler SIGTERM t Locking [x]] []). split; [by eapply rtc_l; [by exists (Deliver SIGTERM t [x])|apply rtc_refl]|].
  split; [done|]. intros p' Hr. assert (awaited x p') as (_ & H & H' & _); [|done].
  apply (rtc_invariant any_step (awaited x) (mkProcess m Entering false [mkHandler SIGTERM t Locking [x]] [])); [apply awaited_step| |exact Hr].
  do 3 (split; [done|]). split; [eexists; split; [by left|by left]|]. intros h todo Hh. by apply list_elem_of_singleton in Hh as ->.
Qed.

(** The main thread sleeps, and SIGTERM comes on another thread. *)
Definition p1 : process := mkProcess [(RaftConsensus, ARaftConsensus)] Sleeping false [mkHandler SIGTERM 3 Locking []] [].

End Shutdown.
