(* ===== verification/UnitTests.v ===== *)
(** * UnitTests: the repository's unit tests, run on the model

    Models the tests of src/src/unit-test/ccsys/main.cc and
    src/src/unit-test/common/main.cc whose subjects the other files model: each
    is a definition that returns what the test compares, and the theorems say
    that the comparisons hold.  The test of the memory pool has PoolTest.v. *)

From S2P Require Import Prelude Hash Locks Timer Queues PoolWait ServerConf.

(** ** ccsys *)

(** A method of a spin lock object up to its return: [TryLock] takes one step of
    the thread, [Unlock] two. *)
Definition try_lock (w : Z) (o : SpinLock.SpinLock) : outcome (Z * SpinLock.SpinLock * bool) :=
  let* o := SpinLock.TryLock o in
  let '(w, o) := SpinLock.advance w o in Ret (w, o, SpinLock.m_bOwnLock o).

Definition unlock (w : Z) (o : SpinLock.SpinLock) : outcome (Z * SpinLock.SpinLock) :=
  let* o := SpinLock.Unlock o in
  let '(w, o) := SpinLock.advance w o in
  let '(w, o) := SpinLock.advance w o in Ret (w, o).

(** The results of the three [TryLock]s. *)
Definition SpinLockTest : outcome (bool * bool * bool) :=
  let* (l, sl, b1) := try_lock UNLOCKED SpinLock.SpinLock_defer in
  let* (l, sl2, b2) := try_lock l SpinLock.SpinLock_defer in
  let* (l, sl) := unlock l sl in
  let* (l, sl3, b3) := try_lock l SpinLock.SpinLock_defer in
  Ret (b1, b2, b3).

Example spin_lock_test : SpinLockTest = Ret (true, false, true).
Proof. reflexivity. Qed.

(** [now] is the clock at each subscription; [cb] the address of the callback. *)
Fixpoint subscribe_all (now : nat -> cctime) (cb : Z) (t : Timer) (i test_cnt : nat) : outcome Timer :=
  match test_cnt with
  | O => Ret t
  | S n =>
      let* (t, _) := SubscribeEventAfter (now i) t (mkTime (1 * (Z.of_nat i + 1)) 0) (mkEvent 0 cb) in
      subscribe_all now cb t (S i) n
  end.

(** The events that wait once the loop has ended, and those a turn of the
    timer's thread at the time [late] fires. *)
Definition TimerTest (now : nat -> cctime) (cb : Z) (late : cctime) : outcome (nat * nat) :=
  let* t := Timer.Start Timer_new in
  let* t := subscribe_all now cb t 0 5 in
  let* (_, fired, _) := process_turn (fun _ => late) (fun _ _ => Ret tt) t in
  Ret (length (m_mapSubscribedEvents t), length fired).

Example timer_test : TimerTest (fun i => mkTime 100 (Z.of_nat i)) 77 (mkTime 106 0) = Ret (5%nat, 5%nat).
Proof. vm_compute. reflexivity. Qed.

Section random.
Context {G : Type} (srand : Z -> G) (rand : G -> G * Z).

(** The two values of the generators with one seed, and the two values of a
    range drawn at the time of day [tv_sec], [tv_usec]. *)
Definition RandomTest (tv_sec tv_usec : Z) : outcome (Z * Z * Z * Z) :=
  let '(g, r1) := Random_seed srand 5 in
  let '(g, rs1) := Random_GetNew rand g r1 in
  let '(g, r2) := Random_seed srand 5 in
  let '(g, rs2) := Random_GetNew rand g r2 in
  let* r := Range_new 1 5 in
  let '(g, r3) := Random_range srand tv_sec tv_usec r in
  let '(g, x) := Random_GetNew rand g r3 in
  let '(g, y) := Random_GetNew rand g r3 in
  Ret (rs1, rs2, x, y).

(** Two objects with one seed draw the same first value, and a range of [1] to
    [5] gives values of it, whatever the generator. *)
Lemma random_test_passes tv_sec tv_usec : (forall g, 0 <= (rand g).2) ->
  exists rs1 rs2 x y, RandomTest tv_sec tv_usec = Ret (rs1, rs2, x, y) /\ rs1 = rs2 /\ x <= 5 /\ 1 <= y.
Proof.
  intros Hr. unfold RandomTest, Random_seed, Random_range, Random_GetNew. pose proof (Hr (srand 5)) as H1.
  destruct (rand (srand 5)) as [g a]. cbn [obind Range_new Z.ltb Z.compare andb Pos.compare Pos.compare_cont CompOpp].
  pose proof (Hr (init_ts_seed srand tv_sec tv_usec)) as H2. destruct (rand (init_ts_seed srand tv_sec tv_usec)) as [g1 b].
  pose proof (Hr g1) as H3. destruct (rand g1) as [g2 c]. cbn [snd] in *.
  eexists _, _, _, _. split; [reflexivity|]. split; [done|]. unfold GetNew. change (check_range (mkRange 1 5)) with true. cbn [start end_]. change (5 - 1) with 4.
  pose proof (Z.rem_bound_pos b 4 H2 ltac:(lia)). pose proof (Z.rem_bound_pos c 4 H3 ltac:(lia)). lia.
Qed.

End random.

(** [ThreadPoolTest]: a hundred tasks are added and the client waits. *)
Definition ThreadPoolTest (nprocs : Z) : ThreadPool.ThreadPool :=
  foldl ThreadPool.AddTask (ThreadPool.new 0 nprocs) (seqZ 0 100).

Lemma test_tasks nprocs ts : forall s, ThreadPool.reachable 0 nprocs s -> ThreadPool.m_bStopping s = false ->
  let s' := foldl ThreadPool.AddTask s ts in
  ThreadPool.reachable 0 nprocs s' /\ ThreadPool.m_bStopping s' = false /\ ThreadPool.added s' = ThreadPool.added s ++ ts.
Proof.
  induction ts as [|t ts IH]; intros s Hr Hb; cbn [foldl]; [by rewrite app_nil_r|].
  destruct (IH (ThreadPool.AddTask s t)) as (H1 & H2 & H3); [|done|].
  - eapply rtc_r; [exact Hr|]. by apply ThreadPool.step_add.
  - split; [done|]. split; [done|]. rewrite H3. cbn. by rewrite <- app_assoc.
Qed.

(** ** common *)

(** The two hashes the test compares. *)
Definition HashTest (m : mem) (key : Z) : outcome (Z * Z) :=
  let* hashcode1 := MurmurHash3_x86_32 m key 8 22 in
  let* hashcode2 := MurmurHash3_x86_32 m key 8 22 in
  Ret (hashcode1, hashcode2).

(** The files beside the test. *)
Definition lines (l : list string) : list Z := l ≫= (fun s => string_bytes s ++ [10]).
Definition test_servers_ok : list Z :=
  lines ["# abc"; "## asdf"; "   # ddd"; ""; "8888 localhost 99 88"; "1 pp 1 1"; "2 192.168.1.1 79 77"; ""; "##"]%string.
Definition test_servers_err : list (list Z) :=
  [string_bytes "mo bike 8 9"; string_bytes "o f o"; string_bytes "8 90 1"; string_bytes "d 7 9"].

(** One configuration object reads the files in turn. *)
Fixpoint read_files (rfc : RfServerConfiguration) (files : list (list Z)) : outcome (list bool) :=
  match files with
  | [] => Ret []
  | f :: files => let* (rfc, b) := Initialize 1 (Some f) rfc in let* bs := read_files rfc files in Ret (b :: bs)
  end.

Definition ConfigurationTest : outcome (list bool) := read_files Configuration_new (test_servers_ok :: test_servers_err).

(** The tests of the two libraries pass on the model: the hash of the key is
    positive and repeatable wherever the key lies, the good configuration file
    is read and the four bad ones are refused by the same object, the locks
    answer as expected, and the hundred tasks of the thread pool are all
    finished when no worker can go on, which takes a bounded number of steps. *)
Theorem unit_tests_pass (m : mem) (key nprocs : Z) : bytes_at m key (string_bytes "hashtest") -> 0 < nprocs < 2 ^ 31 ->
  (exists h, HashTest m key = Ret (h, h) /\ 0 < h) /\
  ConfigurationTest = Ret [true; false; false; false; false] /\
  SpinLockTest = Ret (true, false, true) /\
  forall s, rtc PoolWait.worker_step (ThreadPoolTest nprocs) s -> (forall s', ~ PoolWait.worker_step s s') ->
    ThreadPool.finished s ≡ₚ seqZ 0 100 /\ ThreadPool.WaitAll_done s = true.
Proof.
  intros Hm Hn. split; [|split; [vm_compute; reflexivity|split; [reflexivity|]]].
  - exists (murmur32 (string_bytes "hashtest") 22). split; [|vm_compute; reflexivity].
    assert (E : MurmurHash3_x86_32 m key 8 22 = Ret (murmur32 (string_bytes "hashtest") 22)).
    { apply (murmur32_run m key 22 (string_bytes "hashtest")); [|done]. vm_compute. repeat constructor; discriminate. }
    unfold HashTest. by rewrite E.
  - intros s Hs Hq. destruct (test_tasks nprocs (seqZ 0 100) (ThreadPool.new 0 nprocs)) as (Hr & Hb & Ha); [apply rtc_refl|done|].
    destruct (PoolWait.drained 0 nprocs (ThreadPoolTest nprocs) Hr Hb) with (s' := s) as (H1 & H2 & H3); [|done|done|].
    + unfold ThreadPool.threads_count. cbn. rewrite u32_id by (unfold in_u; lia). lia.
    + split; [|done]. rewrite <- H1, H2. unfold ThreadPoolTest. rewrite Ha. cbn [ThreadPool.new ThreadPool.added app]. done.
Qed.

Lemma unit_tests_pass_witness : exists h, HashTest (bytes_mem 64 (string_bytes "hashtest")) 64 = Ret (h, h) /\ 0 < h.
Proof.
  refine (proj1 (unit_tests_pass (bytes_mem 64 (string_bytes "hashtest")) 64 4 _ _)).
  - apply fill_bytes_at.
  - lia.
Defined.
